(* ===== verification/_CoqProject ===== *)
-Q . S2P
Prelude.v
Allocator.v
UnitTests.v
Mutex.v
BitField.v
Mapper.v
Boot.v
Trb.v
CycleRing.v
Rings.v
ReportRing.v
EventRing.v
Descriptor.v
UsbHost.v
InputDriver.v
Hub.v
ClassDrivers.v
Log.v
Font.v
Pixels.v
Console.v
Layer.v
Graphics.v
Loader.v
Lifegame.v
Pci.v
Msi.v
Executor.v
FutureTests.v
LifeTask.v
Callbacks.v
Port.v
EndpointId.v
Xhc.v
Device.v
DeviceInit.v
DeviceManager.v
Controller.v
Ticks.v
CallbackInv.v
XhcSim.v
Reports.v
ControllerInv.v
PortTurns.v
DeviceTransfer.v
Startup.v
HostController.v
Kernel.v
KernelInv.v
Typing.v
Clicking.v
