(* ===== verification/Prelude.v ===== *)
(** * lemola_osv2: a verification of the kernel, its drivers and its boot loader

    The program is an operating system in Rust.  Its boot loader ([src/bootloader]) loads the
    kernel's image and hands it a memory map.  The kernel ([src/kernel], with the parts that do not
    depend on the machine in [src/kernel-lib]) draws on the frame buffer, finds an xHCI controller
    on the PCI bus, drives the USB keyboards, mice and hubs behind it, and runs two tasks: one polls
    the controller, the other is a game of life that can be clicked on.  [src/gen_font] makes the
    font, [src/common] has the types that the loader and the kernel share.

    The definitions are the functions of the source in their order, with the names they have
    there; the types of the machine are integers [Z], kept at their width where the source computes
    with them ([add_w], [sub_w], [mul_w], [cast] below: the profile of the build checks for
    overflow, so an overflow is a panic).  A call returns an [outcome]: a value, a panic, or no
    answer because a loop of the model ran out of fuel.

    ** The parts and their files

    - Memory.  [Allocator]: the bump and the fixed-length allocator behind one interface
      ([BoundaryAlloc], with the promise [BoundaryAllocSpec]), the helpers over it and the allocator
      of the kernel.  [Mutex]: the lock that remembers who asked for it.
    - Boot.  [Boot]: the segments of the kernel's image in memory, the memory map, the heap.
      [Loader]: the boot loader on any firmware.
    - Words.  [BitField]: the interface of the [bit_field] crate, its laws and a reference
      implementation.
    - PCI.  [Pci]: the two ports, the recursive scan, the base address registers.  [Msi]: the walk
      of the capabilities and the programming of the message signalled interrupts.
    - Rings.  [Trb]: the blocks in a ring and the interface [TrbLib] of the crate that builds them.
      [CycleRing]: the cycle-bit protocol of a producer and a consumer.  [Rings]: the transfer and
      the command ring, which refine a queue.  [ReportRing]: the ring of an interrupt endpoint, whose
      blocks go round between the controller and the driver.  [EventRing]: the event ring, the futures that wait
      for one event, the queue of user events.
    - The controller.  [Port]: the phases of a port and its reset.  [Xhc]: what the handlers share.
      [Device], [DeviceInit], [DeviceManager]: a device with its contexts and rings, its
      initialisation, the table of the devices.  [EndpointId]: the numbers of endpoints and routes.
      [Controller]: the handlers of the events, a turn of the polling task and the ticks of the
      drivers.  [Startup]: the start, from the scan of the bus to the configured ports.
    - Class drivers.  [UsbHost]: the interface [USBHost] between a driver and its host, and the
      effect of a driver's code.  [InputDriver]: keyboards and mice.  [Hub]: hubs.  [ClassDrivers]:
      the manager.  [Descriptor]: the descriptors and the search for a boot device.  [Callbacks]:
      what keys and movements do to the screen and the game.
    - The screen.  [Pixels]: colours, shapes, the frame buffer, behind the interface [PixelWriter].
      [Font]: the macro that makes the glyphs.  [Console]: the text console.  [Layer]: windows and
      their stack.  [Log]: the text of log messages and the serial port.  [Graphics]: the statics of
      the outputs on the one screen, the macros that print, the logger.
    - Tasks.  [Executor]: the futures and the executor.  [Lifegame]: the game.  [LifeTask]: the task
      of the game among others.
    - The kernel.  [Kernel]: [kernel_main2] from the argument of the loader to the executor, the
      interrupts, the polling task as a future whose callbacks type and click, and the game beside
      it.  [Mapper]: the memory mapper behind the interface by which the [xhci] crate asks for the
      registers.

    - Tests.  [UnitTests] and [FutureTests]: the unit tests of the allocators and of the futures, with
      the random numbers as arguments.

    Two files are worlds that the drivers are run in: [XhcSim], a controller that executes the
    blocks in the rings and has two keyboards behind it, and [HostController], the registers of a
    controller with any latencies.  [ControllerInv], [PortTurns], [DeviceTransfer], [Reports] and
    [Ticks] have the theorems about the handlers; [CallbackInv] shows that they change what the
    callbacks work on by calls of the callbacks only, [KernelInv] what holds of the whole kernel, and
    [Typing] and [Clicking] follow a key from the ring of its keyboard to the screen and a click from
    the ring of its mouse to the board of the game.

    The parts are composed the way the program composes them: the loader's memory map is what the
    kernel's start reads; the polling task is a future on the controller, whose callbacks work on the
    console, the layers and the clicks; the game is a future on the layers and the clicks; the
    executor polls both.

    ** What is shown

    - Refinement of a specification: both allocators refine the abstract one, which never gives out
      a byte twice ([bump_refines_allocator], [fixed_refines_allocator]); the rings refine a queue
      ([transfer_ring_fifo], [command_ring_fifo]) and a push is atomic for the controller
      ([transfer_push_atomic]); the console refines a terminal ([console_refines]); the layers are
      composed in the order of the stack in the rows before the width of the screen, the only ones that
      are drawn ([flush_composes]); the game follows Conway's rule
      ([process_round_conway]).
    - Invariants: the slots recorded for the ports are those with a device
      ([slot_table_consistent]); as long as no device is behind a hub, one root port at a time is
      between its reset and its address ([one_port_at_a_time]); every event is delivered once ([event_ring_conserves]); the layers
      stay well formed ([layer_stack_order]).
    - Types: whatever the hardware does and whatever is typed and clicked, in every state of the kernel
      its tasks, tables, layers and clicks fit together, so that the game only can fail where it
      draws the layers ([kernel_keeps_types]).
    - Order and state machines: the requests of an enumeration ([enumeration_in_order]), the
      ports of a hub ([hub_ports_once], [hub_port_sequence]), the accesses of a port reset
      ([reset_port_at_exact]), the turns of the tasks ([executor_round_robin]).
    - What is done, on every branch: the boot loader ([loader_starts_kernel]), the descriptors, the
      pixels, the glyphs, the capabilities of a device, the endpoint numbers, the messages of the log
      ([log_reaches_outputs]), the history of a lock, also when calls mix ([lock_history_exact],
      [history_interleaved]).
    - The way of the input: the reports of a keyboard or a mouse reach its callback once, unchanged
      and in order, whenever the controller goes through the link of its ring; a report is refused only
      when no buffer is left, or when the driver has given back all of them while the controller stood
      in front of the link ([reports_in_order], [link_overtakes]).  With the kernel's callback, the text
      of the keys in its tables comes to the console, whatever else the kernel does that types nothing
      ([typing_reaches_console]); with the mouse's, each click brings its cell on
      the board to life once, in order, between the generations ([clicking_reaches_board]).
    - Errors: a descriptor is asked for again until an attempt succeeds ([request_descriptor_retries]),
      a control transfer reports the event of its own blocks ([control_transfer_reports]).
    - Termination and liveness: the scan of the bus ([scan_all_bus_exact]), the reset and
      the start of the controller ([driver_starts_controller]), a compliant keyboard and a compliant hub come to
      their running state ([enumeration_reaches_running], [hub_all_ports]), tasks complete
      ([executor_completes]).

    - The repository's own tests: the random tests of the allocators pass for all numbers drawn but one
      case, in which the test itself panics ([alloc_huge_times_outcome]), because they check no more
      than [BoundaryAllocSpec] promises; what the vectors hold is there when it is read
      ([alloc_huge_times_with_value_passes]); the tests of the futures pass ([future_tests_pass]); one
      test depends on the address of its array ([boundary_test_depends]).

    A theorem about code that calls a crate has the crate's operations as a parameter (a class) and
    what the crate documents as laws (a class of propositions); each has an instance that
    computes, on which the theorems are applied in the witnesses.

    ** Fuel

    A loop of the source that ends because of what the hardware does has fuel; the theorems say
    how much is enough: the reads until a reset is complete ([Port], [HostController]), the nested
    buses ([Pci], one for each bus at most), the capabilities of a device ([Msi]), the entries of the
    memory map ([Boot]), the codes of the font ([Font]), the turns of an enumeration
    ([InputDriver], [Hub]).  Where a loop waits for an event, the theorems are about the runs in
    which it comes.

    ** Not modelled

    - The interleaving within a handler: the tasks of the kernel run on one processor and change only
      where they await.  Where a handler waits for an event it lets the game run, too; the model
      takes the handler as one step with time passing in it.  The game and the handlers share what
      the callbacks work on, and nothing else.
    - The lock of the [spin] crate: but for [Mutex], a lock is the state it protects; where a handler
      takes a lock that it holds, its model is [deadlock].
    - The messages in the middle of a function of the drivers: only those of the kernel's start are
      in the model.  They write to the serial port and to the console.
    - What the collections of the standard library take from the heap.
    - The machine and its crates: the calls of the [uefi] crate ([Firmware] has them as a parameter),
      the parsing of an image by the [elf] crate, the disassembly that the loader prints, the jump to
      the kernel, the switch of its stack.
    - The layouts of the [xhci] and [usb_host] crates: they are parameters.
    - Code that nothing calls: the setters of the capability words, the debugging output.
    - The unit tests of the console, which put a mock in the place of the drawing of a character. *)
From stdpp Require Export base numbers list gmap.
From Stdlib Require Export ZArith Lia.

#[global] Open Scope Z_scope.

(** * Outcomes of a Rust computation *)

(** [Ret a]: the call returned [a].  [Panic]: it panicked.  [NoFuel]: the bound
    given to a loop or a recursion of the model was too small to tell. *)
Inductive outcome (A : Type) : Type :=
  | Ret (a : A)
  | Panic
  | NoFuel.
Arguments Ret {A} a.
Arguments Panic {A}.
Arguments NoFuel {A}.

#[export] Instance outcome_ret : MRet outcome := fun A a => Ret a.
#[export] Instance outcome_bind : MBind outcome := fun A B f m =>
  match m with Ret a => f a | Panic => Panic | NoFuel => NoFuel end.
#[export] Instance outcome_fmap : FMap outcome := fun A B f m =>
  match m with Ret a => Ret (f a) | Panic => Panic | NoFuel => NoFuel end.

(** A call that takes a spin lock which its caller holds: it never returns, however large the
    bound. *)
Definition deadlock {A} : outcome A := NoFuel.

(** Rust's [Result<T, E>]. *)
Inductive result (T E : Type) : Type :=
  | Ok (t : T)
  | Err (e : E).
Arguments Ok {T E} t.
Arguments Err {T E} e.

(** [assert!(b)] and [debug_assert!(b)] (the default profile is [debug]). *)
Definition assert (b : bool) : outcome unit := if b then Ret tt else Panic.

(** [o.unwrap()], [o.expect(_)] on an option; [v[i]] on a slice. *)
Definition unwrap {A} (o : option A) : outcome A :=
  match o with Some a => Ret a | None => Panic end.

Lemma bind_Ret_inv {A B} (m : outcome A) (f : A -> outcome B) b :
  (m ≫= f) = Ret b -> exists a, m = Ret a /\ f a = Ret b.
Proof. destruct m; simpl; naive_solver. Qed.

Lemma assert_Ret_inv b u : assert b = Ret u -> b = true.
Proof. destruct b; done. Qed.

Lemma unwrap_Ret_inv {A} (o : option A) a : unwrap o = Ret a -> o = Some a.
Proof. destruct o; simpl; congruence. Qed.

(** * Machine integers of the 64-bit target, at their width *)

Definition in_u8 (z : Z) : Prop := 0 <= z < 2 ^ 8.
Definition in_u16 (z : Z) : Prop := 0 <= z < 2 ^ 16.
Definition in_u32 (z : Z) : Prop := 0 <= z < 2 ^ 32.
Definition in_usize (z : Z) : Prop := 0 <= z < 2 ^ 64.

(** [as] casts to an unsigned type of [w] bits. *)
Definition cast (w z : Z) : Z := z mod 2 ^ w.

(** Arithmetic operators of an unsigned type of [w] bits: with the overflow
    checks of the [debug] profile an operation out of range panics. *)
Definition add_w (w x y : Z) : outcome Z :=
  if decide (x + y < 2 ^ w) then Ret (x + y) else Panic.
Definition sub_w (x y : Z) : outcome Z :=
  if decide (y <= x) then Ret (x - y) else Panic.
Definition mul_w (w x y : Z) : outcome Z :=
  if decide (x * y < 2 ^ w) then Ret (x * y) else Panic.

(** [usize::checked_add]. *)
Definition checked_add (x y : Z) : option Z :=
  if decide (x + y < 2 ^ 64) then Some (x + y) else None.

(** [!x] on a [usize]. *)
Definition not_usize (x : Z) : Z := Z.lxor x (Z.ones 64).

(** [x.is_power_of_two()]. *)
Definition is_power_of_two (x : Z) : bool := (0 <? x) && (x =? 2 ^ Z.log2 x).

Lemma add_w_Ret w x y : x + y < 2 ^ w -> add_w w x y = Ret (x + y).
Proof. intros. unfold add_w. by rewrite decide_True. Qed.

Lemma sub_w_Ret x y : y <= x -> sub_w x y = Ret (x - y).
Proof. intros. unfold sub_w. by rewrite decide_True. Qed.

Lemma mul_w_Ret w x y : x * y < 2 ^ w -> mul_w w x y = Ret (x * y).
Proof. intros. unfold mul_w. by rewrite decide_True. Qed.

Lemma add_w_Ret_inv w x y z : add_w w x y = Ret z -> z = x + y /\ z < 2 ^ w.
Proof. unfold add_w. case_decide; naive_solver. Qed.

Lemma sub_w_Ret_inv x y z : sub_w x y = Ret z -> z = x - y /\ y <= x.
Proof. unfold sub_w. case_decide; naive_solver. Qed.

Lemma mul_w_Ret_inv w x y z : mul_w w x y = Ret z -> z = x * y /\ z < 2 ^ w.
Proof. unfold mul_w. case_decide; naive_solver. Qed.

Lemma is_power_of_two_spec x :
  is_power_of_two x = true <-> exists k, 0 <= k /\ x = 2 ^ k.
Proof.
  unfold is_power_of_two. rewrite andb_true_iff, Z.ltb_lt, Z.eqb_eq. split.
  - intros [Hx Heq]. exists (Z.log2 x). split; [apply Z.log2_nonneg | done].
  - intros (k & Hk & ->). rewrite Z.log2_pow2 by done. split; [lia | done].
Qed.

Lemma is_power_of_two_pos x : is_power_of_two x = true -> 0 < x.
Proof. intros (k & Hk & ->)%is_power_of_two_spec. by apply Z.pow_pos_nonneg. Qed.

(** Distinct multiples of [b] are at least [b] apart. *)
Lemma divide_next b x y : 0 < b -> (b | x) -> (b | y) -> x < y -> x + b <= y.
Proof. intros Hb [m ->] [n ->] Hlt. assert (m + 1 <= n) by nia. nia. Qed.

(** * Shared tactics *)

(** [inv_ret]: take apart a hypothesis that says that a computation returned. *)
Ltac inv_ret_step :=
  match goal with
  | H : Ret _ = Ret _ |- _ => injection H as H
  | H : Panic = Ret _ |- _ => discriminate H
  | H : NoFuel = Ret _ |- _ => discriminate H
  | H : mret _ = Ret _ |- _ => change (Ret _ = Ret _) in H
  | H : (_ ≫= _) = Ret _ |- _ =>
      let a := fresh "a" in let H1 := fresh "H" in
      apply bind_Ret_inv in H as (a & H1 & H)
  | H : assert _ = Ret _ |- _ => apply assert_Ret_inv in H
  | H : unwrap _ = Ret _ |- _ => apply unwrap_Ret_inv in H
  | H : add_w _ _ _ = Ret _ |- _ => apply add_w_Ret_inv in H as [-> H]
  | H : sub_w _ _ = Ret _ |- _ => apply sub_w_Ret_inv in H as [-> H]
  | H : mul_w _ _ _ = Ret _ |- _ => apply mul_w_Ret_inv in H as [-> H]
  end.
Ltac inv_ret := repeat (inv_ret_step; simplify_eq).

(** * Loops over a range *)

(** [for i in lo..hi { s = f(i, s) }]. *)
Fixpoint for_loop {S} (n : nat) (lo : Z) (f : Z -> S -> outcome S) (s : S) : outcome S :=
  match n with
  | O => Ret s
  | Datatypes.S n => s ← f lo s; for_loop n (lo + 1) f s
  end.

Definition for_range {S} (lo hi : Z) (f : Z -> S -> outcome S) (s : S) : outcome S :=
  for_loop (Z.to_nat (hi - lo)) lo f s.

(** The rule for a loop with an invariant: it returns, in a state where the invariant
    holds at the end of the range. *)
Lemma for_range_inv {S} (P : Z -> S -> Prop) lo hi f (s : S) :
  lo <= hi -> P lo s ->
  (forall i s, lo <= i < hi -> P i s -> exists s', f i s = Ret s' /\ P (i + 1) s') ->
  exists s', for_range lo hi f s = Ret s' /\ P hi s'.
Proof.
  intros Hle Hlo Hf. unfold for_range.
  remember (Z.to_nat (hi - lo)) as n eqn:Hn. revert lo s Hle Hlo Hf Hn.
  induction n as [|n IH]; intros lo s Hle Hlo Hf Hn; simpl.
  - replace hi with lo by lia. eauto.
  - destruct (Hf lo s) as (s' & -> & Hs'); [lia|done|]. simpl.
    apply IH; [lia|done| |lia]. intros i s0 Hi. apply Hf. lia.
Qed.

(** What every turn keeps is kept when the loop returns. *)
Lemma for_range_Ret {S} (P : S -> Prop) lo hi f (s s' : S) :
  (forall i s s', P s -> f i s = Ret s' -> P s') -> P s -> for_range lo hi f s = Ret s' -> P s'.
Proof.
  intros Hf. unfold for_range. generalize (Z.to_nat (hi - lo)) as n. intros n. revert lo s.
  induction n as [|n IH]; intros lo s Hs Hr; simpl in Hr; [congruence|].
  apply bind_Ret_inv in Hr as (s1 & Hs1 & Hr). eauto.
Qed.

Lemma for_range_empty {S} lo hi f (s : S) : hi <= lo -> for_range lo hi f s = Ret s.
Proof. intros. unfold for_range. by replace (Z.to_nat (hi - lo)) with 0%nat by lia. Qed.

(** * Reachability *)

Section reachability.
Context {S : Type} (step : S -> S -> Prop).

(** An invariant of the steps holds in every state reached from one where it
    holds. *)
Lemma rtc_invariant (P : S -> Prop) s s' :
  (forall s1 s2, P s1 -> step s1 s2 -> P s2) -> P s -> rtc step s s' -> P s'.
Proof. intros Hstep Hs Hrtc. induction Hrtc; eauto. Qed.
End reachability.

(** * What a computation gives when it returns *)

Definition post {A} (m : outcome A) (Q : A -> Prop) : Prop := forall a, m = Ret a -> Q a.

Lemma post_ret {A} (a : A) Q : Q a -> post (Ret a) Q.
Proof. by intros Hq ? [= <-]. Qed.

Lemma post_bind {A B} (m : outcome A) (f : A -> outcome B) R Q :
  post m R -> (forall a, R a -> post (f a) Q) -> post (m ≫= f) Q.
Proof. intros Hm Hf b (a & Ha & Hb)%bind_Ret_inv. exact (Hf a (Hm a Ha) b Hb). Qed.

Lemma post_any {A} (m : outcome A) : post m (fun _ => True).
Proof. done. Qed.

Lemma post_mono {A} (m : outcome A) (R Q : A -> Prop) : post m R -> (forall a, R a -> Q a) -> post m Q.
Proof. intros Hm Hq a Ha. by apply Hq, Hm. Qed.

Lemma for_range_post {S} (P : S -> Prop) lo hi f (s : S) : P s ->
  (forall i s, lo <= i < hi -> P s -> post (f i s) P) -> post (for_range lo hi f s) P.
Proof.
  intros Hs Hf. unfold for_range. destruct (decide (lo <= hi)) as [Hle|]; [|by rewrite Z2Nat.nonpos by lia; apply post_ret].
  remember (Z.to_nat (hi - lo)) as n eqn:Hn. revert lo s Hs Hf Hle Hn.
  induction n as [|n IH]; intros lo s Hs Hf Hle Hn; [by apply post_ret|]. cbn [for_loop].
  eapply post_bind; [apply Hf; [lia|done]|]. intros s' Hs'. apply IH; [done| |lia..].
  intros i s1 Hi. apply Hf. lia.
Qed.

(** [pass]: the result of the next call does not matter. *)
Ltac pass := eapply post_bind; [apply post_any|].

(** [keep_step] takes a goal about the result of a computation one step further: what a part of it
    keeps is looked up in the hints, other parts are passed over. *)
Create HintDb keeps.
Ltac keep_step :=
  match goal with
  | |- post (Ret _) _ => apply post_ret
  | |- post Panic _ => by intros ? ?
  | |- post NoFuel _ => by intros ? ?
  | |- post (_ ≫= _) _ =>
      eapply post_bind; [first [solve [eauto with keeps nocore]|apply post_any]|
        let a := fresh "a" in let Ha := fresh "Ha" in intros a Ha; simpl in Ha]
  | |- post (match ?x with _ => _ end) _ => destruct x
  | |- post _ _ => progress cbv zeta
  end.
Ltac keep := repeat keep_step; eauto with keeps nocore.

(** * Bits *)

(** Clearing the low [k] bits of a 64-bit value rounds it down to a multiple of
    [2 ^ k]. *)
Lemma land_not_usize_ones s k :
  in_usize s -> 0 <= k -> Z.land s (not_usize (2 ^ k - 1)) = s - s mod 2 ^ k.
Proof.
  intros [Hs0 Hs] Hk. unfold not_usize.
  replace (2 ^ k - 1) with (Z.ones k) by (rewrite Z.ones_equiv; lia).
  transitivity (Z.ldiff s (Z.ones k)).
  - apply Z.bits_inj'. intros i Hi.
    rewrite Z.land_spec, Z.lxor_spec, Z.ldiff_spec.
    destruct (decide (i < 64)).
    + rewrite (Z.ones_spec_low 64) by lia. by destruct (Z.testbit (Z.ones k) i).
    + rewrite <- (Z.mod_small s (2 ^ 64)) by done.
      rewrite Z.mod_pow2_bits_high by lia. done.
  - rewrite Z.ldiff_ones_r, Z.shiftl_mul_pow2, Z.shiftr_div_pow2 by done.
    pose proof (Z.div_mod s (2 ^ k)). lia.
Qed.
