(* ===== verification/Allocator.v ===== *)
(** The allocators of [kernel-lib/src/allocator.rs], [bump_allocator.rs] and
    [fixed_length_allocator.rs], the interface [BoundaryAlloc] they implement, and
    the allocation helpers written against that interface. *)
From S2P Require Import Prelude.

(** * Layouts and address arithmetic *)

(** [core::alloc::Layout]. *)
Record Layout := mkLayout { size : Z; align : Z }.

(** [Layout::from_size_align]: the alignment is a power of two and the size,
    rounded up to it, does not exceed [isize::MAX]. *)
Definition from_size_align (sz al : Z) : option Layout :=
  if is_power_of_two al && (sz <=? 2 ^ 63 - al) then Some (mkLayout sz al) else None.

Definition layout_ok (l : Layout) : Prop :=
  0 <= size l /\ from_size_align (size l) (align l) = Some l.

Definition ceil (value alignment : Z) : outcome Z :=
  s ← add_w 64 value alignment;
  s ← sub_w s 1;
  m ← sub_w alignment 1;
  Ret (Z.land s (not_usize m)).

Definition align_and_boundary_to (from_ptr : Z) (layout : Layout) (boundary : Z) :
    outcome (result (Z * Z) unit) :=
  _ ← assert ((boundary =? 0) || is_power_of_two boundary);
  _ ← assert ((boundary =? 0) || (size layout <=? boundary));
  alloc_ptr ← ceil from_ptr (align layout);
  alloc_ptr ← (if 0 <? boundary then
                 next_boundary ← ceil alloc_ptr boundary;
                 Ret (alloc_end ← checked_add alloc_ptr (size layout);
                      Some (if next_boundary <? alloc_end then next_boundary
                            else alloc_ptr))
               else Ret (Some alloc_ptr));
  Ret (match (p ← alloc_ptr; e ← checked_add p (size layout); Some (p, e)) with
       | Some range => Ok range
       | None => Err tt
       end).

(** * What a placement promises *)

(** No multiple of [boundary] lies strictly inside [[p, p + sz)]. *)
Definition no_cross (boundary p sz : Z) : Prop :=
  forall m, (boundary | m) -> ~ (p < m < p + sz).

(** [p] is a place for a block of layout [l], at or after [from]. *)
Definition fits (from : Z) (l : Layout) (boundary p : Z) : Prop :=
  from <= p /\ (align l | p) /\ (boundary <> 0 -> no_cross boundary p (size l)).

(** What the callers of [alloc] guarantee. *)
Definition request_ok (l : Layout) (boundary : Z) : Prop :=
  layout_ok l /\
  (boundary = 0 \/ (is_power_of_two boundary = true /\ size l <= boundary < 2 ^ 64)).

(** * The interface *)

(** The trait [BoundaryAlloc]; the pointer [0] is [null].  The methods take
    [&self] and lock a spin mutex around the state [A]. *)
Class BoundaryAlloc (A : Type) := {
  ba_alloc : A -> Layout -> Z -> outcome (Z * A);
  ba_dealloc : A -> Z -> Layout -> outcome A;
}.

(** A block of memory: its address and its size in bytes. *)
Abbreviation block := (Z * Z)%type.

Definition disjoint_blocks (b1 b2 : block) : Prop :=
  b1.1 + b1.2 <= b2.1 \/ b2.1 + b2.2 <= b1.1.

Fixpoint pairwise_disjoint (l : list block) : Prop :=
  match l with
  | [] => True
  | b :: l => Forall (disjoint_blocks b) l /\ pairwise_disjoint l
  end.

(** The promise of an allocator that owns the addresses [[lo, hi)], over the list
    of the blocks its clients hold: a request is refused, or granted with an
    aligned block inside [[lo, hi)] that crosses no boundary and overlaps no live
    block; a live block may be given back. *)
Inductive alloc_spec (lo hi : Z) : list block -> list block -> Prop :=
  | spec_refuse live : alloc_spec lo hi live live
  | spec_alloc live l boundary p :
      fits lo l boundary p -> p + size l <= hi ->
      Forall (disjoint_blocks (p, size l)) live ->
      alloc_spec lo hi live ((p, size l) :: live)
  | spec_dealloc live b rest : live ≡ₚ b :: rest -> alloc_spec lo hi live rest.

(** What an implementation of the trait proves: an invariant that relates its
    state to the live blocks, kept by the methods, each of which is a step of the
    abstract allocator. *)
Class BoundaryAllocSpec (A : Type) `{BoundaryAlloc A} := {
  ba_lo : A -> Z;
  ba_hi : A -> Z;
  ba_inv : A -> list block -> Prop;
  ba_alloc_ok a live l boundary p a' :
    ba_inv a live -> request_ok l boundary -> ba_alloc a l boundary = Ret (p, a') ->
    (ba_lo a' = ba_lo a /\ ba_hi a' = ba_hi a) /\
    ((p = 0 /\ ba_inv a' live) \/
     (p <> 0 /\ ba_inv a' ((p, size l) :: live) /\ fits (ba_lo a) l boundary p /\
      p + size l <= ba_hi a /\ Forall (disjoint_blocks (p, size l)) live));
  ba_dealloc_ok a live l p rest :
    ba_inv a live -> live ≡ₚ (p, size l) :: rest ->
    exists a', ba_dealloc a p l = Ret a' /\ ba_inv a' rest /\
      ba_lo a' = ba_lo a /\ ba_hi a' = ba_hi a;
  ba_inv_disjoint a live : ba_inv a live -> pairwise_disjoint live;
}.

(** A client of the trait: it asks for memory, and gives back only blocks it
    holds, with the layout they were asked for. *)
Inductive client_step {A} `{BoundaryAlloc A} : A * list block -> A * list block -> Prop :=
  | client_alloc a live l boundary p a' :
      request_ok l boundary -> ba_alloc a l boundary = Ret (p, a') -> p <> 0 ->
      client_step (a, live) (a', (p, size l) :: live)
  | client_refused a live l boundary a' :
      request_ok l boundary -> ba_alloc a l boundary = Ret (0, a') ->
      client_step (a, live) (a', live)
  | client_dealloc a live l p rest a' :
      live ≡ₚ (p, size l) :: rest -> ba_dealloc a p l = Ret a' ->
      client_step (a, live) (a', rest).

(** * The bump allocator *)

Module Bump.

Record BumpAllocator := mkBump {
  heap_start : Z;
  heap_end : Z;
  next : Z;
  n_allocations : Z;
}.

Definition new : BumpAllocator := mkBump 0 0 0 0.

Definition init (self : BumpAllocator) (start fin : Z) : BumpAllocator :=
  mkBump start fin start (n_allocations self).

Definition alloc (self : BumpAllocator) (layout : Layout) (boundary : Z) :
    outcome (Z * BumpAllocator) :=
  r ← align_and_boundary_to (next self) layout boundary;
  match r with
  | Err _ => Ret (0, self)
  | Ok (start, fin) =>
      if heap_end self <=? fin then Ret (0, self)
      else
        n ← add_w 64 (n_allocations self) 1;
        Ret (start, mkBump (heap_start self) (heap_end self) fin n)
  end.

Definition dealloc (self : BumpAllocator) (_ptr : Z) (_layout : Layout) :
    outcome BumpAllocator :=
  n ← sub_w (n_allocations self) 1;
  Ret (if n =? 0
       then mkBump (heap_start self) (heap_end self) (heap_start self) n
       else mkBump (heap_start self) (heap_end self) (next self) n).

#[global] Instance bump_boundary_alloc : BoundaryAlloc BumpAllocator := {
  ba_alloc := alloc;
  ba_dealloc := dealloc;
}.

Definition inv (a : BumpAllocator) (live : list block) : Prop :=
  0 < heap_start a <= next a /\ next a < 2 ^ 64 /\
  n_allocations a = Z.of_nat (length live) /\
  Forall (fun b => heap_start a <= b.1 /\ 0 <= b.2 /\ b.1 + b.2 <= next a) live /\
  pairwise_disjoint live /\
  (live = [] -> next a = heap_start a).

End Bump.

(** * The fixed-length allocator *)

Module FixedLength.

(** [heap_ptr] is the address of the array [heap] of [SIZE] bytes. *)
Record FixedLengthAllocator := mkFixed { heap_ptr : Z; SIZE : Z; next : Z }.

Definition new (heap_ptr SIZE : Z) : FixedLengthAllocator := mkFixed heap_ptr SIZE 0.

Definition heap_end (self : FixedLengthAllocator) : outcome Z :=
  add_w 64 (heap_ptr self) (SIZE self).

Definition heap_range (self : FixedLengthAllocator) : outcome (Z * Z) :=
  e ← heap_end self; Ret (heap_ptr self, e).

Definition alloc (self : FixedLengthAllocator) (layout : Layout) (boundary : Z) :
    outcome (Z * FixedLengthAllocator) :=
  _ ← assert ((boundary =? 0) || is_power_of_two boundary);
  r ← align_and_boundary_to (heap_ptr self + next self) layout boundary;
  match r with
  | Err _ => Panic
  | Ok (start, fin) =>
      e ← heap_end self;
      if e <=? fin then Panic
      else
        range ← heap_range self;
        n ← sub_w fin (fst range);
        Ret (start, mkFixed (heap_ptr self) (SIZE self) n)
  end.

Definition dealloc (self : FixedLengthAllocator) (_ptr : Z) (_layout : Layout) :
    outcome FixedLengthAllocator :=
  Ret self.

#[global] Instance fixed_boundary_alloc : BoundaryAlloc FixedLengthAllocator := {
  ba_alloc := alloc;
  ba_dealloc := dealloc;
}.

Definition inv (a : FixedLengthAllocator) (live : list block) : Prop :=
  0 < heap_ptr a /\ 0 <= next a /\ 0 <= SIZE a /\ heap_ptr a + SIZE a < 2 ^ 64 /\
  next a <= SIZE a /\
  Forall (fun b => heap_ptr a <= b.1 /\ 0 <= b.2 /\ b.1 + b.2 <= heap_ptr a + next a) live /\
  pairwise_disjoint live.

End FixedLength.

(** * The helpers written against the interface *)

Section helpers.
Context {A : Type} `{BoundaryAlloc A}.

(** [GlobalAlloc] for a [BoundaryAlloc] (macro [impl_global_alloc_for_boundary_alloc]). *)
Definition global_alloc (allocator : A) (layout : Layout) : outcome (Z * A) :=
  ba_alloc allocator layout 0.

Definition global_dealloc (allocator : A) (ptr : Z) (layout : Layout) : outcome A :=
  ba_dealloc allocator ptr layout.

(** [Allocator] for a [GlobalAlloc] (macro [impl_allocator_for_global_alloc]); a
    slice is its address and its length. *)
Definition allocate (allocator : A) (layout : Layout) :
    outcome (result (Z * Z) unit * A) :=
  '(ptr, allocator) ← global_alloc allocator layout;
  Ret (if ptr =? 0 then Err tt else Ok (ptr, size layout), allocator).

Definition deallocate (allocator : A) (ptr : Z) (layout : Layout) : outcome A :=
  global_dealloc allocator ptr layout.

Definition alloc_with_boundary_raw (allocator : A) (layout : Layout) (boundary : Z) :
    outcome (Z * A) :=
  ba_alloc allocator layout boundary.

(** [size_of] is [core::mem::size_of::<T>()]; the memory [mem] of the [T] values
    is indexed by address.  [AllocationError] is the unit error. *)
Context {T : Type} (size_of : Z).

Definition alloc_with_boundary (allocator : A) (alignment boundary : Z) :
    outcome (result Z unit * A) :=
  match from_size_align size_of alignment with
  | None => Ret (Err tt, allocator)
  | Some layout =>
      '(ptr, allocator) ← alloc_with_boundary_raw allocator layout boundary;
      Ret (if ptr =? 0 then Err tt else Ok ptr, allocator)
  end.

Definition alloc_with_boundary_with_default_else (allocator : A) (mem : gmap Z T)
    (alignment boundary : Z) (default : T) :
    outcome (result Z unit * A * gmap Z T) :=
  '(allocated, allocator) ← alloc_with_boundary allocator alignment boundary;
  Ret (match allocated with
       | Err e => (Err e, allocator, mem)
       | Ok ptr => if ptr =? 0 then (Err tt, allocator, mem)
                   else (Ok ptr, allocator, <[ptr := default]> mem)
       end).

Definition alloc_array_with_boundary (allocator : A) (len alignment boundary : Z) :
    outcome (result (Z * Z) unit * A) :=
  sz ← mul_w 64 len size_of;
  match from_size_align sz alignment with
  | None => Ret (Err tt, allocator)
  | Some layout =>
      '(ptr, allocator) ← alloc_with_boundary_raw allocator layout boundary;
      Ret (if ptr =? 0 then Err tt else Ok (ptr, len), allocator)
  end.

(** The addresses of the elements of an array of [n] elements at [ptr]. *)
Definition elements_at (ptr : Z) (n : nat) : list Z :=
  (fun i : nat => ptr + Z.of_nat i * size_of) <$> seq 0 n.

Definition alloc_array_with_boundary_with_default_else (allocator : A)
    (mem : gmap Z T) (len alignment boundary : Z) (default : T) :
    outcome (result (Z * Z) unit * A * gmap Z T) :=
  '(uninit_array, allocator) ← alloc_array_with_boundary allocator len alignment boundary;
  Ret (match uninit_array with
       | Err e => (Err e, allocator, mem)
       | Ok (ptr, n) =>
           (Ok (ptr, n), allocator,
            fold_left (fun mem p => <[p := default]> mem) (elements_at ptr (Z.to_nat n)) mem)
       end).

End helpers.

(** * The global allocator of the kernel ([kernel/src/alloc/alloc.rs]) *)

Module KernelAlloc.

(** The state of the static [ALLOCATOR]. *)
Abbreviation GlobalAllocator := Bump.BumpAllocator.

Definition ALLOCATOR : GlobalAllocator := Bump.new.

Definition init_allocator (allocator : GlobalAllocator) (heap_start heap_end : Z) :
    GlobalAllocator :=
  Bump.init allocator heap_start heap_end.

Definition kernel_alloc_with_boundary (size_of : Z) (allocator : GlobalAllocator)
    (alignment boundary : Z) : outcome (result Z unit * GlobalAllocator) :=
  alloc_with_boundary size_of allocator alignment boundary.

Definition kernel_alloc_with_boundary_with_default_else {T} (size_of : Z)
    (allocator : GlobalAllocator) (mem : gmap Z T) (alignment boundary : Z) (default : T) :
    outcome (result Z unit * GlobalAllocator * gmap Z T) :=
  alloc_with_boundary_with_default_else size_of allocator mem alignment boundary default.

Definition kernel_alloc_array_with_boundary (size_of : Z) (allocator : GlobalAllocator)
    (len alignment boundary : Z) : outcome (result (Z * Z) unit * GlobalAllocator) :=
  alloc_array_with_boundary size_of allocator len alignment boundary.

Definition kernel_alloc_array_with_boundary_with_default_else {T} (size_of : Z)
    (allocator : GlobalAllocator) (mem : gmap Z T) (len alignment boundary : Z)
    (default : T) : outcome (result (Z * Z) unit * GlobalAllocator * gmap Z T) :=
  alloc_array_with_boundary_with_default_else size_of allocator mem len alignment
    boundary default.

End KernelAlloc.

(** * Address arithmetic: lemmas *)

(** The least multiple of [al] at or above [v]. *)
Definition round_up (v al : Z) : Z := (v + al - 1) - (v + al - 1) mod al.

Lemma round_up_spec v al :
  0 < al ->
  (al | round_up v al) /\ v <= round_up v al < v + al /\
  (forall q, v <= q -> (al | q) -> round_up v al <= q).
Proof.
  intros Hal. unfold round_up. set (s := v + al - 1).
  pose proof (Z.mod_pos_bound s al Hal). pose proof (Z.div_mod s al).
  split_and!; [|unfold s in *; lia|unfold s in *; lia|].
  - exists (s / al). lia.
  - intros q Hq [m ->]. assert (s / al <= m); [|nia].
    apply Z.lt_succ_r, Z.div_lt_upper_bound; unfold s in *; nia.
Qed.

Lemma ceil_eq v al :
  0 <= v -> is_power_of_two al = true ->
  ceil v al = if decide (v + al < 2 ^ 64) then Ret (round_up v al) else Panic.
Proof.
  intros Hv Hal. apply is_power_of_two_spec in Hal as (k & Hk & ->).
  assert (0 < 2 ^ k) by (apply Z.pow_pos_nonneg; lia).
  unfold ceil, add_w. destruct (decide (v + _ < _)); [|done]. simpl.
  rewrite !sub_w_Ret by lia. simpl.
  by rewrite land_not_usize_ones by (unfold in_usize; lia).
Qed.

Lemma layout_ok_inv l :
  layout_ok l -> 0 <= size l /\ is_power_of_two (align l) = true /\
    0 < align l /\ size l <= 2 ^ 63 - align l.
Proof.
  intros [Hs Hl]. unfold from_size_align in Hl.
  destruct (is_power_of_two (align l)) eqn:Hp; [|done].
  destruct (Z.leb_spec (size l) (2 ^ 63 - align l)); [|done].
  pose proof (is_power_of_two_pos _ Hp). lia.
Qed.

(** Multiples of the larger of two powers of two are multiples of the smaller. *)
Lemma power_of_two_divide a b :
  is_power_of_two a = true -> is_power_of_two b = true -> a <= b -> (a | b).
Proof.
  intros (j & Hj & ->)%is_power_of_two_spec (k & Hk & ->)%is_power_of_two_spec Hle.
  assert (j <= k) by (apply (Z.pow_le_mono_r_iff 2); lia).
  exists (2 ^ (k - j)). rewrite <- Z.pow_add_r by lia. f_equal. lia.
Qed.

(** The address chosen by [align_and_boundary_to]: the first aligned one, or the
    next multiple of the boundary when the block would step over it. *)
Definition placement (from : Z) (l : Layout) (boundary : Z) : Z :=
  let p := round_up from (align l) in
  let nb := round_up p boundary in
  if (0 <? boundary) && (nb <? p + size l) then nb else p.

Lemma placement_least from l boundary :
  request_ok l boundary ->
  fits from l boundary (placement from l boundary) /\
  (forall q, 0 < size l -> fits from l boundary q -> placement from l boundary <= q) /\
  placement from l boundary < from + align l + boundary.
Proof.
  intros [(Hs & Hpa & Ha & _)%layout_ok_inv Hb]. unfold placement, fits.
  set (p := round_up from (align l)).
  destruct (round_up_spec from (align l) Ha) as (Hdiv & Hbnd & Hleast).
  fold p in Hdiv, Hbnd, Hleast.
  destruct Hb as [-> | [Hpb Hb]].
  { simpl. split_and!; [lia|done|done| |lia]. intros q _ (Hq & Hqd & _); auto. }
  pose proof (is_power_of_two_pos _ Hpb).
  destruct (round_up_spec p boundary) as (Hbdiv & Hbbnd & Hbleast); [done|].
  set (nb := round_up p boundary) in *.
  replace (0 <? boundary) with true by (symmetry; by apply Z.ltb_lt).
  destruct (Z.ltb_spec nb (p + size l)) as [Hlt | Hge]; simpl.
  - split_and!; [lia| | |intros q Hs0 (Hq & Hqd & Hnc) |lia].
    + destruct (decide (align l <= boundary)).
      * etrans; [|exact Hbdiv]. by apply power_of_two_divide.
      * assert (nb <= p); [|replace nb with p by lia; done].
        apply Hbleast; [lia|]. etrans; [|exact Hdiv].
        apply power_of_two_divide; auto; lia.
    + intros _ m Hm Hin.
      assert (nb + boundary <= m) by (apply divide_next; auto; lia). lia.
    + destruct (decide (nb <= q)) as [|Hqnb]; [done|].
      destruct (Hnc ltac:(lia) nb Hbdiv). specialize (Hleast q Hq Hqd). lia.
  - split_and!; [lia|done| |intros q _ (Hq & Hqd & _); auto|lia].
    intros _ m Hm Hin. assert (nb <= m) by (apply Hbleast; auto; lia). lia.
Qed.

Lemma align_and_boundary_to_eq from l boundary :
  0 <= from -> request_ok l boundary ->
  align_and_boundary_to from l boundary =
    if decide (from + align l < 2 ^ 64) then
      let p := round_up from (align l) in
      if decide (0 < boundary /\ 2 ^ 64 <= p + boundary) then Panic
      else if decide (p + size l < 2 ^ 64) then
        let q := placement from l boundary in
        Ret (if decide (q + size l < 2 ^ 64) then Ok (q, q + size l) else Err tt)
      else Ret (Err tt)
    else Panic.
Proof.
  intros Hfrom [(Hs & Hpa & Ha & _)%layout_ok_inv Hb].
  unfold align_and_boundary_to, placement.
  rewrite ceil_eq by done.
  assert (Hb1 : (boundary =? 0) || is_power_of_two boundary = true).
  { destruct Hb as [-> | [-> _]]; [done | apply orb_true_r]. }
  assert (Hb2 : (boundary =? 0) || (size l <=? boundary) = true).
  { destruct Hb as [-> | [_ ?]]; [done | apply orb_true_iff; right; lia]. }
  rewrite Hb1, Hb2. simpl.
  case_decide as Hov; [|done]. simpl.
  destruct (round_up_spec from (align l) Ha) as (_ & Hbnd & _).
  unfold checked_add. cbv zeta. set (p := round_up from (align l)).
  destruct (Z.ltb_spec 0 boundary) as [Hpos | Hneg].
  - destruct Hb as [-> | [Hpb _]]; [lia|]. rewrite ceil_eq by (done || lia).
    destruct (decide (p + boundary < 2 ^ 64)), (decide (0 < boundary /\ _));
      [lia| |done|lia]. simpl.
    destruct (decide (p + size l < 2 ^ 64)); [|done]. simpl.
    destruct (round_up p boundary <? p + size l); simpl; by case_decide.
  - destruct (decide (0 < boundary /\ _)); [lia|]. simpl. by destruct (decide (p + size l < 2 ^ 64)).
Qed.

Lemma align_and_boundary_to_Ok_inv from l boundary s e :
  0 <= from -> request_ok l boundary ->
  align_and_boundary_to from l boundary = Ret (Ok (s, e)) ->
  fits from l boundary s /\ e = s + size l /\ e < 2 ^ 64.
Proof.
  intros Hf Hreq. rewrite align_and_boundary_to_eq by done. cbv zeta.
  pose proof (placement_least from l boundary Hreq) as (Hfit & _).
  repeat case_match; intros; by simplify_eq.
Qed.

(** * Disjoint blocks: lemmas *)

#[export] Instance disjoint_blocks_sym : Symmetric disjoint_blocks.
Proof. intros b1 b2. unfold disjoint_blocks. tauto. Qed.

(** Blocks at different places of the list are disjoint. *)
Lemma pairwise_disjoint_lookup l i j b b' :
  pairwise_disjoint l -> l !! i = Some b -> l !! j = Some b' -> i <> j -> disjoint_blocks b b'.
Proof.
  revert i j. induction l as [|x l IH]; intros i j Hp Hi Hj Hne; [done|].
  destruct Hp as [Hx Hl].
  destruct i as [|i], j as [|j]; simplify_eq/=; [|symmetry|eauto];
    by (eapply Forall_forall; [exact Hx|by eapply list_elem_of_lookup_2]).
Qed.

(** Whether the live blocks are disjoint does not depend on their order. *)
#[export] Instance pairwise_disjoint_proper :
  Proper ((≡ₚ) ==> iff) pairwise_disjoint.
Proof.
  assert (Hgo : forall l1 l2, l1 ≡ₚ l2 -> pairwise_disjoint l1 -> pairwise_disjoint l2).
  { induction 1 as [|x l1 l2 Hp IH|x y l|l1 l2 l3 _ IH1 _ IH2]; simpl; [done| | |auto].
    - intros [Hx Hl]. split; [by rewrite <- Hp|auto].
    - rewrite !Forall_cons. intros ((Hd & Hy) & Hx & Hl).
      split_and!; auto. unfold disjoint_blocks in *. tauto. }
  intros l1 l2 Hp. split; apply Hgo; [done|by symmetry].
Qed.

(** * The instances *)

Module BumpFacts.
Import Bump.

Lemma bump_alloc_ok a live l boundary p a' :
  inv a live -> request_ok l boundary -> alloc a l boundary = Ret (p, a') ->
  (heap_start a' = heap_start a /\ heap_end a' = heap_end a) /\
  ((p = 0 /\ inv a' live) \/
   (p <> 0 /\ inv a' ((p, size l) :: live) /\ fits (heap_start a) l boundary p /\
    p + size l <= heap_end a /\ Forall (disjoint_blocks (p, size l)) live)).
Proof.
  intros Hinv Hreq Halloc. pose proof Hinv as (Hnext & Hmax & Hn & Hin & Hdis & Hreset).
  unfold alloc in Halloc. inv_ret.
  destruct a0 as [[start fin]|[]]; [|simpl in Halloc; inv_ret; by auto].
  apply align_and_boundary_to_Ok_inv in H as ((Hge & Hal & Hnc) & -> & Hend); [|lia|done].
  pose proof Hreq as [(Hs & _)%layout_ok_inv _].
  destruct (Z.leb_spec (heap_end a) (start + size l)); [inv_ret; by auto|].
  inv_ret. split; [done|]. right.
  assert (Hnew : Forall (disjoint_blocks (p, size l)) live).
  { eapply Forall_impl; [exact Hin|]. unfold disjoint_blocks. simpl. lia. }
  unfold inv, fits; simpl. split_and!; auto; try lia; try done.
  constructor; [simpl; lia|]. eapply Forall_impl; [exact Hin|]. simpl. lia.
Qed.

Lemma bump_dealloc_ok a live l p rest :
  inv a live -> live ≡ₚ (p, size l) :: rest ->
  exists a', dealloc a p l = Ret a' /\ inv a' rest /\
    heap_start a' = heap_start a /\ heap_end a' = heap_end a.
Proof.
  intros (Hnext & Hmax & Hn & Hin & Hdis & Hreset) Hp.
  rewrite Hp in Hin, Hdis. apply Forall_cons in Hin as [_ Hin]. destruct Hdis as [_ Hdis].
  apply Permutation_length in Hp. simpl in Hp. unfold dealloc.
  rewrite sub_w_Ret by lia. simpl. eexists. split; [done|].
  destruct (Z.eqb_spec (n_allocations a - 1) 0); simpl; (split; [|done]);
    unfold inv; simpl; split_and!; auto; try lia.
  - destruct rest; [done|simpl in *; lia].
  - intros ->. simpl in *. lia.
Qed.

Lemma bump_inv_disjoint a live : inv a live -> pairwise_disjoint live.
Proof. unfold inv. tauto. Qed.

#[global] Instance bump_spec : BoundaryAllocSpec BumpAllocator := {
  ba_lo := heap_start;
  ba_hi := heap_end;
  ba_inv := inv;
  ba_alloc_ok := bump_alloc_ok;
  ba_dealloc_ok := bump_dealloc_ok;
  ba_inv_disjoint := bump_inv_disjoint;
}.

Lemma bump_init_inv a lo hi :
  0 < lo < 2 ^ 64 -> n_allocations a = 0 -> inv (init a lo hi) [].
Proof. intros. unfold inv, init; simpl. split_and!; auto; lia. Qed.

(** With enough room a request is granted. *)
Lemma bump_alloc_room a l boundary : request_ok l boundary -> 0 <= next a ->
  next a + align l + boundary + size l < heap_end a -> heap_end a < 2 ^ 64 -> n_allocations a + 1 < 2 ^ 64 ->
  let p := placement (next a) l boundary in
  alloc a l boundary = Ret (p, mkBump (heap_start a) (heap_end a) (p + size l) (n_allocations a + 1)) /\
  next a <= p < next a + align l + boundary /\ (align l | p).
Proof.
  intros Hreq Hn Hroom Hend Hcount p. destruct (placement_least (next a) l boundary Hreq) as ((Hge & Hal & _) & _ & Hlt).
  fold p in Hge, Hal, Hlt. split; [|done]. pose proof Hreq as [(Hs & _ & Ha & _)%layout_ok_inv Hb].
  destruct (round_up_spec (next a) (align l) Ha) as (_ & Hup & _).
  assert (0 <= boundary) by (destruct Hb as [->|[_ ?]]; lia).
  unfold alloc. rewrite align_and_boundary_to_eq by done. rewrite decide_True by lia. cbv zeta.
  rewrite decide_False, !decide_True by (try fold p; lia). fold p. cbn [mbind outcome_bind].
  destruct (Z.leb_spec (heap_end a) (p + size l)); [lia|]. by rewrite add_w_Ret.
Qed.

End BumpFacts.

(** What a request that is granted leaves: [k] bytes of room are enough. *)
Definition granted (a a' : Bump.BumpAllocator) (sz k p : Z) : Prop :=
  0 <= sz /\ Bump.next a <= p /\ p + sz = Bump.next a' /\ Bump.next a' <= Bump.next a + k /\
  Bump.heap_start a' = Bump.heap_start a /\ Bump.heap_end a' = Bump.heap_end a /\
  Bump.n_allocations a' = Bump.n_allocations a + 1.

Definition has_room (a : Bump.BumpAllocator) (k : Z) : Prop :=
  0 < Bump.next a /\ Bump.next a + k < Bump.heap_end a /\ Bump.heap_end a < 2 ^ 63.

Lemma alloc_box_room a size_of al boundary :
  0 <= size_of < 2 ^ 32 -> is_power_of_two al = true -> al < 2 ^ 32 -> is_power_of_two boundary = true ->
  size_of <= boundary < 2 ^ 32 -> has_room a (al + boundary + size_of) -> Bump.n_allocations a + 1 < 2 ^ 64 ->
  exists p a', KernelAlloc.kernel_alloc_with_boundary size_of a al boundary = Ret (Ok p, a') /\
    granted a a' size_of (al + boundary + size_of) p /\ (al | p).
Proof.
  intros Hs Hal Hal' Hb Hsb (Hpos & Hroom & Hend) Hcount.
  unfold KernelAlloc.kernel_alloc_with_boundary, alloc_with_boundary, alloc_with_boundary_raw.
  assert (from_size_align size_of al = Some (mkLayout size_of al)) as Hl.
  { unfold from_size_align. rewrite Hal. destruct (Z.leb_spec size_of (2 ^ 63 - al)); [done|lia]. }
  assert (request_ok (mkLayout size_of al) boundary) as Hreq
    by (split; [split; [simpl; lia|exact Hl]|right; simpl; lia || (split; [done|lia])]).
  destruct (BumpFacts.bump_alloc_room a _ boundary Hreq) as (Hrun & Hp & Hdiv); [lia|simpl; lia|lia|done|].
  cbn [align size] in *. set (p := placement _ _ _) in *. rewrite Hl. cbn [ba_alloc Bump.bump_boundary_alloc].
  rewrite Hrun. cbn [mbind outcome_bind]. destruct (Z.eqb_spec p 0); [lia|]. eexists p, _.
  split; [reflexivity|]. unfold granted. simpl. split; [|done]. lia.
Qed.

Lemma alloc_array_eq size_of a len al boundary : 0 <= len * size_of < 2 ^ 32 ->
  KernelAlloc.kernel_alloc_array_with_boundary size_of a len al boundary =
  '(r, a) ← KernelAlloc.kernel_alloc_with_boundary (len * size_of) a al boundary;
  Ret (match r with Ok p => Ok (p, len) | Err e => Err e end, a).
Proof.
  intros Hs. unfold KernelAlloc.kernel_alloc_array_with_boundary, alloc_array_with_boundary,
    KernelAlloc.kernel_alloc_with_boundary, alloc_with_boundary.
  rewrite mul_w_Ret by lia. cbn [mbind outcome_bind]. destruct (from_size_align _ _) as [l|]; [|done].
  destruct (alloc_with_boundary_raw a l boundary) as [[p a']| |]; [|done|done]. simpl. by case_match.
Qed.

Lemma alloc_array_room a size_of len al boundary :
  0 <= len * size_of < 2 ^ 32 -> is_power_of_two al = true -> al < 2 ^ 32 -> is_power_of_two boundary = true ->
  len * size_of <= boundary < 2 ^ 32 -> has_room a (al + boundary + len * size_of) ->
  Bump.n_allocations a + 1 < 2 ^ 64 ->
  exists p a', KernelAlloc.kernel_alloc_array_with_boundary size_of a len al boundary = Ret (Ok (p, len), a') /\
    granted a a' (len * size_of) (al + boundary + len * size_of) p /\ (al | p).
Proof.
  intros Hs Hal Hal' Hb Hsb Hroom Hcount.
  destruct (alloc_box_room a (len * size_of) al boundary) as (p & a' & Hrun & Hg & Hdiv); try done.
  exists p, a'. rewrite alloc_array_eq by done. by rewrite Hrun.
Qed.

(** The variants that fill the memory. *)
Lemma alloc_box_default_room {T} a (m : gmap Z T) size_of al boundary d :
  0 <= size_of < 2 ^ 32 -> is_power_of_two al = true -> al < 2 ^ 32 -> is_power_of_two boundary = true ->
  size_of <= boundary < 2 ^ 32 -> has_room a (al + boundary + size_of) -> Bump.n_allocations a + 1 < 2 ^ 64 ->
  exists p a' m', KernelAlloc.kernel_alloc_with_boundary_with_default_else size_of a m al boundary d
      = Ret (Ok p, a', m') /\
    granted a a' size_of (al + boundary + size_of) p /\ (al | p).
Proof.
  intros Hs Hal Hal' Hb Hsb Hroom Hcount.
  destruct (alloc_box_room a size_of al boundary) as (p & a' & Hrun & Hg & Hdiv); try done.
  unfold KernelAlloc.kernel_alloc_with_boundary in Hrun.
  unfold KernelAlloc.kernel_alloc_with_boundary_with_default_else, alloc_with_boundary_with_default_else.
  rewrite Hrun. cbn [mbind outcome_bind]. destruct Hroom as [Hpos _].
  destruct (Z.eqb_spec p 0); [unfold granted in Hg; lia|]. by eexists _, _, _.
Qed.

Lemma alloc_array_default_room {T} a (m : gmap Z T) size_of len al boundary d :
  0 <= len * size_of < 2 ^ 32 -> is_power_of_two al = true -> al < 2 ^ 32 -> is_power_of_two boundary = true ->
  len * size_of <= boundary < 2 ^ 32 -> has_room a (al + boundary + len * size_of) ->
  Bump.n_allocations a + 1 < 2 ^ 64 ->
  exists p a' m', KernelAlloc.kernel_alloc_array_with_boundary_with_default_else size_of a m len al boundary d
      = Ret (Ok (p, len), a', m') /\
    granted a a' (len * size_of) (al + boundary + len * size_of) p /\ (al | p).
Proof.
  intros Hs Hal Hal' Hb Hsb Hroom Hcount.
  destruct (alloc_array_room a size_of len al boundary) as (p & a' & Hrun & Hg & Hdiv); try done.
  unfold KernelAlloc.kernel_alloc_array_with_boundary in Hrun.
  unfold KernelAlloc.kernel_alloc_array_with_boundary_with_default_else,
    alloc_array_with_boundary_with_default_else. rewrite Hrun. cbn [mbind outcome_bind]. by eexists _, _, _.
Qed.

Module FixedFacts.
Import FixedLength.

Lemma fixed_alloc_ok a live l boundary p a' :
  inv a live -> request_ok l boundary -> alloc a l boundary = Ret (p, a') ->
  (heap_ptr a' = heap_ptr a /\ heap_ptr a' + SIZE a' = heap_ptr a + SIZE a) /\
  ((p = 0 /\ inv a' live) \/
   (p <> 0 /\ inv a' ((p, size l) :: live) /\ fits (heap_ptr a) l boundary p /\
    p + size l <= heap_ptr a + SIZE a /\ Forall (disjoint_blocks (p, size l)) live)).
Proof.
  intros (Hp & Hnext & Hsz & Hmax & Hle & Hin & Hdis) Hreq Halloc.
  unfold alloc, heap_range, heap_end in Halloc. inv_ret.
  destruct a1 as [[start fin]|[]]; [|done].
  apply align_and_boundary_to_Ok_inv in H0 as ((Hge & Hal & Hnc) & -> & Hend); [|lia|done].
  pose proof Hreq as [(Hs & _)%layout_ok_inv _]. inv_ret.
  destruct (Z.leb_spec (heap_ptr a + SIZE a) (start + size l)); [done|].
  inv_ret. simpl in *. split; [done|]. right.
  assert (Hnew : Forall (disjoint_blocks (p, size l)) live).
  { eapply Forall_impl; [exact Hin|]. unfold disjoint_blocks. simpl. lia. }
  unfold inv, fits; simpl. split_and!; auto; try lia; try done.
  constructor; [simpl; lia|]. eapply Forall_impl; [exact Hin|]. simpl. lia.
Qed.

Lemma fixed_dealloc_ok a live l p rest :
  inv a live -> live ≡ₚ (p, size l) :: rest ->
  exists a', dealloc a p l = Ret a' /\ inv a' rest /\
    heap_ptr a' = heap_ptr a /\ heap_ptr a' + SIZE a' = heap_ptr a + SIZE a.
Proof.
  intros (Hp & Hnext & Hsz & Hmax & Hle & Hin & Hdis) Hperm. exists a.
  rewrite Hperm in Hin, Hdis. apply Forall_cons in Hin as [_ Hin].
  destruct Hdis as [_ Hdis]. unfold inv. split_and!; auto.
Qed.

Lemma fixed_inv_disjoint a live : inv a live -> pairwise_disjoint live.
Proof. unfold inv. tauto. Qed.

#[global] Instance fixed_spec : BoundaryAllocSpec FixedLengthAllocator := {
  ba_lo := heap_ptr;
  ba_hi a := heap_ptr a + SIZE a;
  ba_inv := inv;
  ba_alloc_ok := fixed_alloc_ok;
  ba_dealloc_ok := fixed_dealloc_ok;
  ba_inv_disjoint := fixed_inv_disjoint;
}.

End FixedFacts.

(** * Clients of the interface: lemmas *)

Section clients.
Context {A : Type} `{BA : BoundaryAlloc A} `{Spec : !BoundaryAllocSpec A}.

(** Each step of a client is a step of the abstract allocator, and keeps the
    invariant of the implementation. *)
Lemma client_step_refines a live a' live' :
  ba_inv a live -> client_step (a, live) (a', live') ->
  ba_inv a' live' /\ ba_lo a' = ba_lo a /\ ba_hi a' = ba_hi a /\
  alloc_spec (ba_lo a) (ba_hi a) live live'.
Proof.
  intros Hinv Hstep. inversion Hstep as
    [? ? l b p ? Hreq Halloc Hp|? ? l b ? Hreq Halloc|? ? l p ? ? Hperm Hd]; subst.
  - destruct (ba_alloc_ok _ _ _ _ _ _ Hinv Hreq Halloc) as
      ([??] & [[??]|(? & ? & ? & ? & ?)]); [done|].
    split_and!; auto. by econstructor.
  - destruct (ba_alloc_ok _ _ _ _ _ _ Hinv Hreq Halloc) as
      ([??] & [[??]|(? & ?)]); [|done].
    split_and!; auto; constructor.
  - destruct (ba_dealloc_ok _ _ _ _ _ Hinv Hperm) as (a2 & Hd2 & ? & ? & ?).
    rewrite Hd in Hd2. injection Hd2 as <-. split_and!; auto. by econstructor.
Qed.

Lemma client_run_refines a live a' live' :
  ba_inv a live -> rtc client_step (a, live) (a', live') ->
  ba_inv a' live' /\ ba_lo a' = ba_lo a /\ ba_hi a' = ba_hi a /\
  rtc (alloc_spec (ba_lo a) (ba_hi a)) live live'.
Proof.
  intros Hinv Hrun. remember (a, live) as s eqn:Hs. remember (a', live') as s' eqn:Hs'.
  revert a live Hs Hinv. induction Hrun as [|s [a2 live2] s'' Hstep _ IH];
    intros a live -> Hinv; [by simplify_eq; split_and!; auto|].
  destruct (client_step_refines _ _ _ _ Hinv Hstep) as (? & <- & <- & ?).
  destruct (IH Hs' _ _ eq_refl) as (? & ? & ? & ?); [done|].
  split_and!; auto. by econstructor.
Qed.

End clients.

(** An array is allocated as one block of [len * size_of] bytes. *)
Lemma alloc_array_with_boundary_ok {A : Type} `{BA : BoundaryAlloc A}
    `{Spec : !BoundaryAllocSpec A} size_of len alignment boundary a live u a' :
  ba_inv a live -> 0 <= len -> 0 <= size_of ->
  (boundary = 0 \/ is_power_of_two boundary = true /\ len * size_of <= boundary < 2 ^ 64) ->
  alloc_array_with_boundary size_of a len alignment boundary = Ret (u, a') ->
  match u with
  | Err _ => ba_inv a' live
  | Ok (ptr, n) =>
      n = len /\ ptr <> 0 /\ ba_inv a' ((ptr, len * size_of) :: live) /\
      fits (ba_lo a) (mkLayout (len * size_of) alignment) boundary ptr /\
      ptr + len * size_of <= ba_hi a /\
      Forall (disjoint_blocks (ptr, len * size_of)) live
  end.
Proof.
  intros Hinv Hlen Hsz Hb Hrun. unfold alloc_array_with_boundary in Hrun. inv_ret.
  destruct (from_size_align (len * size_of) alignment) as [l|] eqn:Hl in Hrun;
    [|by simplify_eq].
  assert (l = mkLayout (len * size_of) alignment) as ->.
  { unfold from_size_align in Hl. by case_match; simplify_eq. }
  apply bind_Ret_inv in Hrun as ([ptr a2] & Halloc & Hrun).
  unfold alloc_with_boundary_raw in Halloc.
  assert (Hreq : request_ok (mkLayout (len * size_of) alignment) boundary).
  { split; [split; [simpl; nia|done]|done]. }
  destruct (ba_alloc_ok _ _ _ _ _ _ Hinv Hreq Halloc) as
    (_ & [[-> ?]|(? & ? & ? & ? & ?)]); [by simplify_eq/=|].
  destruct (Z.eqb_spec ptr 0); [done|]. simplify_eq/=. split_and!; auto.
Qed.

(** Writing the same value at a list of addresses. *)
Lemma fold_left_insert {T} (d : T) (l : list Z) (mem : gmap Z T) p :
  fold_left (fun mem p => <[p := d]> mem) l mem !! p =
    if decide (p ∈ l) then Some d else mem !! p.
Proof.
  revert mem. induction l as [|q l IH]; intros mem; [done|]. simpl. rewrite IH.
  destruct (decide (p ∈ l)), (decide (p ∈ q :: l)) as [Hin|Hin]; try done.
  - destruct Hin. by apply list_elem_of_further.
  - apply elem_of_cons in Hin as [->|]; [by rewrite lookup_insert_eq|done].
  - apply not_elem_of_cons in Hin as [? ?]. by rewrite lookup_insert_ne.
Qed.

(** What the abstract allocator guarantees of the live blocks. *)
Lemma alloc_spec_safe lo hi live live' :
  alloc_spec lo hi live live' ->
  pairwise_disjoint live /\ Forall (fun b => lo <= b.1 /\ b.1 + b.2 <= hi) live ->
  pairwise_disjoint live' /\ Forall (fun b => lo <= b.1 /\ b.1 + b.2 <= hi) live'.
Proof.
  intros [|? l boundary p (? & _) ? Hd|? b rest Hp] [Hdis Hin]; [done| |].
  - simpl. rewrite Forall_cons. simpl. split_and!; auto.
  - rewrite Hp in Hdis, Hin. apply Forall_cons in Hin as [_ Hin]. by destruct Hdis.
Qed.

(** With no live block the bump allocator is back in its initial state. *)
Lemma bump_inv_nil a :
  Bump.inv a [] -> a = Bump.init a (Bump.heap_start a) (Bump.heap_end a) /\
    Bump.n_allocations a = 0.
Proof.
  destruct a as [s e n k]. intros (_ & _ & Hn & _ & _ & Hr). simpl in *.
  rewrite Hr by done. by subst.
Qed.

(** * Properties *)

(** C40: the placement chosen for a block.  On every request the callers may make,
    [align_and_boundary_to] returns the least address at or after [from_ptr] that
    is aligned and from which the block crosses no multiple of the boundary,
    together with the end of the block; it fails (by [Err] or an overflow panic)
    only when the addresses involved reach the top of the 64-bit space. *)
Theorem align_and_boundary_to_least from l boundary :
  0 <= from -> request_ok l boundary ->
  match align_and_boundary_to from l boundary with
  | Ret (Ok (s, e)) =>
      fits from l boundary s /\ e = s + size l /\ e < 2 ^ 64 /\
      (forall q, 0 < size l -> fits from l boundary q -> s <= q)
  | Ret (Err _) | Panic => 2 ^ 64 <= from + align l + boundary + size l
  | NoFuel => False
  end.
Proof.
  intros Hf Hreq. rewrite align_and_boundary_to_eq by done. cbv zeta.
  pose proof (placement_least from l boundary Hreq) as (Hfit & Hl & Hb).
  pose proof Hreq as [(Hs & _ & Ha & _)%layout_ok_inv Hbd].
  pose proof (round_up_spec from (align l) Ha) as (_ & Hr & _).
  assert (0 <= boundary) by (destruct Hbd as [->|[_ ?]]; lia).
  repeat case_match; simplify_eq; try lia. split_and!; auto.
Qed.

Lemma align_and_boundary_to_least_witness :
  align_and_boundary_to 0x1111 (mkLayout 0x100 0x40) 0x400 = Ret (Ok (0x1140, 0x1240)) /\
  (forall q, fits 0x1111 (mkLayout 0x100 0x40) 0x400 q -> 0x1140 <= q).
Proof.
  assert (Hreq : request_ok (mkLayout 0x100 0x40) 0x400).
  { split; [split; [simpl; lia|reflexivity]|]. right. simpl. split; [reflexivity|lia]. }
  pose proof (align_and_boundary_to_least 0x1111 (mkLayout 0x100 0x40) 0x400
    ltac:(lia) Hreq) as Hs.
  assert (He : align_and_boundary_to 0x1111 (mkLayout 0x100 0x40) 0x400
               = Ret (Ok (0x1140, 0x1240))) by (vm_compute; reflexivity).
  rewrite He in Hs. split; [exact He|].
  intros q Hq. destruct Hs as (_ & _ & _ & Hleast). apply Hleast; [simpl; lia|exact Hq].
Defined.

(** C9: the bump allocator implements the abstract allocator.  Whatever sequence
    of allocations and deallocations its clients make after [init], the live
    blocks form a state of the abstract allocator over the heap: each lies inside
    the heap, no two overlap; and [n_allocations] counts them. *)
Theorem bump_refines_allocator a lo hi a' live :
  0 < lo < 2 ^ 64 -> Bump.n_allocations a = 0 ->
  rtc client_step (Bump.init a lo hi, []) (a', live) ->
  rtc (alloc_spec lo hi) [] live /\
  pairwise_disjoint live /\
  Forall (fun b => lo <= b.1 /\ b.1 + b.2 <= hi) live /\
  Bump.n_allocations a' = Z.of_nat (length live).
Proof.
  intros Hlo Ha Hrun.
  pose proof (BumpFacts.bump_init_inv a lo hi Hlo Ha) as Hinv.
  destruct (client_run_refines (Spec := BumpFacts.bump_spec) _ _ _ _ Hinv Hrun) as (Hinv' & _ & _ & Hspec).
  simpl in Hspec, Hinv'. destruct Hinv' as (_ & _ & Hn & _).
  assert (Hsafe : pairwise_disjoint live /\
                  Forall (fun b => lo <= b.1 /\ b.1 + b.2 <= hi) live).
  { refine (rtc_invariant (alloc_spec lo hi) (fun live => pairwise_disjoint live /\
      Forall (fun b => lo <= b.1 /\ b.1 + b.2 <= hi) live) [] live _ _ Hspec); [|done].
    intros; by eapply alloc_spec_safe. }
  tauto.
Qed.

(** A run of the bump allocator: two blocks allocated, the first one given back. *)
Lemma bump_refines_allocator_witness :
  exists a', rtc client_step (Bump.init Bump.new 0x1000 0x2000, []) (a', [(0x1100, 0x80)]) /\
             Bump.n_allocations a' = 1.
Proof.
  assert (Hok : forall l b, from_size_align (size l) (align l) = Some l ->
    0 <= size l <= b -> is_power_of_two b = true -> b < 2 ^ 64 -> request_ok l b).
  { intros l b Hl Hs Hp Hb. split; [split; [lia|exact Hl]|]. right. split; [exact Hp|lia]. }
  eexists.
  assert (Hrun : rtc client_step (Bump.init Bump.new 0x1000 0x2000, [])
                   (Bump.mkBump 0x1000 0x2000 0x1180 1, [(0x1100, 0x80)])).
  { eapply rtc_l; [apply (client_alloc _ _ (mkLayout 0x30 0x10) 0x100 0x1000);
      [apply Hok; simpl; first [reflexivity | lia]|vm_compute; reflexivity|done]|].
    eapply rtc_l; [apply (client_alloc _ _ (mkLayout 0x80 0x100) 0x100 0x1100);
      [apply Hok; simpl; first [reflexivity | lia]|vm_compute; reflexivity|done]|].
    eapply rtc_l; [|apply rtc_refl].
    apply (client_dealloc _ _ (mkLayout 0x30 0x10) 0x1000);
      [simpl; apply perm_swap|vm_compute; reflexivity]. }
  split; [exact Hrun|].
  apply (bump_refines_allocator Bump.new 0x1000 0x2000 _ _ ltac:(lia) eq_refl Hrun).
Defined.

(** When the clients have given back every block, the bump allocator is in the
    state [init] left it in: the whole heap can be allocated again. *)
Theorem bump_reclaims_all a lo hi a' :
  0 < lo < 2 ^ 64 -> Bump.n_allocations a = 0 ->
  rtc client_step (Bump.init a lo hi, []) (a', []) ->
  a' = Bump.init a lo hi.
Proof.
  intros Hlo Ha Hrun.
  pose proof (BumpFacts.bump_init_inv a lo hi Hlo Ha) as Hinv.
  destruct (client_run_refines (Spec := BumpFacts.bump_spec) _ _ _ _ Hinv Hrun) as (Hinv' & Hl & Hh & _).
  simpl in *. destruct (bump_inv_nil a' Hinv') as [Heq Hn].
  rewrite Heq, Hl, Hh. unfold Bump.init. simpl. by rewrite Hn, Ha.
Qed.

Lemma bump_reclaims_all_witness :
  exists a', Bump.dealloc (Bump.mkBump 0x1000 0x2000 0x1030 1) 0x1000 (mkLayout 0x30 0x10)
               = Ret a' /\
             a' = Bump.init Bump.new 0x1000 0x2000.
Proof.
  eexists. split; [vm_compute; reflexivity|].
  apply (bump_reclaims_all Bump.new 0x1000 0x2000); [lia|reflexivity|].
  eapply rtc_l; [apply (client_alloc _ _ (mkLayout 0x30 0x10) 0 0x1000);
    [split; [split; [simpl; lia|reflexivity]|by left]|vm_compute; reflexivity|done]|].
  eapply rtc_l; [|apply rtc_refl].
  apply (client_dealloc _ _ (mkLayout 0x30 0x10) 0x1000);
    [simpl; reflexivity|vm_compute; reflexivity].
Defined.

(** An array allocated through the interface.  Whatever the implementation of
    [BoundaryAlloc], when [alloc_array_with_boundary_with_default_else] succeeds the
    array has the length asked for, every element holds the default value, no
    other cell changed, and the array is an aligned block of the heap that overlaps
    no live block and crosses no boundary; when it fails nothing changed. *)
Theorem alloc_array_initialised {A T : Type} `{BA : BoundaryAlloc A} `{!BoundaryAllocSpec A}
    (size_of len alignment boundary : Z) (default : T) a live mem r a' mem' :
  ba_inv a live -> 0 <= len -> 0 <= size_of ->
  (boundary = 0 \/ is_power_of_two boundary = true /\ len * size_of <= boundary < 2 ^ 64) ->
  alloc_array_with_boundary_with_default_else size_of a mem len alignment boundary default
    = Ret (r, a', mem') ->
  match r with
  | Err _ => mem' = mem /\ ba_inv a' live
  | Ok (ptr, n) =>
      n = len /\ ptr <> 0 /\ ba_inv a' ((ptr, len * size_of) :: live) /\
      fits (ba_lo a) (mkLayout (len * size_of) alignment) boundary ptr /\
      ptr + len * size_of <= ba_hi a /\
      Forall (disjoint_blocks (ptr, len * size_of)) live /\
      (forall p, mem' !! p = if decide (p ∈ elements_at size_of ptr (Z.to_nat len))
                             then Some default else mem !! p)
  end.
Proof.
  intros Hinv Hlen Hsz Hb Hrun.
  apply bind_Ret_inv in Hrun as ([u a1] & Halloc & Hrun).
  eapply alloc_array_with_boundary_ok in Halloc; [|done..].
  destruct u as [[ptr n]|e]; [|by simplify_eq/=].
  destruct Halloc as (-> & ? & ? & ? & ? & ?). simplify_eq/=. split_and!; auto.
  intros p. apply fold_left_insert.
Qed.

Lemma alloc_array_initialised_witness :
  exists mem', alloc_array_with_boundary_with_default_else 4
      (Bump.init Bump.new 0x1001 0x2000) ∅ 3 64 64 7 =
      Ret (Ok (0x1040, 3), Bump.mkBump 0x1001 0x2000 0x104c 1, mem') /\
    mem' !! 0x1048 = Some 7.
Proof.
  eexists. split; [vm_compute; reflexivity|].
  refine (eq_trans (proj2 (proj2 (proj2 (proj2 (proj2 (proj2 (alloc_array_initialised
    (A := Bump.BumpAllocator) (T := Z) 4 3 64 64 7 (Bump.init Bump.new 0x1001 0x2000) []
    ∅ (Ok (0x1040, 3)) (Bump.mkBump 0x1001 0x2000 0x104c 1) _ _ _ _ _ _))))))
    0x1048) _).
  - apply BumpFacts.bump_init_inv; [lia|reflexivity].
  - lia.
  - lia.
  - right. split; [reflexivity|lia].
  - vm_compute; reflexivity.
  - vm_compute; reflexivity.
Defined.

(** C31: the fixed-length allocator implements the same abstract allocator over its
    array, and keeps every live block below its index [next], which stays inside
    the array. *)
Theorem fixed_refines_allocator base SIZE a' live :
  0 < base -> 0 <= SIZE -> base + SIZE < 2 ^ 64 ->
  rtc client_step (FixedLength.new base SIZE, []) (a', live) ->
  rtc (alloc_spec base (base + SIZE)) [] live /\ pairwise_disjoint live /\
  Forall (fun b => base <= b.1 /\ b.1 + b.2 <= base + FixedLength.next a') live /\
  0 <= FixedLength.next a' <= SIZE.
Proof.
  intros Hbase Hsz Hend Hrun.
  assert (Hinv : FixedLength.inv (FixedLength.new base SIZE) []).
  { unfold FixedLength.inv. simpl. split_and!; auto; lia. }
  destruct (client_run_refines (Spec := FixedFacts.fixed_spec) _ _ _ _ Hinv Hrun)
    as (Hinv' & Hlo & Hhi & Hspec).
  simpl in *. destruct Hinv' as (_ & ? & _ & _ & ? & Hin & Hdis). split_and!; auto; [|lia].
  eapply Forall_impl; [exact Hin|]. simpl. lia.
Qed.

Lemma fixed_refines_allocator_witness :
  FixedLength.alloc (FixedLength.new 0x1001 0x800) (mkLayout 24 8) 0
    = Ret (0x1008, FixedLength.mkFixed 0x1001 0x800 31) /\
  pairwise_disjoint [(0x1008, 24)].
Proof.
  split; [vm_compute; reflexivity|].
  apply (fixed_refines_allocator 0x1001 0x800 (FixedLength.mkFixed 0x1001 0x800 31)
    [(0x1008, 24)]); [lia|lia|lia|].
  eapply rtc_l; [|apply rtc_refl].
  apply (client_alloc _ _ (mkLayout 24 8) 0 0x1008);
    [split; [split; [simpl; lia|reflexivity]|by left]|vm_compute; reflexivity|done].
Defined.
