(* ===== verification/UnitTests.v ===== *)
(** UnitTests: the unit tests of the allocators ([kernel-lib/src/allocator.rs] and the two files of its
    allocators), with what the random numbers give as an argument: what they check holds of every
    allocator that keeps the promise [BoundaryAllocSpec], as far as it grants what they ask for. *)
From S2P Require Import Prelude Allocator.

(** * The random test *)

(** What a turn draws: an alignment, a size and, with a probability of 0.99, a boundary. *)
Record Draw := mkDraw { d_alignment : Z; d_size : Z; d_boundary : option Z }.

(** [gen_range]. *)
Definition drawn (upper_bound : Z) (d : Draw) : Prop :=
  1 <= d_alignment d < upper_bound /\ 0 <= d_size d < upper_bound /\
  match d_boundary d with Some b => d_size d <= b < upper_bound | None => True end.

(** [2i32.pow(x.ilog2()) as usize]. *)
Definition ilog2 (x : Z) : outcome Z := if 0 <? x then Ret (Z.log2 x) else Panic.
Definition pow2_i32 (n : Z) : outcome Z := if n <? 31 then Ret (2 ^ n) else Panic.
Definition power_below (x : Z) : outcome Z := n ← ilog2 x; pow2_i32 n.

Definition draw_boundary (d : Draw) : outcome Z :=
  match d_boundary d with
  | Some b =>
      boundary ← power_below b;
      if boundary <? d_size d then mul_w 64 boundary 2 else Ret boundary
  | None => Ret 0
  end.

(** The check that a block stays within its boundary. *)
Definition check_boundary (ptr size boundary : Z) : outcome unit :=
  if boundary =? 0 then Ret tt
  else
    prev_boundary ← sub_w ptr (ptr mod boundary);
    if prev_boundary <=? ptr then
      fin ← add_w 64 ptr size;
      last ← sub_w fin 1;
      next_boundary ← add_w 64 prev_boundary boundary;
      assert (last <? next_boundary)
    else Panic.

Section random.
Context {A : Type} `{BA : BoundaryAlloc A}.

Definition huge_times_turn (d : Draw) (allocator : A) : outcome A :=
  alignment ← power_below (d_alignment d);
  boundary ← draw_boundary d;
  layout ← unwrap (from_size_align (d_size d) alignment);
  '(ptr, allocator) ← ba_alloc allocator layout boundary;
  _ ← assert (ptr mod alignment =? 0);
  _ ← check_boundary ptr (d_size d) boundary;
  layout ← unwrap (from_size_align (d_size d) alignment);
  ba_dealloc allocator ptr layout.

(** [alloc_huge_times_template]: a draw for each turn. *)
Fixpoint alloc_huge_times_template (draws : list Draw) (allocator : A) : outcome A :=
  match draws with
  | [] => Ret allocator
  | d :: draws => allocator ← huge_times_turn d allocator; alloc_huge_times_template draws allocator
  end.

End random.

(** The tests of the two allocators: they make [TEST_SIZE / 1024] turns. *)
Definition TEST_SIZE : Z := 100 * 1024.
Definition UPPER_BOUND : Z := 1000.

Definition bump_for_test (heap : Z) : Bump.BumpAllocator := Bump.init Bump.new heap (heap + TEST_SIZE).
Definition fixed_for_test (heap_ptr : Z) : FixedLength.FixedLengthAllocator := FixedLength.new heap_ptr TEST_SIZE.

Definition bump_alloc_huge_times (heap : Z) (draws : list Draw) : outcome Bump.BumpAllocator :=
  alloc_huge_times_template draws (bump_for_test heap).
Definition fixed_alloc_huge_times (heap_ptr : Z) (draws : list Draw) : outcome FixedLength.FixedLengthAllocator :=
  alloc_huge_times_template draws (fixed_for_test heap_ptr).

(** A boundary of 0 has no logarithm. *)
Definition has_log (d : Draw) : bool := bool_decide (d_boundary d <> Some 0).

(** ** What is asked for *)

Lemma power_below_spec x : 0 < x < 1000 ->
  exists p, power_below x = Ret p /\ is_power_of_two p = true /\ p <= x < 2 * p /\ p <= 512.
Proof.
  intros Hx. pose proof (Z.log2_spec x ltac:(lia)) as [Hlo Hhi]. rewrite Z.pow_succ_r in Hhi by apply Z.log2_nonneg.
  assert (Z.log2 x < 10) as Hlog by (apply Z.log2_lt_pow2; lia).
  exists (2 ^ Z.log2 x). unfold power_below, ilog2, pow2_i32.
  rewrite (proj2 (Z.ltb_lt 0 x)) by lia. cbn [mbind outcome_bind].
  rewrite (proj2 (Z.ltb_lt (Z.log2 x) 31)) by lia. split_and!; try lia; [done| |].
  - apply is_power_of_two_spec. exists (Z.log2 x). split; [apply Z.log2_nonneg|done].
  - apply (Z.pow_le_mono_r 2 _ 9); lia.
Qed.

(** The layout and the boundary of a draw. *)
Record asked (d : Draw) (l : Layout) (boundary : Z) : Prop := {
  ask_alignment : power_below (d_alignment d) = Ret (align l);
  ask_size : size l = d_size d;
  ask_boundary : draw_boundary d = Ret boundary;
  ask_layout : from_size_align (d_size d) (align l) = Some l;
  ask_ok : request_ok l boundary;
  ask_small : 0 <= size l < 1000;
  ask_align : 0 < align l <= 512 /\ (align l | 1024);
  ask_window : 0 <= boundary <= 1024 /\ (boundary = 0 \/ (boundary | 1024));
}.

Lemma power_divides p : is_power_of_two p = true -> p <= 1024 -> (p | 1024).
Proof. intros Hp Hle. by apply power_of_two_divide. Qed.

Lemma double_power p : is_power_of_two p = true -> is_power_of_two (p * 2) = true.
Proof.
  rewrite !is_power_of_two_spec. intros (k & Hk & ->). exists (Z.succ k). rewrite Z.pow_succ_r by done. lia.
Qed.

Lemma draw_boundary_spec d : drawn UPPER_BOUND d -> has_log d = true ->
  exists b, draw_boundary d = Ret b /\
    (b = 0 \/ is_power_of_two b = true /\ d_size d <= b /\ b <= 1024 /\ (b | 1024)).
Proof.
  unfold drawn, draw_boundary, UPPER_BOUND. intros (_ & Hs & Hb) Hlog. apply bool_decide_eq_true in Hlog.
  destruct (d_boundary d) as [b|]; [|by exists 0; split; [|left]].
  destruct (power_below_spec b) as (p & -> & Hp & Hle & Hp512); [assert (b <> 0) by congruence; lia|].
  cbn [mbind outcome_bind]. destruct (Z.ltb_spec p (d_size d)).
  - exists (p * 2). rewrite mul_w_Ret by lia. pose proof (double_power _ Hp). split; [done|right].
    split_and!; [done|lia|lia|by apply power_divides; [|lia]].
  - exists p. split; [done|right]. split_and!; [done|lia|lia|by apply power_divides; [|lia]].
Qed.

Lemma draw_asks d : drawn UPPER_BOUND d -> has_log d = true -> exists l boundary, asked d l boundary.
Proof.
  intros Hd Hlog. pose proof Hd as (Ha & Hs & _). unfold UPPER_BOUND in Ha, Hs.
  destruct (power_below_spec (d_alignment d)) as (al & Hal & Hp & Hle & H512); [lia|].
  destruct (draw_boundary_spec d Hd Hlog) as (b & Hb & Hcase).
  pose proof (is_power_of_two_pos _ Hp).
  assert (from_size_align (d_size d) al = Some (mkLayout (d_size d) al)) as Hl.
  { unfold from_size_align. rewrite Hp. by rewrite (proj2 (Z.leb_le _ _)) by lia. }
  exists (mkLayout (d_size d) al), b. split; [done|done|done|done| |simpl; lia| |]; simpl.
  - split; [by split; simpl; [lia|]|]. destruct Hcase as [->|(Hpb & ? & ? & _)]; [by left|right; simpl; split; [done|lia]].
  - split; [lia|]. apply power_divides; [done|lia].
  - destruct Hcase as [->|(Hpb%is_power_of_two_pos & _ & ? & ?)]; (split; [lia|tauto]).
Qed.

(** A drawn 0 stops the test. *)
Lemma zero_boundary_panics {A} `{BoundaryAlloc A} d (a : A) : drawn UPPER_BOUND d -> has_log d = false ->
  huge_times_turn d a = Panic.
Proof.
  intros (Ha & _) Hlog. apply bool_decide_eq_false in Hlog. unfold UPPER_BOUND in Ha.
  destruct (power_below_spec (d_alignment d)) as (al & Hal & _); [lia|].
  unfold huge_times_turn. rewrite Hal. cbn [mbind outcome_bind]. unfold draw_boundary.
  destruct (d_boundary d) as [b|]; [|by destruct Hlog]. destruct (decide (b = 0)) as [->|]; [done|].
  destruct Hlog. congruence.
Qed.

(** ** What is checked *)

Lemma check_boundary_passes p sz b : 0 < p -> 0 <= sz -> p + sz + 1024 < 2 ^ 64 -> 0 <= b <= 1024 ->
  (b <> 0 -> no_cross b p sz) -> check_boundary p sz b = Ret tt.
Proof.
  intros Hp Hs Hend Hb Hcross. unfold check_boundary. destruct (Z.eqb_spec b 0) as [|Hz]; [done|]. pose proof Hz as Hne.
  pose proof (Z.mod_pos_bound p b ltac:(lia)). pose proof (Z.mod_le p b ltac:(lia) ltac:(lia)).
  rewrite (sub_w_Ret p (p mod b)) by lia. cbn [mbind outcome_bind]. rewrite (proj2 (Z.leb_le (p - p mod b) p)) by lia.
  rewrite (add_w_Ret 64 p sz) by lia. cbn [mbind outcome_bind]. rewrite (sub_w_Ret (p + sz) 1) by lia.
  cbn [mbind outcome_bind]. rewrite (add_w_Ret 64 (p - p mod b) b) by lia. cbn [mbind outcome_bind].
  assert (p + sz - 1 < p - p mod b + b) as Hlt; [|by rewrite (proj2 (Z.ltb_lt _ _) Hlt)].
  destruct (decide (p - p mod b + b < p + sz)); [|lia].
  destruct (Hcross Hne (p - p mod b + b)); [|lia].
  exists (p / b + 1). pose proof (Z.div_mod p b Hz). lia.
Qed.

(** An allocator that keeps its promise passes the checks of a turn, whenever it grants the block. *)
Lemma turn_checks {A} `{BA : BoundaryAlloc A} `{Spec : !BoundaryAllocSpec A} (a a' : A) live d l boundary p :
  ba_inv a live -> asked d l boundary -> 0 < ba_lo a -> ba_hi a + 1024 < 2 ^ 64 ->
  ba_alloc a l boundary = Ret (p, a') -> p <> 0 -> huge_times_turn d a = ba_dealloc a' p l.
Proof.
  intros Hinv [Hal Hsz Hbd Hlay Hok [Hs _] [Ha _] [Hb _]] Hlo Hhi Halloc Hp. unfold huge_times_turn.
  rewrite Hal. cbn [mbind outcome_bind]. rewrite Hbd. cbn [mbind outcome_bind]. rewrite Hlay.
  cbn [unwrap mbind outcome_bind]. rewrite Halloc. cbn [mbind outcome_bind].
  destruct (ba_alloc_ok a live l boundary p a' Hinv Hok Halloc) as (_ & [[? _]|(_ & _ & (Hge & Hdiv & Hcross) & Hend & _)]);
    [done|].
  apply Z.mod_divide in Hdiv; [|lia]. rewrite Hdiv. cbn [Z.eqb assert mbind outcome_bind].
  by rewrite check_boundary_passes by (rewrite <- ?Hsz; (done || lia)).
Qed.

(** A bump allocator is as it was after each turn. *)
Lemma bump_turn heap d : 0 < heap -> heap + TEST_SIZE + 1024 < 2 ^ 64 -> drawn UPPER_BOUND d -> has_log d = true ->
  huge_times_turn d (bump_for_test heap) = Ret (bump_for_test heap).
Proof.
  intros Hheap Hend Hd Hlog. destruct (draw_asks d Hd Hlog) as (l & b & Hask). unfold TEST_SIZE in Hend.
  pose proof Hask as [_ _ _ _ Hok [? ?] [[? ?] _] [[? ?] _]].
  destruct (BumpFacts.bump_alloc_room (bump_for_test heap) l b Hok) as (Halloc & Hp & _);
    [unfold bump_for_test, Bump.init, TEST_SIZE; cbn [Bump.heap_end Bump.next Bump.n_allocations Bump.new]; lia..|].
  simpl in Hp. assert (Bump.inv (bump_for_test heap) []) as Hinv by (apply BumpFacts.bump_init_inv; [lia|done]).
  rewrite (turn_checks (Spec := BumpFacts.bump_spec) (bump_for_test heap) _ [] d l b _ Hinv Hask Hheap ltac:(simpl; unfold TEST_SIZE; lia) Halloc);
    [reflexivity|simpl; lia].
Qed.

(** The fixed-length allocator, on an array at a multiple of 1024, needs 1024 bytes for a turn. *)
Lemma fixed_alloc_room a i l b : (1024 | FixedLength.heap_ptr a) -> 0 < FixedLength.heap_ptr a ->
  FixedLength.heap_ptr a + FixedLength.SIZE a + 2048 <= 2 ^ 64 ->
  0 <= FixedLength.next a <= 1024 * i -> 1024 * (i + 1) <= FixedLength.SIZE a ->
  request_ok l b -> 0 <= size l < 1000 -> 0 < align l <= 512 /\ (align l | 1024) ->
  0 <= b <= 1024 /\ (b = 0 \/ (b | 1024)) ->
  exists p a', FixedLength.alloc a l b = Ret (p, a') /\ p <> 0 /\
    FixedLength.heap_ptr a' = FixedLength.heap_ptr a /\ FixedLength.SIZE a' = FixedLength.SIZE a /\
    0 <= FixedLength.next a' <= 1024 * (i + 1).
Proof.
  intros Hal Hpos Hend Hnext Hsize Hreq Hsz [Hbnd Hdiv] [Hb Hbdiv]. set (from := FixedLength.heap_ptr a + FixedLength.next a).
  set (q := FixedLength.heap_ptr a + 1024 * i).
  destruct (placement_least from l b Hreq) as ((Hge & _ & _) & Hleast & Hlt).
  assert (1024 | q) as Hq by (by apply Z.divide_add_r; [|apply Z.divide_factor_l]).
  assert (placement from l b <= q) as Hle.
  { destruct (decide (size l = 0)) as [Hz|Hnz].
    - destruct (round_up_spec from (align l)) as (_ & Hup & Hr); [lia|].
      assert (placement from l b = round_up from (align l)) as ->.
      { unfold placement. cbv zeta. destruct (Z.ltb_spec 0 b); [|done].
        destruct (round_up_spec (round_up from (align l)) b) as (_ & Hup' & _); [done|].
        rewrite (proj2 (Z.ltb_ge _ _)); [done|lia]. }
      apply Hr; [unfold from, q; lia|by transitivity 1024].
    - apply Hleast; [lia|]. split; [unfold from, q; lia|]. split; [by transitivity 1024|]. intros Hb0 m Hm Hin.
      destruct Hbdiv as [?|Hbdiv]; [done|]. destruct Hreq as [_ [?|[_ [Hsb _]]]]; [done|].
      pose proof (divide_next b q m ltac:(lia) ltac:(by transitivity 1024) Hm ltac:(lia)). lia. }
  destruct (round_up_spec from (align l)) as (_ & Hup & _); [lia|].
  exists (placement from l b). unfold FixedLength.alloc, FixedLength.heap_range, FixedLength.heap_end. fold from.
  assert ((b =? 0) || is_power_of_two b = true) as ->.
  { destruct Hreq as [_ [->|[-> _]]]; [done|apply orb_true_r]. }
  cbn [assert mbind outcome_bind]. rewrite align_and_boundary_to_eq by (done || unfold from; lia).
  unfold from, q in *. rewrite decide_True by lia. cbv zeta. rewrite decide_False, !decide_True by lia.
  cbn [mbind outcome_bind]. rewrite add_w_Ret by lia. cbn [mbind outcome_bind].
  rewrite (proj2 (Z.leb_gt _ _)) by lia. cbn [fst mbind outcome_bind]. rewrite sub_w_Ret by lia.
  eexists. split; [reflexivity|]. simpl. split_and!; (done || lia).
Qed.

Lemma fixed_turn a i live d : (1024 | FixedLength.heap_ptr a) -> FixedLength.inv a live ->
  FixedLength.heap_ptr a + FixedLength.SIZE a + 2048 <= 2 ^ 64 ->
  FixedLength.next a <= 1024 * i -> 1024 * (i + 1) <= FixedLength.SIZE a ->
  drawn UPPER_BOUND d -> has_log d = true ->
  exists a' live', huge_times_turn d a = Ret a' /\ FixedLength.inv a' live' /\
    FixedLength.heap_ptr a' = FixedLength.heap_ptr a /\ FixedLength.SIZE a' = FixedLength.SIZE a /\
    FixedLength.next a' <= 1024 * (i + 1).
Proof.
  intros Hal Hinv Hend Hnext Hsize Hd Hlog. destruct (draw_asks d Hd Hlog) as (l & b & Hask).
  pose proof Hask as [_ _ _ _ Hok Hs Ha Hb]. pose proof Hinv as (Hpos & Hn0 & _).
  destruct (fixed_alloc_room a i l b Hal Hpos Hend (conj Hn0 Hnext) Hsize Hok Hs Ha Hb)
    as (p & a' & Halloc & Hp & Hptr & Hsz & Hn').
  exists a', ((p, size l) :: live).
  rewrite (turn_checks (Spec := FixedFacts.fixed_spec) a a' live d l b p Hinv Hask Hpos ltac:(simpl; lia) Halloc Hp).
  split; [reflexivity|]. split; [|by rewrite Hptr, Hsz; split_and!; lia].
  by destruct (FixedFacts.fixed_alloc_ok a live l b p a' Hinv Hok Halloc) as (_ & [[? _]|(_ & ? & _)]).
Qed.

(** The random test of the allocators checks what they promise.  For every array of 100 KiB that
    is not at the very end of the address space, and all numbers drawn: the test of the bump allocator
    passes, and leaves the allocator as it found it, unless a boundary of 0 is drawn for a block of size
    0, which has no logarithm: then it panics; the same holds of the fixed-length allocator on an array
    at a multiple of 1024, for at most as many turns as the test makes. *)
Theorem alloc_huge_times_outcome heap draws :
  0 < heap -> heap + TEST_SIZE + 2048 <= 2 ^ 64 -> Forall (drawn UPPER_BOUND) draws ->
  bump_alloc_huge_times heap draws = (if forallb has_log draws then Ret (bump_for_test heap) else Panic) /\
  ((1024 | heap) -> Z.of_nat (length draws) <= TEST_SIZE / 1024 ->
   if forallb has_log draws then exists a, fixed_alloc_huge_times heap draws = Ret a
   else fixed_alloc_huge_times heap draws = Panic).
Proof.
  intros Hheap Hend Hdraws. split.
  - unfold bump_alloc_huge_times. induction Hdraws as [|d draws Hd _ IH]; [done|].
    cbn [alloc_huge_times_template forallb]. destruct (has_log d) eqn:Hlog.
    + rewrite bump_turn by (done || lia). exact IH.
    + by rewrite zero_boundary_panics.
  - intros Hal. change (TEST_SIZE / 1024) with 100. unfold fixed_alloc_huge_times.
    assert (forall i (a : FixedLength.FixedLengthAllocator) live, FixedLength.heap_ptr a = heap ->
      FixedLength.SIZE a = TEST_SIZE -> FixedLength.inv a live -> 0 <= i -> FixedLength.next a <= 1024 * i ->
      i + Z.of_nat (length draws) <= 100 ->
      if forallb has_log draws then exists a', alloc_huge_times_template draws a = Ret a'
      else alloc_huge_times_template draws a = Panic) as Hgo.
    { induction Hdraws as [|d draws Hd _ IH]; intros i a live Hptr Hsize Hinv Hi Hn Hlen; [by exists a|].
      cbn [alloc_huge_times_template forallb length] in *. unfold TEST_SIZE in *.
      destruct (has_log d) eqn:Hlog; [|by rewrite zero_boundary_panics].
      destruct (fixed_turn a i live d) as (a' & live' & -> & Hinv' & Hptr' & Hsize' & Hn'); try congruence; try lia.
      cbn [andb mbind outcome_bind]. apply (IH (i + 1) a' live'); (congruence || lia || done). }
    intros Hlen. apply (Hgo 0 _ []); (done || lia || idtac).
    unfold FixedLength.inv, fixed_for_test, FixedLength.new, TEST_SIZE in *. simpl. split_and!; (done || lia || constructor).
Qed.

(** * The tests with fixed numbers *)

(** [assert_eq!] on numbers. *)
Definition assert_eq (x y : Z) : outcome unit := assert (x =? y).

Lemma assert_eq_refl x : assert_eq x x = Ret tt.
Proof. unfold assert_eq. by rewrite Z.eqb_refl. Qed.

Definition ceil_test : outcome unit :=
  x ← ceil 100 4; _ ← assert_eq x 100;
  x ← ceil 101 4; assert_eq x 104.

Definition align_and_boundary_to_test : outcome unit :=
  layout ← unwrap (from_size_align 0x100 0x2000);
  r ← align_and_boundary_to 0x1111 layout 0x400;
  match r with Ok (s, e) => _ ← assert_eq s 0x2000; assert_eq e 0x2100 | Err _ => Panic end.

(** The fixed-length allocator, wherever its array of [SIZE] bytes lies. *)
Section fixed.
Context (heap_ptr : Z).

(** The steps of [alignment_test]: the block lies behind the one before it. *)
Definition aligned_block (a : FixedLength.FixedLengthAllocator) (before sz al : Z) :
    outcome (Z * FixedLength.FixedLengthAllocator) :=
  layout ← unwrap (from_size_align sz al);
  '(ptr, a) ← global_alloc a layout;
  _ ← assert (before <=? ptr);
  _ ← assert (ptr mod al =? 0);
  Ret (ptr, a).

Definition alignment_test : outcome unit :=
  let allocator := FixedLength.new heap_ptr 2048 in
  '(ptr1, allocator) ← aligned_block allocator 0 3 4;
  '(ptr2, allocator) ← aligned_block allocator (ptr1 + 3) 1024 64;
  '(ptr3, allocator) ← aligned_block allocator (ptr2 + 1024) 64 512;
  Ret tt.

(** The steps of [boundary_test]. *)
Definition bounded_block (a : FixedLength.FixedLengthAllocator) (boundary al sz : Z) :
    outcome FixedLength.FixedLengthAllocator :=
  layout ← unwrap (from_size_align sz al);
  '(ptr, a) ← ba_alloc a layout boundary;
  _ ← assert (ptr mod al =? 0);
  _ ← check_boundary ptr sz boundary;
  Ret a.

Definition boundary_test : outcome unit :=
  let allocator := FixedLength.new heap_ptr 2048 in
  allocator ← bounded_block allocator 4 4 3;
  allocator ← bounded_block allocator 2048 64 1024;
  allocator ← bounded_block allocator 512 512 64;
  Ret tt.

(** An array of [len] values of [size_of] bytes in [alloc_array_test], within its boundary: its start,
    its end and its length. *)
Definition array_block (a : FixedLength.FixedLengthAllocator) (size_of len al boundary : Z) :
    outcome (Z * Z * Z * FixedLength.FixedLengthAllocator) :=
  '(r, a) ← alloc_array_with_boundary size_of a len al boundary;
  match r with
  | Err _ => Panic
  | Ok (start_ptr, n) =>
      _ ← check_boundary start_ptr (n * size_of) boundary;
      Ret (start_ptr, start_ptr + n * size_of, n, a)
  end.

(** The alignment that is checked second is that of the first array. *)
Definition alloc_array_test : outcome unit :=
  let allocator := FixedLength.new heap_ptr 4096 in
  '(start_ptr, end_ptr, n, allocator) ← array_block allocator 8 100 64 1024;
  _ ← assert (start_ptr mod 64 =? 0);
  _ ← assert_eq n 100;
  '(start_ptr2, end_ptr2, n2, allocator) ← array_block allocator 8 100 4 1024;
  _ ← assert (start_ptr mod 4 =? 0);
  _ ← assert_eq n2 100;
  _ ← assert (end_ptr <=? start_ptr2);
  '(start_ptr3, end_ptr3, n3, allocator) ← array_block allocator 1 1024 1024 1024;
  _ ← assert (start_ptr3 mod 1024 =? 0);
  _ ← assert_eq n3 1024;
  assert (end_ptr2 <=? start_ptr3).

End fixed.

(** ** What they show *)

Lemma numbers_tests_pass : ceil_test = Ret tt /\ align_and_boundary_to_test = Ret tt.
Proof. by split; vm_compute. Qed.

(** What the fixed-length allocator gives as long as it lasts. *)
Lemma fixed_grants a l b : request_ok l b -> 0 <= FixedLength.heap_ptr a -> 0 <= FixedLength.next a ->
  let from := FixedLength.heap_ptr a + FixedLength.next a in
  from + align l + b + size l < FixedLength.heap_ptr a + FixedLength.SIZE a < 2 ^ 64 ->
  exists p, FixedLength.alloc a l b = Ret (p, FixedLength.mkFixed (FixedLength.heap_ptr a) (FixedLength.SIZE a)
      (p + size l - FixedLength.heap_ptr a)) /\
    from <= p < from + align l + b /\ (align l | p).
Proof.
  intros Hreq Hh Hn from Hroom. destruct (placement_least from l b Hreq) as ((Hge & Hal & _) & _ & Hlt).
  pose proof Hreq as [(Hs & _ & Ha & _)%layout_ok_inv Hb]. destruct (round_up_spec from (align l) Ha) as (_ & Hup & _).
  assert (0 <= b) by (destruct Hb as [->|[_ ?]]; lia).
  exists (placement from l b). unfold FixedLength.alloc, FixedLength.heap_range, FixedLength.heap_end. fold from.
  assert ((b =? 0) || is_power_of_two b = true) as -> by (destruct Hb as [->|[-> _]]; [done|apply orb_true_r]).
  cbn [assert mbind outcome_bind]. rewrite align_and_boundary_to_eq by (done || unfold from; lia).
  rewrite decide_True by lia. cbv zeta. rewrite decide_False, !decide_True by lia. cbn [mbind outcome_bind].
  rewrite add_w_Ret by lia. cbn [mbind outcome_bind]. rewrite (proj2 (Z.leb_gt _ _)) by lia.
  cbn [fst mbind outcome_bind]. rewrite sub_w_Ret by (unfold from in *; lia). done.
Qed.

Lemma aligned_block_passes a before sz al : is_power_of_two al = true -> 0 <= sz <= 2 ^ 63 - al ->
  0 <= FixedLength.heap_ptr a -> 0 <= FixedLength.next a ->
  let from := FixedLength.heap_ptr a + FixedLength.next a in
  before <= from -> from + al + sz < FixedLength.heap_ptr a + FixedLength.SIZE a < 2 ^ 64 ->
  exists p, aligned_block a before sz al = Ret (p, FixedLength.mkFixed (FixedLength.heap_ptr a) (FixedLength.SIZE a)
      (p + sz - FixedLength.heap_ptr a)) /\ from <= p < from + al.
Proof.
  intros Hal Hsz Hh Hn from Hbefore Hroom. pose proof (is_power_of_two_pos _ Hal).
  assert (from_size_align sz al = Some (mkLayout sz al)) as Hl.
  { unfold from_size_align. rewrite Hal. by rewrite (proj2 (Z.leb_le _ _)) by lia. }
  destruct (fixed_grants a (mkLayout sz al) 0) as (p & Halloc & Hp & Hdiv);
    [split; [by split; simpl; [lia|]|by left]|done|done|simpl; lia|].
  exists p. unfold aligned_block. rewrite Hl. cbn [unwrap mbind outcome_bind]. unfold global_alloc.
  change (ba_alloc a (mkLayout sz al) 0) with (FixedLength.alloc a (mkLayout sz al) 0). rewrite Halloc.
  cbn [mbind outcome_bind]. rewrite (proj2 (Z.leb_le _ _)) by lia. cbn [assert mbind outcome_bind].
  apply Z.mod_divide in Hdiv; [|simpl; lia]. simpl in Hdiv, Hp. rewrite Hdiv. split; [done|lia].
Qed.

(** The alignments are right and there is room wherever the array lies. *)
Lemma alignment_test_passes heap_ptr : 0 <= heap_ptr -> heap_ptr + 2048 < 2 ^ 64 -> alignment_test heap_ptr = Ret tt.
Proof.
  intros Hh Hend. unfold alignment_test. set (a := FixedLength.new heap_ptr 2048).
  destruct (aligned_block_passes a 0 3 4) as (p1 & -> & Hp1); [done|unfold a; simpl; lia..|].
  cbn [mbind outcome_bind]. unfold a, FixedLength.new in *. simpl in *.
  match goal with |- context [aligned_block ?a ?b 1024 64] =>
    destruct (aligned_block_passes a b 1024 64) as (p2 & -> & Hp2) end; [done|simpl; lia..|].
  cbn [mbind outcome_bind]. simpl in *.
  match goal with |- context [aligned_block ?a ?b 64 512] =>
    destruct (aligned_block_passes a b 64 512) as (p3 & -> & Hp3) end; [done|simpl; lia..|done].
Qed.

(** Whether [boundary_test] passes depends on where the array lies: its boundaries of 2048 bytes are
    wider than what is left of the array.  [alloc_array_test] has room enough. *)
Lemma boundary_test_depends : boundary_test 0x7fff0000 = Ret tt /\ boundary_test 0x7fff0400 = Panic.
Proof. by split; vm_compute. Qed.

Lemma alloc_array_test_passes : forallb (fun i => match alloc_array_test (0x7fff0000 + 8 * Z.of_nat i) with
  | Ret _ => true | _ => false end) (seq 0 512) = true.
Proof. by vm_compute. Qed.

(** * The test with values *)

(** The [Vec<usize, _>] of the test, which never grows beyond its capacity: without capacity it has no
    block and a dangling pointer.  The memory has the numbers by their addresses. *)
Record VecUsize := mkVec { v_ptr : Z; v_capacity : Z; v_len : Z }.

Section values.
Context {A : Type} `{BA : BoundaryAlloc A}.

(** A block from the allocator; a failure to allocate ends the program. *)
Definition allocate_block (a : A) (sz : Z) : outcome (Z * A) :=
  layout ← unwrap (from_size_align sz 8);
  '(r, a) ← allocate a layout;
  match r with Ok (p, _) => Ret (p, a) | Err _ => Panic end.

Definition free_block (a : A) (ptr sz : Z) : outcome A :=
  layout ← unwrap (from_size_align sz 8); deallocate a ptr layout.

Definition with_capacity_in (n : Z) (a : A) : outcome (VecUsize * A) :=
  if n =? 0 then Ret (mkVec 8 0 0, a)
  else '(p, a) ← allocate_block a (8 * n); Ret (mkVec p n 0, a).

Definition drop_vec (v : VecUsize) (a : A) : outcome A :=
  if v_capacity v =? 0 then Ret a else free_block a (v_ptr v) (8 * v_capacity v).

Definition vec_push (x : Z) (vm : VecUsize * gmap Z Z) : outcome (VecUsize * gmap Z Z) :=
  let '(v, mem) := vm in
  _ ← assert (v_len v <? v_capacity v);
  Ret (mkVec (v_ptr v) (v_capacity v) (v_len v + 1), <[v_ptr v + 8 * v_len v := x]> mem).

Definition vec_index (v : VecUsize) (mem : gmap Z Z) (j : Z) : outcome Z :=
  _ ← assert (j <? v_len v); unwrap (mem !! (v_ptr v + 8 * j)).

(** [for j in 0..i { vec.push(j); }]. *)
Definition push_all (i : Z) (v : VecUsize) (mem : gmap Z Z) : outcome (VecUsize * gmap Z Z) :=
  for_range 0 i vec_push (v, mem).

(** The loop over [vec.into_iter().enumerate()]. *)
Definition check_values (v v2 : VecUsize) (mem : gmap Z Z) : outcome unit :=
  for_range 0 (v_len v) (fun j _ =>
    x ← vec_index v mem j; _ ← assert_eq x j;
    x ← vec_index v2 mem j; assert_eq x j) tt.

(** A turn: the iterator, the box and [vec2] are dropped in this order. *)
Definition value_turn (i : Z) (am : A * gmap Z Z) : outcome (A * gmap Z Z) :=
  let '(a, mem) := am in
  '(v, a) ← with_capacity_in i a;
  '(v2, a) ← with_capacity_in i a;
  '(one, a) ← allocate_block a 8;
  let mem := <[one := 1]> mem in
  '(v, mem) ← push_all i v mem;
  '(v2, mem) ← push_all i v2 mem;
  _ ← assert_eq (v_len v) i;
  _ ← check_values v v2 mem;
  a ← drop_vec v a;
  x ← unwrap (mem !! one);
  _ ← assert_eq x 1;
  a ← free_block a one 8;
  a ← drop_vec v2 a;
  Ret (a, mem).

Definition alloc_huge_times_with_value_template (n_times : Z) (a : A) (mem : gmap Z Z) : outcome (A * gmap Z Z) :=
  for_range 0 n_times value_turn (a, mem).

(** ** Lemmas *)

(** A vector with the numbers below its length. *)
Definition holds (v : VecUsize) (mem : gmap Z Z) : Prop :=
  forall j, 0 <= j < v_len v -> mem !! (v_ptr v + 8 * j) = Some j.

Lemma push_all_spec n p mem : 0 <= n -> exists mem', push_all n (mkVec p n 0) mem = Ret (mkVec p n n, mem') /\
  holds (mkVec p n n) mem' /\ (forall q, q < p \/ p + 8 * n <= q -> mem' !! q = mem !! q).
Proof.
  intros Hn. unfold push_all. destruct (for_range_inv (fun k '(v, m) => v = mkVec p n k /\ holds v m /\
    (forall q, q < p \/ p + 8 * n <= q -> m !! q = mem !! q)) 0 n vec_push (mkVec p n 0, mem))
    as ([v m] & -> & -> & Hh & Ho); [done| | |by exists m].
  - split; [done|]. split; [|done]. intros j Hj. simpl in Hj. lia.
  - intros k [v m] Hk (-> & Hh & Ho). unfold vec_push. cbn [v_len v_capacity v_ptr].
    rewrite (proj2 (Z.ltb_lt k n)) by lia. cbn [assert mbind outcome_bind]. eexists. split; [reflexivity|].
    split; [done|]. split.
    + intros j Hj. unfold holds in Hh. simpl in *. destruct (decide (j = k)) as [->|].
      * by rewrite lookup_insert_eq.
      * rewrite lookup_insert_ne by lia. apply Hh. lia.
    + intros q Hq. rewrite lookup_insert_ne by lia. by apply Ho.
Qed.

Lemma check_values_spec v v2 mem : 0 <= v_len v <= v_len v2 -> holds v mem -> holds v2 mem ->
  check_values v v2 mem = Ret tt.
Proof.
  intros Hlen Hv Hv2. unfold check_values. destruct (for_range_inv (fun _ (_ : unit) => True) 0 (v_len v)
    (fun j _ => x ← vec_index v mem j; _ ← assert_eq x j; x ← vec_index v2 mem j; assert_eq x j) tt)
    as ([] & Hr & _); [lia|done| |exact Hr].
  intros j [] Hj _. exists tt. split; [|done]. unfold vec_index.
  rewrite (proj2 (Z.ltb_lt j (v_len v))) by lia. cbn [assert mbind outcome_bind]. rewrite Hv by lia.
  cbn [unwrap mbind outcome_bind]. rewrite assert_eq_refl. cbn [mbind outcome_bind].
  rewrite (proj2 (Z.ltb_lt j (v_len v2))) by lia. cbn [assert mbind outcome_bind]. rewrite Hv2 by lia.
  cbn [unwrap mbind outcome_bind]. apply assert_eq_refl.
Qed.


(** The numbers stay: what is written to one block is not in another. *)
Lemma value_turn_reads (a a1 a2 a3 : A) i mem p p2 one : 0 <= i ->
  with_capacity_in i a = Ret (mkVec p i 0, a1) -> with_capacity_in i a1 = Ret (mkVec p2 i 0, a2) ->
  allocate_block a2 8 = Ret (one, a3) ->
  (i <> 0 -> disjoint_blocks (p2, 8 * i) (p, 8 * i) /\ disjoint_blocks (one, 8) (p, 8 * i) /\
     disjoint_blocks (one, 8) (p2, 8 * i)) ->
  exists mem', value_turn i (a, mem) =
    (a ← drop_vec (mkVec p i i) a3; a ← free_block a one 8; a ← drop_vec (mkVec p2 i i) a; Ret (a, mem')).
Proof.
  intros Hi H1 H2 H3 Hdis. unfold value_turn. rewrite H1. cbn [mbind outcome_bind]. rewrite H2.
  cbn [mbind outcome_bind]. rewrite H3. cbn [mbind outcome_bind].
  destruct (push_all_spec i p (<[one := 1]> mem) Hi) as (m1 & -> & Hh1 & Ho1). cbn [mbind outcome_bind].
  destruct (push_all_spec i p2 m1 Hi) as (m2 & -> & Hh2 & Ho2). cbn [mbind outcome_bind v_len].
  rewrite assert_eq_refl. cbn [mbind outcome_bind].
  unfold disjoint_blocks in Hdis. cbn [fst snd] in Hdis.
  assert (holds (mkVec p i i) m2) as Hh1'.
  { intros j Hj. simpl in *. rewrite Ho2; [by apply Hh1|]. lia. }
  assert (m2 !! one = Some 1) as Hone.
  { destruct (decide (i = 0)) as [->|Hne]; [rewrite Ho2, Ho1 by lia|destruct (Hdis Hne) as (_ & ? & ?); rewrite Ho2, Ho1 by lia];
      by rewrite lookup_insert_eq. }
  rewrite check_values_spec by (done || simpl; lia). cbn [mbind outcome_bind]. exists m2.
  destruct (drop_vec _ a3); cbn [mbind outcome_bind]; [|done..]. rewrite Hone. reflexivity.
Qed.

(** ** Any allocator that keeps its promise and has room *)

Context `{Spec : !BoundaryAllocSpec A}.

Lemma layout_of_words sz : 0 <= sz < 2 ^ 62 -> from_size_align sz 8 = Some (mkLayout sz 8) /\
  request_ok (mkLayout sz 8) 0.
Proof.
  intros Hsz. assert (from_size_align sz 8 = Some (mkLayout sz 8)) as Hl.
  { unfold from_size_align. simpl. by rewrite (proj2 (Z.leb_le _ _)) by lia. }
  split; [done|]. split; [by split; simpl; [lia|]|by left].
Qed.

Lemma allocate_block_inv a live sz p a' : 0 <= sz < 2 ^ 62 -> ba_inv a live ->
  allocate_block a sz = Ret (p, a') -> ba_inv a' ((p, sz) :: live).
Proof.
  intros Hsz Hinv Hr. destruct (layout_of_words sz Hsz) as [Hl Hok]. unfold allocate_block in Hr. rewrite Hl in Hr.
  cbn [unwrap mbind outcome_bind] in Hr. apply bind_Ret_inv in Hr as ([r a0] & Ha & Hr).
  unfold allocate, global_alloc in Ha. apply bind_Ret_inv in Ha as ([ptr a1] & Halloc & [= <- <-]).
  destruct (Z.eqb_spec ptr 0) as [|Hne]; [done|]. injection Hr as <- <-.
  destruct (ba_alloc_ok _ _ _ _ _ _ Hinv Hok Halloc) as (_ & [[? _]|(_ & ? & _)]); done.
Qed.

Lemma free_block_inv a live sz p rest : 0 <= sz < 2 ^ 62 -> ba_inv a live -> live ≡ₚ (p, sz) :: rest ->
  exists a', free_block a p sz = Ret a' /\ ba_inv a' rest.
Proof.
  intros Hsz Hinv Hp. destruct (layout_of_words sz Hsz) as [Hl _]. unfold free_block. rewrite Hl.
  cbn [unwrap mbind outcome_bind]. unfold deallocate, global_dealloc.
  destruct (ba_dealloc_ok a live (mkLayout sz 8) p rest Hinv Hp) as (a' & -> & ? & _). eauto.
Qed.

(** The block of a vector. *)
Definition vec_block (p n : Z) : list block := if n =? 0 then [] else [(p, 8 * n)].

Lemma with_capacity_inv a live n v a' : 0 <= n < 2 ^ 59 -> ba_inv a live -> with_capacity_in n a = Ret (v, a') ->
  exists p, v = mkVec p n 0 /\ ba_inv a' (vec_block p n ++ live).
Proof.
  intros Hn Hinv Hr. unfold with_capacity_in, vec_block in *. destruct (Z.eqb_spec n 0) as [->|].
  - injection Hr as <- <-. by exists 8.
  - apply bind_Ret_inv in Hr as ([p a1] & Hr & [= <- <-]). exists p. split; [done|].
    apply (allocate_block_inv a live (8 * n)); (done || lia).
Qed.

Lemma drop_vec_keeps (P : A -> Prop) v a a' : (forall a p sz a', P a -> free_block a p sz = Ret a' -> P a') ->
  P a -> drop_vec v a = Ret a' -> P a'.
Proof. intros Hfree Ha. unfold drop_vec. destruct (v_capacity v =? 0); [by intros [= <-]|by apply Hfree]. Qed.

Lemma drop_vec_inv a live p n m rest : 0 <= n < 2 ^ 59 -> ba_inv a live -> live ≡ₚ vec_block p n ++ rest ->
  exists a' live', drop_vec (mkVec p n m) a = Ret a' /\ ba_inv a' live' /\ live' ≡ₚ rest.
Proof.
  intros Hn Hinv Hp. unfold drop_vec, vec_block in *. cbn [v_capacity v_ptr] in *. destruct (n =? 0).
  - by exists a, live.
  - destruct (free_block_inv a live (8 * n) p rest) as (a' & ? & ?); [lia|done..|]. by exists a', rest.
Qed.

Lemma value_turn_passes (P : A -> Prop) a a1 a2 a3 i mem v v2 one : 0 <= i < 2 ^ 59 -> ba_inv a [] ->
  (forall a p sz a', P a -> free_block a p sz = Ret a' -> P a') -> P a3 ->
  with_capacity_in i a = Ret (v, a1) -> with_capacity_in i a1 = Ret (v2, a2) -> allocate_block a2 8 = Ret (one, a3) ->
  exists a' mem', value_turn i (a, mem) = Ret (a', mem') /\ ba_inv a' [] /\ P a'.
Proof.
  intros Hi Hinv Hfree HP H1 H2 H3. destruct (with_capacity_inv a [] i v a1) as (p & -> & Hinv1); [done..|].
  destruct (with_capacity_inv a1 _ i v2 a2 Hi Hinv1 H2) as (p2 & -> & Hinv2).
  pose proof (allocate_block_inv a2 _ 8 one a3 ltac:(lia) Hinv2 H3) as Hinv3.
  destruct (value_turn_reads a a1 a2 a3 i mem p p2 one) as (mem' & ->); [lia|done..| |].
  { intros Hne. pose proof (ba_inv_disjoint _ _ Hinv3) as Hdis. unfold vec_block in Hdis.
    rewrite (proj2 (Z.eqb_neq i 0) Hne) in Hdis. simpl in Hdis. rewrite !Forall_cons in Hdis. tauto. }
  destruct (drop_vec_inv a3 _ p i i ((one, 8) :: vec_block p2 i) Hi Hinv3) as (b1 & l1 & Hd1 & Hb1 & Hl1).
  { rewrite app_nil_r, (Permutation_app_comm (vec_block p2 i)). apply Permutation_middle. }
  rewrite Hd1. cbn [mbind outcome_bind].
  destruct (free_block_inv b1 l1 8 one (vec_block p2 i)) as (b2 & Hd2 & Hb2); [lia|done..|].
  rewrite Hd2. cbn [mbind outcome_bind].
  destruct (drop_vec_inv b2 _ p2 i i [] Hi Hb2) as (b3 & l3 & Hd3 & Hb3 & Hl3); [by rewrite app_nil_r|].
  apply Permutation_nil_r in Hl3. subst l3. rewrite Hd3. exists b3, mem'. split; [done|]. split; [done|].
  eapply drop_vec_keeps; [done| |exact Hd3]. eapply Hfree; [|exact Hd2]. by eapply drop_vec_keeps.
Qed.

(** A measure of what is used: a block takes its size and less than 8 bytes of padding, a free nothing. *)
Context (used : A -> Z) (room : Z).
Context (good : A -> Prop).
Context (grants : forall a live sz, good a -> ba_inv a live -> (length live <= 2)%nat -> 0 <= sz < 2 ^ 62 ->
  used a + sz + 8 < room -> exists p a', allocate_block a sz = Ret (p, a') /\ good a' /\ used a' <= used a + sz + 8).
Context (frees : forall a p sz a', good a -> free_block a p sz = Ret a' -> good a' /\ used a' <= used a).

Lemma with_capacity_room a live n : good a -> ba_inv a live -> (length live <= 2)%nat -> 0 <= n < 2 ^ 59 ->
  used a + 8 * n + 8 < room -> exists v a', with_capacity_in n a = Ret (v, a') /\ good a' /\
    used a' <= used a + 8 * n + 8.
Proof.
  intros Hg Hinv Hl Hn Hroom. unfold with_capacity_in. destruct (Z.eqb_spec n 0); [do 2 eexists; split; [done|split; [done|lia]]|].
  destruct (grants a live (8 * n)) as (p & a' & -> & ? & ?); [done|done|done|lia|lia|]. by do 2 eexists.
Qed.

Lemma vec_block_length p n : (length (vec_block p n) <= 1)%nat.
Proof. unfold vec_block. destruct (n =? 0); simpl; lia. Qed.

Lemma value_turn_room a i mem : good a -> ba_inv a [] -> 0 <= i < 2 ^ 59 -> used a + 16 * i + 32 < room ->
  exists a' mem', value_turn i (a, mem) = Ret (a', mem') /\ ba_inv a' [] /\ good a' /\ used a' <= used a + 16 * i + 32.
Proof.
  intros Hg Hinv Hi Hroom.
  destruct (with_capacity_room a [] i) as (v & a1 & H1 & Hg1 & Hu1); [done|done|simpl; lia|lia|lia|].
  destruct (with_capacity_inv a [] i v a1 Hi Hinv H1) as (p & -> & Hinv1). rewrite app_nil_r in Hinv1.
  pose proof (vec_block_length p i) as Hl1.
  destruct (with_capacity_room a1 (vec_block p i) i) as (v2 & a2 & H2 & Hg2 & Hu2); [done|done|lia|lia|lia|].
  destruct (with_capacity_inv a1 _ i v2 a2 Hi Hinv1 H2) as (p2 & -> & Hinv2).
  pose proof (vec_block_length p2 i) as Hl2.
  destruct (grants a2 (vec_block p2 i ++ vec_block p i) 8) as (one & a3 & H3 & Hg3 & Hu3);
    [done|done|rewrite length_app; lia|lia|lia|].
  eapply (value_turn_passes (fun b => good b /\ used b <= used a + 16 * i + 32)) in H3 as (a' & mem' & ? & ? & ? & ?);
    [by do 2 eexists|done|done| |split; [done|lia]|done|done].
  intros b q sz b' [Hgb Hub] [Hgb' Hub']%frees; [|done]. split; [done|lia].
Qed.

(** [n] turns use [8 n (n + 3)] bytes at most, when nothing is given back. *)
Lemma value_template_room a n mem : good a -> ba_inv a [] -> 0 <= n < 2 ^ 59 -> used a + 8 * n * (n + 3) < room ->
  exists a' mem', alloc_huge_times_with_value_template n a mem = Ret (a', mem').
Proof.
  intros Hg Hinv Hn Hroom. unfold alloc_huge_times_with_value_template.
  destruct (for_range_inv (fun i '(b, _) => good b /\ ba_inv b [] /\ used b <= used a + 8 * i * (i + 3)) 0 n
    value_turn (a, mem)) as ([a' mem'] & Hr & _); [lia|split_and!; (done || lia)| |by do 2 eexists].
  intros i [b m] Hi (Hgb & Hib & Hub).
  destruct (value_turn_room b i m) as (b' & m' & -> & Hib' & Hgb' & Hub'); [done|done|lia|nia|].
  eexists. split; [done|]. split; [done|]. split; [done|]. nia.
Qed.

End values.

(** ** The two allocators *)

(** A block of words from the bump allocator, and from the fixed-length allocator. *)
Definition bump_good (heap : Z) (a : Bump.BumpAllocator) : Prop :=
  Bump.heap_start a = heap /\ Bump.heap_end a = heap + TEST_SIZE /\ heap <= Bump.next a.
Definition fixed_good (heap : Z) (a : FixedLength.FixedLengthAllocator) : Prop :=
  FixedLength.heap_ptr a = heap /\ FixedLength.SIZE a = TEST_SIZE /\ 0 <= FixedLength.next a.

Section two.
Context (heap : Z) (Hheap : 0 < heap) (Hend : heap + TEST_SIZE < 2 ^ 64).

Lemma bump_block_room (a : Bump.BumpAllocator) live sz : bump_good heap a -> Bump.inv a live ->
  (length live <= 2)%nat -> 0 <= sz < 2 ^ 62 -> Bump.next a - heap + sz + 8 < TEST_SIZE ->
  exists p a', allocate_block a sz = Ret (p, a') /\ bump_good heap a' /\
    Bump.next a' - heap <= Bump.next a - heap + sz + 8.
Proof.
  intros (Hhs & Hhe & Hnext) (_ & _ & Hn & _) Hlen Hsz Hroom. destruct (layout_of_words sz Hsz) as [Hl Hok].
  destruct (BumpFacts.bump_alloc_room a _ 0 Hok) as (Halloc & Hp & _); [lia|rewrite Hhe; simpl; lia|lia|lia|].
  unfold allocate_block. rewrite Hl. cbn [unwrap mbind outcome_bind]. unfold allocate, global_alloc.
  change (ba_alloc a (mkLayout sz 8) 0) with (Bump.alloc a (mkLayout sz 8) 0). rewrite Halloc. cbn [mbind outcome_bind].
  simpl in Hp. rewrite (proj2 (Z.eqb_neq _ _)) by lia. do 2 eexists. split; [reflexivity|].
  unfold bump_good. simpl. split_and!; (done || lia).
Qed.

Lemma bump_block_freed (a : Bump.BumpAllocator) p sz a' : bump_good heap a -> free_block a p sz = Ret a' ->
  bump_good heap a' /\ Bump.next a' - heap <= Bump.next a - heap.
Proof.
  intros (Hhs & Hhe & Hnext) Hr. unfold free_block in Hr. apply bind_Ret_inv in Hr as (l & _ & Hr).
  change (Bump.dealloc a p l = Ret a') in Hr. unfold Bump.dealloc in Hr. apply bind_Ret_inv in Hr as (n & _ & Hr).
  destruct (n =? 0); injection Hr as <-; unfold bump_good; simpl; split_and!; (done || lia).
Qed.

Lemma fixed_block_room (a : FixedLength.FixedLengthAllocator) (live : list block) sz : fixed_good heap a -> 0 <= sz < 2 ^ 62 ->
  FixedLength.next a + sz + 8 < TEST_SIZE ->
  exists p a', allocate_block a sz = Ret (p, a') /\ fixed_good heap a' /\
    FixedLength.next a' <= FixedLength.next a + sz + 8.
Proof.
  intros (Hptr & Hsize & Hnext) Hsz Hroom. destruct (layout_of_words sz Hsz) as [Hl Hok].
  destruct (fixed_grants a (mkLayout sz 8) 0 Hok) as (p & Halloc & Hp & _); [lia|done|rewrite Hptr, Hsize; simpl; lia|].
  unfold allocate_block. rewrite Hl. cbn [unwrap mbind outcome_bind]. unfold allocate, global_alloc.
  change (ba_alloc a (mkLayout sz 8) 0) with (FixedLength.alloc a (mkLayout sz 8) 0). rewrite Halloc. cbn [mbind outcome_bind].
  simpl in Hp. rewrite (proj2 (Z.eqb_neq _ _)) by lia. do 2 eexists. split; [reflexivity|].
  unfold fixed_good. simpl. split_and!; (done || lia).
Qed.

(** What the vectors and the box hold is there when it is read, with both allocators; the fixed-length
    allocator, which takes nothing back, has room for the turns of the test. *)
Theorem alloc_huge_times_with_value_passes mem :
  (exists a mem', alloc_huge_times_with_value_template (TEST_SIZE / 1024) (bump_for_test heap) mem = Ret (a, mem')) /\
  (exists a mem', alloc_huge_times_with_value_template (TEST_SIZE / 1024) (fixed_for_test heap) mem = Ret (a, mem')).
Proof.
  change (TEST_SIZE / 1024) with 100. split.
  - apply (value_template_room (Spec := BumpFacts.bump_spec) (fun a => Bump.next a - heap) TEST_SIZE (bump_good heap)).
    + intros. by apply (bump_block_room _ live).
    + intros a p sz a'. apply bump_block_freed.
    + unfold bump_good, bump_for_test. simpl. split_and!; (done || lia).
    + apply BumpFacts.bump_init_inv; [unfold TEST_SIZE in *; lia|done].
    + lia.
    + unfold TEST_SIZE. simpl. lia.
  - apply (value_template_room (Spec := FixedFacts.fixed_spec) FixedLength.next TEST_SIZE (fixed_good heap)).
    + intros. by apply (fixed_block_room _ live).
    + intros a p sz a' Hg Hr. unfold free_block in Hr. apply bind_Ret_inv in Hr as (l & _ & [= <-]). by split.
    + unfold fixed_good, fixed_for_test. simpl. split_and!; (done || lia).
    + unfold TEST_SIZE in *. simpl. unfold FixedLength.inv, fixed_for_test, FixedLength.new, TEST_SIZE. simpl. split_and!; (done || lia || constructor).
    + lia.
    + unfold TEST_SIZE. simpl. lia.
Qed.

End two.

(** * Witness *)

Lemma alloc_huge_times_outcome_witness :
  bump_alloc_huge_times 0x1000 [mkDraw 5 700 (Some 900); mkDraw 512 0 None] = Ret (bump_for_test 0x1000) /\
  bump_alloc_huge_times 0x1000 [mkDraw 5 0 (Some 0)] = Panic.
Proof.
  split.
  - refine (proj1 (alloc_huge_times_outcome 0x1000 _ _ _ _)); [lia|unfold TEST_SIZE; lia|].
    repeat constructor; unfold drawn, UPPER_BOUND; simpl; lia.
  - refine (proj1 (alloc_huge_times_outcome 0x1000 _ _ _ _)); [lia|unfold TEST_SIZE; lia|].
    repeat constructor; unfold drawn, UPPER_BOUND; simpl; lia.
Defined.
