(* ===== verification/Mutex.v ===== *)
(** Mutex: the lock that remembers where it was asked for ([kernel-lib/src/mutex.rs]), around the lock of
    the [spin] crate; the calls one after the other, and the writes to its history interleaved. *)
From stdpp Require Import strings.
From S2P Require Import Prelude.

(** * The lock *)

(** The lock of the [spin] crate in its surroundings: whether somebody holds it, the attempt to take
    it, the wait until it is taken ([NoFuel] if that never happens), and the line of a message for the
    log.  Others go on while it is looked at. *)
Class SpinLock (W : Type) := {
  spin_is_locked : W -> bool * W;
  spin_try_lock : W -> bool * W;
  spin_lock : W -> outcome W;
  log_debug : list (string * Z) -> W -> W;
}.

Definition BUF_LEN : nat := 1024.
Definition MAX : Z := 10000.

Section mutex.
Context `{SpinLock W}.

Record Mutex := mkMutex { inner : W; file : list (option string); line : list (option Z) }.

Definition mutex_new (inner : W) : Mutex :=
  mkMutex inner (replicate BUF_LEN None) (replicate BUF_LEN None).

Definition set_inner (self : Mutex) (w : W) : Mutex := mkMutex w (file self) (line self).

(** The loops of [store_file_line]: the first place that is free, if there is one. *)
Fixpoint store_first {A} (a : A) (l : list (option A)) : list (option A) :=
  match l with
  | [] => []
  | None :: l => Some a :: l
  | Some b :: l => Some b :: store_first a l
  end.

Definition store_file_line (f : string) (n : Z) (self : Mutex) : Mutex :=
  mkMutex (inner self) (store_first f (file self)) (store_first n (line self)).

(** [print_file_line]. *)
Definition info (files : list (option string)) (ns : list (option Z)) : list (string * Z) :=
  omap (fun '(f, n) => f ← f; n ← n; Some (f, n)) (zip files ns).

Definition print_file_line (self : Mutex) : Mutex :=
  set_inner self (log_debug (info (file self) (line self)) (inner self)).

(** The loop of [dump_state_if_locked]: whether the lock was held at each of [n + 1] looks. *)
Fixpoint still_locked (n : nat) (w : W) : bool * W :=
  let '(locked, w) := spin_is_locked w in
  if locked : bool then match n with O => (true, w) | S n => still_locked n w end else (false, w).

Definition dump_state_if_locked (self : Mutex) : Mutex :=
  let '(held, w) := still_locked (Z.to_nat MAX) (inner self) in
  let self := set_inner self w in
  if held : bool then print_file_line self else self.

Definition mutex_lock (f : string) (n : Z) (self : Mutex) : outcome Mutex :=
  let self := dump_state_if_locked (store_file_line f n self) in
  w ← spin_lock (inner self); Ret (set_inner self w).

Definition mutex_try_lock (f : string) (n : Z) (self : Mutex) : bool * Mutex :=
  let self := dump_state_if_locked (store_file_line f n self) in
  let '(taken, w) := spin_try_lock (inner self) in (taken, set_inner self w).

(** The macro [lock!]. *)
Definition lock_raw (self : Mutex) : outcome Mutex := w ← spin_lock (inner self); Ret (set_inner self w).

(** Calls, and what the others do in between, a guard that is dropped included. *)
Inductive call :=
  | CallLock (f : string) (n : Z)
  | CallTryLock (f : string) (n : Z)
  | CallRaw
  | Others (w : W).

Definition run_call (self : Mutex) (c : call) : outcome Mutex :=
  match c with
  | CallLock f n => mutex_lock f n self
  | CallTryLock f n => Ret (mutex_try_lock f n self).2
  | CallRaw => lock_raw self
  | Others w => Ret (set_inner self w)
  end.

Fixpoint run_calls (self : Mutex) (cs : list call) : outcome Mutex :=
  match cs with [] => Ret self | c :: cs => self ← run_call self c; run_calls self cs end.

(** The sites that are recorded. *)
Definition site (c : call) : option (string * Z) :=
  match c with CallLock f n | CallTryLock f n => Some (f, n) | CallRaw | Others _ => None end.
Definition sites (cs : list call) : list (string * Z) := omap site cs.

(** * Lemmas *)

(** A history: what came, as far as there is room. *)
Definition packed {A} (n : nat) (xs : list A) : list (option A) :=
  (Some <$> take n xs) ++ replicate (n - length xs) None.

Lemma store_packed {A} n (xs : list A) a : store_first a (packed n xs) = packed n (xs ++ [a]).
Proof.
  revert n. induction xs as [|x xs IH]; intros [|n]; try done.
  - unfold packed. simpl. by rewrite take_nil, Nat.sub_0_r.
  - unfold packed in *. simpl. f_equal. apply IH.
Qed.

Lemma info_free n : info (replicate n None) (replicate n None) = [].
Proof. induction n as [|n IH]; [done|exact IH]. Qed.

Lemma info_packed n xs : info (packed n xs.*1) (packed n xs.*2) = take n xs.
Proof.
  unfold packed. rewrite !length_fmap. revert n. induction xs as [|[f k] xs IH]; intros [|n]; try done.
  - apply info_free.
  - unfold info in *. simpl. f_equal. apply IH.
Qed.

Definition remembers (self : Mutex) (xs : list (string * Z)) : Prop :=
  file self = packed BUF_LEN xs.*1 /\ line self = packed BUF_LEN xs.*2.

Lemma remembers_new w : remembers (mutex_new w) [].
Proof. done. Qed.

Lemma remembers_store self xs f n : remembers self xs -> remembers (store_file_line f n self) (xs ++ [(f, n)]).
Proof. intros [Hf Hl]. split; simpl; [rewrite Hf|rewrite Hl]; by rewrite store_packed, fmap_app. Qed.

Lemma remembers_inner self w xs : remembers self xs -> remembers (set_inner self w) xs.
Proof. done. Qed.

(** The dump shows the sites, if the lock was held all the time. *)
Lemma dump_exact self xs : remembers self xs ->
  dump_state_if_locked self =
    let '(held, w) := still_locked (Z.to_nat MAX) (inner self) in
    set_inner self (if held : bool then log_debug (take BUF_LEN xs) w else w).
Proof.
  intros [Hf Hl]. unfold dump_state_if_locked, print_file_line. destruct (still_locked _ _) as [[] w]; [|done].
  simpl. by rewrite Hf, Hl, info_packed.
Qed.

Lemma remembers_dump self xs : remembers self xs -> remembers (dump_state_if_locked self) xs.
Proof. intros Hr. rewrite (dump_exact _ xs Hr). by destruct (still_locked _ _). Qed.

Lemma remembers_call self xs c self' : remembers self xs -> run_call self c = Ret self' ->
  remembers self' (xs ++ match site c with Some s => [s] | None => [] end).
Proof.
  intros Hr. destruct c as [f n|f n| |w]; simpl; intros Hrun.
  - apply bind_Ret_inv in Hrun as (w & _ & Hrun). injection Hrun as <-.
    apply remembers_inner, remembers_dump. by apply remembers_store.
  - injection Hrun as <-. unfold mutex_try_lock. destruct (spin_try_lock _).
    apply remembers_inner, remembers_dump. by apply remembers_store.
  - apply bind_Ret_inv in Hrun as (w & _ & Hrun). injection Hrun as <-. by rewrite app_nil_r.
  - injection Hrun as <-. by rewrite app_nil_r.
Qed.

Lemma remembers_calls cs : forall self xs self', remembers self xs -> run_calls self cs = Ret self' ->
  remembers self' (xs ++ sites cs).
Proof.
  induction cs as [|c cs IH]; intros self xs self' Hr Hrun; simpl in Hrun.
  { injection Hrun as <-. by rewrite app_nil_r. }
  apply bind_Ret_inv in Hrun as (self1 & H1 & Hrun). apply (remembers_call _ xs) in H1; [|done].
  apply (IH _ _ _ H1) in Hrun. rewrite <- app_assoc in Hrun. unfold sites. simpl. by destruct (site c).
Qed.

End mutex.
Arguments Mutex : clear implicits.

(** * The history under interleaving *)

(** The lock may be shared ([unsafe impl Sync]), and nothing orders the writes to its history: each
    access through the pointers is a step of its own, and the calls of [store_file_line] mix. *)
Inductive writer_pc :=
  | ReadFile (i : nat) | WriteFile (i : nat) | ReadLine (i : nat) | WriteLine (i : nat) | Stored.

Record writer := mkWriter { w_file : string; w_line : Z; w_pc : writer_pc }.

Record history := mkHistory { h_files : list (option string); h_lines : list (option Z) }.

Definition goto (t : writer) (pc : writer_pc) : writer := mkWriter (w_file t) (w_line t) pc.

(** The next access of a call. *)
Definition writer_step (h : history) (t : writer) : history * writer :=
  match w_pc t with
  | ReadFile i =>
      match h_files h !! i with
      | Some None => (h, goto t (WriteFile i))
      | Some (Some _) => (h, goto t (ReadFile (S i)))
      | None => (h, goto t (ReadLine 0))
      end
  | WriteFile i => (mkHistory (<[i := Some (w_file t)]> (h_files h)) (h_lines h), goto t (ReadLine 0))
  | ReadLine i =>
      match h_lines h !! i with
      | Some None => (h, goto t (WriteLine i))
      | Some (Some _) => (h, goto t (ReadLine (S i)))
      | None => (h, goto t Stored)
      end
  | WriteLine i => (mkHistory (h_files h) (<[i := Some (w_line t)]> (h_lines h)), goto t Stored)
  | Stored => (h, t)
  end.

(** Any call makes the next access. *)
Inductive writers_step : history * list writer -> history * list writer -> Prop :=
  | step_writer h ts j t h' t' : ts !! j = Some t -> writer_step h t = (h', t') ->
      writers_step (h, ts) (h', <[j := t']> ts).

Definition start (s : string * Z) : writer := mkWriter s.1 s.2 (ReadFile 0).
Definition empty_history : history := mkHistory (replicate BUF_LEN None) (replicate BUF_LEN None).

(** ** What is kept *)

(** The places before [i] are taken. *)
Definition taken_below {A} (i : nat) (l : list (option A)) : Prop :=
  forall k, (k < i)%nat -> (k < length l)%nat -> exists a, l !! k = Some (Some a).

(** No place is taken after a free one. *)
Definition no_gap {A} (l : list (option A)) : Prop :=
  forall i a, l !! i = Some (Some a) -> taken_below i l.

Definition pc_ok (h : history) (t : writer) : Prop :=
  match w_pc t with
  | ReadFile i | WriteFile i => taken_below i (h_files h)
  | ReadLine i | WriteLine i => taken_below i (h_lines h)
  | Stored => True
  end.

Definition history_ok (ss : list (string * Z)) (s : history * list writer) : Prop :=
  no_gap (h_files s.1) /\ no_gap (h_lines s.1) /\
  length (h_files s.1) = BUF_LEN /\ length (h_lines s.1) = BUF_LEN /\
  (forall i f, h_files s.1 !! i = Some (Some f) -> f ∈ ss.*1) /\
  (forall i n, h_lines s.1 !! i = Some (Some n) -> n ∈ ss.*2) /\
  (fun t => (w_file t, w_line t)) <$> s.2 = ss /\ Forall (pc_ok s.1) s.2.

Lemma taken_below_insert {A} i k (a : A) l : taken_below i l -> taken_below i (<[k := Some a]> l).
Proof.
  intros Ht j Hj Hl. rewrite length_insert in Hl. destruct (decide (j = k)) as [->|Hne].
  - exists a. by rewrite list_lookup_insert_eq.
  - rewrite list_lookup_insert_ne by done. by apply Ht.
Qed.

Lemma no_gap_insert {A} k (a : A) l : no_gap l -> taken_below k l -> no_gap (<[k := Some a]> l).
Proof.
  intros Hg Hk i b Hi. apply taken_below_insert. destruct (decide (i = k)) as [->|Hne]; [done|].
  rewrite list_lookup_insert_ne in Hi by done. by apply (Hg i b).
Qed.

Lemma taken_below_next {A} i (a : A) l : taken_below i l -> l !! i = Some (Some a) -> taken_below (S i) l.
Proof.
  intros Ht Hi k Hk Hl. destruct (decide (k = i)) as [->|]; [by exists a|]. apply Ht; [lia|done].
Qed.

Lemma taken_below_0 {A} (l : list (option A)) : taken_below 0 l.
Proof. intros k Hk. lia. Qed.

Lemma writer_step_same h t h' t' : writer_step h t = (h', t') ->
  w_file t' = w_file t /\ w_line t' = w_line t.
Proof. unfold writer_step. intros H. by repeat case_match; simplify_eq/=. Qed.

(** The cases of an access. *)
Ltac destruct_access t h :=
  let i := fresh "i" in
  destruct (w_pc t) as [i|i|i|i|] eqn:Hpc;
  [destruct (h_files h !! i) as [[]|] eqn:Hi| |destruct (h_lines h !! i) as [[]|] eqn:Hi| |].

(** An access keeps its own place, and those of the others. *)
Lemma writer_step_pc h t h' t' : pc_ok h t -> writer_step h t = (h', t') ->
  pc_ok h' t' /\ forall t2, pc_ok h t2 -> pc_ok h' t2.
Proof.
  unfold writer_step. intros Ht Hs. unfold pc_ok in Ht. destruct_access t h; simplify_eq;
    (split; [unfold pc_ok; simpl; rewrite ?Hpc; eauto using taken_below_next, taken_below_0|]);
    unfold pc_ok; intros t2 H2; destruct (w_pc t2); simpl; eauto using taken_below_insert.
Qed.

Lemma lookup_insert_Some_or {A} k (a b : A) (l : list (option A)) i :
  <[k := Some a]> l !! i = Some (Some b) -> b = a \/ l !! i = Some (Some b).
Proof. intros [(_ & [= <-] & _)|[_ Hi]]%list_lookup_insert_Some; [by left|by right]. Qed.

Lemma writer_step_history h t h' t' : pc_ok h t -> writer_step h t = (h', t') ->
  (no_gap (h_files h) -> no_gap (h_files h')) /\ (no_gap (h_lines h) -> no_gap (h_lines h')) /\
  length (h_files h') = length (h_files h) /\ length (h_lines h') = length (h_lines h) /\
  (forall i f, h_files h' !! i = Some (Some f) -> f = w_file t \/ h_files h !! i = Some (Some f)) /\
  (forall i n, h_lines h' !! i = Some (Some n) -> n = w_line t \/ h_lines h !! i = Some (Some n)).
Proof.
  unfold writer_step, pc_ok. intros Ht Hs. destruct_access t h; simplify_eq; simpl;
    rewrite ?length_insert; split_and!; eauto using no_gap_insert, lookup_insert_Some_or.
Qed.

Lemma history_ok_step ss s s' : history_ok ss s -> writers_step s s' -> history_ok ss s'.
Proof.
  intros (Hgf & Hgl & Hlf & Hll & Hf & Hl & Hss & Hpc) Hstep.
  destruct Hstep as [h ts j t h' t' Hj Hs]. simpl in *.
  pose proof (proj1 (Forall_lookup _ _) Hpc j t Hj) as Ht.
  destruct (writer_step_pc h t h' t' Ht Hs) as [Ht' Hothers].
  destruct (writer_step_history h t h' t' Ht Hs) as (Hg1 & Hg2 & Hl1 & Hl2 & Hn1 & Hn2).
  assert ((w_file t, w_line t) ∈ ss) as Hin.
  { rewrite <- Hss. apply list_elem_of_fmap. exists t. split; [done|]. by eapply list_elem_of_lookup_2. }
  split_and!; simpl; [eauto|eauto|congruence|congruence|..].
  - intros i f [->|Hi]%Hn1; [exact (list_elem_of_fmap_2 fst _ _ Hin)|eauto].
  - intros i n [->|Hi]%Hn2; [exact (list_elem_of_fmap_2 snd _ _ Hin)|eauto].
  - destruct (writer_step_same _ _ _ _ Hs) as [Heq1 Heq2]. rewrite list_fmap_insert, Heq1, Heq2, Hss.
    apply list_insert_id. by rewrite <- Hss, list_lookup_fmap, Hj.
  - apply Forall_insert; [|done]. eapply Forall_impl; [exact Hpc|exact Hothers].
Qed.

Lemma history_ok_start ss : history_ok ss (empty_history, start <$> ss).
Proof.
  assert (forall A i (a : A), replicate BUF_LEN None !! i = Some (Some a) -> False) as Hno.
  { intros A i a Hi. by apply lookup_replicate in Hi as [? _]. }
  split_and!; try done.
  - intros i a Hi. by apply Hno in Hi.
  - intros i a Hi. by apply Hno in Hi.
  - intros i f Hi. by apply Hno in Hi.
  - intros i f Hi. by apply Hno in Hi.
  - simpl. rewrite <- list_fmap_compose. rewrite <- (list_fmap_id ss) at 2. apply list_fmap_ext.
    by intros _ [f n] _.
  - apply Forall_fmap, Forall_forall. intros s _. apply taken_below_0.
Qed.

(** ** A call that is not interrupted *)

Definition alone (s s' : history * writer) : Prop := writer_step s.1 s.2 = s'.

Lemma store_first_skip {A} (a : A) pre rest :
  store_first a ((Some <$> pre) ++ rest) = (Some <$> pre) ++ store_first a rest.
Proof. induction pre as [|x pre IH]; [done|exact (f_equal (cons (Some x)) IH)]. Qed.

Lemma lookup_rest {A} (pre : list A) rest : ((Some <$> pre) ++ rest) !! length pre = head rest.
Proof.
  rewrite lookup_app_r by (by rewrite length_fmap). rewrite length_fmap, Nat.sub_diag. by destruct rest.
Qed.

Lemma insert_rest {A} (pre : list A) a b rest :
  <[length pre := Some a]> ((Some <$> pre) ++ b :: rest) = (Some <$> pre) ++ Some a :: rest.
Proof. rewrite insert_app_r_alt by (by rewrite length_fmap). by rewrite length_fmap, Nat.sub_diag. Qed.

Lemma snoc_some {A} (pre : list A) a rest :
  (Some <$> pre) ++ Some a :: rest = (Some <$> (pre ++ [a])) ++ rest.
Proof. by rewrite fmap_app, <- app_assoc. Qed.

Lemma alone_files f n ls rest : forall pre,
  rtc alone (mkHistory ((Some <$> pre) ++ rest) ls, mkWriter f n (ReadFile (length pre)))
    (mkHistory ((Some <$> pre) ++ store_first f rest) ls, mkWriter f n (ReadLine 0)).
Proof.
  induction rest as [|[g|] rest IH]; intros pre.
  - apply rtc_once. unfold alone, writer_step. simpl. by rewrite lookup_rest.
  - eapply rtc_l; [unfold alone, writer_step; simpl; by rewrite lookup_rest|].
    rewrite snoc_some. simpl. rewrite snoc_some. unfold goto. simpl.
    replace (S (length pre)) with (length (pre ++ [g])) by (rewrite length_app; simpl; lia). apply IH.
  - eapply rtc_l; [unfold alone, writer_step; simpl; by rewrite lookup_rest|].
    apply rtc_once. unfold alone, writer_step. simpl. by rewrite insert_rest.
Qed.

Lemma alone_lines f n fs rest : forall pre,
  rtc alone (mkHistory fs ((Some <$> pre) ++ rest), mkWriter f n (ReadLine (length pre)))
    (mkHistory fs ((Some <$> pre) ++ store_first n rest), mkWriter f n Stored).
Proof.
  induction rest as [|[g|] rest IH]; intros pre.
  - apply rtc_once. unfold alone, writer_step. simpl. by rewrite lookup_rest.
  - eapply rtc_l; [unfold alone, writer_step; simpl; by rewrite lookup_rest|].
    rewrite snoc_some. simpl. rewrite snoc_some. unfold goto. simpl.
    replace (S (length pre)) with (length (pre ++ [g])) by (rewrite length_app; simpl; lia). apply IH.
  - eapply rtc_l; [unfold alone, writer_step; simpl; by rewrite lookup_rest|].
    apply rtc_once. unfold alone, writer_step. simpl. by rewrite insert_rest.
Qed.

Lemma alone_stores h s :
  rtc alone (h, start s) (mkHistory (store_first s.1 (h_files h)) (store_first s.2 (h_lines h)),
    mkWriter s.1 s.2 Stored).
Proof.
  destruct h as [fs ls]. etransitivity; [exact (alone_files s.1 s.2 ls fs [])|].
  exact (alone_lines s.1 s.2 (store_first s.1 fs) ls []).
Qed.

(** * Properties *)

(** What the [k]-th look at the lock sees. *)
Fixpoint look `{SpinLock W} (k : nat) (w : W) : bool :=
  let '(locked, w) := spin_is_locked w in match k with O => locked | S k => look k w end.

Lemma still_locked_looks `{SpinLock W} n : forall w,
  (still_locked n w).1 = true <-> forall k, (k <= n)%nat -> look k w = true.
Proof.
  induction n as [|n IH]; intros w; cbn [still_locked].
  - destruct (spin_is_locked w) as [[] w'] eqn:Hw; simpl; split; try done.
    + intros _ k Hk. replace k with 0%nat by lia. simpl. by rewrite Hw.
    + intros Hk. specialize (Hk 0%nat (le_n _)). simpl in Hk. by rewrite Hw in Hk.
  - destruct (spin_is_locked w) as [[] w'] eqn:Hw; simpl.
    + rewrite IH. split; intros Hk.
      * intros [|k] Hle; simpl; rewrite Hw; [done|]. apply Hk. lia.
      * intros k Hle. specialize (Hk (S k) ltac:(lia)). simpl in Hk. by rewrite Hw in Hk.
    + split; [done|]. intros Hk. specialize (Hk 0%nat ltac:(lia)). simpl in Hk. by rewrite Hw in Hk.
Qed.

(** C25: a lock that is waited for says who asked for it.  Whatever calls came before, the history has
    the first 1024 places that asked for the lock, in their order and each with its line; a call
    prints them, its own place included while there is room, exactly when it saw the lock held at
    10001 looks, and only then waits for the lock. *)
Theorem lock_history_exact `{SpinLock W} w cs (self : Mutex W) f n :
  run_calls (mutex_new w) cs = Ret self ->
  info (file self) (line self) = take BUF_LEN (sites cs) /\
  mutex_lock f n self =
    (let '(held, w) := still_locked (Z.to_nat MAX) (inner self) in
     let w := if held : bool then log_debug (take BUF_LEN (sites cs ++ [(f, n)])) w else w in
     w ← spin_lock w; Ret (set_inner (store_file_line f n self) w)) /\
  ((still_locked (Z.to_nat MAX) (inner self)).1 = true <->
     forall k, (k <= Z.to_nat MAX)%nat -> look k (inner self) = true).
Proof.
  intros Hr. apply (remembers_calls cs _ [] _ (remembers_new w)) in Hr as Hself.
  split; [|split; [|apply still_locked_looks]].
  - destruct Hself as [Hf Hl]. rewrite Hf, Hl. apply info_packed.
  - unfold mutex_lock. rewrite (dump_exact _ _ (remembers_store _ _ f n Hself)).
    change (inner (store_file_line f n self)) with (inner self).
    by destruct (still_locked (Z.to_nat MAX) (inner self)) as [[] w'].
Qed.

(** The history survives calls that mix.  However the accesses of concurrent calls interleave, no
    entry stands behind a free place, the arrays keep their size and hold only what some call
    brought; and a call that runs alone stores what [store_file_line] does. *)
Theorem history_interleaved ss h ts :
  rtc writers_step (empty_history, start <$> ss) (h, ts) ->
  no_gap (h_files h) /\ no_gap (h_lines h) /\
  length (h_files h) = BUF_LEN /\ length (h_lines h) = BUF_LEN /\
  (forall i f, h_files h !! i = Some (Some f) -> f ∈ ss.*1) /\
  (forall i n, h_lines h !! i = Some (Some n) -> n ∈ ss.*2) /\
  (forall s, rtc alone (h, start s)
     (mkHistory (store_first s.1 (h_files h)) (store_first s.2 (h_lines h)), mkWriter s.1 s.2 Stored)).
Proof.
  intros Hr. assert (history_ok ss (h, ts)) as (H1 & H2 & H3 & H4 & H5 & H6 & _).
  { eapply rtc_invariant; [|apply history_ok_start|exact Hr]. intros s1 s2. apply history_ok_step. }
  split_and!; try done. intros s. apply alone_stores.
Qed.

(** * A lock to run, and witnesses *)

Module MutexExamples.

(** A lock that is free again after some looks, and the log. *)
Record Sim := mkSim { busy : nat; logged : list (list (string * Z)) }.

#[global] Instance sim_lock : SpinLock Sim := {|
  spin_is_locked w := (bool_decide (busy w <> 0%nat), mkSim (pred (busy w)) (logged w));
  spin_try_lock w := (bool_decide (busy w = 0%nat), mkSim (pred (busy w)) (logged w));
  spin_lock w := Ret (mkSim 0 (logged w));
  log_debug l w := mkSim (busy w) (logged w ++ [l]);
|}.

Definition a_lock : Mutex Sim := mutex_new (mkSim 3 []).
Definition two_calls : list (call (W := Sim)) := [CallLock "a.rs" 1; CallRaw; CallTryLock "b.rs" 2].
Definition after_calls : Mutex Sim := Eval vm_compute in
  match run_calls a_lock two_calls with Ret self => self | _ => a_lock end.

(** Two calls whose writes to the files come in one order and those to the lines in the other. *)
Fixpoint schedule (js : list nat) (s : history * list writer) : history * list writer :=
  match js with
  | [] => s
  | j :: js =>
      match s.2 !! j with
      | Some t => let '(h, t) := writer_step s.1 t in schedule js (h, <[j := t]> s.2)
      | None => schedule js s
      end
  end.

Lemma schedule_steps js : forall s, rtc writers_step s (schedule js s).
Proof.
  induction js as [|j js IH]; intros [h ts]; [done|]. simpl. destruct (ts !! j) as [t|] eqn:Hj; [|apply IH].
  destruct (writer_step h t) as [h' t'] eqn:Hs. eapply rtc_l; [by eapply step_writer|apply IH].
Qed.

Definition two_sites : list (string * Z) := [("a.rs"%string, 1); ("b.rs"%string, 2)].
Definition mixed : history * list writer :=
  schedule [0; 0; 1; 1; 1; 1; 1; 0; 0; 0]%nat (empty_history, start <$> two_sites).

(** The second file stands with the line of the first. *)
Example lines_swapped : info (h_files mixed.1) (h_lines mixed.1) = [("a.rs"%string, 2); ("b.rs"%string, 1)].
Proof. vm_compute. reflexivity. Qed.

(** Both calls find the first place free: one of them is lost. *)
Example entry_lost :
  info (h_files (schedule [0; 1; 0; 1; 0; 1; 0; 1]%nat (empty_history, start <$> two_sites)).1)
    (h_lines (schedule [0; 1; 0; 1; 0; 1; 0; 1]%nat (empty_history, start <$> two_sites)).1) =
  [("b.rs"%string, 2)].
Proof. vm_compute. reflexivity. Qed.

End MutexExamples.

Lemma lock_history_exact_witness :
  info (file MutexExamples.after_calls) (line MutexExamples.after_calls) = [("a.rs"%string, 1); ("b.rs"%string, 2)].
Proof.
  refine (proj1 (lock_history_exact (MutexExamples.mkSim 3 []) MutexExamples.two_calls
    MutexExamples.after_calls "c.rs" 3 _)). vm_compute. reflexivity.
Defined.

Lemma history_interleaved_witness :
  no_gap (h_files MutexExamples.mixed.1) /\ length (h_files MutexExamples.mixed.1) = BUF_LEN.
Proof.
  destruct (history_interleaved MutexExamples.two_sites MutexExamples.mixed.1 MutexExamples.mixed.2)
    as (H1 & _ & H2 & _).
  - rewrite <- surjective_pairing. apply MutexExamples.schedule_steps.
  - exact (conj H1 H2).
Defined.
