(* ===== verification/BitField.v ===== *)
(** The interface of the [bit_field] crate that the kernel uses on its register
    and descriptor words: the operations, the documented behaviour the code relies
    on, and a reference implementation of both. *)
From S2P Require Import Prelude.

(** The operations of [bit_field::BitField] on an unsigned word: [get_bit i],
    [set_bit i b], [get_bits lo..hi] and [set_bits lo..hi v], which panics when [v]
    does not fit the range. *)
Class BitFieldLib := {
  get_bit : Z -> Z -> bool;
  set_bit : Z -> Z -> bool -> Z;
  get_bits : Z -> Z -> Z -> Z;
  set_bits : Z -> Z -> Z -> Z -> outcome Z;
}.

(** What the crate documents about them. *)
Class BitFieldLaws `{BitFieldLib} : Prop := {
  get_bit_spec x i : 0 <= i -> get_bit x i = Z.testbit x i;
  set_bit_spec x i b j :
    0 <= i -> 0 <= j ->
    Z.testbit (set_bit x i b) j = if decide (j = i) then b else Z.testbit x j;
  set_bit_nonneg x i b : 0 <= x -> 0 <= i -> 0 <= set_bit x i b;
  get_bits_spec x lo hi :
    0 <= lo < hi -> get_bits x lo hi = (x / 2 ^ lo) mod 2 ^ (hi - lo);
  set_bits_spec x lo hi v :
    0 <= lo < hi -> 0 <= x -> 0 <= v < 2 ^ (hi - lo) ->
    set_bits x lo hi v =
      Ret ((x / 2 ^ hi) * 2 ^ hi + v * 2 ^ lo + x mod 2 ^ lo);
  set_bits_panic x lo hi v :
    0 <= lo < hi -> 0 <= x -> 2 ^ (hi - lo) <= v -> set_bits x lo hi v = Panic;
}.

(** A reference implementation. *)
Definition bit_field_ref : BitFieldLib := {|
  get_bit x i := Z.testbit x i;
  set_bit x i b := if b then Z.lor x (Z.shiftl 1 i) else Z.ldiff x (Z.shiftl 1 i);
  get_bits x lo hi := Z.land (Z.shiftr x lo) (Z.ones (hi - lo));
  set_bits x lo hi v :=
    if decide (v < 2 ^ (hi - lo)) then
      Ret (Z.shiftl (Z.shiftr x hi) hi + Z.shiftl v lo + Z.land x (Z.ones lo))
    else Panic;
|}.

(** * Lemmas *)

Lemma testbit_shiftl_1 i j : 0 <= j -> Z.testbit (Z.shiftl 1 i) j = bool_decide (j = i).
Proof.
  intros Hj. rewrite Z.shiftl_spec by done. case_bool_decide as Heq.
  - subst. by rewrite Z.sub_diag.
  - destruct (decide (j < i)); [by rewrite Z.testbit_neg_r by lia|].
    change 1 with (2 ^ 0). apply Z.pow2_bits_false. lia.
Qed.

#[export] Instance bit_field_ref_laws : @BitFieldLaws bit_field_ref.
Proof.
  split; simpl.
  - done.
  - intros x i b j Hi Hj. destruct b.
    + rewrite Z.lor_spec, testbit_shiftl_1 by done.
      case_bool_decide; case_decide; try done; [apply orb_true_r|apply orb_false_r].
    + rewrite Z.ldiff_spec, testbit_shiftl_1 by done.
      case_bool_decide; case_decide; try done; [apply andb_false_r|apply andb_true_r].
  - intros x i b Hx Hi. destruct b.
    + apply Z.lor_nonneg. split; [done|]. by apply Z.shiftl_nonneg.
    + apply Z.ldiff_nonneg. by left.
  - intros x lo hi Hr. by rewrite Z.land_ones, Z.shiftr_div_pow2 by lia.
  - intros x lo hi v Hr Hx Hv. rewrite decide_True by lia. f_equal.
    by rewrite !Z.shiftl_mul_pow2, Z.shiftr_div_pow2, Z.land_ones by lia.
  - intros x lo hi v Hr Hx Hv. by rewrite decide_False by lia.
Qed.

Section laws.
Context `{BitFieldLaws}.

(** Reading back the field just written. *)
Lemma get_set_bits x lo hi v y :
  0 <= lo < hi -> 0 <= x -> 0 <= v < 2 ^ (hi - lo) ->
  set_bits x lo hi v = Ret y -> get_bits y lo hi = v.
Proof.
  intros Hr Hx Hv. rewrite set_bits_spec by done. intros [= <-].
  rewrite get_bits_spec by done.
  assert (0 < 2 ^ lo) by (apply Z.pow_pos_nonneg; lia).
  assert (0 < 2 ^ (hi - lo)) by (apply Z.pow_pos_nonneg; lia).
  pose proof (Z.mod_pos_bound x (2 ^ lo)).
  replace (2 ^ hi) with (2 ^ (hi - lo) * 2 ^ lo)
    by (rewrite <- Z.pow_add_r by lia; f_equal; lia).
  set (h := x / _). replace (_ + _ + _) with
    (x mod 2 ^ lo + (h * 2 ^ (hi - lo) + v) * 2 ^ lo) by lia.
  rewrite Z.div_add, Z.div_small, Z.add_0_l by lia.
  rewrite Z.add_comm, Z_mod_plus_full. by apply Z.mod_small.
Qed.

(** Writing a field keeps the fields above it and below it. *)
Lemma get_set_bits_above x lo hi v y lo' hi' :
  0 <= lo < hi -> hi <= lo' < hi' -> 0 <= x -> 0 <= v < 2 ^ (hi - lo) ->
  set_bits x lo hi v = Ret y -> get_bits y lo' hi' = get_bits x lo' hi'.
Proof.
  intros Hr Hr' Hx Hv. rewrite set_bits_spec by done. intros [= <-].
  rewrite !get_bits_spec by lia. f_equal.
  assert (0 < 2 ^ lo) by (apply Z.pow_pos_nonneg; lia).
  assert (0 < 2 ^ hi) by (apply Z.pow_pos_nonneg; lia).
  assert (0 < 2 ^ (lo' - hi)) by (apply Z.pow_pos_nonneg; lia).
  pose proof (Z.mod_pos_bound x (2 ^ lo)).
  assert (2 ^ hi = 2 ^ (hi - lo) * 2 ^ lo)
    by (rewrite <- Z.pow_add_r by lia; f_equal; lia).
  replace (2 ^ lo') with (2 ^ hi * 2 ^ (lo' - hi))
    by (rewrite <- Z.pow_add_r by lia; f_equal; lia).
  rewrite <- !Z.div_div by lia. f_equal.
  replace (_ + _ + _) with (v * 2 ^ lo + x mod 2 ^ lo + x / 2 ^ hi * 2 ^ hi) by lia.
  rewrite Z.div_add by lia. rewrite Z.div_small by nia. lia.
Qed.

Lemma get_set_bits_below x lo hi v y lo' hi' :
  0 <= lo < hi -> 0 <= lo' < hi' -> hi' <= lo -> 0 <= x -> 0 <= v < 2 ^ (hi - lo) ->
  set_bits x lo hi v = Ret y -> get_bits y lo' hi' = get_bits x lo' hi'.
Proof.
  intros Hr Hr' Hle Hx Hv. rewrite set_bits_spec by done. intros [= <-].
  rewrite !get_bits_spec by lia.
  rewrite <- !Z.shiftr_div_pow2, <- !Z.land_ones by lia.
  apply Z.bits_inj'. intros i Hi. rewrite !Z.land_spec, !Z.shiftr_spec by done.
  destruct (decide (i < hi' - lo')); [|by rewrite Z.ones_spec_high, !andb_false_r by lia].
  f_equal. transitivity (Z.testbit (x mod 2 ^ lo) (i + lo')).
  - rewrite Z.land_ones by lia.
    rewrite <- (Z.mod_pow2_bits_low (_ + _ + _) lo (i + lo')) by lia.
    apply (f_equal (fun z => Z.testbit z (i + lo'))).
    assert (0 < 2 ^ lo) by (apply Z.pow_pos_nonneg; lia).
    replace (2 ^ hi) with (2 ^ (hi - lo) * 2 ^ lo)
      by (rewrite <- Z.pow_add_r by lia; f_equal; lia).
    set (h := Z.shiftr x hi). replace (_ + _ + _) with
      (x mod 2 ^ lo + (h * 2 ^ (hi - lo) + v) * 2 ^ lo) by lia.
    rewrite Z_mod_plus_full. apply Zmod_mod.
  - apply Z.mod_pow2_bits_low. lia.
Qed.

Lemma set_bits_nonneg x lo hi v y :
  0 <= lo < hi -> 0 <= x -> 0 <= v < 2 ^ (hi - lo) -> set_bits x lo hi v = Ret y -> 0 <= y.
Proof.
  intros Hr Hx Hv. rewrite set_bits_spec by done. intros [= <-].
  assert (0 < 2 ^ lo) by (apply Z.pow_pos_nonneg; lia).
  assert (0 < 2 ^ hi) by (apply Z.pow_pos_nonneg; lia).
  pose proof (Z.mod_pos_bound x (2 ^ lo)). pose proof (Z.div_pos x (2 ^ hi)). nia.
Qed.

(** The bits of a field, and of a word with a field written. *)
Lemma testbit_get_bits x lo hi j : 0 <= lo < hi -> 0 <= j ->
  Z.testbit (get_bits x lo hi) j = (j <? hi - lo) && Z.testbit x (lo + j).
Proof.
  intros Hr Hj. rewrite get_bits_spec by done. destruct (Z.ltb_spec j (hi - lo)).
  - rewrite Z.mod_pow2_bits_low, Z.div_pow2_bits by lia. by rewrite Z.add_comm.
  - by rewrite Z.mod_pow2_bits_high by lia.
Qed.

Lemma testbit_bit x j : 0 <= j -> Z.testbit x j = Z.testbit (get_bits x j (j + 1)) 0.
Proof.
  intros Hj. rewrite testbit_get_bits by lia. rewrite Z.add_0_r.
  by replace (0 <? j + 1 - j) with true by (symmetry; apply Z.ltb_lt; lia).
Qed.

Lemma testbit_set_bits x lo hi v y j :
  0 <= lo < hi -> 0 <= x -> 0 <= v < 2 ^ (hi - lo) -> 0 <= j -> set_bits x lo hi v = Ret y ->
  Z.testbit y j = if decide (lo <= j < hi) then Z.testbit v (j - lo) else Z.testbit x j.
Proof.
  intros Hr Hx Hv Hj Hy. case_decide.
  - rewrite <- (get_set_bits x lo hi v y) by done. rewrite testbit_get_bits by lia.
    replace (j - lo <? hi - lo) with true by (symmetry; apply Z.ltb_lt; lia). simpl. f_equal. lia.
  - rewrite (testbit_bit y), (testbit_bit x) by done. f_equal. destruct (decide (hi <= j)).
    + eapply get_set_bits_above; [..|exact Hy]; lia.
    + eapply get_set_bits_below; [..|exact Hy]; lia.
Qed.

Lemma set_bits_Ret x lo hi v : 0 <= lo < hi -> 0 <= x -> 0 <= v < 2 ^ (hi - lo) ->
  exists y, set_bits x lo hi v = Ret y /\ 0 <= y.
Proof.
  intros Hr Hx Hv. eexists. split; [by apply set_bits_spec|].
  eapply (set_bits_nonneg x lo hi v); [done..|]. by apply set_bits_spec.
Qed.

End laws.
