(* ===== verification/Mapper.v ===== *)
(** Mapper: the memory mapper of the kernel ([kernel/src/memory.rs]) behind the interface by which the
    [xhci] crate asks for the address of a register. *)
From S2P Require Import Prelude.

(** The trait [Mapper] of the crate; a mapper may change when it is used. *)
Class Mapper (M : Type) := {
  mapper_map : M -> Z -> Z -> outcome (Z * M);
  mapper_unmap : M -> Z -> Z -> M;
}.

(** The mapper of the kernel, which has no state. *)
Inductive MemoryMapper := mkMemoryMapper.

Definition memory_mapper_new : MemoryMapper := mkMemoryMapper.

(** [NonZeroUsize::new_unchecked], whose check of its argument is compiled in. *)
Definition nonzero_new_unchecked (n : Z) : outcome Z := _ ← assert (negb (n =? 0)); Ret n.

(** The virtual address is the physical one. *)
Definition memory_mapper_map (self : MemoryMapper) (phys_start bytes : Z) : outcome (Z * MemoryMapper) :=
  virt_start ← nonzero_new_unchecked phys_start; Ret (virt_start, self).

Definition memory_mapper_unmap (self : MemoryMapper) (virt_start bytes : Z) : MemoryMapper := self.

#[export] Instance memory_mapper : Mapper MemoryMapper := {
  mapper_map := memory_mapper_map;
  mapper_unmap := memory_mapper_unmap;
}.

(** Mapping takes no place, and every address but 0 can be mapped. *)
Lemma memory_mapper_map_exact m p bytes : memory_mapper_map m p bytes = if decide (p = 0) then Panic else Ret (p, m).
Proof.
  unfold memory_mapper_map, nonzero_new_unchecked. case_decide as Hp; [by rewrite Hp|].
  apply Z.eqb_neq in Hp. by rewrite Hp.
Qed.
