(* ===== verification/Boot.v ===== *)
(** Boot: what the boot loader leaves for the kernel ([bootloader/src/main.rs]): the loaded segments
    of its image, and the memory map ([common/src/types.rs]), from which the kernel takes its heap
    ([kernel/src/main.rs]). *)
From stdpp Require Import functions.
From S2P Require Import Prelude Allocator.

(** * Memory *)

(** The bytes of the physical memory, which is also the virtual one. *)
Abbreviation memory := (Z -> Z) (only parsing).

Fixpoint write_list (base : Z) (l : list Z) (m : memory) : memory :=
  match l with
  | [] => m
  | b :: l => write_list (base + 1) l (<[base := b]> m)
  end.

Definition read_list (m : memory) (base : Z) (n : nat) : list Z :=
  (fun i => m (base + Z.of_nat i)) <$> seq 0 n.

(** [ptr::copy_nonoverlapping] and [ptr::write_bytes]. *)
Definition copy_nonoverlapping (src to : Z) (n : nat) (m : memory) : memory :=
  write_list to (read_list m src n) m.

Definition fill_bytes (to value : Z) (n : nat) (m : memory) : memory :=
  write_list to (replicate n value) m.

(** * The image of the kernel *)

(** The program headers as the [elf] crate parses them. *)
Record ProgramHeader := mkProgramHeader {
  p_type : Z; p_offset : Z; p_vaddr : Z; p_filesz : Z; p_memsz : Z;
}.

Definition PT_LOAD : Z := 1.
Definition is_load (h : ProgramHeader) : bool := p_type h =? PT_LOAD.

(** [calc_load_address_range]. *)
Fixpoint load_range_from (min max : Z) (segments : list ProgramHeader) : outcome (Z * Z) :=
  match segments with
  | [] => Ret (min, max)
  | h :: segments =>
      if is_load h then
        fin ← add_w 64 (p_vaddr h) (p_memsz h);
        load_range_from (Z.min min (p_vaddr h)) (Z.max max fin) segments
      else load_range_from min max segments
  end.

Definition calc_load_address_range (segments : list ProgramHeader) : outcome (Z * Z) :=
  load_range_from (2 ^ 64 - 1) 0 segments.

Definition n_pages (load_min_addr load_max_addr : Z) : outcome Z :=
  len ← sub_w load_max_addr load_min_addr;
  rounded ← add_w 64 len 0xfff;
  Ret (rounded / 0x1000).

(** [copy_load_segments]; [buffer] is the address of the file in memory. *)
Definition copy_segment (buffer : Z) (h : ProgramHeader) (m : memory) : outcome memory :=
  segment_ptr ← add_w 64 buffer (p_offset h);
  let len := Z.to_nat (p_filesz h) in
  let m := copy_nonoverlapping segment_ptr (p_vaddr h) len m in
  remain_bytes ← sub_w (p_memsz h) (p_filesz h);
  Ret (fill_bytes (p_vaddr h + p_filesz h) 0 (Z.to_nat remain_bytes) m).

Fixpoint copy_load_segments (buffer : Z) (segments : list ProgramHeader) (m : memory) :
    outcome memory :=
  match segments with
  | [] => Ret m
  | h :: segments =>
      m ← (if is_load h then copy_segment buffer h m else Ret m);
      copy_load_segments buffer segments m
  end.

(** * The memory map *)

Record MemoryDescriptor := mkDescriptor {
  md_ty : Z; md_phys_start : Z; md_virt_start : Z; md_page_count : Z; md_att : Z;
}.

Definition BOOT_SERVICES_CODE : Z := 3.
Definition BOOT_SERVICES_DATA : Z := 4.
Definition CONVENTIONAL : Z := 7.

(** Little-endian numbers. *)
Fixpoint le_bytes (n : nat) (z : Z) : list Z :=
  match n with O => [] | S n => z mod 256 :: le_bytes n (z / 256) end.
Fixpoint of_le (l : list Z) : Z := match l with [] => 0 | b :: l => b + 256 * of_le l end.
Definition read_le (m : memory) (a : Z) (n : nat) : Z := of_le (read_list m a n).
Definition write_le (a : Z) (n : nat) (z : Z) (m : memory) : memory := write_list a (le_bytes n z) m.

(** The sizes of [MemMapEntry] and of a descriptor; the type of a descriptor is followed by four
    bytes of padding. *)
Definition HEADER_SIZE : Z := 8.
Definition DESCRIPTOR_SIZE : Z := 40.

Definition write_descriptor (a : Z) (d : MemoryDescriptor) (m : memory) : memory :=
  let m := write_le a 4 (md_ty d) m in
  let m := write_le (a + 8) 8 (md_phys_start d) m in
  let m := write_le (a + 16) 8 (md_virt_start d) m in
  let m := write_le (a + 24) 8 (md_page_count d) m in
  write_le (a + 32) 8 (md_att d) m.

Definition read_descriptor_at (m : memory) (a : Z) : MemoryDescriptor :=
  mkDescriptor (read_le m a 4) (read_le m (a + 8) 8) (read_le m (a + 16) 8) (read_le m (a + 24) 8)
    (read_le m (a + 32) 8).

Fixpoint write_descriptors (a : Z) (l : list MemoryDescriptor) (m : memory) : memory :=
  match l with
  | [] => m
  | d :: l => write_descriptors (a + DESCRIPTOR_SIZE) l (write_descriptor a d m)
  end.

(** [MemMapEntry::new_inplace], which the boot loader also writes out. *)
Definition new_inplace (entry : Z) (size : Z) (l : list MemoryDescriptor) (m : memory) : memory :=
  write_descriptors (entry + HEADER_SIZE) l (write_le entry 8 size m).

Record MemMapIter := mkMemMapIter { mi_index : Z; mi_size : Z; mi_current : Z }.

Definition into_iter (m : memory) (entry : Z) : MemMapIter :=
  mkMemMapIter 0 (read_le m entry 8) (entry + HEADER_SIZE).

Definition mem_map_next (m : memory) (self : MemMapIter) : option MemoryDescriptor * MemMapIter :=
  if mi_size self <=? mi_index self then (None, self)
  else (Some (read_descriptor_at m (mi_current self + DESCRIPTOR_SIZE * mi_index self)),
        mkMemMapIter (mi_index self + 1) (mi_size self) (mi_current self)).

Definition mem_map_len (self : MemMapIter) : Z := mi_size self.

(** [collect]: [next] until it gives nothing. *)
Fixpoint mem_map_collect (fuel : nat) (m : memory) (self : MemMapIter) :
    outcome (list MemoryDescriptor) :=
  match fuel with
  | O => NoFuel
  | S fuel =>
      let '(d, self) := mem_map_next m self in
      match d with
      | None => Ret []
      | Some d => l ← mem_map_collect fuel m self; Ret (d :: l)
      end
  end.

(** * Loading the kernel *)

(** The descriptor of an address: the first one, or a panic.  Its end is only computed when it
    starts below the address. *)
Fixpoint descriptor_at (l : list MemoryDescriptor) (pointer : Z) : outcome MemoryDescriptor :=
  match l with
  | [] => Panic
  | d :: l =>
      if md_phys_start d <=? pointer then
        pages ← mul_w 64 (md_page_count d) 4;
        len ← mul_w 64 pages 1024;
        fin ← add_w 64 (md_phys_start d) len;
        if pointer <? fin then Ret d else descriptor_at l pointer
      else descriptor_at l pointer
  end.

(** * The heap *)

Definition usable (d : MemoryDescriptor) : bool :=
  (md_ty d =? CONVENTIONAL) || (md_ty d =? BOOT_SERVICES_CODE) || (md_ty d =? BOOT_SERVICES_DATA).

(** The ranges of the usable descriptors. *)
Fixpoint usable_ranges (l : list MemoryDescriptor) : outcome (list (Z * Z)) :=
  match l with
  | [] => Ret []
  | d :: l =>
      if usable d then
        len ← mul_w 64 (md_page_count d) 4096;
        fin ← add_w 64 (md_phys_start d) len;
        l ← usable_ranges l;
        Ret ((md_phys_start d, fin) :: l)
      else usable_ranges l
  end.

(** [max_by_key]: the last of the largest. *)
Definition range_len (r : Z * Z) : Z := r.2 - r.1.
Definition larger (x y : Z * Z) : Z * Z := if range_len y <? range_len x then x else y.
Definition max_by_len (l : list (Z * Z)) : option (Z * Z) :=
  match l with [] => None | r :: l => Some (foldl larger r l) end.

Definition choose_heap (l : list MemoryDescriptor) : outcome (Z * Z) :=
  ranges ← usable_ranges l; unwrap (max_by_len ranges).

(** The start of [kernel_main2] and [init_allocator]. *)
Definition init_heap (fuel : nat) (m : memory) (entry : Z) (allocator : Bump.BumpAllocator) :
    outcome (list MemoryDescriptor * Bump.BumpAllocator) :=
  let memory_map_iter := into_iter m entry in
  l ← mem_map_collect fuel m memory_map_iter;
  '(start, fin) ← choose_heap l;
  let allocator := Bump.init allocator start fin in
  memory_map ← mem_map_collect fuel m memory_map_iter;
  Ret (memory_map, allocator).

(** * Lemmas on memory *)

Lemma write_list_other base l : forall m a,
  a < base \/ base + Z.of_nat (length l) <= a -> write_list base l m a = m a.
Proof.
  revert base. induction l as [|b l IH]; intros base m a Ha; [done|]. simpl in *.
  rewrite IH by lia. rewrite fn_lookup_insert_ne by lia. done.
Qed.

Lemma write_list_at base l i b : forall m,
  l !! i = Some b -> write_list base l m (base + Z.of_nat i) = b.
Proof.
  revert base i. induction l as [|b' l IH]; intros base [|i] m Hi; try done; simpl in *.
  - injection Hi as ->. rewrite write_list_other by lia.
    replace (base + Z.of_nat 0) with base by lia. by rewrite fn_lookup_insert.
  - replace (base + Z.of_nat (S i)) with (base + 1 + Z.of_nat i) by lia. by apply IH.
Qed.

Lemma length_read_list m base n : length (read_list m base n) = n.
Proof. unfold read_list. by rewrite length_fmap, length_seq. Qed.

Lemma read_list_lookup m base n i : (i < n)%nat -> read_list m base n !! i = Some (m (base + Z.of_nat i)).
Proof. intros Hi. unfold read_list. rewrite list_lookup_fmap, lookup_seq_lt by done. done. Qed.

Lemma read_list_ext m m' base n :
  (forall a, base <= a < base + Z.of_nat n -> m a = m' a) -> read_list m base n = read_list m' base n.
Proof.
  intros Heq. apply list_eq. intros i. destruct (decide (i < n)%nat).
  - rewrite !read_list_lookup by done. rewrite Heq by lia. done.
  - rewrite !lookup_ge_None_2; rewrite ?length_read_list; [done|lia|lia].
Qed.

Lemma read_list_write base l m : read_list (write_list base l m) base (length l) = l.
Proof.
  apply list_eq. intros i. destruct (l !! i) as [b|] eqn:Hi.
  - pose proof (lookup_lt_Some _ _ _ Hi). rewrite read_list_lookup by done. by rewrite (write_list_at _ _ i b).
  - apply lookup_ge_None_2. rewrite length_read_list. by apply lookup_ge_None_1.
Qed.

Lemma copy_other src to n m a : a < to \/ to + Z.of_nat n <= a -> copy_nonoverlapping src to n m a = m a.
Proof. intros Ha. apply write_list_other. by rewrite length_read_list. Qed.

Lemma copy_at src to n m a : to <= a < to + Z.of_nat n ->
  copy_nonoverlapping src to n m a = m (src + (a - to)).
Proof.
  intros Ha. replace a with (to + Z.of_nat (Z.to_nat (a - to))) at 1 by lia.
  apply write_list_at. rewrite read_list_lookup by lia. do 2 f_equal. lia.
Qed.

Lemma fill_other to value n m a : a < to \/ to + Z.of_nat n <= a -> fill_bytes to value n m a = m a.
Proof. intros Ha. apply write_list_other. by rewrite length_replicate. Qed.

Lemma fill_at to value n m a : to <= a < to + Z.of_nat n -> fill_bytes to value n m a = value.
Proof.
  intros Ha. replace a with (to + Z.of_nat (Z.to_nat (a - to))) by lia.
  apply write_list_at. apply lookup_replicate. split; [done|lia].
Qed.

(** * The image *)

Definition in_segment (h : ProgramHeader) (a : Z) : Prop := p_vaddr h <= a < p_vaddr h + p_memsz h.

(** A program header of a file of [len] bytes. *)
Record segment_ok (len : Z) (h : ProgramHeader) : Prop := {
  ok_sizes : 0 <= p_filesz h <= p_memsz h;
  ok_address : 0 <= p_vaddr h /\ p_vaddr h + p_memsz h + 0x1000 <= 2 ^ 64;
  ok_offset : 0 <= p_offset h /\ p_offset h + p_filesz h <= len;
}.

(** The segments that are loaded keep out of each other's way. *)
Definition segments_disjoint (segments : list ProgramHeader) : Prop :=
  forall i j h h' a, segments !! i = Some h -> segments !! j = Some h' -> i <> j ->
    is_load h = true -> is_load h' = true -> in_segment h a -> in_segment h' a -> False.

Definition in_file (buffer len a : Z) : Prop := buffer <= a < buffer + len.

(** The byte that a segment puts at an address. *)
Definition segment_byte (m : memory) (buffer : Z) (h : ProgramHeader) (a : Z) : Z :=
  if decide (a < p_vaddr h + p_filesz h) then m (buffer + p_offset h + (a - p_vaddr h)) else 0.

Lemma copy_segment_spec buffer len h m : 0 <= buffer -> buffer + len < 2 ^ 64 -> segment_ok len h ->
  exists m', copy_segment buffer h m = Ret m' /\
    (forall a, in_segment h a -> (forall a, in_file buffer len a -> ~ in_segment h a) ->
       m' a = segment_byte m buffer h a) /\
    (forall a, ~ in_segment h a -> m' a = m a).
Proof.
  intros Hb Hlen [Hs Ha Ho]. unfold copy_segment. rewrite add_w_Ret by lia. cbn [mbind outcome_bind].
  rewrite sub_w_Ret by lia. cbn [mbind outcome_bind]. eexists. split; [done|]. unfold in_segment. split.
  - intros a Hin Hdis. unfold segment_byte. destruct (decide _).
    + rewrite fill_other by lia. apply copy_at. lia.
    + apply fill_at. lia.
  - intros a Hout. rewrite fill_other, copy_other by lia. done.
Qed.

Lemma copy_load_segments_spec buffer len segments : 0 <= buffer -> buffer + len < 2 ^ 64 ->
  Forall (segment_ok len) segments ->
  (forall h a, h ∈ segments -> is_load h = true -> in_file buffer len a -> ~ in_segment h a) ->
  segments_disjoint segments ->
  forall m, exists m', copy_load_segments buffer segments m = Ret m' /\
    (forall h a, h ∈ segments -> is_load h = true -> in_segment h a -> m' a = segment_byte m buffer h a) /\
    (forall a, (forall h, h ∈ segments -> is_load h = true -> ~ in_segment h a) -> m' a = m a).
Proof.
  intros Hb Hlen. induction segments as [|h l IH]; intros Hok Hfile Hdis m.
  { exists m. split; [done|]. split; [intros ? ? ?%elem_of_nil|]; done. }
  apply Forall_cons in Hok as [Hh Hok].
  assert (Hstep : exists m1, (if is_load h then copy_segment buffer h m else Ret m) = Ret m1 /\
    (forall a, is_load h = true -> in_segment h a -> m1 a = segment_byte m buffer h a) /\
    (forall a, (is_load h = true -> ~ in_segment h a) -> m1 a = m a)).
  { destruct (is_load h) eqn:Hl; [|exists m; naive_solver].
    destruct (copy_segment_spec buffer len h m Hb Hlen Hh) as (m1 & -> & Hin & Hout). exists m1.
    split; [done|]. split; [|naive_solver]. intros a _ Ha. apply Hin; [done|].
    intros a' Ha'. eapply Hfile; [by left|done|done]. }
  destruct Hstep as (m1 & Hm1 & Hin1 & Hout1).
  destruct (IH Hok) with (m := m1) as (m' & Hm' & Hin & Hout).
  { intros h' a Hh'. apply Hfile. by right. }
  { intros i j h1 h2 a H1 H2 Hij. apply (Hdis (S i) (S j)); [done|done|lia]. }
  exists m'. cbn [copy_load_segments]. rewrite Hm1. cbn [mbind outcome_bind]. split; [done|]. split.
  - intros h' a Hh' Hl' Ha. apply elem_of_cons in Hh' as [->|Hh'].
    + rewrite Hout, Hin1 by done || (intros h2 H2 Hl2 Ha2;
        apply list_elem_of_lookup_1 in H2 as (j & Hj);
        by apply (Hdis 0%nat (S j) h h2 a)). done.
    + rewrite (Hin h' a Hh' Hl' Ha). unfold segment_byte. destruct (decide _); [|done].
      apply Hout1. intros Hl Ha'. rewrite Forall_forall in Hok. destruct (Hok h' Hh') as [? ? ?].
      eapply Hfile; [by left|done| |exact Ha']. unfold in_file, in_segment in *. lia.
  - intros a Ha. rewrite Hout, Hout1; [done| |].
    + intros Hl. apply Ha; [by left|done].
    + intros h2 H2. apply Ha. by right.
Qed.

Lemma load_range_from_spec len segments : Forall (segment_ok len) segments -> forall min max,
  max + 0x1000 <= 2 ^ 64 ->
  exists lo hi, load_range_from min max segments = Ret (lo, hi) /\ lo <= min /\ max <= hi /\
    hi + 0x1000 <= 2 ^ 64 /\
    (forall h, h ∈ segments -> is_load h = true -> lo <= p_vaddr h /\ p_vaddr h + p_memsz h <= hi).
Proof.
  induction 1 as [|h l Hh Hok IH]; intros min max Hmax; cbn [load_range_from].
  - exists min, max. split_and!; [done|lia..|]. intros ? ?%elem_of_nil. done.
  - destruct Hh as [Hs Ha Ho]. destruct (is_load h) eqn:Hl.
    + rewrite add_w_Ret by lia. cbn [mbind outcome_bind].
      destruct (IH (Z.min min (p_vaddr h)) (Z.max max (p_vaddr h + p_memsz h)))
        as (lo & hi & -> & Hlo & Hhi & Hb & Hall); [lia|]. exists lo, hi. split_and!; [done|lia..|].
      intros h' Hh' Hl'. apply elem_of_cons in Hh' as [->|Hh']; [lia|by apply Hall].
    + destruct (IH min max Hmax) as (lo & hi & -> & Hlo & Hhi & Hb & Hall).
      exists lo, hi. split_and!; [done..|]. intros h' Hh' Hl'.
      apply elem_of_cons in Hh' as [->|Hh']; [congruence|by apply Hall].
Qed.

Lemma load_range_from_nonneg len segments : Forall (segment_ok len) segments -> forall min max lo hi,
  0 <= min -> load_range_from min max segments = Ret (lo, hi) -> 0 <= lo.
Proof.
  induction 1 as [|h l Hh Hok IH]; intros min max lo hi Hmin Hr; cbn [load_range_from] in Hr.
  - by injection Hr as <- _.
  - destruct Hh as [_ Ha _]. destruct (is_load h); [|by eapply IH].
    apply bind_Ret_inv in Hr as (fin & _ & Hr). eapply IH; [|exact Hr]. lia.
Qed.

(** The pages cover the range. *)
Lemma n_pages_cover lo hi : lo <= hi -> hi + 0x1000 <= 2 ^ 64 -> 0 <= lo ->
  exists pages, n_pages lo hi = Ret pages /\ hi <= lo + pages * 0x1000 < hi + 0x1000.
Proof.
  intros Hle Hhi Hlo. unfold n_pages. rewrite sub_w_Ret by lia. cbn [mbind outcome_bind].
  rewrite add_w_Ret by lia. cbn [mbind outcome_bind]. eexists. split; [done|].
  pose proof (Z.div_mod (hi - lo + 0xfff) 0x1000). pose proof (Z.mod_pos_bound (hi - lo + 0xfff) 0x1000). lia.
Qed.

(** * The memory map *)

Lemma length_le_bytes n : forall z, length (le_bytes n z) = n.
Proof. induction n as [|n IH]; intros z; simpl; [done|]. by rewrite IH. Qed.

Lemma of_le_bytes n : forall z, 0 <= z < 256 ^ Z.of_nat n -> of_le (le_bytes n z) = z.
Proof.
  induction n as [|n IH]; intros z Hz; [simpl in *; lia|]. cbn [le_bytes of_le].
  rewrite Nat2Z.inj_succ, Z.pow_succ_r in Hz by lia.
  rewrite IH; [pose proof (Z.div_mod z 256); lia|].
  split; [apply Z.div_pos; lia|]. apply Z.div_lt_upper_bound; lia.
Qed.

Lemma read_write_le a n z m : 0 <= z < 256 ^ Z.of_nat n -> read_le (write_le a n z m) a n = z.
Proof.
  intros Hz. unfold read_le, write_le.
  rewrite <- (length_le_bytes n z) at 2. rewrite read_list_write. by apply of_le_bytes.
Qed.

Lemma write_le_other a n z m x : x < a \/ a + Z.of_nat n <= x -> write_le a n z m x = m x.
Proof. intros Hx. apply write_list_other. by rewrite length_le_bytes. Qed.

Lemma read_le_ext m m' a n : (forall x, a <= x < a + Z.of_nat n -> m x = m' x) -> read_le m a n = read_le m' a n.
Proof. intros Heq. unfold read_le. by rewrite (read_list_ext m m'). Qed.

Lemma read_le_write_other a n b k z m : a + Z.of_nat n <= b \/ b + Z.of_nat k <= a ->
  read_le (write_le b k z m) a n = read_le m a n.
Proof. intros Hd. apply read_le_ext. intros x Hx. apply write_le_other. lia. Qed.

(** The fields of a descriptor as the firmware writes them. *)
Definition descriptor_ok (d : MemoryDescriptor) : Prop :=
  in_u32 (md_ty d) /\ in_usize (md_phys_start d) /\ in_usize (md_virt_start d) /\
  in_usize (md_page_count d) /\ in_usize (md_att d).

Lemma read_write_descriptor a d m : descriptor_ok d ->
  read_descriptor_at (write_descriptor a d m) a = d.
Proof.
  intros (Ht & Hp & Hv & Hc & Hatt). unfold read_descriptor_at, write_descriptor.
  destruct d as [ty phys virt count att]. simpl in *.
  f_equal; repeat (rewrite read_le_write_other by lia); apply read_write_le;
    unfold in_u32, in_usize in *; simpl; lia.
Qed.

Lemma write_descriptor_other a d m x : x < a \/ a + DESCRIPTOR_SIZE <= x -> write_descriptor a d m x = m x.
Proof.
  unfold DESCRIPTOR_SIZE. intros Hx. unfold write_descriptor. by rewrite !write_le_other by lia.
Qed.

Lemma write_descriptors_other l : forall a m x,
  x < a \/ a + DESCRIPTOR_SIZE * Z.of_nat (length l) <= x -> write_descriptors a l m x = m x.
Proof.
  induction l as [|d l IH]; intros a m x Hx; [done|]. cbn [write_descriptors length] in *.
  unfold DESCRIPTOR_SIZE in *. rewrite IH by lia. apply write_descriptor_other. unfold DESCRIPTOR_SIZE. lia.
Qed.

Lemma read_descriptor_ext m m' a : (forall x, a <= x < a + DESCRIPTOR_SIZE -> m x = m' x) ->
  read_descriptor_at m a = read_descriptor_at m' a.
Proof.
  unfold DESCRIPTOR_SIZE. intros Heq. unfold read_descriptor_at.
  f_equal; apply read_le_ext; intros x Hx; apply Heq; lia.
Qed.

(** The descriptor at each place. *)
Lemma read_descriptors l : Forall descriptor_ok l -> forall a m i d, l !! i = Some d ->
  read_descriptor_at (write_descriptors a l m) (a + DESCRIPTOR_SIZE * Z.of_nat i) = d.
Proof.
  induction 1 as [|d l Hd Hok IH]; intros a m [|i] d' Hi; try done; cbn [write_descriptors].
  - injection Hi as <-. rewrite <- (read_write_descriptor a d m Hd) at 2.
    replace (a + DESCRIPTOR_SIZE * Z.of_nat 0) with a by lia. apply read_descriptor_ext.
    intros x Hx. apply write_descriptors_other. lia.
  - replace (a + DESCRIPTOR_SIZE * Z.of_nat (S i)) with (a + DESCRIPTOR_SIZE + DESCRIPTOR_SIZE * Z.of_nat i)
      by (unfold DESCRIPTOR_SIZE; lia). by apply IH.
Qed.

Lemma collect_from m current l k : (k <= length l)%nat ->
  (forall i d, l !! i = Some d -> read_descriptor_at m (current + DESCRIPTOR_SIZE * Z.of_nat i) = d) ->
  forall fuel, (length l - k < fuel)%nat ->
  mem_map_collect fuel m (mkMemMapIter (Z.of_nat k) (Z.of_nat (length l)) current) = Ret (drop k l).
Proof.
  intros Hk Hread fuel. revert k Hk. induction fuel as [|fuel IH]; intros k Hk Hf; [lia|].
  cbn [mem_map_collect]. unfold mem_map_next. simpl mi_index. simpl mi_size. simpl mi_current.
  destruct (Z.leb_spec (Z.of_nat (length l)) (Z.of_nat k)).
  - by rewrite drop_ge by lia.
  - destruct (lookup_lt_is_Some_2 l k) as [d Hd]; [lia|].
    rewrite (Hread k d Hd). replace (Z.of_nat k + 1) with (Z.of_nat (S k)) by lia.
    rewrite IH by lia. cbn [mbind outcome_bind]. by rewrite (drop_S l d k Hd).
Qed.

Lemma collect_written fuel entry l m : Forall descriptor_ok l -> Z.of_nat (length l) < 2 ^ 64 ->
  (length l < fuel)%nat ->
  let m' := new_inplace entry (Z.of_nat (length l)) l m in
  mem_map_collect fuel m' (into_iter m' entry) = Ret l.
Proof.
  intros Hok Hlen Hf m'. unfold into_iter.
  assert (read_le m' entry 8 = Z.of_nat (length l)) as ->.
  { transitivity (read_le (write_le entry 8 (Z.of_nat (length l)) m) entry 8).
    - apply read_le_ext. intros x Hx. apply write_descriptors_other. unfold HEADER_SIZE. lia.
    - apply read_write_le. simpl. lia. }
  apply (collect_from m' (entry + HEADER_SIZE) l 0); [lia| |lia].
  intros i d Hi. by apply read_descriptors.
Qed.

(** * The heap *)

Definition descriptor_range (d : MemoryDescriptor) : Z * Z :=
  (md_phys_start d, md_phys_start d + md_page_count d * 4096).

(** The regions that the kernel may use end below the top of the address space. *)
Definition regions_fit (l : list MemoryDescriptor) : Prop :=
  Forall (fun d => usable d = true -> 0 <= md_phys_start d /\
    md_phys_start d + md_page_count d * 4096 < 2 ^ 64) l.

Lemma usable_ranges_spec l : regions_fit l ->
  usable_ranges l = Ret (descriptor_range <$> filter (fun d => usable d = true) l).
Proof.
  induction 1 as [|d l Hd Hl IH]; [done|]. cbn [usable_ranges]. rewrite filter_cons.
  destruct (usable d) eqn:Hu.
  - rewrite decide_True by done. destruct Hd as [Hp Hf]; [done|].
    rewrite mul_w_Ret by lia. cbn [mbind outcome_bind]. rewrite add_w_Ret by lia. cbn [mbind outcome_bind].
    by rewrite IH.
  - by rewrite decide_False.
Qed.

Lemma foldl_larger l : forall r, let best := foldl larger r l in
  (best = r \/ best ∈ l) /\ range_len r <= range_len best /\ forall x, x ∈ l -> range_len x <= range_len best.
Proof.
  induction l as [|y l IH]; intros r best.
  - split_and!; [by left|done|]. intros x ?%elem_of_nil. done.
  - destruct (IH (larger r y)) as (Hin & Hle & Hall). fold (foldl larger r (y :: l)) in *.
    change (foldl larger (larger r y) l) with best in *. unfold larger in Hin, Hle.
    destruct (Z.ltb_spec (range_len y) (range_len r)).
    + split_and!; [destruct Hin; [by left|right; by right]|done|].
      intros x Hx. apply elem_of_cons in Hx as [->|Hx]; [lia|by apply Hall].
    + split_and!; [right; destruct Hin as [->|]; [by left|by right]|lia|].
      intros x Hx. apply elem_of_cons in Hx as [->|Hx]; [lia|by apply Hall].
Qed.

Lemma choose_heap_spec l : regions_fit l ->
  (Forall (fun d => usable d = false) l /\ choose_heap l = Panic) \/
  exists d, d ∈ l /\ usable d = true /\ choose_heap l = Ret (descriptor_range d) /\
    forall d', d' ∈ l -> usable d' = true -> md_page_count d' <= md_page_count d.
Proof.
  intros Hfit. unfold choose_heap. rewrite usable_ranges_spec by done. cbn [mbind outcome_bind].
  destruct (filter (fun d => usable d = true) l) as [|d0 rest] eqn:Hf.
  - left. split; [|done]. apply Forall_forall. intros d Hd. destruct (usable d) eqn:Hu; [|done].
    exfalso. assert (d ∈ filter (fun d => usable d = true) l) as Hin by (by apply list_elem_of_filter).
    rewrite Hf in Hin. by apply elem_of_nil in Hin.
  - right. cbn [fmap list_fmap]. simpl.
    destruct (foldl_larger (descriptor_range <$> rest) (descriptor_range d0)) as (Hin & Hle & Hall).
    set (best := foldl larger _ _) in *.
    assert (Hbest : exists d, d ∈ d0 :: rest /\ best = descriptor_range d).
    { destruct Hin as [->|Hin]; [exists d0; split; [by left|done]|].
      apply list_elem_of_fmap in Hin as (d & -> & Hd). exists d. split; [by right|done]. }
    destruct Hbest as (d & Hd & Heq). rewrite <- Hf in Hd. apply list_elem_of_filter in Hd as [Hu Hd].
    exists d. split_and!; [done..|by rewrite Heq|]. intros d' Hd' Hu'.
    assert (d' ∈ d0 :: rest) as Hin' by (rewrite <- Hf; by apply list_elem_of_filter).
    assert (range_len (descriptor_range d') <= range_len best) as Hlen.
    { apply elem_of_cons in Hin' as [->|Hin']; [done|]. apply Hall. by apply list_elem_of_fmap_2. }
    rewrite Heq in Hlen. unfold range_len, descriptor_range in Hlen. simpl in Hlen. lia.
Qed.

(** * Properties *)

(** The pages hold every segment. *)
Definition pages_cover (segments : list ProgramHeader) (lo pages : Z) : Prop :=
  forall h, h ∈ segments -> is_load h = true ->
    lo <= p_vaddr h /\ p_vaddr h + p_memsz h <= lo + pages * 0x1000.

(** The memory map reaches the kernel, and its heap is the largest usable region.  For every
    map that the firmware reports, the kernel reads back from the entry that the boot loader wrote
    exactly that map; when it has a usable region, the allocator starts on one that no other usable
    region is larger than, with nothing allocated; otherwise the kernel panics. *)
Theorem memory_map_handover fuel entry l (m : memory) allocator :
  Forall descriptor_ok l -> regions_fit l -> Z.of_nat (length l) < 2 ^ 64 -> (length l < fuel)%nat ->
  let m' := new_inplace entry (Z.of_nat (length l)) l m in
  (Forall (fun d => usable d = false) l -> init_heap fuel m' entry allocator = Panic) /\
  ((exists d, d ∈ l /\ usable d = true) ->
   exists d, d ∈ l /\ usable d = true /\
     (forall d', d' ∈ l -> usable d' = true -> md_page_count d' <= md_page_count d) /\
     let heap := Bump.init allocator (md_phys_start d) (md_phys_start d + md_page_count d * 4096) in
     init_heap fuel m' entry allocator = Ret (l, heap) /\
     (0 < md_phys_start d -> Bump.n_allocations allocator = 0 -> Bump.inv heap [])).
Proof.
  intros Hok Hfit Hlen Hfuel m'. unfold init_heap.
  pose proof (collect_written fuel entry l m Hok Hlen Hfuel) as Hc. fold m' in Hc. rewrite Hc.
  cbn [mbind outcome_bind].
  destruct (choose_heap_spec l Hfit) as [[Hno Hp]|(d & Hd & Hu & Hr & Hmax)].
  - rewrite Hp. split; [done|]. intros (d & Hd & Hu). rewrite Forall_forall in Hno. by rewrite (Hno d Hd) in Hu.
  - rewrite Hr. cbn [mbind outcome_bind]. split.
    + intros Hno. rewrite Forall_forall in Hno. by rewrite (Hno d Hd) in Hu.
    + intros _. exists d. split_and!; [done..|]. intros Hpos Ha.
      apply BumpFacts.bump_init_inv; [|done]. unfold regions_fit in Hfit.
      rewrite Forall_forall in Hfit. specialize (Hfit d Hd Hu). rewrite Forall_forall in Hok.
      destruct (Hok d Hd) as (_ & _ & _ & Hcount & _). unfold in_usize in Hcount. lia.
Qed.

(** * Witnesses *)

Module BootExamples.

(** A file of 8 bytes at 0x9000: its first four bytes are a segment of six, its last two one of two. *)
Definition segments : list ProgramHeader :=
  [mkProgramHeader 1 0 0x1000 4 6; mkProgramHeader 2 0 0x1000 8 8; mkProgramHeader 1 6 0x2ffe 2 2].

Definition file_memory : memory := write_list 0x9000 [11; 12; 13; 14; 15; 16; 17; 18] (fun _ => 255).

Definition map : list MemoryDescriptor :=
  [mkDescriptor 7 0x1000 0 16 15; mkDescriptor 2 0x20000 0 64 15; mkDescriptor 3 0x100000 0 64 15;
   mkDescriptor 7 0x200000 0 64 15].

Lemma segments_ok : Forall (segment_ok 8) segments.
Proof. repeat constructor; simpl; lia. Qed.

Lemma segments_apart : segments_disjoint segments.
Proof.
  intros i j h h' a Hi Hj Hne Hl Hl' Ha Ha'.
  destruct i as [|[|[|i]]]; try done; destruct j as [|[|[|j]]]; try done;
    injection Hi as <-; injection Hj as <-; unfold in_segment in *; simpl in *; try done; lia.
Qed.

Lemma map_ok : Forall descriptor_ok map /\ regions_fit map.
Proof.
  split; repeat constructor; unfold in_u32, in_usize, usable in *; simpl in *; lia.
Qed.

End BootExamples.

Lemma memory_map_handover_witness :
  exists d, d ∈ BootExamples.map /\ md_page_count d = 64 /\
    init_heap 5 (new_inplace 0x7000 4 BootExamples.map BootExamples.file_memory) 0x7000 Bump.new
    = Ret (BootExamples.map, Bump.init Bump.new (md_phys_start d) (md_phys_start d + 64 * 4096)).
Proof.
  destruct (memory_map_handover 5 0x7000 BootExamples.map BootExamples.file_memory Bump.new)
    as [_ Hheap]; [apply BootExamples.map_ok|apply BootExamples.map_ok|simpl; lia|simpl; lia|].
  destruct Hheap as (d & Hd & Hu & Hmax & Hrun & _).
  { eexists. split; [by left|done]. }
  exists d. pose proof (Hmax (mkDescriptor 3 0x100000 0 64 15)) as H64.
  assert (md_page_count d = 64) as Hc.
  { assert (64 <= md_page_count d) as Hge by (apply H64; [by do 2 right; left|done]).
    assert (Forall (fun d => md_page_count d <= 64) BootExamples.map) as Hle
      by (repeat constructor; simpl; lia).
    rewrite Forall_forall in Hle. specialize (Hle d Hd). lia. }
  rewrite Hc in Hrun. split; [done|]. split; [done|]. exact Hrun.
Defined.
