(* ===== verification/Trb.v ===== *)
(** Transfer request blocks ([kernel/src/xhci/trb.rs]) and the interface of the
    [xhci] crate that the rings use to build them. *)
From S2P Require Import Prelude BitField.

(** [TrbRaw([u32; 4])]. *)
Record TrbRaw := mkTrb { dw0 : Z; dw1 : Z; dw2 : Z; dw3 : Z }.

(** The parts of the [xhci] crate used on TRBs.  [trb_cycle_bit] is
    [Link::cycle_bit] of a TRB read as a link TRB; [Cmd] is one of the enumerations
    [transfer::Allowed] and [command::Allowed]; [Link] is [trb::Link]; [link_target]
    is how the controller reads a link TRB: its segment pointer and its toggle-cycle
    flag, if the TRB is a link. *)
Class TrbLib (Cmd : Type) := {
  Link : Type;
  trb_cycle_bit : TrbRaw -> bool;
  link_target : TrbRaw -> option (Z * bool);
  set_cycle_bit : Cmd -> Cmd;
  clear_cycle_bit : Cmd -> Cmd;
  into_raw : Cmd -> TrbRaw;
  link_new : Link;
  link_set_ring_segment_pointer : Z -> Link -> Link;
  link_set_toggle_cycle : Link -> Link;
  link_set_cycle_bit : Link -> Link;
  link_clear_cycle_bit : Link -> Link;
  link_into_raw : Link -> TrbRaw;
}.

Section trb.
Context `{TL : TrbLib Cmd} `{BF : BitFieldLib}.

Definition new_unchecked (d0 d1 d2 d3 : Z) : TrbRaw := mkTrb d0 d1 d2 d3.

Definition cycle_bit_of (self : TrbRaw) : bool := trb_cycle_bit self.

Definition toggle_cycle_bit_of (self : TrbRaw) : TrbRaw :=
  let toggled := negb (cycle_bit_of self) in
  mkTrb (dw0 self) (dw1 self) (dw2 self) (set_bit (dw3 self) 0 toggled).

(** The memory states that [write_in_order] goes through, one 32-bit store at a
    time, and the last one. *)
Definition write_in_order_trace (self another : TrbRaw) : list TrbRaw :=
  [mkTrb (dw0 another) (dw1 self) (dw2 self) (dw3 self);
   mkTrb (dw0 another) (dw1 another) (dw2 self) (dw3 self);
   mkTrb (dw0 another) (dw1 another) (dw2 another) (dw3 self);
   mkTrb (dw0 another) (dw1 another) (dw2 another) (dw3 another)].

Definition write_in_order (self another : TrbRaw) : TrbRaw :=
  List.last (write_in_order_trace self another) self.

(** The link TRB that closes a ring at [base], as [push] builds it. *)
Definition closing_link (base : Z) (cycle_bit : bool) : TrbRaw :=
  let link := link_new in
  let link := link_set_ring_segment_pointer base link in
  let link := link_set_toggle_cycle link in
  let link := if cycle_bit then link_set_cycle_bit link else link_clear_cycle_bit link in
  link_into_raw link.

(** [cmd] with its cycle bit set to the one of the ring, as [push] does first. *)
Definition with_cycle_bit (cycle_bit : bool) (cmd : Cmd) : Cmd :=
  if cycle_bit then set_cycle_bit cmd else clear_cycle_bit cmd.

(** A TRB without its cycle bit. *)
Definition payload (t : TrbRaw) : TrbRaw :=
  mkTrb (dw0 t) (dw1 t) (dw2 t) (Z.clearbit (dw3 t) 0).

End trb.

(** What the code relies on: the cycle bit is bit 0 of the last word; setting it
    changes nothing else; [ring_addr] says which segment addresses a link can hold
    (the 16-byte aligned ones), and a link built by the setters reads back. *)
Class TrbLaws (Cmd : Type) `{TL : TrbLib Cmd} : Prop := {
  trb_cycle_bit_spec t : trb_cycle_bit t = Z.testbit (dw3 t) 0;
  set_cycle_bit_spec c : Z.testbit (dw3 (into_raw (set_cycle_bit c))) 0 = true;
  clear_cycle_bit_spec c : Z.testbit (dw3 (into_raw (clear_cycle_bit c))) 0 = false;
  set_cycle_bit_payload c : payload (into_raw (set_cycle_bit c)) = payload (into_raw c);
  clear_cycle_bit_payload c :
    payload (into_raw (clear_cycle_bit c)) = payload (into_raw c);
  link_target_payload t t' : payload t = payload t' -> link_target t = link_target t';
  cleared_link_cycle_bit :
    Z.testbit (dw3 (link_into_raw (link_clear_cycle_bit link_new))) 0 = false;
  closing_link_cycle_bit base b :
    0 <= base < 2 ^ 64 -> (16 | base) ->
    Z.testbit (dw3 (closing_link base b)) 0 = b;
  closing_link_target base b :
    0 <= base < 2 ^ 64 -> (16 | base) ->
    link_target (closing_link base b) = Some (base, true);
}.

(** * A concrete instance: the layout of the xHCI specification *)

Module XhciLayout.

(** A TRB of type 1 (normal) is [mkTrb lo hi status control], with its type in bits
    10..15 of the control word; a link is a TRB of type 6 with the toggle-cycle flag
    in bit 1. *)
Definition trb_type (t : TrbRaw) : Z := (dw3 t / 2 ^ 10) mod 2 ^ 6.

Definition set_bit0 (b : bool) (t : TrbRaw) : TrbRaw :=
  mkTrb (dw0 t) (dw1 t) (dw2 t)
    (if b then Z.setbit (dw3 t) 0 else Z.clearbit (dw3 t) 0).

Definition set_control (bits : Z) (t : TrbRaw) : TrbRaw :=
  mkTrb (dw0 t) (dw1 t) (dw2 t) (Z.lor (dw3 t) bits).

#[global] Instance xhci_trb_lib : TrbLib TrbRaw := {|
  Link := TrbRaw;
  trb_cycle_bit t := Z.testbit (dw3 t) 0;
  link_target t :=
    if trb_type t =? 6 then Some (dw0 t + dw1 t * 2 ^ 32, Z.testbit (dw3 t) 1) else None;
  set_cycle_bit := set_bit0 true;
  clear_cycle_bit := set_bit0 false;
  into_raw c := c;
  link_new := mkTrb 0 0 0 (6 * 2 ^ 10);
  link_set_ring_segment_pointer a t :=
    mkTrb (a mod 2 ^ 32) (a / 2 ^ 32) (dw2 t) (dw3 t);
  link_set_toggle_cycle := set_control 2;
  link_set_cycle_bit := set_bit0 true;
  link_clear_cycle_bit := set_bit0 false;
  link_into_raw t := t;
|}.

End XhciLayout.

(** * Lemmas *)

#[local] Arguments Z.setbit : simpl never.
#[local] Arguments Z.clearbit : simpl never.
#[local] Arguments Z.testbit : simpl never.

Lemma payload_eq t t' :
  payload t = payload t' <->
  dw0 t = dw0 t' /\ dw1 t = dw1 t' /\ dw2 t = dw2 t' /\
  Z.clearbit (dw3 t) 0 = Z.clearbit (dw3 t') 0.
Proof. unfold payload. split; [naive_solver|by intros (-> & -> & -> & ->)]. Qed.

Lemma testbit_clearbit_0 x i : 0 < i -> Z.testbit (Z.clearbit x 0) i = Z.testbit x i.
Proof. intros. apply Z.clearbit_neq. lia. Qed.

Lemma clearbit_setbit_0 x : Z.clearbit (Z.setbit x 0) 0 = Z.clearbit x 0.
Proof.
  apply Z.bits_inj'. intros i Hi. rewrite !Z.clearbit_eqb, Z.setbit_eqb by lia.
  destruct (Z.eqb_spec 0 i); [by rewrite !andb_false_r|done].
Qed.

Lemma clearbit_idemp_0 x : Z.clearbit (Z.clearbit x 0) 0 = Z.clearbit x 0.
Proof.
  apply Z.bits_inj'. intros i Hi. rewrite !Z.clearbit_eqb by lia.
  by destruct (Z.testbit x i), (0 =? i).
Qed.

Lemma payload_idemp t : payload (payload t) = payload t.
Proof. unfold payload. simpl. by rewrite clearbit_idemp_0. Qed.

(** The cycle bit and the rest determine a TRB with a non-negative last word. *)
Lemma payload_cycle_inj t t' :
  payload t = payload t' -> Z.testbit (dw3 t) 0 = Z.testbit (dw3 t') 0 -> t = t'.
Proof.
  intros (H0 & H1 & H2 & H3)%payload_eq Hc. destruct t as [a b c d], t' as [a' b' c' d'].
  simpl in *. subst. f_equal. apply Z.bits_inj'. intros i Hi.
  destruct (decide (i = 0)) as [->|]; [done|].
  by rewrite <- (testbit_clearbit_0 d), <- (testbit_clearbit_0 d'), H3 by lia.
Qed.

Lemma trb_type_payload t : XhciLayout.trb_type (payload t) = XhciLayout.trb_type t.
Proof.
  unfold XhciLayout.trb_type, payload. simpl.
  rewrite <- !Z.shiftr_div_pow2, <- !Z.land_ones by lia.
  apply Z.bits_inj'. intros i Hi. rewrite !Z.land_spec, !Z.shiftr_spec by done.
  by rewrite testbit_clearbit_0 by lia.
Qed.

#[global] Instance xhci_trb_laws : TrbLaws TrbRaw.
Proof.
  split; simpl; intros.
  - done.
  - by rewrite Z.setbit_eqb.
  - by rewrite Z.clearbit_eqb, andb_false_r.
  - unfold payload. simpl. by rewrite clearbit_setbit_0.
  - unfold payload. simpl. by rewrite clearbit_idemp_0.
  - rewrite <- (trb_type_payload t), <- (trb_type_payload t'), H.
    case_match; [|done]. apply payload_eq in H as (-> & -> & _ & Hd).
    by rewrite <- (testbit_clearbit_0 (dw3 t)), <- (testbit_clearbit_0 (dw3 t')), Hd by lia.
  - done.
  - by destruct b.
  - destruct b; unfold closing_link, XhciLayout.trb_type; simpl;
      do 2 f_equal; rewrite (Z.div_mod base (2 ^ 32)) at 3; lia.
Qed.

Section trb_lemmas.
Context `{TL : TrbLib Cmd} `{!TrbLaws Cmd} `{BFL : BitFieldLaws}.

Lemma write_in_order_eq t t' : write_in_order t t' = t'.
Proof. by destruct t'. Qed.

Lemma with_cycle_bit_spec b c : cycle_bit_of (into_raw (with_cycle_bit b c)) = b.
Proof.
  unfold cycle_bit_of. rewrite trb_cycle_bit_spec.
  destruct b; [apply set_cycle_bit_spec|apply clear_cycle_bit_spec].
Qed.

Lemma with_cycle_bit_payload b c :
  payload (into_raw (with_cycle_bit b c)) = payload (into_raw c).
Proof. destruct b; [apply set_cycle_bit_payload|apply clear_cycle_bit_payload]. Qed.

Lemma cycle_bit_toggle t :
  cycle_bit_of (toggle_cycle_bit_of t) = negb (cycle_bit_of t).
Proof.
  unfold cycle_bit_of, toggle_cycle_bit_of. rewrite !trb_cycle_bit_spec. simpl.
  rewrite set_bit_spec by done. by rewrite decide_True by done.
Qed.

Lemma payload_toggle t : payload (toggle_cycle_bit_of t) = payload t.
Proof.
  apply payload_eq. simpl. split_and!; try done.
  apply Z.bits_inj'. intros i Hi. rewrite !Z.clearbit_eqb by lia.
  destruct (Z.eqb_spec 0 i); [by rewrite !andb_false_r|].
  rewrite set_bit_spec by done. by rewrite decide_False by lia.
Qed.

End trb_lemmas.
