(* ===== verification/CycleRing.v ===== *)
(** The cycle-bit protocol shared by the command, transfer and event rings, on an
    array of [n] slots: producer and consumer count positions [0, 1, 2, ...];
    position [i] is slot [i mod n] and is written with cycle bit [phase n i], which
    flips every lap.  A slot of the window [[c, c + n)] holds the TRB of its
    position when the producer has reached it, and otherwise still has the cycle
    bit of the previous lap. *)
From S2P Require Import Prelude.
From stdpp Require Import list.

#[local] Open Scope nat_scope.

(** The cycle bit of position [i] in a ring of [n] slots; the first lap uses 1. *)
Definition phase (n i : nat) : bool := Nat.even (i / n).

(** The slots between a consumer at position [c] and a producer at position [p]
    that has published the TRBs [q] not consumed yet. *)
Record window {T} (cycle : T -> bool) (n : nat) (slots : list T) (c p : nat)
    (q : list T) : Prop := {
  win_len : length slots = n;
  win_queue : p = c + length q;
  win_bound : p <= c + n;
  win_ready i : c <= i < p ->
    exists t, slots !! (i mod n) = Some t /\ q !! (i - c) = Some t /\ cycle t = phase n i;
  win_free i : p <= i < c + n ->
    exists t, slots !! (i mod n) = Some t /\ cycle t = negb (phase n i);
}.

(** * Positions *)

Lemma phase_next_lap n i : 0 < n -> phase n (i + n) = negb (phase n i).
Proof.
  intros Hn. unfold phase.
  replace (i + n) with (i + 1 * n) by lia. rewrite Nat.div_add by lia.
  by rewrite Nat.add_1_r, Nat.even_succ, <- Nat.negb_even.
Qed.

Lemma mod_next_lap n i : (i + n) mod n = i mod n.
Proof.
  destruct n as [|n]; [by rewrite Nat.add_0_r|].
  replace (i + S n) with (i + 1 * S n) by lia. by rewrite Nat.Div0.mod_add.
Qed.

(** Going one position forward: the index wraps, and with it the phase flips. *)
Lemma position_succ n i :
  0 < n ->
  (S i mod n, phase n (S i)) =
    if decide (S (i mod n) = n) then (0, negb (phase n i)) else (S (i mod n), phase n i).
Proof.
  intros Hn. pose proof (Nat.mod_upper_bound i n ltac:(lia)).
  pose proof (Nat.div_mod_eq i n) as Hi.
  unfold phase. case_decide as Hd.
  - replace (S i) with (0 + (S (i / n)) * n) by nia.
    rewrite Nat.Div0.mod_add, Nat.div_add, Nat.Div0.mod_0_l, Nat.Div0.div_0_l by lia.
    by rewrite Nat.add_0_l, Nat.even_succ, <- Nat.negb_even.
  - replace (S i) with (S (i mod n) + (i / n) * n) at 1 2 by nia.
    rewrite Nat.Div0.mod_add, Nat.div_add, Nat.mod_small, Nat.div_small by lia.
    done.
Qed.

Lemma mod_succ n i :
  0 < n -> S i mod n = if decide (S (i mod n) = n) then 0 else S (i mod n).
Proof. intros Hn. pose proof (position_succ n i Hn). case_decide; congruence. Qed.

Lemma phase_succ n i :
  0 < n -> phase n (S i) = if decide (S (i mod n) = n) then negb (phase n i) else phase n i.
Proof. intros Hn. pose proof (position_succ n i Hn). case_decide; congruence. Qed.

(** Two positions of one window are in different slots. *)
Lemma mod_window_inj n c i j :
  c <= i < c + n -> c <= j < c + n -> i mod n = j mod n -> i = j.
Proof.
  intros Hi Hj Heq. assert (0 < n) by lia.
  pose proof (Nat.div_mod_eq i n). pose proof (Nat.div_mod_eq j n).
  assert (i / n = j / n); [|nia].
  pose proof (Nat.mod_upper_bound i n). pose proof (Nat.mod_upper_bound j n).
  assert (i / n < S (j / n)) by nia. assert (j / n < S (i / n)) by nia. lia.
Qed.

(** * The window *)

Section window.
Context {T : Type} (cycle : T -> bool) (n : nat).
Implicit Types (slots q : list T) (t : T).

(** A ring whose slots all have cycle bit 0 is empty. *)
Lemma window_init slots :
  length slots = n -> Forall (fun t => cycle t = false) slots ->
  window cycle n slots 0 0 [].
Proof.
  intros Hlen Hall. split; simpl; [done|done|lia|lia|].
  intros i Hi. rewrite Nat.mod_small by lia.
  destruct (lookup_lt_is_Some_2 slots i) as [t Ht]; [lia|].
  exists t. split; [done|]. rewrite (Forall_lookup_1 _ _ _ _ Hall Ht).
  unfold phase. by rewrite Nat.div_small by lia.
Qed.

(** Publishing a TRB in a free slot. *)
Lemma window_push slots c p q t :
  window cycle n slots c p q -> p < c + n -> cycle t = phase n p ->
  window cycle n (<[p mod n := t]> slots) c (S p) (q ++ [t]).
Proof.
  intros [Hlen Hq Hb Hready Hfree] Hp Ht. split.
  - by rewrite length_insert.
  - rewrite length_app. simpl. lia.
  - lia.
  - intros i Hi. destruct (decide (i = p)) as [->|Hne].
    + exists t. split_and!; [|rewrite lookup_app_r by lia|done].
      * apply list_lookup_insert_eq. rewrite Hlen. apply Nat.mod_upper_bound. lia.
      * by replace (p - c - length q) with 0 by lia.
    + destruct (Hready i) as (t' & Hs & Hl & Hc); [lia|]. exists t'.
      split_and!; [|by rewrite lookup_app_l by lia|done].
      rewrite list_lookup_insert_ne; [done|]. intros Heq.
      apply Hne. symmetry. apply (mod_window_inj n c); [lia..|done].
  - intros i Hi. destruct (Hfree i) as (t' & Hs & Hc); [lia|]. exists t'. split; [|done].
    rewrite list_lookup_insert_ne; [done|]. intros Heq.
    assert (p = i); [|lia]. apply (mod_window_inj n c); [lia..|done].
Qed.

(** Consuming the oldest TRB. *)
Lemma window_pop slots c p t q :
  window cycle n slots c p (t :: q) -> window cycle n slots (S c) p q.
Proof.
  intros [Hlen Hq Hb Hready Hfree]. simpl in Hq. split; [done|lia|lia| |].
  - intros i Hi. destruct (Hready i) as (t' & Hs & Hl & Hc); [lia|]. exists t'.
    split_and!; [done| |done]. by replace (i - c) with (S (i - S c)) in Hl by lia.
  - intros i Hi. destruct (decide (i < c + n)); [apply Hfree; lia|].
    assert (i = c + n) as -> by lia.
    destruct (Hready c) as (t' & Hs & Hl & Hc); [lia|].
    exists t'. rewrite mod_next_lap, phase_next_lap, negb_involutive by lia. done.
Qed.

(** What the consumer finds at its position. *)
Lemma window_front slots c p q :
  0 < n -> window cycle n slots c p q ->
  exists t, slots !! (c mod n) = Some t /\
    match q with
    | [] => cycle t = negb (phase n c)
    | t' :: _ => t = t' /\ cycle t = phase n c
    end.
Proof.
  intros Hn [Hlen Hq Hb Hready Hfree]. destruct q as [|t' q]; simpl in *.
  - destruct (Hfree c) as (t & ? & ?); [lia|]. eauto.
  - destruct (Hready c) as (t & ? & Hl & ?); [lia|].
    rewrite Nat.sub_diag in Hl. simplify_eq/=. eauto.
Qed.

(** The producer finds a slot of the previous lap while the ring is not full. *)
Lemma window_back slots c p q :
  window cycle n slots c p q -> p < c + n ->
  exists t, slots !! (p mod n) = Some t /\ cycle t = negb (phase n p).
Proof. intros [] Hp. auto. Qed.

(** Changing a free slot without touching its cycle bit changes nothing. *)
Lemma window_write_free slots c p q t :
  window cycle n slots c p q -> p < c + n -> cycle t = negb (phase n p) ->
  window cycle n (<[p mod n := t]> slots) c p q.
Proof.
  intros [Hlen Hq Hb Hready Hfree] Hp Ht. split; [by rewrite length_insert|done|done| |].
  - intros i Hi. destruct (Hready i) as (t' & Hs & Hl & Hc); [lia|]. exists t'.
    split_and!; [|done|done]. rewrite list_lookup_insert_ne; [done|]. intros Heq.
    assert (p = i); [|lia]. apply (mod_window_inj n c); [lia..|done].
  - intros i Hi. destruct (decide (i = p)) as [->|Hne].
    + exists t. split; [|done]. apply list_lookup_insert_eq. rewrite Hlen.
      apply Nat.mod_upper_bound. lia.
    + destruct (Hfree i) as (t' & Hs & Hc); [lia|]. exists t'. split; [|done].
      rewrite list_lookup_insert_ne; [done|]. intros Heq.
      apply Hne. symmetry. apply (mod_window_inj n c); [lia..|done].
Qed.

End window.
