(* ===== verification/Rings.v ===== *)
(** The producer rings of the kernel: [TransferRing] (kernel/src/xhci/transfer_ring.rs)
    and [CommandRing] (kernel/src/xhci/command_ring.rs), against the way the host
    controller consumes them. *)
From S2P Require Import Prelude Allocator BitField Trb CycleRing.

(** [PAGE_SIZE] of kernel/src/memory.rs; a TRB is 16 bytes. *)
Definition PAGE_SIZE : Z := 4096.
Definition TRB_SIZE : Z := 16.

(** The dequeue index of the controller and its consumer cycle state. *)
Abbreviation hw_state := (nat * bool)%type.

Section rings.
Context `{TL : TrbLib Cmd} `{BF : BitFieldLib}.

(** * Operations common to the rings *)

(** [trb_buffer[index].write_in_order(trb)]. *)
Definition publish (buf : list TrbRaw) (index : nat) (trb : TrbRaw) :
    outcome (list TrbRaw) :=
  old ← unwrap (buf !! index);
  Ret (<[index := write_in_order old trb]> buf).

(** The end of a push: [write_index += 1], and at the last slot a link TRB back to
    the start, with the cycle bit of the lap that ends.  Also tells whether the lap
    ended. *)
Definition advance (base : Z) (buf : list TrbRaw) (write_index : nat) (cycle_bit : bool) :
    outcome (list TrbRaw * nat * bool * bool) :=
  let write_index := S write_index in
  if decide (write_index = length buf - 1)%nat then
    buf ← publish buf write_index (closing_link base cycle_bit);
    Ret (buf, 0%nat, negb cycle_bit, true)
  else Ret (buf, write_index, cycle_bit, false).

(** The address of slot [index]. *)
Definition slot_ptr (base : Z) (index : nat) : Z := base + TRB_SIZE * Z.of_nat index.

Definition zero_trb : TrbRaw := new_unchecked 0 0 0 0.

(** * The transfer ring *)

Record TransferRing := mkTransferRing {
  tr_base : Z;
  tr_buffer : list TrbRaw;
  tr_write_index : nat;
  tr_cycle_bit : bool;
  tr_cycle_count : nat;
}.

Definition transfer_ring_new (allocator : KernelAlloc.GlobalAllocator) (buf_size : Z) :
    outcome (TransferRing * KernelAlloc.GlobalAllocator) :=
  '(r, allocator, _) ← KernelAlloc.kernel_alloc_array_with_boundary_with_default_else
    TRB_SIZE allocator ∅ buf_size 64 (PAGE_SIZE / 4) zero_trb;
  match r with
  | Ok (ptr, len) =>
      Ret (mkTransferRing ptr (replicate (Z.to_nat len) zero_trb) 0 true 0, allocator)
  | Err _ => Panic
  end.

Definition buffer_len (self : TransferRing) : nat := length (tr_buffer self).

Definition buffer_range (self : TransferRing) : Z * Z :=
  (tr_base self, slot_ptr (tr_base self) (buffer_len self)).

Definition transfer_push (self : TransferRing) (cmd : Cmd) : outcome (Z * TransferRing) :=
  let cmd := with_cycle_bit (tr_cycle_bit self) cmd in
  buf ← publish (tr_buffer self) (tr_write_index self) (into_raw cmd);
  let trb_ptr := slot_ptr (tr_base self) (tr_write_index self) in
  '(buf, index, cycle_bit, _) ←
    advance (tr_base self) buf (tr_write_index self) (tr_cycle_bit self);
  Ret (trb_ptr, mkTransferRing (tr_base self) buf index cycle_bit (tr_cycle_count self)).

(** [buffer_range().position(|i| i == ptr)]. *)
Definition position_in_range (range : Z * Z) (ptr : Z) : option Z :=
  if decide (range.1 <= ptr < range.2) then Some (ptr - range.1) else None.

Definition flip_cycle_bit_at (self : TransferRing) (trb_pointer : Z)
    (prev_cycle_bit : bool) : outcome TransferRing :=
  position ← unwrap (position_in_range (buffer_range self) trb_pointer);
  let index := Z.to_nat (position / TRB_SIZE) in
  _ ← assert (bool_decide (index <> length (tr_buffer self) - 1)%nat);
  trb ← unwrap (tr_buffer self !! index);
  _ ← assert (eqb (cycle_bit_of trb) prev_cycle_bit);
  let buf := <[index := toggle_cycle_bit_of trb]> (tr_buffer self) in
  '(buf, index, cycle_bit, ended) ← advance (tr_base self) buf index (tr_cycle_bit self);
  Ret (mkTransferRing (tr_base self) buf index cycle_bit
         (if ended : bool then S (tr_cycle_count self) else tr_cycle_count self)).

(** [fill_with_normal]: [normal_trb ptr len] is the [transfer::Normal] built there,
    for a buffer at [ptr] of [len] bytes; the buffers come from [alloc_zeroed]. *)
Fixpoint fill_loop (normal_trb : Z -> Z -> Cmd) (allocator : KernelAlloc.GlobalAllocator)
    (self : TransferRing) (buf_size : Z) (count : nat) :
    outcome (TransferRing * KernelAlloc.GlobalAllocator) :=
  match count with
  | O => Ret (self, allocator)
  | S count =>
      layout ← unwrap (from_size_align buf_size PAGE_SIZE);
      '(buf, allocator) ← global_alloc allocator layout;
      '(_, self) ← transfer_push self (normal_trb buf buf_size);
      fill_loop normal_trb allocator self buf_size count
  end.

Definition fill_with_normal (normal_trb : Z -> Z -> Cmd)
    (allocator : KernelAlloc.GlobalAllocator) (self : TransferRing) (buf_size : Z) :
    outcome (TransferRing * KernelAlloc.GlobalAllocator) :=
  fill_loop normal_trb allocator self buf_size (buffer_len self - 1).

(** * The command ring *)

Record CommandRing := mkCommandRing {
  cr_base : Z;
  cr_buffer : list TrbRaw;
  cr_write_index : nat;
  cr_cycle_bit : bool;
}.

Definition command_ring_new (allocator : KernelAlloc.GlobalAllocator) (buf_size : Z) :
    outcome (CommandRing * KernelAlloc.GlobalAllocator) :=
  '(r, allocator, _) ← KernelAlloc.kernel_alloc_array_with_boundary_with_default_else
    TRB_SIZE allocator ∅ buf_size 64 (64 * PAGE_SIZE) zero_trb;
  match r with
  | Ok (ptr, len) =>
      Ret (mkCommandRing ptr (replicate (Z.to_nat len) zero_trb) 0 true, allocator)
  | Err _ => Panic
  end.

Definition command_push (self : CommandRing) (cmd : Cmd) : outcome (Z * CommandRing) :=
  let cmd := with_cycle_bit (cr_cycle_bit self) cmd in
  buf ← publish (cr_buffer self) (cr_write_index self) (into_raw cmd);
  let trb_ptr := slot_ptr (cr_base self) (cr_write_index self) in
  '(buf, index, cycle_bit, _) ←
    advance (cr_base self) buf (cr_write_index self) (cr_cycle_bit self);
  Ret (trb_ptr, mkCommandRing (cr_base self) buf index cycle_bit).

(** * The consumer and the FIFO specification *)

(** A ring as the proofs see it: base address, slots, producer index and cycle. *)
Record ring_view := mkView {
  rv_base : Z;
  rv_buffer : list TrbRaw;
  rv_index : nat;
  rv_cycle : bool;
}.

Definition transfer_view (r : TransferRing) : ring_view :=
  mkView (tr_base r) (tr_buffer r) (tr_write_index r) (tr_cycle_bit r).
Definition command_view (r : CommandRing) : ring_view :=
  mkView (cr_base r) (cr_buffer r) (cr_write_index r) (cr_cycle_bit r).

(** One fetch by the controller, as the xHCI specification describes it: a TRB whose
    cycle bit differs from the consumer cycle state is not there yet; a link TRB
    leads to its target, toggling the state, where the fetch goes on. *)
Definition hw_read (buf : list TrbRaw) (hw : hw_state) : option TrbRaw :=
  t ← buf !! hw.1;
  if eqb (cycle_bit_of t) hw.2 then Some t else None.

Definition hw_fetch (base : Z) (buf : list TrbRaw) (hw : hw_state) :
    option TrbRaw * hw_state :=
  match hw_read buf hw with
  | None => (None, hw)
  | Some t =>
      match link_target t with
      | None => (Some t, (S hw.1, hw.2))
      | Some (target, toggle) =>
          let hw := (Z.to_nat ((target - base) / TRB_SIZE), xorb hw.2 toggle) in
          match hw_read buf hw with
          | None => (None, hw)
          | Some t => (Some t, (S hw.1, hw.2))
          end
      end
  end.

(** The software and the controller at work on one ring: a ring of type [R] seen
    through [view] and extended by [push], the controller, the TRBs pushed and the
    TRBs fetched so far (without their cycle bits).  The driver must leave the ring
    not overfull: [n] data slots hold at most [n] TRBs not fetched, and one less
    while the controller stands on the link. *)
Definition may_push (view : ring_view) (hw : hw_state) (pushed fetched : list TrbRaw) :
    Prop :=
  let n := (length (rv_buffer view) - 1)%nat in
  (length pushed < length fetched + n)%nat /\
  (hw.1 = n -> S (length pushed) < length fetched + n)%nat.

Inductive ring_step {R} (view : R -> ring_view) (push : R -> Cmd -> outcome (Z * R)) :
    R * hw_state * list TrbRaw * list TrbRaw ->
    R * hw_state * list TrbRaw * list TrbRaw -> Prop :=
  | step_push r hw pushed fetched c ptr r' :
      link_target (into_raw c) = None ->
      may_push (view r) hw pushed fetched ->
      push r c = Ret (ptr, r') ->
      ring_step view push (r, hw, pushed, fetched)
        (r', hw, pushed ++ [payload (into_raw c)], fetched)
  | step_fetch r hw pushed fetched t hw' :
      hw_fetch (rv_base (view r)) (rv_buffer (view r)) hw = (Some t, hw') ->
      ring_step view push (r, hw, pushed, fetched)
        (r, hw', pushed, fetched ++ [payload t])
  | step_idle r hw pushed fetched hw' :
      hw_fetch (rv_base (view r)) (rv_buffer (view r)) hw = (None, hw') ->
      ring_step view push (r, hw, pushed, fetched) (r, hw', pushed, fetched).

(** The relation between the ring, the controller and the queue of TRBs that are
    published and not fetched: [n] data slots and a link. *)
Definition ring_rel (n : nat) (v : ring_view) (hw : hw_state) (c p : nat)
    (q : list TrbRaw) : Prop :=
  exists slots link,
    (0 < n)%nat /\ 0 <= rv_base v < 2 ^ 64 /\ (16 | rv_base v) /\
    rv_buffer v = slots ++ [link] /\ window cycle_bit_of n slots c p q /\
    Forall (fun t => link_target t = None) q /\
    rv_index v = (p mod n)%nat /\ rv_cycle v = phase n p /\
    ((n <= p)%nat -> link = closing_link (rv_base v) (negb (phase n p))) /\
    (hw = ((c mod n)%nat, phase n c) \/
     (hw = (n, negb (phase n c)) /\ (c mod n = 0)%nat /\ (n <= c)%nat /\ (p < c + n)%nat)).

(** Both pushes on the common view. *)
Definition view_push (v : ring_view) (cmd : Cmd) : outcome (Z * ring_view) :=
  buf ← publish (rv_buffer v) (rv_index v) (into_raw (with_cycle_bit (rv_cycle v) cmd));
  '(buf, index, cycle_bit, _) ← advance (rv_base v) buf (rv_index v) (rv_cycle v);
  Ret (slot_ptr (rv_base v) (rv_index v), mkView (rv_base v) buf index cycle_bit).

(** The memory states that a push goes through, one 32-bit store after the other. *)
Definition publish_trace (buf : list TrbRaw) (index : nat) (trb : TrbRaw) :
    outcome (list (list TrbRaw)) :=
  old ← unwrap (buf !! index);
  Ret ((fun t => <[index := t]> buf) <$> write_in_order_trace old trb).

Definition push_trace (v : ring_view) (cmd : Cmd) : outcome (list (list TrbRaw)) :=
  let trb := into_raw (with_cycle_bit (rv_cycle v) cmd) in
  trace ← publish_trace (rv_buffer v) (rv_index v) trb;
  buf ← publish (rv_buffer v) (rv_index v) trb;
  if decide (S (rv_index v) = length buf - 1)%nat then
    trace' ← publish_trace buf (S (rv_index v)) (closing_link (rv_base v) (rv_cycle v));
    Ret (trace ++ trace')
  else Ret trace.

(** [push] is [view_push] on the ring behind [view]. *)
Definition implements_push {R} (view : R -> ring_view) (push : R -> Cmd -> outcome (Z * R)) :
    Prop :=
  forall r c, (prod_map id view <$> push r c) = view_push (view r) c.

End rings.

(** * Lemmas *)

Section ring_lemmas.
Context `{TL : TrbLib Cmd} `{!TrbLaws Cmd} `{BFL : BitFieldLaws}.
#[local] Open Scope nat_scope.

Lemma transfer_push_view : implements_push transfer_view transfer_push.
Proof.
  intros r c. unfold transfer_push, view_push. simpl.
  destruct (publish _ _ _) as [buf| |]; [|done..]. simpl.
  by destruct (advance _ _ _ _) as [[[[? ?] ?] ?]| |].
Qed.

Lemma command_push_view : implements_push command_view command_push.
Proof.
  intros r c. unfold command_push, view_push. simpl.
  destruct (publish _ _ _) as [buf| |]; [|done..]. simpl.
  by destruct (advance _ _ _ _) as [[[[? ?] ?] ?]| |].
Qed.

Lemma publish_slots slots link i t :
  i < length slots ->
  publish (slots ++ [link]) i t = Ret (<[i := t]> slots ++ [link]).
Proof.
  intros Hi. unfold publish. rewrite lookup_app_l by done.
  destruct (lookup_lt_is_Some_2 slots i Hi) as [old ->]. simpl.
  by rewrite write_in_order_eq, insert_app_l by done.
Qed.

Lemma publish_link slots link t :
  publish (slots ++ [link]) (length slots) t = Ret (slots ++ [t]).
Proof.
  unfold publish. rewrite list_lookup_middle by done. simpl.
  rewrite write_in_order_eq. by rewrite insert_app_r_alt, Nat.sub_diag by lia.
Qed.

(** The end of a push, on the slots and the link. *)
Lemma advance_eq base slots link i b :
  i < length slots ->
  advance base (slots ++ [link]) i b =
    Ret (if decide (S i = length slots)
         then (slots ++ [closing_link base b], 0, negb b, true)
         else (slots ++ [link], S i, b, false)).
Proof.
  intros Hi. unfold advance. rewrite length_app. simpl.
  replace (length slots + 1 - 1) with (length slots) by lia.
  destruct (decide (S i = length slots)) as [->|]; [|done].
  by rewrite publish_link.
Qed.

Lemma phase_same_lap n c p :
  0 < n -> c mod n = 0 -> c <= p < c + n -> phase n p = phase n c.
Proof.
  intros Hn Hc Hp. unfold phase. f_equal. apply Nat.Div0.mod_divides in Hc as [k ->].
  rewrite (Nat.mul_comm n k), Nat.div_mul by lia.
  replace p with (p - k * n + k * n) by lia.
  rewrite Nat.div_add, Nat.div_small by lia. lia.
Qed.

(** The controller does not stand on the link when a push is about to write it. *)
Lemma not_parked_at_wrap n c p hw :
  0 < n -> c <= p -> S (p mod n) = n ->
  hw = (c mod n, phase n c) \/
  (hw = (n, negb (phase n c)) /\ c mod n = 0 /\ n <= c /\ S p < c + n) ->
  hw = (c mod n, phase n c).
Proof.
  intros Hn Hle Hend [->|(-> & Hc & _ & Hp)]; [done|]. exfalso.
  apply Nat.Div0.mod_divides in Hc as [k ->].
  pose proof (Nat.div_mod_eq p n). assert (p / n < S k) by nia. assert (k <= p / n) by nia.
  nia.
Qed.

(** A push extends the queue. *)
Lemma ring_rel_push n v hw c p q cmd :
  ring_rel n v hw c p q ->
  p < c + n -> (hw.1 = n -> S p < c + n) -> link_target (into_raw cmd) = None ->
  exists t v', view_push v cmd = Ret (slot_ptr (rv_base v) (rv_index v), v') /\
    t = into_raw (with_cycle_bit (rv_cycle v) cmd) /\
    payload t = payload (into_raw cmd) /\ rv_base v' = rv_base v /\
    length (rv_buffer v') = length (rv_buffer v) /\
    ring_rel n v' hw c (S p) (q ++ [t]).
Proof.
  intros (slots & link & Hn & Hbase & Hal & Hbuf & Hw & Hq & Hi & Hc & Hlink & Hhw)
    Hp Hpark Hcmd.
  set (t := into_raw (with_cycle_bit (rv_cycle v) cmd)).
  assert (Ht : payload t = payload (into_raw cmd)) by apply with_cycle_bit_payload.
  pose proof (Nat.mod_upper_bound p n ltac:(lia)) as Hmod.
  pose proof (win_len _ _ _ _ _ _ Hw) as Hlen.
  assert (Hpush : window cycle_bit_of n (<[p mod n := t]> slots) c (S p) (q ++ [t])).
  { apply window_push; [done..|]. unfold t. by rewrite with_cycle_bit_spec. }
  assert (Hq' : Forall (fun t => link_target t = None) (q ++ [t])).
  { apply Forall_app_2, Forall_singleton; [done|].
    by rewrite (link_target_payload _ _ Ht). }
  assert (Hhw' : hw = (c mod n, phase n c) \/
    hw = (n, negb (phase n c)) /\ c mod n = 0 /\ n <= c /\ S p < c + n).
  { destruct Hhw as [|(-> & ? & ? & ?)]; [by left|right]. auto. }
  unfold view_push. fold t. rewrite Hbuf, Hi, publish_slots by lia. cbn [mbind outcome_bind].
  rewrite advance_eq by (rewrite length_insert; lia). rewrite length_insert, Hlen, Hc.
  exists t. pose proof (position_succ n p Hn) as Hpos.
  destruct (decide (S (p mod n) = n)) as [Hend|Hend]; injection Hpos as Hm Hph;
    (eexists; split; [reflexivity|]; split_and!; [done|exact Ht|done| |]; simpl;
     [by rewrite !length_app, length_insert|]);
    (eexists _, _; split_and!; simpl;
     [exact Hn|lia|lia|exact Hal|reflexivity|exact Hpush|exact Hq'|congruence|congruence| |
      exact Hhw']).
  - intros _. by rewrite Hph, negb_involutive.
  - rewrite Hph. intros Hle. apply Hlink.
    destruct (decide (n = S p)) as [->|]; [|lia].
    rewrite Nat.Div0.mod_same in Hm. lia.
Qed.

(** What a fetch at position [c] gives when [q] is published: the head of [q] and
    the next slot, or nothing. *)
Definition fetch_result (n c : nat) (q : list TrbRaw) : option TrbRaw * hw_state :=
  (head q, (match q with [] => c mod n | _ => S (c mod n) end, phase n c)).

Lemma hw_read_front n slots link c p q :
  0 < n -> window cycle_bit_of n slots c p q ->
  hw_read (slots ++ [link]) (c mod n, phase n c) = head q.
Proof.
  intros Hn Hw. pose proof (window_front _ _ _ _ _ _ Hn Hw) as (t & Ht & Hq).
  unfold hw_read. simpl. rewrite lookup_app_l by (by eapply lookup_lt_Some).
  rewrite Ht. simpl. destruct q as [|t' q]; simpl.
  - rewrite Hq. by destruct (phase n c).
  - destruct Hq as [-> ->]. by destruct (phase n c).
Qed.

(** The state of the controller after it took the TRB at position [c]. *)
Lemma hw_state_succ n c p :
  0 < n -> p <= c + n -> 
  (S (c mod n), phase n c) = (S c mod n, phase n (S c)) \/
  (S (c mod n), phase n c) = (n, negb (phase n (S c))) /\ S c mod n = 0 /\ n <= S c /\
    p < S c + n.
Proof.
  intros Hn Hp. pose proof (position_succ n c Hn) as Hpos.
  destruct (decide (S (c mod n) = n)) as [Hend|Hend]; injection Hpos as -> ->.
  - right. rewrite negb_involutive. split_and!; [congruence|done| |lia].
    pose proof (Nat.Div0.mod_le c n). lia.
  - by left.
Qed.

(** A fetch at a data slot sees only the data slots. *)
Lemma hw_fetch_slots n base slots link c p q :
  0 < n -> window cycle_bit_of n slots c p q -> Forall (fun t => link_target t = None) q ->
  hw_fetch base (slots ++ [link]) (c mod n, phase n c) = fetch_result n c q.
Proof.
  intros Hn Hw Hq. unfold hw_fetch, fetch_result.
  rewrite (hw_read_front n slots link c p q Hn Hw).
  destruct q as [|t q]; simpl; [done|]. by apply Forall_cons in Hq as [-> _].
Qed.

(** A fetch takes the head of the queue, and an empty queue is seen as such. *)
Lemma ring_rel_fetch n v hw c p q :
  ring_rel n v hw c p q ->
  hw_fetch (rv_base v) (rv_buffer v) hw = fetch_result n c q.
Proof.
  intros (slots & link & Hn & Hbase & Hal & Hbuf & Hw & Hq & Hi & Hc & Hlink & Hhw).
  pose proof (win_len _ _ _ _ _ _ Hw) as Hlen.
  pose proof (win_bound _ _ _ _ _ _ Hw) as Hb.
  rewrite Hbuf. destruct Hhw as [->|(-> & Hmod & Hle & Hlt)].
  { by apply (hw_fetch_slots n _ slots link c p q). }
  pose proof (win_queue _ _ _ _ _ _ Hw).
  pose proof (hw_read_front n slots link c p q Hn Hw) as Hread. rewrite Hmod in Hread.
  rewrite (phase_same_lap n c p) in Hlink by lia.
  assert (Hl : hw_read (slots ++ [link]) (n, negb (phase n c)) = Some link).
  { unfold hw_read. simpl. rewrite <- Hlen at 1. rewrite list_lookup_middle by done. simpl.
    rewrite Hlink by lia. unfold cycle_bit_of.
    by rewrite trb_cycle_bit_spec, closing_link_cycle_bit, eqb_reflx by done. }
  unfold hw_fetch, fetch_result. rewrite Hl, Hlink, closing_link_target by (done || lia).
  cbn [snd]. rewrite Z.sub_diag, xorb_true_r, negb_involutive.
  change (Z.to_nat (0 / TRB_SIZE)) with 0. rewrite <- Hlink, Hread, Hmod by lia.
  by destruct q.
Qed.

(** The state after a fetch. *)
Lemma ring_rel_fetched n v hw c p q :
  ring_rel n v hw c p q ->
  match q with
  | [] => ring_rel n v (fetch_result n c q).2 c p []
  | t :: q' => ring_rel n v (fetch_result n c q).2 (S c) p q'
  end.
Proof.
  intros (slots & link & Hn & Hbase & Hal & Hbuf & Hw & Hq & Hi & Hc & Hlink & Hhw).
  pose proof (win_bound _ _ _ _ _ _ Hw) as Hb.
  destruct q as [|t q]; simpl; exists slots, link.
  - split_and!; auto; lia.
  - split_and!; try done; try lia.
    + by eapply window_pop.
    + by apply Forall_cons in Hq as [_ ?].
    + by apply hw_state_succ.
Qed.

(** A new ring. *)
Lemma ring_rel_init n base :
  0 < n -> (0 <= base < 2 ^ 64)%Z -> (16 | base)%Z ->
  ring_rel n (mkView base (replicate (S n) zero_trb) 0 true) (0, true) 0 0 [].
Proof.
  intros Hn Hb Hal. exists (replicate n zero_trb), zero_trb.
  assert (phase n 0 = true) as Hph by (unfold phase; by rewrite Nat.Div0.div_0_l).
  rewrite Nat.Div0.mod_0_l, Hph.
  split_and!; simpl; [done|lia|lia|done|exact (replicate_S_end n zero_trb)| |by constructor|
    done|done|lia|by left].
  apply window_init; [by rewrite length_replicate|].
  apply Forall_replicate. unfold cycle_bit_of. by rewrite trb_cycle_bit_spec.
Qed.

(** Every state reached from a new ring is related to the queue of TRBs that were
    pushed and not fetched. *)
Definition fifo_inv {R} (view : R -> ring_view) (n : nat)
    (s : R * hw_state * list TrbRaw * list TrbRaw) : Prop :=
  let '(r, hw, pushed, fetched) := s in
  exists q, ring_rel n (view r) hw (length fetched) (length pushed) q /\
    pushed = fetched ++ (payload <$> q).

Lemma ring_rel_len n v hw c p q : ring_rel n v hw c p q -> length (rv_buffer v) = S n.
Proof.
  intros (slots & link & _ & _ & _ & -> & Hw & _). rewrite length_app.
  rewrite (win_len _ _ _ _ _ _ Hw). simpl. lia.
Qed.

Lemma implements_push_Ret {R} (view : R -> ring_view) (push : R -> Cmd -> outcome (Z * R))
    r c ptr v :
  implements_push view push -> view_push (view r) c = Ret (ptr, v) ->
  exists r', push r c = Ret (ptr, r') /\ view r' = v.
Proof.
  intros Himp Hv. rewrite <- Himp in Hv.
  destruct (push r c) as [[ptr' r']| |]; simplify_eq/=. eauto.
Qed.

Lemma fifo_push {R} (view : R -> ring_view) (push : R -> Cmd -> outcome (Z * R))
    n r hw pushed fetched cmd :
  implements_push view push -> fifo_inv view n (r, hw, pushed, fetched) ->
  may_push (view r) hw pushed fetched -> link_target (into_raw cmd) = None ->
  exists ptr r', push r cmd = Ret (ptr, r') /\
    fifo_inv view n (r', hw, pushed ++ [payload (into_raw cmd)], fetched).
Proof.
  intros Himp (q & Hrel & Heq) [Hp Hpark] Hcmd.
  rewrite (ring_rel_len _ _ _ _ _ _ Hrel) in Hp, Hpark. rewrite Nat.sub_succ, Nat.sub_0_r in *.
  destruct (ring_rel_push n (view r) hw _ _ q cmd Hrel) as (t & v' & Hv & _ & Ht & _ & _ & Hrel');
    [done..|].
  destruct (implements_push_Ret view push r cmd _ _ Himp Hv) as (r' & Hr' & <-).
  eexists _, r'. split; [done|]. exists (q ++ [t]).
  rewrite length_app, Nat.add_1_r. split; [done|].
  by rewrite fmap_app, Heq, <- Ht, app_assoc.
Qed.

Lemma fifo_step {R} (view : R -> ring_view) (push : R -> Cmd -> outcome (Z * R)) n s s' :
  implements_push view push -> fifo_inv view n s -> ring_step view push s s' ->
  fifo_inv view n s'.
Proof.
  intros Himp Hinv Hstep.
  destruct Hstep as [r hw pushed fetched c ptr r' Hc Hmay Hp|
    r hw pushed fetched t hw' Hf|r hw pushed fetched hw' Hf].
  - destruct (fifo_push view push n r hw pushed fetched c Himp Hinv Hmay Hc)
      as (? & ? & Hp2 & ?). rewrite Hp in Hp2. injection Hp2 as <- <-. done.
  - destruct Hinv as (q & Hrel & Heq). pose proof (ring_rel_fetched _ _ _ _ _ _ Hrel).
    rewrite (ring_rel_fetch _ _ _ _ _ _ Hrel) in Hf. destruct q as [|t' q]; [done|].
    injection Hf as <- <-. exists q. rewrite length_app, Nat.add_1_r.
    split; [done|]. by rewrite Heq, <- app_assoc.
  - destruct Hinv as (q & Hrel & Heq). pose proof (ring_rel_fetched _ _ _ _ _ _ Hrel).
    rewrite (ring_rel_fetch _ _ _ _ _ _ Hrel) in Hf. destruct q as [|t' q]; [|done].
    injection Hf as <-. by exists [].
Qed.

(** What the invariant says to the two parties. *)
Lemma fifo_inv_observed {R} (view : R -> ring_view) n r hw pushed fetched :
  fifo_inv view n (r, hw, pushed, fetched) ->
  fetched `prefix_of` pushed /\ length pushed <= length fetched + n /\
  payload <$> (hw_fetch (rv_base (view r)) (rv_buffer (view r)) hw).1
    = pushed !! length fetched.
Proof.
  intros (q & Hrel & Heq). rewrite (ring_rel_fetch _ _ _ _ _ _ Hrel). split_and!.
  - by exists (payload <$> q).
  - destruct Hrel as (slots & link & _ & _ & _ & _ & Hw & _).
    apply (win_bound _ _ _ _ _ _ Hw).
  - rewrite Heq, lookup_app_r, Nat.sub_diag by done. by destruct q.
Qed.

Lemma publish_trace_slots slots link i t old :
  slots !! i = Some old ->
  publish_trace (slots ++ [link]) i t =
    Ret ((fun x => <[i := x]> slots ++ [link]) <$> write_in_order_trace old t).
Proof.
  intros Hold. pose proof (lookup_lt_Some _ _ _ Hold). unfold publish_trace.
  rewrite lookup_app_l, Hold by done. simpl. by rewrite !insert_app_l by done.
Qed.

Lemma publish_trace_link slots link t :
  publish_trace (slots ++ [link]) (length slots) t =
    Ret ((fun x => slots ++ [x]) <$> write_in_order_trace link t).
Proof.
  unfold publish_trace. rewrite list_lookup_middle by done. simpl.
  by rewrite !insert_app_r_alt, !Nat.sub_diag by lia.
Qed.

Lemma mkTrb_eta t : t = mkTrb (dw0 t) (dw1 t) (dw2 t) (dw3 t).
Proof. by destruct t. Qed.

(** All the states of [write_in_order] but the last keep the old cycle bit. *)
Lemma write_in_order_trace_cycle old t x :
  x ∈ write_in_order_trace old t -> x = t \/ cycle_bit_of x = cycle_bit_of old.
Proof.
  unfold write_in_order_trace. rewrite !elem_of_cons, elem_of_nil.
  destruct t as [t0 t1 t2 t3]. unfold cycle_bit_of. rewrite !trb_cycle_bit_spec.
  intros [->|[->|[->|[->|[]]]]]; simpl; auto.
Qed.

(** A state of the push while the slot is being written. *)
Lemma hw_fetch_writing n v hw c p q slots link old x :
  ring_rel n v hw c p q -> p < c + n -> rv_buffer v = slots ++ [link] ->
  slots !! (p mod n) = Some old -> cycle_bit_of x = cycle_bit_of old ->
  hw_fetch (rv_base v) (<[p mod n := x]> slots ++ [link]) hw = fetch_result n c q.
Proof.
  intros (slots' & link' & Hn & Hbase & Hal & Hbuf & Hw & Hq & Hi & Hc & Hlink & Hhw)
    Hp Hbuf' Hold Hx.
  rewrite Hbuf' in Hbuf. apply app_inj_tail in Hbuf as [<- <-].
  destruct (window_back _ _ _ _ _ _ Hw Hp) as (o & Ho & Hco). simplify_eq.
  change (rv_base v) with (rv_base (mkView (rv_base v) (<[p mod n := x]> slots ++ [link])
    (rv_index v) (rv_cycle v))).
  apply (ring_rel_fetch n (mkView _ _ _ _) hw c p q).
  exists (<[p mod n := x]> slots), link. simpl. split_and!; auto; try lia.
  apply window_write_free; [done..|]. congruence.
Qed.
(** The states of the push while the slot is being written. *)
Lemma slot_trace_states n v hw c p q slots link old t m :
  ring_rel n v hw c p q -> p < c + n -> rv_buffer v = slots ++ [link] ->
  slots !! (p mod n) = Some old ->
  m ∈ (fun x => <[p mod n := x]> slots ++ [link]) <$> write_in_order_trace old t ->
  m = <[p mod n := t]> slots ++ [link] \/
  hw_fetch (rv_base v) m hw = fetch_result n c q.
Proof.
  intros Hrel Hp Hbuf Hold (x & -> & Hx)%list_elem_of_fmap.
  destruct (write_in_order_trace_cycle _ _ _ Hx) as [->|Hcx]; [by left|right].
  by eapply hw_fetch_writing.
Qed.

(** A push as its memory states: while it runs the controller sees the queue without
    the TRB or with it, never anything else. *)
Lemma push_trace_atomic n v hw c p q cmd t v' ptr :
  ring_rel n v hw c p q -> c <= p ->
  p < c + n -> (hw.1 = n -> S p < c + n) -> 
  t = into_raw (with_cycle_bit (rv_cycle v) cmd) ->
  view_push v cmd = Ret (ptr, v') -> ring_rel n v' hw c (S p) (q ++ [t]) ->
  exists trace, push_trace v cmd = Ret trace /\ last trace = Some (rv_buffer v') /\
    forall m, m ∈ trace -> hw_fetch (rv_base v) m hw = fetch_result n c q \/
                           hw_fetch (rv_base v) m hw = fetch_result n c (q ++ [t]).
Proof.
  intros Hrel Hcp Hp Hpark Ht Hpush Hrel'.
  pose proof Hrel as (slots & link & Hn & Hbase & Hal & Hbuf & Hw & Hq & Hi & Hc & Hlink & Hhw).
  pose proof Hrel' as (slots' & link' & _ & _ & _ & Hbuf' & Hw' & Hq' & _).
  pose proof (Nat.mod_upper_bound p n ltac:(lia)).
  pose proof (win_len _ _ _ _ _ _ Hw) as Hlen.
  destruct (window_back _ _ _ _ _ _ Hw Hp) as (old & Hold & Hco).
  unfold view_push in Hpush. unfold push_trace. rewrite <- Ht in *.
  rewrite Hbuf, Hi, publish_slots in Hpush |- * by lia. cbn [mbind outcome_bind] in *.
  rewrite (publish_trace_slots _ _ _ _ _ Hold). cbn [mbind outcome_bind].
  rewrite advance_eq in Hpush by (rewrite length_insert; lia).
  rewrite length_app, length_insert, Hlen in *. simpl length.
  replace (n + 1 - 1) with n by lia.
  set (sl := <[p mod n := t]> slots) in *.
  pose proof (slot_trace_states n v hw c p q slots link old t) as Hsl.
  pose proof (fun m => Hsl m Hrel Hp Hbuf Hold) as Hslot. clear Hsl.
  destruct (decide (S (p mod n) = n)) as [Hend|Hend]; injection Hpush as <- <-.
  - assert (Hlen' : S (p mod n) = length sl) by (unfold sl; by rewrite length_insert, Hlen).
    rewrite Hlen', publish_trace_link. cbn [mbind outcome_bind].
    assert (hw = (c mod n, phase n c)) as ->.
    { apply (not_parked_at_wrap n c p); [done..|].
      destruct Hhw as [|(-> & ? & ? & ?)]; auto 10. }
    assert (Hafter : forall l, hw_fetch (rv_base v) (sl ++ [l]) (c mod n, phase n c) =
                               fetch_result n c (q ++ [t])).
    { intros l. apply (hw_fetch_slots n _ sl l c (S p)); [exact Hn| |exact Hq'].
      apply window_push; [exact Hw|exact Hp|]. by rewrite Ht, with_cycle_bit_spec. }
    eexists. split; [reflexivity|]. split.
    + rewrite last_app. simpl. by rewrite <- mkTrb_eta.
    + intros m [Hm|(x & -> & _)%list_elem_of_fmap]%elem_of_app; [|by right].
      destruct (Hslot m Hm) as [->|]; [by right|by left].
  - eexists. split; [reflexivity|]. split; [simpl; by rewrite <- mkTrb_eta|]. intros m Hm.
    destruct (Hslot m Hm) as [->|]; [right|by left].
    exact (ring_rel_fetch n _ hw c (S p) _ Hrel').
Qed.

(** A push in a state of the FIFO, as its memory states. *)
Lemma fifo_push_atomic {R} (view : R -> ring_view) (push : R -> Cmd -> outcome (Z * R))
    n r hw pushed fetched cmd :
  implements_push view push -> fifo_inv view n (r, hw, pushed, fetched) ->
  may_push (view r) hw pushed fetched -> link_target (into_raw cmd) = None ->
  exists ptr r' trace, push r cmd = Ret (ptr, r') /\
    push_trace (view r) cmd = Ret trace /\ last trace = Some (rv_buffer (view r')) /\
    forall m, m ∈ trace ->
      hw_fetch (rv_base (view r)) m hw = hw_fetch (rv_base (view r)) (rv_buffer (view r)) hw \/
      hw_fetch (rv_base (view r)) m hw = hw_fetch (rv_base (view r)) (rv_buffer (view r')) hw.
Proof.
  intros Himp (q & Hrel & Heq) [Hp Hpark] Hcmd.
  rewrite (ring_rel_len _ _ _ _ _ _ Hrel) in Hp, Hpark. rewrite Nat.sub_succ, Nat.sub_0_r in *.
  destruct (ring_rel_push n (view r) hw _ _ q cmd Hrel)
    as (t & v' & Hv & Ht' & Ht & Hb & _ & Hrel'); [done..|].
  destruct (implements_push_Ret view push r cmd _ _ Himp Hv) as (r' & Hr' & <-).
  assert (Hcp : length fetched <= length pushed) by (rewrite Heq, length_app; lia).
  destruct (push_trace_atomic n (view r) hw _ _ q cmd t _ _ Hrel Hcp Hp Hpark Ht' Hv Hrel')
    as (trace & Htr & Hlast & Hm).
  eexists _, r', trace. split_and!; [done..|]. intros m Hin.
  rewrite (ring_rel_fetch _ _ _ _ _ _ Hrel), <- Hb, (ring_rel_fetch _ _ _ _ _ _ Hrel'), Hb.
  by apply Hm.
Qed.

(** * Special operations of the transfer ring *)

Lemma flip_cycle_bit_at_eq r i prev trb :
  tr_buffer r !! i = Some trb ->
  flip_cycle_bit_at r (slot_ptr (tr_base r) i) prev =
    (_ ← assert (bool_decide (i <> length (tr_buffer r) - 1));
     _ ← assert (eqb (cycle_bit_of trb) prev);
     '(buf, index, cycle_bit, ended) ←
       advance (tr_base r) (<[i := toggle_cycle_bit_of trb]> (tr_buffer r)) i (tr_cycle_bit r);
     Ret (mkTransferRing (tr_base r) buf index cycle_bit
            (if ended : bool then S (tr_cycle_count r) else tr_cycle_count r))).
Proof.
  intros Htrb. pose proof (lookup_lt_Some _ _ _ Htrb). unfold flip_cycle_bit_at.
  unfold position_in_range, buffer_range, buffer_len, slot_ptr, TRB_SIZE. simpl fst. simpl snd.
  rewrite decide_True by lia. cbn [unwrap mbind outcome_bind].
  replace (Z.to_nat _) with i; [by rewrite Htrb|].
  replace (tr_base r + 16 * Z.of_nat i - tr_base r)%Z with (Z.of_nat i * 16)%Z by lia.
  by rewrite Z.div_mul, Nat2Z.id by lia.
Qed.

Lemma toggled_is_command cmd trb b :
  cycle_bit_of trb = negb b -> payload (into_raw cmd) = payload trb ->
  toggle_cycle_bit_of trb = into_raw (with_cycle_bit b cmd).
Proof.
  intros Hc Hp. apply payload_cycle_inj.
  - by rewrite payload_toggle, with_cycle_bit_payload.
  - rewrite <- !trb_cycle_bit_spec. change trb_cycle_bit with cycle_bit_of.
    by rewrite cycle_bit_toggle, with_cycle_bit_spec, Hc, negb_involutive.
Qed.

(** A new ring is in the initial state of the FIFO. *)
Lemma fifo_inv_new {R} (view : R -> ring_view) r base len :
  2 <= len -> (0 <= base < 2 ^ 64)%Z -> (16 | base)%Z ->
  view r = mkView base (replicate len zero_trb) 0 true ->
  fifo_inv view (len - 1) (r, (0, true), [], []).
Proof.
  intros Hlen Hb Hal Hv. exists []. split; [|done]. rewrite Hv.
  replace len with (S (len - 1)) at 2 by lia. apply ring_rel_init; [lia|done..].
Qed.

Lemma fifo_run {R} (view : R -> ring_view) (push : R -> Cmd -> outcome (Z * R)) n s s' :
  implements_push view push -> fifo_inv view n s -> rtc (ring_step view push) s s' ->
  fifo_inv view n s'.
Proof.
  intros Himp Hs Hrun.
  eapply (rtc_invariant _ (fifo_inv view n)); [|exact Hs|exact Hrun].
  intros; by eapply fifo_step.
Qed.

End ring_lemmas.

(** * Allocation of the rings *)

(** The memory of a ring of [len] TRBs. *)
Lemma ring_memory {T} allocator live (mem : gmap Z T) boundary d len ptr n allocator' mem' :
  Bump.inv allocator live -> 0 <= len ->
  is_power_of_two boundary = true -> len * TRB_SIZE <= boundary < 2 ^ 64 ->
  KernelAlloc.kernel_alloc_array_with_boundary_with_default_else TRB_SIZE allocator mem
    len 64 boundary d = Ret (Ok (ptr, n), allocator', mem') ->
  n = len /\ 0 <= ptr < 2 ^ 64 /\ (64 | ptr) /\ no_cross boundary ptr (len * TRB_SIZE) /\
  Bump.inv allocator' ((ptr, len * TRB_SIZE) :: live).
Proof.
  intros Hinv Hlen Hp Hb Hrun.
  apply bind_Ret_inv in Hrun as ([u a1] & Halloc & Hrun).
  eapply (alloc_array_with_boundary_ok (Spec := BumpFacts.bump_spec)) in Halloc;
    [|exact Hinv|done|done|by right].
  destruct u as [[ptr' n']|e]; [|by simplify_eq/=]. simplify_eq/=.
  destruct Halloc as (-> & _ & Hi & (Hlo & Hal & Hnc) & _).
  simpl in *. pose proof Hi as (? & ? & _ & [? _]%Forall_cons & _). simpl in *.
  assert (0 <= len * TRB_SIZE) by (unfold TRB_SIZE; lia).
  pose proof (is_power_of_two_pos _ Hp).
  split_and!; [done|lia|lia|exact Hal|apply Hnc; lia|exact Hi].
Qed.

Lemma divide_64_16 x : (64 | x) -> (16 | x).
Proof. apply Z.divide_trans. by exists 4. Qed.

Lemma transfer_ring_new_eq allocator live buf_size r allocator' :
  Bump.inv allocator live -> 0 <= buf_size -> buf_size * TRB_SIZE <= PAGE_SIZE / 4 ->
  transfer_ring_new allocator buf_size = Ret (r, allocator') ->
  exists base, r = mkTransferRing base (replicate (Z.to_nat buf_size) zero_trb) 0 true 0 /\
    0 <= base < 2 ^ 64 /\ (64 | base) /\
    no_cross (PAGE_SIZE / 4) base (buf_size * TRB_SIZE) /\
    Bump.inv allocator' ((base, buf_size * TRB_SIZE) :: live).
Proof.
  intros Hinv Hlen Hb Hrun. unfold transfer_ring_new in Hrun.
  apply bind_Ret_inv in Hrun as ([[res a1] m1] & Halloc & Hrun).
  destruct res as [[ptr n]|e]; [|done].
  apply ring_memory with (live := live) in Halloc; [|done|done|reflexivity|by split].
  destruct Halloc as (-> & ? & ? & ? & ?). simplify_eq. eauto 10.
Qed.

Lemma command_ring_new_eq allocator live buf_size r allocator' :
  Bump.inv allocator live -> 0 <= buf_size -> buf_size * TRB_SIZE <= 64 * PAGE_SIZE ->
  command_ring_new allocator buf_size = Ret (r, allocator') ->
  exists base, r = mkCommandRing base (replicate (Z.to_nat buf_size) zero_trb) 0 true /\
    0 <= base < 2 ^ 64 /\ (64 | base) /\
    no_cross (64 * PAGE_SIZE) base (buf_size * TRB_SIZE) /\
    Bump.inv allocator' ((base, buf_size * TRB_SIZE) :: live).
Proof.
  intros Hinv Hlen Hb Hrun. unfold command_ring_new in Hrun.
  apply bind_Ret_inv in Hrun as ([[res a1] m1] & Halloc & Hrun).
  destruct res as [[ptr n]|e]; [|done].
  apply ring_memory with (live := live) in Halloc; [|done|done|reflexivity|by split].
  destruct Halloc as (-> & ? & ? & ? & ?). simplify_eq. eauto 10.
Qed.

Section ring_properties.
Context `{TL : TrbLib Cmd} `{!TrbLaws Cmd} `{BFL : BitFieldLaws}.

(** The invariant in every state reached from a newly allocated ring. *)
Lemma transfer_ring_reached allocator live buf_size r allocator' s :
  Bump.inv allocator live -> 2 <= buf_size -> buf_size * TRB_SIZE <= PAGE_SIZE / 4 ->
  transfer_ring_new allocator buf_size = Ret (r, allocator') ->
  rtc (ring_step transfer_view transfer_push) (r, (0%nat, true), [], []) s ->
  fifo_inv transfer_view (Z.to_nat buf_size - 1) s.
Proof.
  intros Hinv Hlen Hb Hnew Hrun.
  eapply transfer_ring_new_eq in Hnew as (base & -> & ? & Hal & _); [|done|lia|done].
  eapply fifo_run; [apply transfer_push_view| |exact Hrun].
  eapply (fifo_inv_new transfer_view _ base); [lia|done|by apply divide_64_16|reflexivity].
Qed.

Lemma command_ring_reached allocator live buf_size r allocator' s :
  Bump.inv allocator live -> 2 <= buf_size -> buf_size * TRB_SIZE <= 64 * PAGE_SIZE ->
  command_ring_new allocator buf_size = Ret (r, allocator') ->
  rtc (ring_step command_view command_push) (r, (0%nat, true), [], []) s ->
  fifo_inv command_view (Z.to_nat buf_size - 1) s.
Proof.
  intros Hinv Hlen Hb Hnew Hrun.
  eapply command_ring_new_eq in Hnew as (base & -> & ? & Hal & _); [|done|lia|done].
  eapply fifo_run; [apply command_push_view| |exact Hrun].
  eapply (fifo_inv_new command_view _ base); [lia|done|by apply divide_64_16|reflexivity].
Qed.

(** The pushes of [fill_with_normal], as steps. *)
Lemma fill_loop_run normal_trb n buf_size count :
  (forall p, link_target (into_raw (normal_trb p buf_size)) = None) ->
  forall allocator r pushed r' allocator',
  fifo_inv transfer_view n (r, (0%nat, true), pushed, []) ->
  (0 < n)%nat -> (length pushed + count <= n)%nat ->
  fill_loop normal_trb allocator r buf_size count = Ret (r', allocator') ->
  exists bufs, length bufs = count /\
    rtc (ring_step transfer_view transfer_push) (r, (0%nat, true), pushed, [])
      (r', (0%nat, true),
       pushed ++ ((fun p => payload (into_raw (normal_trb p buf_size))) <$> bufs), []).
Proof.
  intros Hnl.
  induction count as [|count IH]; intros A r pushed r' A' Hinv Hn Hlen Hrun;
    cbn [fill_loop] in Hrun.
  { simplify_eq. exists []. split; [done|]. by rewrite app_nil_r. }
  inv_ret. destruct a0 as [buf A1]. inv_ret. destruct a0 as [ptr r1].
  assert (Hlen1 : length (rv_buffer (transfer_view r)) = S n).
  { destruct Hinv as (q & Hrel & _). by eapply ring_rel_len. }
  assert (Hstep : ring_step transfer_view transfer_push (r, (0%nat, true), pushed, [])
    (r1, (0%nat, true), pushed ++ [payload (into_raw (normal_trb buf buf_size))], [])).
  { eapply step_push; [done| |done]. unfold may_push. rewrite Hlen1. simpl. lia. }
  pose proof (fifo_step _ _ n _ _ transfer_push_view Hinv Hstep) as Hinv1.
  destruct (IH _ _ _ _ _ Hinv1 Hn ltac:(rewrite length_app; simpl; lia) Hrun)
    as (bufs & Hbufs & Hrtc).
  exists (buf :: bufs). split; [by simpl; f_equal|].
  eapply rtc_l; [exact Hstep|]. by rewrite <- app_assoc in Hrtc.
Qed.

(** C7: the transfer ring is a FIFO of TRBs between the driver and the controller.
    From a newly allocated ring, whatever the interleaving of pushes and fetches,
    the TRBs fetched are a prefix of the TRBs pushed, in order and unchanged but for
    the cycle bit; the next fetch finds exactly the oldest TRB not fetched, and
    nothing when there is none, also across the link TRB and the wrap of the cycle
    bit; the ring holds at most its number of data slots; and a push into a ring
    that is not full returns. *)
Theorem transfer_ring_fifo allocator live buf_size r allocator' r' hw pushed fetched :
  Bump.inv allocator live -> 2 <= buf_size -> buf_size * TRB_SIZE <= PAGE_SIZE / 4 ->
  transfer_ring_new allocator buf_size = Ret (r, allocator') ->
  rtc (ring_step transfer_view transfer_push) (r, (0%nat, true), [], [])
    (r', hw, pushed, fetched) ->
  fetched `prefix_of` pushed /\
  Z.of_nat (length pushed) <= Z.of_nat (length fetched) + buf_size - 1 /\
  payload <$> (hw_fetch (tr_base r') (tr_buffer r') hw).1 = pushed !! length fetched /\
  (forall cmd, link_target (into_raw cmd) = None ->
     may_push (transfer_view r') hw pushed fetched ->
     exists ptr r'', transfer_push r' cmd = Ret (ptr, r'')).
Proof.
  intros Hinv Hlen Hb Hnew Hrun.
  eapply transfer_ring_reached in Hrun; [|done..].
  pose proof (fifo_inv_observed _ _ _ _ _ _ Hrun) as (Hpre & Hle & Hfetch).
  split_and!; [done|lia|done|]. intros cmd Hcmd Hmay.
  destruct (fifo_push _ _ _ _ _ _ _ cmd transfer_push_view Hrun Hmay Hcmd)
    as (ptr & r'' & Hpush & _). eauto.
Qed.

(** C22: a push is atomic for the controller.  The TRB, and at the end of a lap the
    link TRB, are written as 32-bit words in address order; in every memory state
    the push goes through the controller fetches what it would have fetched before
    the push or what it will fetch after it, never a half-written TRB. *)
Theorem transfer_push_atomic allocator live buf_size r allocator' r' hw pushed fetched cmd :
  Bump.inv allocator live -> 2 <= buf_size -> buf_size * TRB_SIZE <= PAGE_SIZE / 4 ->
  transfer_ring_new allocator buf_size = Ret (r, allocator') ->
  rtc (ring_step transfer_view transfer_push) (r, (0%nat, true), [], [])
    (r', hw, pushed, fetched) ->
  link_target (into_raw cmd) = None -> may_push (transfer_view r') hw pushed fetched ->
  exists ptr r'' trace, transfer_push r' cmd = Ret (ptr, r'') /\
    push_trace (transfer_view r') cmd = Ret trace /\ last trace = Some (tr_buffer r'') /\
    forall m, m ∈ trace ->
      hw_fetch (tr_base r') m hw = hw_fetch (tr_base r') (tr_buffer r') hw \/
      hw_fetch (tr_base r') m hw = hw_fetch (tr_base r') (tr_buffer r'') hw.
Proof.
  intros Hinv Hlen Hb Hnew Hrun Hcmd Hmay.
  eapply transfer_ring_reached in Hrun; [|done..].
  exact (fifo_push_atomic _ _ _ _ _ _ _ cmd transfer_push_view Hrun Hmay Hcmd).
Qed.

(** C21: the command ring is a FIFO of TRBs between the driver and the controller,
    in the same way. *)
Theorem command_ring_fifo allocator live buf_size r allocator' r' hw pushed fetched :
  Bump.inv allocator live -> 2 <= buf_size -> buf_size * TRB_SIZE <= 64 * PAGE_SIZE ->
  command_ring_new allocator buf_size = Ret (r, allocator') ->
  rtc (ring_step command_view command_push) (r, (0%nat, true), [], [])
    (r', hw, pushed, fetched) ->
  fetched `prefix_of` pushed /\
  Z.of_nat (length pushed) <= Z.of_nat (length fetched) + buf_size - 1 /\
  payload <$> (hw_fetch (cr_base r') (cr_buffer r') hw).1 = pushed !! length fetched /\
  (forall cmd, link_target (into_raw cmd) = None ->
     may_push (command_view r') hw pushed fetched ->
     exists ptr r'', command_push r' cmd = Ret (ptr, r'')).
Proof.
  intros Hinv Hlen Hb Hnew Hrun.
  eapply command_ring_reached in Hrun; [|done..].
  pose proof (fifo_inv_observed _ _ _ _ _ _ Hrun) as (Hpre & Hle & Hfetch).
  split_and!; [done|lia|done|]. intros cmd Hcmd Hmay.
  destruct (fifo_push _ _ _ _ _ _ _ cmd command_push_view Hrun Hmay Hcmd)
    as (ptr & r'' & Hpush & _). eauto.
Qed.

(** Giving a TRB back by [flip_cycle_bit_at] is pushing it again.  When the TRB
    of the write index still has the cycle bit of the previous lap, flipping the
    bit in place leaves the ring that a push of the same TRB leaves (only the lap
    counter differs); a flip with the wrong cycle bit, of an address outside the
    buffer or of the link slot panics. *)
Theorem flip_is_push r i trb cmd :
  tr_buffer r !! i = Some trb ->
  (S i < length (tr_buffer r))%nat -> tr_write_index r = i ->
  cycle_bit_of trb = negb (tr_cycle_bit r) -> payload (into_raw cmd) = payload trb ->
  (exists r1 r2, 
     flip_cycle_bit_at r (slot_ptr (tr_base r) i) (negb (tr_cycle_bit r)) = Ret r1 /\
     transfer_push r cmd = Ret (slot_ptr (tr_base r) i, r2) /\
     transfer_view r1 = transfer_view r2 /\
     tr_cycle_count r1 = (if decide (S (S i) = length (tr_buffer r))
                          then S (tr_cycle_count r) else tr_cycle_count r)) /\
  flip_cycle_bit_at r (slot_ptr (tr_base r) i) (tr_cycle_bit r) = Panic /\
  (forall ptr prev, ~ tr_base r <= ptr < slot_ptr (tr_base r) (length (tr_buffer r)) \/
                    ptr = slot_ptr (tr_base r) (length (tr_buffer r) - 1) ->
     flip_cycle_bit_at r ptr prev = Panic).
Proof.
  intros Htrb Hi Hw Hc Hcmd. split_and!.
  - rewrite (flip_cycle_bit_at_eq r i _ trb) by done.
    rewrite bool_decide_true by lia. rewrite Hc, eqb_reflx. cbn [assert mbind outcome_bind].
    unfold transfer_push, publish. rewrite Hw, Htrb. cbn [unwrap mbind outcome_bind].
    rewrite write_in_order_eq, (toggled_is_command cmd trb (tr_cycle_bit r)) by done.
    set (t := into_raw _).
    destruct (exists_last (l := <[i := t]> (tr_buffer r))) as (slots & link & Hs).
    { intros Hnil%(f_equal length). rewrite length_insert in Hnil. simpl in Hnil. lia. }
    pose proof (f_equal length Hs) as Hl. rewrite length_insert, length_app in Hl. simpl in Hl.
    rewrite Hs, advance_eq by lia.
    destruct (decide (S i = length slots)); destruct (decide (S (S i) = _)); try lia;
      eexists _, _; split_and!; reflexivity.
  - rewrite (flip_cycle_bit_at_eq r i _ trb) by done.
    rewrite bool_decide_true by lia. rewrite Hc. by destruct (tr_cycle_bit r).
  - intros ptr prev [Hptr| ->].
    + unfold flip_cycle_bit_at, position_in_range, buffer_range, buffer_len.
      by rewrite decide_False.
    + destruct (lookup_lt_is_Some_2 (tr_buffer r) (length (tr_buffer r) - 1)) as [x Hx]; [lia|].
      rewrite (flip_cycle_bit_at_eq r _ _ x) by done. by rewrite bool_decide_false by lia.
Qed.

(** [fill_with_normal] on a new ring hands the controller a full ring: it
    pushes one normal TRB per data slot, each with a buffer of its own, after which
    the producer is back at slot 0 in the next lap and no push is allowed. *)
Theorem fill_with_normal_fills normal_trb allocator live len r allocator' buf_size r'
    allocator'' :
  Bump.inv allocator live -> 2 <= len -> len * TRB_SIZE <= PAGE_SIZE / 4 ->
  (forall p, link_target (into_raw (normal_trb p buf_size)) = None) ->
  transfer_ring_new allocator len = Ret (r, allocator') ->
  fill_with_normal normal_trb allocator' r buf_size = Ret (r', allocator'') ->
  exists bufs, Z.of_nat (length bufs) = len - 1 /\
    rtc (ring_step transfer_view transfer_push) (r, (0%nat, true), [], [])
      (r', (0%nat, true), (fun p => payload (into_raw (normal_trb p buf_size))) <$> bufs, []) /\
    tr_write_index r' = 0%nat /\ tr_cycle_bit r' = false /\
    (forall pushed, length pushed = length bufs ->
       ~ may_push (transfer_view r') (0%nat, true) pushed []).
Proof.
  intros Hinv Hlen Hb Hnl Hnew Hfill.
  pose proof (transfer_ring_reached _ _ _ _ _ _ Hinv Hlen Hb Hnew ltac:(apply rtc_refl)) as Hf.
  eapply transfer_ring_new_eq in Hnew as (base & -> & _); [|done|lia|done].
  set (n := (Z.to_nat len - 1)%nat) in *.
  unfold fill_with_normal, buffer_len in Hfill. simpl in Hfill.
  rewrite length_replicate in Hfill. fold n in Hfill.
  eapply fill_loop_run in Hfill as (bufs & Hbufs & Hrun); [|done|done|lia|simpl; lia].
  exists bufs. split; [lia|]. split; [done|].
  pose proof (fifo_run _ _ n _ _ transfer_push_view Hf Hrun) as (q & Hrel & _).
  pose proof (ring_rel_len _ _ _ _ _ _ Hrel) as Hl.
  destruct Hrel as (slots & link & Hn & _ & _ & _ & _ & _ & Hi & Hc & _).
  simpl in Hi, Hc. rewrite length_fmap, Hbufs in Hi, Hc. split_and!.
  - by rewrite Hi, Nat.Div0.mod_same.
  - rewrite Hc. unfold phase. by rewrite Nat.div_same by lia.
  - intros pushed Hp [Hlt _]. rewrite Hl in Hlt. simpl in Hlt. lia.
Qed.
End ring_properties.

(** * Witnesses: rings of two data slots and a link, in the layout of xHCI *)

Module RingExamples.
#[local] Existing Instance bit_field_ref.

Definition heap : KernelAlloc.GlobalAllocator := Bump.init Bump.new 0x1000 0x20000.

Definition heap' : KernelAlloc.GlobalAllocator := Bump.mkBump 0x1000 0x20000 0x1030 1.

Lemma heap_inv : Bump.inv heap [].
Proof. apply BumpFacts.bump_init_inv; [lia|reflexivity]. Qed.

(** The ring of [transfer_ring_new], and the same after pushes of TRBs of type 1. *)
Definition ring0 : TransferRing :=
  mkTransferRing 0x1000 (replicate 3 zero_trb) 0 true 0.

Definition normal (p len : Z) : TrbRaw := mkTrb p 0 len (1 * 2 ^ 10).

(** [k] pushes, with a fetch after each from the second on. *)
Definition outcome_default {A} (d : A) (o : outcome A) : A :=
  match o with Ret a => a | _ => d end.

Definition pushed_ring (k : nat) : TransferRing :=
  foldl (fun r i => (outcome_default (0, r) (transfer_push r (normal (Z.of_nat i) 8))).2)
    ring0 (seq 0 k).

Definition pushed_command_ring (k : nat) : CommandRing :=
  foldl (fun r i => (outcome_default (0, r) (command_push r (normal (Z.of_nat i) 8))).2)
    (mkCommandRing 0x1000 (replicate 3 zero_trb) 0 true) (seq 0 k).

End RingExamples.

(** Three TRBs through two data slots: push, push, fetch, push. *)
Lemma transfer_ring_fifo_witness :
  payload <$> (hw_fetch 0x1000 (tr_buffer (RingExamples.pushed_ring 3)) (1%nat, true)).1
    = Some (payload (RingExamples.normal 1 8)).
Proof.
  pose proof (transfer_ring_fifo RingExamples.heap [] 3
    RingExamples.ring0 RingExamples.heap' (RingExamples.pushed_ring 3) (1%nat, true)
    [payload (RingExamples.normal 0 8); payload (RingExamples.normal 1 8);
     payload (RingExamples.normal 2 8)] [payload (mkTrb 0 0 8 1025)]) as H.
  refine (proj1 (proj2 (proj2 (H RingExamples.heap_inv _ _ _ _)))); clear H.
  - lia.
  - vm_compute; discriminate.
  - vm_compute; reflexivity.
  - eapply rtc_l; [apply (step_push _ _ _ _ [] [] (RingExamples.normal 0 8) 0x1000
      (RingExamples.pushed_ring 1)); [reflexivity|split; simpl; lia|vm_compute; reflexivity]|].
    eapply rtc_l; [apply (step_push _ _ _ _ _ [] (RingExamples.normal 1 8) 0x1010
      (RingExamples.pushed_ring 2)); [reflexivity|split; simpl; lia|vm_compute; reflexivity]|].
    eapply rtc_l; [apply (step_fetch _ _ _ _ _ _
      (mkTrb 0 0 8 1025) (1%nat, true)); vm_compute; reflexivity|].
    eapply rtc_l; [|apply rtc_refl].
    refine (step_push transfer_view transfer_push (RingExamples.pushed_ring 2) (1%nat, true)
      [payload (RingExamples.normal 0 8); payload (RingExamples.normal 1 8)]
      [payload (mkTrb 0 0 8 1025)] (RingExamples.normal 2 8) 0x1000
      (RingExamples.pushed_ring 3) _ _ _); [reflexivity|split; simpl; lia|vm_compute; reflexivity].
Defined.

(** The push that ends the first lap, before the controller fetched anything. *)
Lemma transfer_push_atomic_witness :
  exists ptr r'' trace,
    transfer_push (RingExamples.pushed_ring 1) (RingExamples.normal 1 8) = Ret (ptr, r'') /\
    push_trace (transfer_view (RingExamples.pushed_ring 1)) (RingExamples.normal 1 8)
      = Ret trace /\
    forall m, m ∈ trace ->
      hw_fetch 0x1000 m (0%nat, true)
        = hw_fetch 0x1000 (tr_buffer (RingExamples.pushed_ring 1)) (0%nat, true) \/
      hw_fetch 0x1000 m (0%nat, true) = hw_fetch 0x1000 (tr_buffer r'') (0%nat, true).
Proof.
  destruct (transfer_push_atomic RingExamples.heap [] 3
    RingExamples.ring0 RingExamples.heap' (RingExamples.pushed_ring 1) (0%nat, true)
    [payload (RingExamples.normal 0 8)] [] (RingExamples.normal 1 8) RingExamples.heap_inv)
    as (ptr & r'' & trace & Hp & Ht & _ & Hm).
  - lia.
  - vm_compute; discriminate.
  - vm_compute; reflexivity.
  - eapply rtc_l; [apply (step_push _ _ _ _ [] [] (RingExamples.normal 0 8) 0x1000
      (RingExamples.pushed_ring 1)); [reflexivity|split; simpl; lia|vm_compute; reflexivity]|].
    apply rtc_refl.
  - reflexivity.
  - split; simpl; lia.
  - exists ptr, r'', trace. split; [exact Hp|]. split; [exact Ht|exact Hm].
Defined.

Lemma command_ring_fifo_witness :
  payload <$> (hw_fetch 0x1000 (cr_buffer (RingExamples.pushed_command_ring 2)) (0%nat, true)).1
    = Some (payload (RingExamples.normal 0 8)).
Proof.
  pose proof (command_ring_fifo RingExamples.heap [] 3
    (RingExamples.pushed_command_ring 0) RingExamples.heap'
    (RingExamples.pushed_command_ring 2) (0%nat, true)
    [payload (RingExamples.normal 0 8); payload (RingExamples.normal 1 8)] []) as H.
  refine (proj1 (proj2 (proj2 (H RingExamples.heap_inv _ _ _ _)))); clear H.
  - lia.
  - vm_compute; discriminate.
  - vm_compute; reflexivity.
  - eapply rtc_l; [apply (step_push _ _ _ _ [] [] (RingExamples.normal 0 8) 0x1000
      (RingExamples.pushed_command_ring 1));
      [reflexivity|split; simpl; lia|vm_compute; reflexivity]|].
    eapply rtc_l; [|apply rtc_refl].
    refine (step_push command_view command_push (RingExamples.pushed_command_ring 1)
      (0%nat, true) [payload (RingExamples.normal 0 8)] [] (RingExamples.normal 1 8) 0x1010
      (RingExamples.pushed_command_ring 2) _ _ _);
      [reflexivity|split; simpl; lia|vm_compute; reflexivity].
Defined.

(** The full ring after two pushes: the first TRB is given back. *)
Lemma flip_is_push_witness :
  exists r1, flip_cycle_bit_at (BF := bit_field_ref) (RingExamples.pushed_ring 2) 0x1000 true
               = Ret r1 /\
    flip_cycle_bit_at (BF := bit_field_ref) (RingExamples.pushed_ring 2) 0x1020 true = Panic.
Proof.
  destruct (flip_is_push (H := bit_field_ref) (RingExamples.pushed_ring 2) 0
    (mkTrb 0 0 8 1025) (RingExamples.normal 0 8)) as ((r1 & _ & H1 & _) & _ & H2).
  - vm_compute; reflexivity.
  - vm_compute; lia.
  - vm_compute; reflexivity.
  - vm_compute; reflexivity.
  - vm_compute; reflexivity.
  - exists r1. split; [exact H1|]. apply H2. right. vm_compute; reflexivity.
Defined.

Lemma fill_with_normal_fills_witness :
  exists r' a' bufs,
    fill_with_normal RingExamples.normal RingExamples.heap' RingExamples.ring0 4096
      = Ret (r', a') /\ length bufs = 2%nat /\
    rtc (ring_step transfer_view transfer_push) (RingExamples.ring0, (0%nat, true), [], [])
      (r', (0%nat, true), (fun p => payload (RingExamples.normal p 4096)) <$> bufs, []).
Proof.
  eexists _, _.
  assert (Hfill : fill_with_normal RingExamples.normal RingExamples.heap' RingExamples.ring0 4096
    = Ret (mkTransferRing 0x1000 [mkTrb 0x2000 0 4096 1025; mkTrb 0x3000 0 4096 1025;
             closing_link 0x1000 true] 0 false 0, Bump.mkBump 0x1000 0x20000 0x4000 3))
    by (vm_compute; reflexivity).
  destruct (fill_with_normal_fills RingExamples.normal RingExamples.heap [] 3
    RingExamples.ring0 RingExamples.heap' 4096 _ _ RingExamples.heap_inv
    ltac:(lia) ltac:(vm_compute; discriminate) ltac:(reflexivity)
    ltac:(vm_compute; reflexivity) Hfill) as (bufs & Hlen & Hrun & _).
  exists bufs. split; [exact Hfill|]. split; [lia|exact Hrun].
Defined.
