(* ===== verification/ReportRing.v ===== *)
(** ReportRing: the transfer ring of an interrupt endpoint ([xhci/transfer_ring.rs]).  It is filled
    with one block per buffer ([fill_with_normal]); the controller takes the blocks in their order,
    and the driver gives each one back by its cycle bit ([flip_cycle_bit_at]), so that the same blocks
    go round. *)
From S2P Require Import Prelude Allocator BitField Trb CycleRing.
From S2P Require Import Rings.

Section report_ring.
Context `{TL : TrbLib Cmd} `{BF : BitFieldLib}.

(** A controller that stands on the link of the ring follows it, if it finds it with the cycle bit of
    its lap: at once when it took the last block, when it needs the next one (as in [hw_fetch]), or at
    any time between. *)
Definition hw_follow (base : Z) (buf : list TrbRaw) (hw : hw_state) : hw_state :=
  match hw_read buf hw ≫= link_target with
  | Some (target, toggle) => (Z.to_nat ((target - base) / TRB_SIZE), xorb hw.2 toggle)
  | None => hw
  end.

(** Where a controller is that has taken the blocks before position [c]: in front of the next block,
    or still in front of the link. *)
Definition hw_at (n c : nat) (hw : hw_state) : Prop :=
  hw = ((c mod n)%nat, phase n c) \/
  (hw = (n, negb (phase n c)) /\ (c mod n = 0)%nat /\ (n <= c)%nat).

(** The ring with [n] blocks for the buffers [bufs] of [len] bytes: the controller has taken the
    blocks before position [c], the driver has given back those before position [g]. *)
Record circulating (normal_trb : Z -> Z -> Cmd) (len : Z) (bufs : list Z) (r : TransferRing)
    (g c : nat) : Prop := {
  circ_queue : exists q, ring_rel (length bufs) (transfer_view r)
    ((c mod length bufs)%nat, phase (length bufs) c) c (g + length bufs) q;
  circ_trbs i t p : tr_buffer r !! i = Some t -> bufs !! i = Some p ->
    payload t = payload (into_raw (normal_trb p len));
}.

End report_ring.

Section report_ring_lemmas.
Context `{TL : TrbLib Cmd} `{!TrbLaws Cmd} `{BFL : BitFieldLaws}.
Context (normal_trb : Z -> Z -> Cmd) (len : Z)
  (normal_no_link : forall p, link_target (into_raw (normal_trb p len)) = None).
#[local] Open Scope nat_scope.

Abbreviation circ := (circulating normal_trb len).

(** What the positions say. *)
Lemma circ_bounds bufs r g c : circ bufs r g c ->
  0 < length bufs /\ g <= c <= g + length bufs /\ length (tr_buffer r) = S (length bufs) /\
  (0 <= tr_base r < 2 ^ 64)%Z /\ tr_write_index r = g mod length bufs /\
  tr_cycle_bit r = negb (phase (length bufs) g).
Proof.
  intros [[q Hrel] _]. pose proof (ring_rel_len _ _ _ _ _ _ Hrel) as Hl.
  destruct Hrel as (slots & link & Hn & Hb & _ & _ & Hw & _ & Hi & Hc & _). simpl in *.
  destruct Hw as [_ Hq Hbound _ _]. rewrite mod_next_lap in Hi. rewrite phase_next_lap in Hc by done.
  split_and!; (done || lia).
Qed.

Lemma circ_slot bufs r g c i : circ bufs r g c -> i < length bufs ->
  exists t p, tr_buffer r !! i = Some t /\ bufs !! i = Some p /\
    payload t = payload (into_raw (normal_trb p len)).
Proof.
  intros Hc Hi. pose proof (circ_bounds _ _ _ _ Hc) as (_ & _ & Hl & _).
  destruct (lookup_lt_is_Some_2 (tr_buffer r) i) as [t Ht]; [lia|].
  destruct (lookup_lt_is_Some_2 bufs i Hi) as [p Hp].
  exists t, p. split_and!; [done..|]. by eapply circ_trbs.
Qed.

(** A controller that stands on the link follows it to the first slot. *)
Lemma follow_parked n v c p q :
  ring_rel n v (n, negb (phase n c)) c p q -> c mod n = 0 ->
  hw_follow (rv_base v) (rv_buffer v) (n, negb (phase n c)) = (c mod n, phase n c).
Proof.
  intros (slots & link & Hn & Hb & Hal & Hbuf & Hw & _ & _ & _ & Hlink & Hhw) Hc.
  pose proof (Nat.mod_upper_bound c n ltac:(lia)).
  destruct Hhw as [[= Heq _]|(_ & _ & Hle & Hp)]; [lia|].
  pose proof (win_queue _ _ _ _ _ _ Hw). pose proof (win_len _ _ _ _ _ _ Hw) as Hlen.
  rewrite (phase_same_lap n c p) in Hlink by lia.
  unfold hw_follow, hw_read. simpl. rewrite Hbuf.
  replace ((slots ++ [link]) !! n) with (Some link) by (rewrite <- Hlen; by rewrite list_lookup_middle).
  simpl. rewrite Hlink by lia. unfold cycle_bit_of.
  rewrite trb_cycle_bit_spec, closing_link_cycle_bit, eqb_reflx by done. simpl.
  rewrite closing_link_target by done. simpl.
  by rewrite Z.sub_diag, xorb_true_r, negb_involutive, Hc.
Qed.

(** One that stands on a slot stays there. *)
Lemma follow_slot n v c p q :
  ring_rel n v (c mod n, phase n c) c p q ->
  hw_follow (rv_base v) (rv_buffer v) (c mod n, phase n c) = (c mod n, phase n c).
Proof.
  intros (slots & link & Hn & _ & _ & Hbuf & Hw & Hq & _). unfold hw_follow.
  rewrite Hbuf, (hw_read_front n slots link c p q Hn Hw). destruct q as [|t q]; [done|].
  apply Forall_cons in Hq as [Ht _]. simpl. by rewrite Ht.
Qed.

(** The link has the cycle bit of the lap that the driver gives back. *)
Lemma circ_link bufs r g c : circ bufs r g c ->
  tr_buffer r !! length bufs = Some (closing_link (tr_base r) (phase (length bufs) g)).
Proof.
  intros [[q Hrel] _]. destruct Hrel as (slots & link & Hn & _ & _ & Hbuf & Hw & _ & _ & _ & Hlink & _).
  pose proof (win_len _ _ _ _ _ _ Hw) as Hlen. simpl in Hbuf, Hlink.
  rewrite phase_next_lap, negb_involutive in Hlink by done. rewrite <- Hlink, Hbuf by lia.
  rewrite <- Hlen at 1. by rewrite list_lookup_middle.
Qed.

(** A controller that stands on the link is overtaken when the driver has given back everything. *)
Lemma circ_overtaken bufs r c : circ bufs r c c -> c mod length bufs = 0 ->
  hw_read (tr_buffer r) (length bufs, negb (phase (length bufs) c)) = None.
Proof.
  intros Hcirc Hc. pose proof (circ_link _ _ _ _ Hcirc) as Hlink.
  destruct Hcirc as [[q (slots & link & _ & Hb & Hal & _)] _].
  unfold hw_read. simpl in *. rewrite Hlink. simpl.
  unfold cycle_bit_of. rewrite trb_cycle_bit_spec, closing_link_cycle_bit by done.
  by destruct (phase (length bufs) c).
Qed.

(** The relation of the rings holds wherever the controller is, unless it is overtaken. *)
Lemma circ_rel bufs r g c hw : circ bufs r g c -> hw_at (length bufs) c hw ->
  (exists q, ring_rel (length bufs) (transfer_view r) hw c (g + length bufs) q) \/
  (g = c /\ c mod length bufs = 0 /\ hw = (length bufs, negb (phase (length bufs) c))).
Proof.
  intros Hcirc Hhw. pose proof (circ_bounds _ _ _ _ Hcirc) as (_ & [Hgc _] & _).
  destruct Hcirc as [[q Hrel] _]. destruct Hhw as [->|(-> & Hm & Hle)]; [left; by exists q|].
  destruct (decide (g = c)) as [->|Hne]; [by right|]. left. exists q.
  destruct Hrel as (s & l & ? & ? & ? & ? & ? & ? & ? & ? & ? & _).
  exists s, l. split_and!; try done; try lia. right. split_and!; (done || lia).
Qed.

(** A controller follows the link when it may, or stays. *)
Lemma circ_follow bufs r g c hw : circ bufs r g c -> hw_at (length bufs) c hw ->
  hw_at (length bufs) c (hw_follow (tr_base r) (tr_buffer r) hw).
Proof.
  intros Hcirc Hhw. destruct (circ_rel _ _ _ _ _ Hcirc Hhw) as [[q Hrel]|(-> & Hm & ->)].
  - left. destruct Hhw as [->|(-> & Hm & _)].
    + by apply (follow_slot _ (transfer_view r) c (g + length bufs) q).
    + pose proof (follow_parked _ (transfer_view r) c (g + length bufs) q Hrel Hm) as Hf.
      exact Hf.
  - unfold hw_follow. rewrite (circ_overtaken _ _ _ Hcirc Hm). exact Hhw.
Qed.

(** A controller that has not caught up and is not overtaken finds the next block. *)
Lemma circ_fetch bufs r g c hw : circ bufs r g c -> hw_at (length bufs) c hw ->
  c < g + length bufs -> hw.1 < length bufs \/ g < c ->
  exists t, tr_buffer r !! (c mod length bufs) = Some t /\
    hw_fetch (tr_base r) (tr_buffer r) hw = (Some t, (S (c mod length bufs), phase (length bufs) c)) /\
    hw_at (length bufs) (S c) (S (c mod length bufs), phase (length bufs) c) /\
    circ bufs r g (S c).
Proof.
  intros Hcirc Hhw Hlt Hahead. pose proof (circ_bounds _ _ _ _ Hcirc) as (_ & Hgc & _).
  set (n := length bufs) in *.
  destruct (circ_rel _ _ _ _ _ Hcirc Hhw) as [[q Hrel]|(-> & _ & ->)];
    [fold n in Hrel|subst n; simpl in *; lia].
  pose proof (ring_rel_fetch _ _ _ _ _ _ Hrel) as Hf. simpl in Hf.
  pose proof Hrel as (slots & link & Hn & _ & _ & Hbuf & Hw & _). simpl in Hbuf.
  pose proof (win_queue _ _ _ _ _ _ Hw) as Hlen.
  destruct (window_front _ _ _ _ _ _ Hn Hw) as (t & Ht & Hfront).
  destruct q as [|t' q]; [simpl in Hlen; lia|]. destruct Hfront as [<- _].
  exists t. split_and!; [|exact Hf| |].
  - rewrite Hbuf, lookup_app_l by (by eapply lookup_lt_Some). done.
  - destruct (hw_state_succ n c (g + n) Hn) as [Heq|(Heq & ? & ? & _)]; [lia|by left|by right].
  - split; [|by apply Hcirc]. exists q. fold n.
    pose proof (ring_rel_fetched _ _ _ _ _ _ Hrel) as (s & l & ? & ? & ? & ? & ? & ? & ? & ? & ? & _).
    exists s, l. split_and!; try done; try lia. by left.
Qed.

(** One that has caught up, or is overtaken, finds nothing. *)
Lemma circ_no_fetch bufs r g c hw : circ bufs r g c -> hw_at (length bufs) c hw ->
  c = g + length bufs \/ (length bufs <= hw.1 /\ g = c) ->
  (hw_fetch (tr_base r) (tr_buffer r) hw).1 = None.
Proof.
  intros Hcirc Hhw Hno. pose proof (circ_bounds _ _ _ _ Hcirc) as (Hn & _).
  pose proof (Nat.mod_upper_bound c (length bufs) ltac:(lia)).
  destruct Hno as [Heq|[Hle ->]].
  - destruct (circ_rel _ _ _ _ _ Hcirc Hhw) as [[q Hrel]|(-> & _)]; [|lia].
    pose proof (ring_rel_fetch _ _ _ _ _ _ Hrel) as Hf. simpl in Hf. rewrite Hf.
    destruct Hrel as (? & ? & _ & _ & _ & _ & Hw & _).
    pose proof (win_queue _ _ _ _ _ _ Hw). destruct q; [done|simpl in *; lia].
  - destruct Hhw as [->|(-> & Hm & _)]; [simpl in Hle; lia|].
    unfold hw_fetch. by rewrite (circ_overtaken _ _ _ Hcirc Hm).
Qed.

(** The end of a push changes no block but the link. *)
Lemma advance_blocks base buf i b buf' j b' e k :
  S i < length buf -> advance base buf i b = Ret (buf', j, b', e) -> S k < length buf ->
  buf' !! k = buf !! k.
Proof.
  intros Hi Hrun Hk. destruct (exists_last (l := buf)) as (slots & link & ->); [intros ->; simpl in Hi; lia|].
  rewrite length_app in Hi, Hk. simpl in Hi, Hk. rewrite advance_eq in Hrun by lia.
  case_decide; simplify_eq; by rewrite !lookup_app_l by lia.
Qed.

(** The oldest block that the controller has taken still has the cycle bit of its lap. *)
Lemma circ_old_cycle bufs r g c t : circ bufs r g c -> g < c ->
  tr_buffer r !! (g mod length bufs) = Some t -> cycle_bit_of t = negb (tr_cycle_bit r).
Proof.
  intros Hcirc Hlt Ht. pose proof (circ_bounds _ _ _ _ Hcirc) as (Hn & _ & _ & _ & _ & Hb).
  pose proof Hcirc as [[q Hrel] _]. destruct Hrel as (slots & link & _ & _ & _ & Hbuf & Hw & _).
  simpl in Hbuf. destruct (window_back _ _ _ _ _ _ Hw) as (o & Ho & Hco); [lia|].
  rewrite mod_next_lap in Ho. rewrite phase_next_lap in Hco by done.
  rewrite Hbuf, lookup_app_l in Ht by (by eapply lookup_lt_Some). congruence.
Qed.

(** Giving back the oldest block that the controller has taken. *)
Lemma circ_flip bufs r g c t : circ bufs r g c -> g < c ->
  tr_buffer r !! (g mod length bufs) = Some t ->
  exists r', flip_cycle_bit_at r (slot_ptr (tr_base r) (g mod length bufs)) (cycle_bit_of t) = Ret r' /\
    tr_base r' = tr_base r /\ circ bufs r' (S g) c.
Proof.
  intros Hcirc Hlt Ht. pose proof (circ_bounds _ _ _ _ Hcirc) as (Hn & Hgc & Hl & _ & Hi & Hb).
  pose proof Hcirc as [[q Hrel] Htrbs]. set (n := length bufs) in *.
  pose proof (Nat.mod_upper_bound g n ltac:(lia)) as Hmod.
  pose proof (Nat.mod_upper_bound c n ltac:(lia)) as Hcmod.
  destruct (circ_slot _ _ _ _ (g mod n) Hcirc Hmod) as (t' & p & Ht' & Hp & Hpay).
  rewrite Ht in Ht'. injection Ht' as <-.
  pose proof (circ_old_cycle _ _ _ _ _ Hcirc Hlt Ht) as Hcyc.
  destruct (flip_is_push r (g mod n) t (normal_trb p len)) as ((r1 & r2 & Hf & Hpush & Hv & _) & _);
    [done|lia|done|done|done|].
  pose proof (ring_rel_push n (transfer_view r) _ c (g + n) q (normal_trb p len) Hrel)
    as (t1 & v & Hview & _ & _ & Hbase & _ & Hrel'); [lia|simpl; lia|done|].
  rewrite <- transfer_push_view, Hpush in Hview. injection Hview as _ Hview. rewrite <- Hv in Hview.
  subst v. rewrite <- Hcyc in Hf. exists r1. split; [exact Hf|]. split; [exact Hbase|].
  split; [by eexists|]. intros i u p' Hu Hp'. pose proof (lookup_lt_Some _ _ _ Hp') as Hin.
  rewrite (flip_cycle_bit_at_eq r _ _ t Ht) in Hf. apply bind_Ret_inv in Hf as (_ & _ & Hf).
  apply bind_Ret_inv in Hf as (_ & _ & ([[[buf j] b] e] & Hadv & Hf)%bind_Ret_inv).
  injection Hf as <-. simpl in Hu.
  apply (advance_blocks _ _ _ _ _ _ _ _ i) in Hadv; [|rewrite length_insert; lia..].
  rewrite Hadv in Hu. destruct (decide (i = g mod n)) as [->|Hne].
  - rewrite list_lookup_insert_eq in Hu by lia. rewrite Hp in Hp'.
    injection Hu as <-. injection Hp' as <-. by rewrite payload_toggle.
  - rewrite list_lookup_insert_ne in Hu by done. by eapply Htrbs.
Qed.

(** ** Filling a new ring *)

(** The blocks pushed so far are those of [bufs]; [n] fit. *)
Definition filling (n : nat) (bufs : list Z) (r : TransferRing) : Prop :=
  exists q, ring_rel n (transfer_view r) (0, true) 0 (length bufs) q /\
    payload <$> q = (fun p => payload (into_raw (normal_trb p len))) <$> bufs.

Lemma filling_push n bufs r p : filling n bufs r -> length bufs < n ->
  exists ptr r', transfer_push r (normal_trb p len) = Ret (ptr, r') /\ tr_base r' = tr_base r /\
    tr_cycle_count r' = tr_cycle_count r /\ filling n (bufs ++ [p]) r'.
Proof.
  intros (q & Hrel & Hq) Hlt.
  destruct (ring_rel_push n _ _ _ _ q (normal_trb p len) Hrel)
    as (t & v & Hv & _ & Ht & Hb & _ & Hrel'); [lia|simpl; lia|done|].
  destruct (implements_push_Ret transfer_view transfer_push r _ _ _ transfer_push_view Hv)
    as (r' & Hr' & <-).
  eexists _, r'. split; [exact Hr'|]. split; [exact Hb|]. split.
  { unfold transfer_push in Hr'. inv_ret. by destruct a0 as [[[? ?] ?] ?]; simplify_eq. }
  exists (q ++ [t]). rewrite length_app, Nat.add_1_r. split; [done|].
  rewrite !fmap_app, Hq. simpl. by rewrite Ht.
Qed.

Lemma filling_full bufs r : 0 < length bufs -> filling (length bufs) bufs r -> circ bufs r 0 0.
Proof.
  intros Hn (q & Hrel & Hq). pose proof Hrel as (slots & link & _ & _ & _ & Hbuf & Hw & _). split.
  - exists q. unfold phase. by rewrite Nat.Div0.mod_0_l, Nat.Div0.div_0_l.
  - intros i t p Ht Hp. pose proof (lookup_lt_Some _ _ _ Hp).
    destruct (win_ready _ _ _ _ _ _ Hw i) as (t' & Hs & Hqi & _); [lia|].
    rewrite Nat.mod_small in Hs by done. rewrite Nat.sub_0_r in Hqi. simpl in Hbuf.
    rewrite Hbuf, lookup_app_l in Ht by (by eapply lookup_lt_Some).
    apply (f_equal (fun l => l !! i)) in Hq. rewrite !list_lookup_fmap, Hqi, Hp in Hq.
    simpl in Hq. congruence.
Qed.

(** One block of memory for each buffer, in the order of the allocator. *)
#[local] Open Scope Z_scope.

Abbreviation report_blocks := (fmap (fun p : Z => (p, len))).

Lemma report_buffer_room a live :
  0 <= len < 2 ^ 32 -> Bump.inv a live -> has_room a (PAGE_SIZE + len) ->
  Bump.n_allocations a + 1 < 2 ^ 64 ->
  exists layout p a', from_size_align len PAGE_SIZE = Some layout /\
    global_alloc a layout = Ret (p, a') /\ Bump.inv a' ((p, len) :: live) /\
    granted a a' len (PAGE_SIZE + len) p.
Proof.
  intros Hlen Hinv (Hpos & Hroom & Hend) Hcount. exists (mkLayout len PAGE_SIZE).
  assert (from_size_align len PAGE_SIZE = Some (mkLayout len PAGE_SIZE)) as Hl.
  { unfold from_size_align. change (is_power_of_two PAGE_SIZE) with true.
    destruct (Z.leb_spec len (2 ^ 63 - PAGE_SIZE)); [done|unfold PAGE_SIZE in *; lia]. }
  assert (request_ok (mkLayout len PAGE_SIZE) 0) as Hreq
    by (split; [split; [simpl; lia|exact Hl]|by left]).
  destruct (BumpFacts.bump_alloc_room a _ 0 Hreq) as (Hrun & Hp & _);
    [lia|cbn [align size]; lia|lia|done|].
  cbn [align size] in *. set (p := placement _ _ _) in *.
  destruct (BumpFacts.bump_alloc_ok _ _ _ _ _ _ Hinv Hreq Hrun) as (_ & [[? _]|(_ & Hinv' & _)]); [lia|].
  eexists p, _. split_and!; [exact Hl|exact Hrun|exact Hinv'|]. unfold granted. simpl. lia.
Qed.

Lemma fill_loop_room count : forall bufs a live r,
  0 <= len < 2 ^ 32 -> Bump.inv a live ->
  has_room a (Z.of_nat count * (PAGE_SIZE + len)) ->
  Bump.n_allocations a + Z.of_nat count < 2 ^ 64 ->
  filling (length bufs + count) bufs r ->
  exists bufs' r' a' live', fill_loop normal_trb a r len count = Ret (r', a') /\
    length bufs' = count /\ filling (length bufs + count) (bufs ++ bufs') r' /\
    tr_base r' = tr_base r /\ live' ≡ₚ report_blocks bufs' ++ live /\ Bump.inv a' live'.
Proof.
  induction count as [|count IH]; intros bufs a live r Hlen Hinv Hroom Hcount Hfill.
  { exists [], r, a, live. rewrite app_nil_r. by split_and!. }
  unfold has_room in Hroom. rewrite !Nat2Z.inj_succ, ?Z.mul_succ_l in *.
  assert (0 < PAGE_SIZE + len) by (unfold PAGE_SIZE; lia).
  destruct (report_buffer_room a live) as (layout & p & a1 & Hl & Ha & Hinv1 & Hg);
    [done|done|unfold has_room; nia|lia|].
  destruct Hg as (_ & _ & _ & Hnext & _ & He & Hc).
  destruct (filling_push _ _ _ p Hfill) as (ptr & r1 & Hpush & Hb & _ & Hfill1); [lia|].
  cbn [fill_loop]. rewrite Hl. cbn [unwrap mbind outcome_bind]. rewrite Ha. cbn [mbind outcome_bind].
  rewrite Hpush. cbn [mbind outcome_bind].
  replace (length bufs + S count)%nat with (length (bufs ++ [p]) + count)%nat in *
    by (rewrite length_app; simpl; lia).
  destruct (IH (bufs ++ [p]) a1 ((p, len) :: live) r1)
    as (bufs' & r' & a' & live' & Hrun & Hn & Hf & Hbase & Hlive & Hi);
    [done|done| |lia|done|].
  { pose proof Hinv1 as ((? & ?) & _). unfold has_room. lia. }
  exists (p :: bufs'), r', a', live'. split_and!; [done|by simpl; f_equal| |congruence| |done].
  - by rewrite <- app_assoc in Hf.
  - rewrite Hlive. simpl. by rewrite <- Permutation_middle.
Qed.

(** [fill_with_normal] on a new ring of [size] blocks: with room for the buffers it returns, and the
    ring and the buffers lie in disjoint blocks of memory. *)
Lemma fill_with_normal_circulates a live base size :
  0 <= len < 2 ^ 32 -> (2 <= size)%nat -> Bump.inv a live -> 0 <= base < 2 ^ 64 -> (16 | base) ->
  has_room a (Z.of_nat (size - 1) * (PAGE_SIZE + len)) ->
  Bump.n_allocations a + Z.of_nat (size - 1) < 2 ^ 64 ->
  exists bufs r a', 
    fill_with_normal normal_trb a (mkTransferRing base (replicate size zero_trb) 0 true 0) len
      = Ret (r, a') /\
    tr_base r = base /\ length bufs = (size - 1)%nat /\ circ bufs r 0 0 /\
    Forall in_usize bufs /\ pairwise_disjoint (report_blocks bufs ++ live).
Proof.
  intros Hlen Hsize Hinv Hbase Hal Hroom Hcount.
  set (r0 := mkTransferRing base (replicate size zero_trb) 0 true 0).
  assert (Hfill : filling (length (@nil Z) + (size - 1)) [] r0).
  { exists []. split; [|done]. unfold r0, transfer_view. simpl.
    replace size with (S (size - 1)) at 2 by lia. apply ring_rel_init; [lia|done..]. }
  destruct (fill_loop_room (size - 1) [] a live r0)
    as (bufs & r & a' & live' & Hrun & Hn & Hf & Hb & Hlive & Hi); [done..|].
  exists bufs, r, a'. unfold fill_with_normal, buffer_len. simpl tr_buffer.
  rewrite length_replicate. split_and!; [exact Hrun|done|done| | |].
  - apply filling_full; [lia|]. by rewrite Hn in *.
  - destruct Hi as (Hh & Hlt & _ & Hin & _). rewrite Hlive in Hin.
    apply Forall_app, proj1, Forall_fmap in Hin. eapply Forall_impl; [exact Hin|].
    unfold in_usize. simpl. lia.
  - rewrite <- Hlive. by apply BumpFacts.bump_inv_disjoint in Hi.
Qed.

End report_ring_lemmas.

(** A controller that follows the link only when it needs the next block takes both blocks of the ring
    and stands on the link; the driver gives both back, and with the last one writes the link for the
    next lap.  The controller, which has not followed the link of this lap, finds no block any more.
    One that has followed it before goes on. *)
Module ReportRingExamples.
#[local] Existing Instance bit_field_ref.

Definition given_back : TransferRing :=
  RingExamples.outcome_default (RingExamples.pushed_ring 2)
    (r ← flip_cycle_bit_at (RingExamples.pushed_ring 2) 0x1000 true; flip_cycle_bit_at r 0x1010 true).

Lemma link_overtakes :
  let full := tr_buffer (RingExamples.pushed_ring 2) in
  (hw_fetch 0x1000 full (hw_fetch 0x1000 full (0%nat, true)).2).2 = (2%nat, true) /\
  hw_fetch 0x1000 (tr_buffer given_back) (2%nat, true) = (None, (2%nat, true)) /\
  hw_follow 0x1000 full (2%nat, true) = (0%nat, false) /\
  (hw_fetch 0x1000 (tr_buffer given_back) (0%nat, false)).1 = Some (mkTrb 0 0 8 1024).
Proof. split_and!; vm_compute; reflexivity. Qed.

End ReportRingExamples.
