(* ===== verification/EventRing.v ===== *)
(** The event ring ([kernel/src/xhci/event_ring.rs]): its segment table entry, the
    consumption of events, the futures that wait for one event, and the queue of
    user events ([kernel/src/xhci/user_event_ring.rs]). *)
From S2P Require Import Prelude Allocator BitField Trb CycleRing Rings.

(** * The parts of the [xhci] crate used on events and on the interrupter *)

(** The payload types of [event::Allowed]. *)
Class EventTypes := {
  TransferEvent : Type;
  CommandCompletion : Type;
  PortStatusChange : Type;
  OtherEvent : Type;
}.

(** [event::Allowed]; the other variants are the ones the kernel never looks into. *)
Inductive Allowed `{EventTypes} : Type :=
  | EvTransferEvent (e : TransferEvent)
  | EvCommandCompletion (e : CommandCompletion)
  | EvPortStatusChange (e : PortStatusChange)
  | EvBandwidthRequest (e : OtherEvent)
  | EvDoorbell (e : OtherEvent)
  | EvHostController (e : OtherEvent)
  | EvDeviceNotification (e : OtherEvent)
  | EvMfindexWrap (e : OtherEvent).

(** Their accessors, the decoding of a raw TRB, and the event ring dequeue pointer
    register; completion codes are their numbers in the xHCI specification. *)
Class EventLib `{EventTypes} := {
  event_of_raw : TrbRaw -> option Allowed;
  te_slot_id : TransferEvent -> Z;
  te_endpoint_id : TransferEvent -> Z;
  te_trb_pointer : TransferEvent -> Z;
  te_completion_code : TransferEvent -> Z;
  te_trb_transfer_length : TransferEvent -> Z;
  cc_command_trb_pointer : CommandCompletion -> Z;
  cc_slot_id : CommandCompletion -> Z;
  cc_completion_code : CommandCompletion -> Z;
  psc_port_id : PortStatusChange -> Z;
  Erdp : Type;
  event_ring_dequeue_pointer : Erdp -> Z;
  set_event_ring_dequeue_pointer : Z -> Erdp -> outcome Erdp;
  clear_event_handler_busy : Erdp -> Erdp;
}.

(** The dequeue pointer register holds 16-byte aligned addresses. *)
Class EventLaws `{EventLib} : Prop := {
  set_event_ring_dequeue_pointer_spec p e :
    0 <= p < 2 ^ 64 -> (16 | p) ->
    exists e', set_event_ring_dequeue_pointer p e = Ret e' /\
               event_ring_dequeue_pointer e' = p;
  clear_event_handler_busy_spec e :
    event_ring_dequeue_pointer (clear_event_handler_busy e) = event_ring_dequeue_pointer e;
}.

(** The layout of the xHCI specification: events are TRBs of type 32 to 39, the low
    four bits of the register are not part of the pointer. *)
Module XhciEvents.

#[global] Instance xhci_event_types : EventTypes := {|
  TransferEvent := TrbRaw;
  CommandCompletion := TrbRaw;
  PortStatusChange := TrbRaw;
  OtherEvent := TrbRaw;
|}.

Definition decode (t : TrbRaw) : option Allowed :=
  let ty := XhciLayout.trb_type t in
  if ty =? 32 then Some (EvTransferEvent t) else if ty =? 33 then Some (EvCommandCompletion t)
  else if ty =? 34 then Some (EvPortStatusChange t)
  else if ty =? 35 then Some (EvBandwidthRequest t) else if ty =? 36 then Some (EvDoorbell t)
  else if ty =? 37 then Some (EvHostController t)
  else if ty =? 38 then Some (EvDeviceNotification t)
  else if ty =? 39 then Some (EvMfindexWrap t) else None.

#[global] Instance xhci_event_lib : EventLib := {|
  event_of_raw := decode;
  te_slot_id (t : TrbRaw) := dw3 t / 2 ^ 24;
  te_endpoint_id (t : TrbRaw) := (dw3 t / 2 ^ 16) mod 2 ^ 5;
  te_trb_pointer (t : TrbRaw) := dw0 t + dw1 t * 2 ^ 32;
  te_completion_code (t : TrbRaw) := dw2 t / 2 ^ 24;
  te_trb_transfer_length (t : TrbRaw) := dw2 t mod 2 ^ 24;
  cc_command_trb_pointer (t : TrbRaw) := dw0 t + dw1 t * 2 ^ 32;
  cc_slot_id (t : TrbRaw) := dw3 t / 2 ^ 24;
  cc_completion_code (t : TrbRaw) := dw2 t / 2 ^ 24;
  psc_port_id (t : TrbRaw) := dw0 t / 2 ^ 24;
  Erdp := Z;
  event_ring_dequeue_pointer (e : Z) := e - e mod 16;
  set_event_ring_dequeue_pointer p (e : Z) :=
    if p mod 16 =? 0 then Ret (p + e mod 16) else Panic;
  clear_event_handler_busy (e : Z) := e - e mod 16 + Z.lor (e mod 16) 8;
|}.

#[global] Instance xhci_event_laws : EventLaws.
Proof.
  split; simpl.
  - intros p e _ Hp%Z.mod_divide; [|done]. rewrite Hp. simpl. eexists. split; [done|].
    rewrite Z.add_mod, Hp, Z.add_0_l, !Z.mod_mod by done. lia.
  - intros e. pose proof (Z.mod_pos_bound e 16 ltac:(lia)) as Hm.
    assert (0 <= Z.lor (e mod 16) 8 < 16) as Hl.
    { assert (Hall : forallb (fun i => (0 <=? Z.lor (Z.of_nat i) 8) && (Z.lor (Z.of_nat i) 8 <? 16))
        (seq 0 16) = true) by reflexivity.
      rewrite forallb_forall in Hall. specialize (Hall (Z.to_nat (e mod 16))).
      rewrite Z2Nat.id, andb_true_iff, Z.leb_le, Z.ltb_lt in Hall by lia.
      apply Hall. apply in_seq. lia. }
    rewrite (Z.add_mod (e - e mod 16)), Zminus_mod_idemp_r, Z.sub_diag by done.
    rewrite Zmod_0_l, Z.add_0_l, Z.mod_mod, (Z.mod_small (Z.lor _ _)) by done. lia.
Qed.

End XhciEvents.

(** * The event ring segment table *)

Module Erst.
Section erst.
Context `{BF : BitFieldLib}.

Record EventRingSegmentTableEntry := mkErst { data0 : Z; data1 : Z; data2 : Z; data3 : Z }.

(** [u64::trailing_zeros]: [w] bits of [x]. *)
Fixpoint count_zeros (w : nat) (x : Z) : nat :=
  match w with
  | O => 0
  | S w => if Z.odd x then 0 else S (count_zeros w (Z.div2 x))
  end.

Definition trailing_zeros (x : Z) : Z := Z.of_nat (count_zeros 64 x).

Definition ring_segment_base_address (self : EventRingSegmentTableEntry) : Z :=
  Z.lor (Z.shiftl (data1 self) 32) (data0 self).

Definition set_ring_segment_base_address (self : EventRingSegmentTableEntry) (address : Z) :
    outcome EventRingSegmentTableEntry :=
  _ ← assert (6 <=? trailing_zeros address);
  let upper := cast 32 (Z.shiftr address 32) in
  let lower := cast 32 address in
  Ret (mkErst lower upper (data2 self) (data3 self)).

(** [try_into::<u16>().unwrap()] of the low bits. *)
Definition ring_segment_size (self : EventRingSegmentTableEntry) : outcome Z :=
  let size := get_bits (data2 self) 0 16 in
  if size <? 2 ^ 16 then Ret size else Panic.

Definition set_ring_segment_size (self : EventRingSegmentTableEntry) (size : Z) :
    outcome EventRingSegmentTableEntry :=
  d2 ← set_bits (data2 self) 0 16 size;
  Ret (mkErst (data0 self) (data1 self) d2 (data3 self)).

Definition new (ring_segment_base_address ring_segment_size : Z) :
    outcome EventRingSegmentTableEntry :=
  let entry := mkErst 0 0 0 0 in
  entry ← set_ring_segment_base_address entry ring_segment_base_address;
  set_ring_segment_size entry ring_segment_size.

End erst.
End Erst.

(** * The event ring *)

Section event_ring.
Context `{TL : TrbLib Cmd} `{BF : BitFieldLib} `{ET : EventTypes} `{EL : @EventLib ET}.

(** The registers of the primary interrupter that the ring uses. *)
Record Interrupter := mkInterrupter { erstsz : Z; erdp : Erdp; erstba : Z }.

Record EventRing := mkEventRing {
  er_trb_buffer : Z * Z;   (* address and length *)
  popped : list Allowed;
  event_ring_segment_table : Erst.EventRingSegmentTableEntry;
  er_cycle_bit : bool;
  n_pop : Z;
}.

(** [trb::Link] with its cycle bit cleared, as a raw TRB. *)
Definition empty_event : TrbRaw := link_into_raw (link_clear_cycle_bit link_new).

(** The slots of the new buffer are returned besides the ring: they are the memory
    that the controller writes. *)
Definition event_ring_new (allocator : KernelAlloc.GlobalAllocator) (buf_size : Z)
    (primary_interrupter : Interrupter) :
    outcome (EventRing * Interrupter * list TrbRaw * KernelAlloc.GlobalAllocator) :=
  '(r, allocator, _) ← KernelAlloc.kernel_alloc_array_with_boundary_with_default_else
    TRB_SIZE allocator ∅ buf_size 64 (64 * PAGE_SIZE) empty_event;
  match r with
  | Err _ => Panic
  | Ok (trb_buffer, len) =>
      let ring_segment_size := cast 16 len in
      _ ← assert (buf_size =? ring_segment_size);
      entry ← Erst.new trb_buffer ring_segment_size;
      '(r, allocator, _) ← KernelAlloc.kernel_alloc_with_boundary_with_default_else
        64 allocator ∅ 64 (64 * 1024) entry;
      match r with
      | Err _ => Panic
      | Ok table =>
          erdp' ← set_event_ring_dequeue_pointer trb_buffer (erdp primary_interrupter);
          Ret (mkEventRing (trb_buffer, len) [] entry true 0, mkInterrupter 1 erdp' table,
               replicate (Z.to_nat len) empty_event, allocator)
      end
  end.

Definition pending_already_popped_queue (self : EventRing) : bool :=
  negb (bool_decide (popped self = [])).

Definition er_push (self : EventRing) (trb : Allowed) : EventRing :=
  mkEventRing (er_trb_buffer self) (popped self ++ [trb]) (event_ring_segment_table self)
    (er_cycle_bit self) (n_pop self).

Definition pop_already_popped (self : EventRing) : option Allowed * EventRing :=
  (last (popped self),
   mkEventRing (er_trb_buffer self) (take (length (popped self) - 1) (popped self))
     (event_ring_segment_table self) (er_cycle_bit self) (n_pop self)).

(** [mem a] is the TRB that memory holds at address [a]. *)
Definition er_pop (mem : Z -> TrbRaw) (self : EventRing) (interrupter : Interrupter) :
    outcome (result Allowed TrbRaw * EventRing * Interrupter) :=
  n_pop' ← add_w 64 (n_pop self) 1;
  let dequeue_pointer := event_ring_dequeue_pointer (erdp interrupter) in
  let pop := mem dequeue_pointer in
  let next := dequeue_pointer + 16 in
  let segment_begin := Erst.ring_segment_base_address (event_ring_segment_table self) in
  size ← Erst.ring_segment_size (event_ring_segment_table self);
  let segment_end := segment_begin + 16 * size in
  let '(next, cycle_bit) :=
    if next =? segment_end then (segment_begin, negb (er_cycle_bit self))
    else (next, er_cycle_bit self) in
  erdp' ← set_event_ring_dequeue_pointer next (erdp interrupter);
  let erdp' := clear_event_handler_busy erdp' in
  Ret (match event_of_raw pop with Some e => Ok e | None => Err pop end,
       mkEventRing (er_trb_buffer self) (popped self) (event_ring_segment_table self)
         cycle_bit n_pop',
       mkInterrupter (erstsz interrupter) erdp' (erstba interrupter)).

(** The test before every [pop]: the TRB at the dequeue pointer has the cycle bit of
    the ring. *)
Definition has_front (mem : Z -> TrbRaw) (self : EventRing) (interrupter : Interrupter) : bool :=
  eqb (cycle_bit_of (mem (event_ring_dequeue_pointer (erdp interrupter)))) (er_cycle_bit self).

(** * The futures *)

Inductive Poll (T : Type) := Ready (t : T) | Pending.
Arguments Ready {T} t.
Arguments Pending {T}.

Inductive TransferEventWaitKind :=
  | SlotId (slot_id : Z)
  | TrbPtr (ptr : Z)
  | TrbPtrs (ptrs : list Z).

(** The loop over [ptrs]: [Some p] when it returns [p] from the function. *)
Fixpoint poll_ptrs (popped_trb : result Allowed TrbRaw) (ptrs : list Z) :
    option (Poll TransferEvent) :=
  match ptrs with
  | [] => None
  | ptr :: ptrs =>
      match popped_trb with
      | Ok (EvTransferEvent event) =>
          if te_trb_pointer event =? ptr then Some (Ready event) else poll_ptrs popped_trb ptrs
      | Ok _ => poll_ptrs popped_trb ptrs
      | Err _ => Some Pending
      end
  end.

(** The match on the popped TRB. *)
Definition dispatch_transfer (wait_on : TransferEventWaitKind)
    (popped_trb : result Allowed TrbRaw) (event_ring : EventRing) :
    outcome (Poll TransferEvent * EventRing) :=
  let single (waited : TransferEvent -> bool) :=
    match popped_trb with
    | Ok trb =>
        match trb with
        | EvTransferEvent event =>
            if waited event then Ret (Ready event, event_ring)
            else Ret (Pending, er_push event_ring trb)
        | _ => Ret (Pending, er_push event_ring trb)
        end
    | Err _ => Ret (Pending, event_ring)
    end in
  match wait_on with
  | SlotId slot_id => single (fun event => te_slot_id event =? slot_id)
  | TrbPtr ptr => single (fun event => te_trb_pointer event =? ptr)
  | TrbPtrs ptrs =>
      match poll_ptrs popped_trb ptrs with
      | Some p => Ret (p, event_ring)
      | None =>
          match popped_trb with
          | Ok trb => Ret (Pending, er_push event_ring trb)
          | Err _ => Panic
          end
      end
  end.

(** [TransferEventFuture::poll]. *)
Definition poll_transfer (mem : Z -> TrbRaw) (wait_on : TransferEventWaitKind)
    (event_ring : EventRing) (interrupter : Interrupter) :
    outcome (Poll TransferEvent * EventRing * Interrupter) :=
  if negb (has_front mem event_ring interrupter) then Ret (Pending, event_ring, interrupter)
  else
    '(popped_trb, event_ring, interrupter) ← er_pop mem event_ring interrupter;
    '(p, event_ring) ← dispatch_transfer wait_on popped_trb event_ring;
    Ret (p, event_ring, interrupter).

(** [CommandCompletionFuture::poll]. *)
Definition dispatch_command (wait_on : Z) (trb : result Allowed TrbRaw)
    (event_ring : EventRing) : Poll CommandCompletion * EventRing :=
  match trb with
  | Ok trb =>
      match trb with
      | EvCommandCompletion event =>
          if cc_command_trb_pointer event =? wait_on then (Ready event, event_ring)
          else (Pending, er_push event_ring trb)
      | _ => (Pending, er_push event_ring trb)
      end
  | Err _ => (Pending, event_ring)
  end.

Definition poll_command (mem : Z -> TrbRaw) (wait_on : Z)
    (event_ring : EventRing) (interrupter : Interrupter) :
    outcome (Poll CommandCompletion * EventRing * Interrupter) :=
  if negb (has_front mem event_ring interrupter) then Ret (Pending, event_ring, interrupter)
  else
    '(trb, event_ring, interrupter) ← er_pop mem event_ring interrupter;
    let '(p, event_ring) := dispatch_command wait_on trb event_ring in
    Ret (p, event_ring, interrupter).

(** * The controller side *)

(** The controller writes events into its segment while it is not full, by its own
    enqueue index and producer cycle state. *)
Record producer := mkProducer { prod_index : nat; prod_cycle : bool }.

Definition produce (slots : list TrbRaw) (pr : producer) (t : TrbRaw) :
    list TrbRaw * producer :=
  (<[prod_index pr := t]> slots,
   if decide (S (prod_index pr) = length slots) then mkProducer 0 (negb (prod_cycle pr))
   else mkProducer (S (prod_index pr)) (prod_cycle pr)).

(** The memory of the segment at [base]. *)
Definition segment_mem (base : Z) (slots : list TrbRaw) (a : Z) : TrbRaw :=
  default empty_event (slots !! Z.to_nat ((a - base) / 16)).

End event_ring.
Arguments Ready {T} t.
Arguments Pending {T}.

(** * The user event ring *)

Module UserEvents.

Record InitPortDevice := mkInitPortDevice {
  port_index : Z;
  routing : Z;
  speed : Z;
  parent_hub_slot_id : option Z;
  parent_port_index : option Z;
}.

Inductive UserEvent := UInitPortDevice (d : InitPortDevice).

Abbreviation UserEventRing := (list UserEvent).

Definition new : UserEventRing := [].
Definition push (self : UserEventRing) (event : UserEvent) : UserEventRing := self ++ [event].
Definition pop (self : UserEventRing) : option UserEvent * UserEventRing :=
  match self with
  | [] => (None, [])
  | event :: self => (Some event, self)
  end.

End UserEvents.

(** * The system of the kernel and the controller *)

Section event_system.
Context `{TL : TrbLib Cmd} `{BF : BitFieldLib} `{ET : EventTypes} `{EL : @EventLib ET}.

(** The ring, the interrupter, the segment, the controller, all the TRBs the
    controller has written, how many of them the kernel has popped, and the events
    handed to their handlers. *)
Record system := mkSystem {
  sys_ring : EventRing;
  sys_interrupter : Interrupter;
  sys_slots : list TrbRaw;
  sys_producer : producer;
  sys_produced : list TrbRaw;
  sys_consumed : nat;
  sys_handled : list Allowed;
}.

Definition sys_base (s : system) : Z := (er_trb_buffer (sys_ring s)).1.

Definition sys_mem (s : system) : Z -> TrbRaw := segment_mem (sys_base s) (sys_slots s).

(** The kernel's part of a step: the new ring and interrupter, and the events
    handled. *)
Definition after_poll (s : system) (r : EventRing) (i : Interrupter) (handled : list Allowed) :
    system :=
  mkSystem r i (sys_slots s) (sys_producer s) (sys_produced s)
    (if has_front (sys_mem s) (sys_ring s) (sys_interrupter s)
     then S (sys_consumed s) else sys_consumed s)
    (sys_handled s ++ handled).

Definition ready_events {T} (wrap : T -> Allowed) (p : Poll T) : list Allowed :=
  match p with Ready t => [wrap t] | Pending => [] end.

Inductive system_step : system -> system -> Prop :=
  | sys_produce s t slots' pr' :
      (length (sys_produced s) < sys_consumed s + length (sys_slots s))%nat ->
      cycle_bit_of t = prod_cycle (sys_producer s) ->
      produce (sys_slots s) (sys_producer s) t = (slots', pr') ->
      system_step s
        (mkSystem (sys_ring s) (sys_interrupter s) slots' pr' (sys_produced s ++ [t])
           (sys_consumed s) (sys_handled s))
  | sys_poll_transfer s wait_on p r i :
      poll_transfer (sys_mem s) wait_on (sys_ring s) (sys_interrupter s) = Ret (p, r, i) ->
      system_step s (after_poll s r i (ready_events EvTransferEvent p))
  | sys_poll_command s wait_on p r i :
      poll_command (sys_mem s) wait_on (sys_ring s) (sys_interrupter s) = Ret (p, r, i) ->
      system_step s (after_poll s r i (ready_events EvCommandCompletion p))
  | sys_process_once_received s e r :
      pop_already_popped (sys_ring s) = (Some e, r) ->
      system_step s
        (mkSystem r (sys_interrupter s) (sys_slots s) (sys_producer s) (sys_produced s)
           (sys_consumed s) (sys_handled s ++ [e])).

(** The ring with other events kept for later. *)
Definition with_popped (r : EventRing) (l : list Allowed) : EventRing :=
  mkEventRing (er_trb_buffer r) l (event_ring_segment_table r) (er_cycle_bit r) (n_pop r).

Definition ok_events (r : result Allowed TrbRaw) : list Allowed :=
  match r with Ok e => [e] | Err _ => [] end.

(** The relation between the kernel, the controller and the TRBs not popped yet. *)
Definition event_rel (s : system) (q : list TrbRaw) : Prop :=
  let n := length (sys_slots s) in
  let c := sys_consumed s in
  let p := length (sys_produced s) in
  let entry := event_ring_segment_table (sys_ring s) in
  (0 < n)%nat /\ 0 <= sys_base s /\ (16 | sys_base s) /\
  sys_base s + 16 * Z.of_nat n <= 2 ^ 64 /\
  Erst.ring_segment_base_address entry = sys_base s /\
  Erst.ring_segment_size entry = Ret (Z.of_nat n) /\
  window cycle_bit_of n (sys_slots s) c p q /\
  event_ring_dequeue_pointer (erdp (sys_interrupter s))
    = sys_base s + 16 * Z.of_nat (c mod n) /\
  er_cycle_bit (sys_ring s) = phase n c /\
  sys_producer s = mkProducer (p mod n) (phase n p) /\
  n_pop (sys_ring s) = Z.of_nat c /\
  drop c (sys_produced s) = q.

(** No event is lost or handled twice: the events popped are those handled and those
    kept for later. *)
Definition conserved (s : system) : Prop :=
  omap event_of_raw (take (sys_consumed s) (sys_produced s))
    ≡ₚ sys_handled s ++ popped (sys_ring s).

Definition event_inv (s : system) : Prop := (exists q, event_rel s q) /\ conserved s.

End event_system.

(** * Lemmas *)

Section erst_lemmas.
Context `{BFL : BitFieldLaws}.

Lemma count_zeros_spec w x k :
  0 <= x -> (k <= w)%nat -> (k <= Erst.count_zeros w x)%nat <-> (2 ^ Z.of_nat k | x).
Proof.
  revert x k. induction w as [|w IH]; intros x k Hx Hk.
  { replace k with 0%nat by lia. simpl. split; [intros _; apply Z.divide_1_l|lia]. }
  simpl. destruct k as [|k]; [split; [intros _; apply Z.divide_1_l|lia]|].
  rewrite Nat2Z.inj_succ, Z.pow_succ_r by lia. pose proof (Z.div2_odd x) as Hd.
  destruct (Z.odd x).
  - split; [lia|]. intros [m Hm]. exfalso. simpl in Hd. rewrite Hd in Hm.
    replace (m * (2 * 2 ^ Z.of_nat k)) with (2 * (m * 2 ^ Z.of_nat k)) in Hm by ring. lia.
  - rewrite <- Nat.succ_le_mono, IH by (try lia; apply Z.div2_nonneg; lia).
    simpl in Hd. rewrite Z.add_0_r in Hd. rewrite Hd at 2.
    rewrite Z.mul_divide_cancel_l by lia. done.
Qed.

Lemma trailing_zeros_6 x : 0 <= x -> (6 <=? Erst.trailing_zeros x) = true <-> (64 | x).
Proof.
  intros Hx. unfold Erst.trailing_zeros. rewrite Z.leb_le.
  rewrite <- (count_zeros_spec 64 x 6) by lia. lia.
Qed.

Lemma split_64 x :
  in_usize x -> Z.lor (Z.shiftl (cast 32 (Z.shiftr x 32)) 32) (cast 32 x) = x.
Proof.
  intros [H0 H1]. unfold cast. rewrite Z.shiftr_div_pow2 by lia.
  rewrite (Z.mod_small (x / 2 ^ 32)) by
    (split; [by apply Z.div_pos|apply Z.div_lt_upper_bound; lia]).
  apply Z.bits_inj'. intros i Hi. rewrite Z.lor_spec, Z.shiftl_spec by done.
  destruct (decide (i < 32)).
  - by rewrite Z.testbit_neg_r, Z.mod_pow2_bits_low by lia.
  - rewrite Z.div_pow2_bits, Z.mod_pow2_bits_high, orb_false_r by lia. f_equal. lia.
Qed.

(** A table entry gives back the segment it was made for. *)
Lemma erst_new_spec base size :
  in_usize base -> in_u16 size -> (64 | base) ->
  exists e, Erst.new base size = Ret e /\
    Erst.ring_segment_base_address e = base /\ Erst.ring_segment_size e = Ret size.
Proof.
  intros Hb [Hs0 Hs] Hal. unfold Erst.new, Erst.set_ring_segment_base_address.
  rewrite (proj2 (trailing_zeros_6 base ltac:(unfold in_usize in *; lia)) Hal).
  cbn [assert mbind outcome_bind].
  unfold Erst.set_ring_segment_size. cbn [Erst.data2]. rewrite set_bits_spec by lia.
  cbn [mbind outcome_bind].
  eexists. split; [reflexivity|]. split.
  { unfold Erst.ring_segment_base_address. cbn [Erst.data0 Erst.data1]. exact (split_64 base Hb). }
  unfold Erst.ring_segment_size. cbn [Erst.data2]. rewrite get_bits_spec by lia.
  change (0 / 2 ^ 16) with 0. change (0 mod 2 ^ 0) with 0. change (2 ^ 0) with 1.
  rewrite Z.div_1_r, Z.mul_0_l, Z.mul_1_r, Z.add_0_r, Z.mod_small by lia. by rewrite (proj2 (Z.ltb_lt _ _)) by lia.
Qed.

Lemma erst_new_misaligned base size :
  0 <= base -> ~ (64 | base) -> Erst.new base size = Panic.
Proof.
  intros Hb Hal. unfold Erst.new, Erst.set_ring_segment_base_address.
  destruct (6 <=? Erst.trailing_zeros base) eqn:He; [|done].
  by apply trailing_zeros_6 in He.
Qed.

End erst_lemmas.

Section event_lemmas.
Context `{TL : TrbLib Cmd} `{!TrbLaws Cmd} `{BFL : BitFieldLaws}.
Context `{ET : EventTypes} `{EL : @EventLib ET} `{!EventLaws}.

Lemma segment_mem_lookup base slots i :
  segment_mem base slots (base + 16 * Z.of_nat i) = default empty_event (slots !! i).
Proof.
  unfold segment_mem. replace (base + _ - base) with (Z.of_nat i * 16) by lia.
  by rewrite Z.div_mul, Nat2Z.id by lia.
Qed.

(** The TRB at the dequeue pointer. *)
Lemma event_rel_front s q :
  event_rel s q ->
  let t := sys_mem s (event_ring_dequeue_pointer (erdp (sys_interrupter s))) in
  has_front (sys_mem s) (sys_ring s) (sys_interrupter s) = negb (bool_decide (q = [])) /\
  (forall t' q', q = t' :: q' -> t = t').
Proof.
  intros (Hn & _ & _ & _ & _ & _ & Hw & Hp & Hc & _). cbv zeta.
  pose proof (window_front _ _ _ _ _ _ Hn Hw) as (t & Ht & Hq).
  assert (sys_mem s (event_ring_dequeue_pointer (erdp (sys_interrupter s))) = t) as Hm.
  { unfold sys_mem. by rewrite Hp, segment_mem_lookup, Ht. }
  unfold has_front. rewrite Hm, Hc. split.
  - destruct q as [|t' q].
    + rewrite Hq. by destruct (phase _ _).
    + destruct Hq as [-> ->]. by destruct (phase _ _).
  - intros t' q' ->. by destruct Hq.
Qed.

(** [pop] takes the oldest TRB. *)
Lemma er_pop_rel s t q :
  event_rel s (t :: q) -> Z.of_nat (length (sys_produced s)) < 2 ^ 64 ->
  exists r' i', er_pop (sys_mem s) (sys_ring s) (sys_interrupter s) =
    Ret (match event_of_raw t with Some e => Ok e | None => Err t end, r', i') /\
    popped r' = popped (sys_ring s) /\ er_trb_buffer r' = er_trb_buffer (sys_ring s) /\
    forall handled, event_rel
      (mkSystem r' i' (sys_slots s) (sys_producer s) (sys_produced s) (S (sys_consumed s))
         handled) q.
Proof.
  intros Hrel Hmax. pose proof (event_rel_front s _ Hrel) as [_ Hfront].
  specialize (Hfront _ _ eq_refl).
  destruct Hrel as (Hn & Hb0 & Hal & Hend & Hsb & Hss & Hw & Hp & Hc & Hpr & Hnp & Hdrop).
  set (n := length (sys_slots s)) in *. set (c := sys_consumed s) in *.
  pose proof (f_equal length Hdrop) as Hl. rewrite length_drop in Hl. simpl in Hl.
  pose proof (Nat.mod_upper_bound c n ltac:(lia)) as Hmod.
  pose proof (position_succ n c Hn) as Hpos.
  unfold er_pop. rewrite add_w_Ret by lia. cbn [mbind outcome_bind].
  rewrite Hfront, Hss, Hsb, Hp. cbn [mbind outcome_bind].
  set (next := if decide (S (c mod n) = n) then _ else _) in Hpos.
  assert (Hnext : (if sys_base s + 16 * Z.of_nat (c mod n) + 16 =? sys_base s + 16 * Z.of_nat n
      then (sys_base s, negb (er_cycle_bit (sys_ring s)))
      else (sys_base s + 16 * Z.of_nat (c mod n) + 16, er_cycle_bit (sys_ring s)))
      = (sys_base s + 16 * Z.of_nat (S c mod n), phase n (S c))).
  { rewrite Hc. unfold next in Hpos.
    destruct (decide (S (c mod n) = n)); injection Hpos as -> ->.
    - rewrite (proj2 (Z.eqb_eq _ _)) by lia. f_equal. lia.
    - rewrite (proj2 (Z.eqb_neq _ _)) by lia. f_equal. lia. }
  rewrite Hnext.
  pose proof (Nat.mod_upper_bound (S c) n ltac:(lia)).
  destruct (set_event_ring_dequeue_pointer_spec (sys_base s + 16 * Z.of_nat (S c mod n))
    (erdp (sys_interrupter s))) as (e' & He & Hptr).
  { lia. }
  { apply Z.divide_add_r; [done|]. apply Z.divide_factor_l. }
  rewrite He. cbn [mbind outcome_bind]. eexists _, _. split; [reflexivity|].
  split; [done|]. split; [done|]. intros handled.
  unfold event_rel, sys_base. simpl. fold n c. split_and!; try done; try lia.
  - by eapply window_pop.
  - by rewrite clear_event_handler_busy_spec, Hptr.
  - replace (S c) with (c + 1)%nat by lia. by rewrite <- drop_drop, Hdrop.
Qed.

Lemma poll_ptrs_Some popped_trb ptrs p :
  poll_ptrs popped_trb ptrs = Some p ->
  ok_events popped_trb = ready_events EvTransferEvent p.
Proof.
  induction ptrs as [|ptr ptrs IH]; simpl; [done|].
  destruct popped_trb as [[]|]; auto; [|by intros; simplify_eq].
  case_match; [by intros; simplify_eq|done].
Qed.

(** A popped event is given to the waiting task, kept for later, or was none. *)
Lemma dispatch_transfer_spec wait_on popped_trb r p r' :
  dispatch_transfer wait_on popped_trb r = Ret (p, r') ->
  exists l, r' = with_popped r l /\
    ok_events popped_trb ++ popped r ≡ₚ ready_events EvTransferEvent p ++ l.
Proof.
  assert (Hkeep : exists l, r = with_popped r l /\ popped r ≡ₚ l).
  { exists (popped r). by destruct r. }
  assert (Hpush : forall e, exists l, er_push r e = with_popped r l /\ e :: popped r ≡ₚ l).
  { intros e. eexists. split; [reflexivity|]. apply Permutation_cons_append. }
  unfold dispatch_transfer. destruct wait_on as [slot_id|ptr|ptrs].
  1, 2: destruct popped_trb as [[]|]; intros; repeat case_match; simplify_eq; simpl; auto;
    destruct Hkeep as (l & ? & ?); exists l; split; auto; by constructor.
  destruct (poll_ptrs popped_trb ptrs) as [p'|] eqn:Hp.
  - intros ?. simplify_eq. apply poll_ptrs_Some in Hp as ->.
    destruct Hkeep as (l & ? & Hl). exists l. split; [done|]. by rewrite Hl.
  - destruct popped_trb; intros; simplify_eq; simpl; auto.
Qed.

Lemma dispatch_command_spec wait_on popped_trb r p r' :
  dispatch_command wait_on popped_trb r = (p, r') ->
  exists l, r' = with_popped r l /\
    ok_events popped_trb ++ popped r ≡ₚ ready_events EvCommandCompletion p ++ l.
Proof.
  assert (Hkeep : exists l, r = with_popped r l /\ popped r ≡ₚ l).
  { exists (popped r). by destruct r. }
  assert (Hpush : forall e, exists l, er_push r e = with_popped r l /\ e :: popped r ≡ₚ l).
  { intros e. eexists. split; [reflexivity|]. apply Permutation_cons_append. }
  unfold dispatch_command. destruct popped_trb as [[]|]; intros; repeat case_match;
    simplify_eq; simpl; auto; destruct Hkeep as (l & ? & ?); exists l; split; auto;
    by constructor.
Qed.

(** Popping the front and handing it on: the common part of the polls. *)
Lemma poll_step s (t : TrbRaw) q r' i' r'' l handled :
  event_rel s (t :: q) -> conserved s ->
  popped r' = popped (sys_ring s) -> 
  (forall h, event_rel (mkSystem r' i' (sys_slots s) (sys_producer s) (sys_produced s)
    (S (sys_consumed s)) h) q) ->
  r'' = with_popped r' l ->
  ok_events (match event_of_raw t with Some e => Ok e | None => Err t end) ++ popped r'
    ≡ₚ handled ++ l ->
  event_inv (after_poll s r'' i' handled).
Proof.
  intros Hrel Hcons Hpop Hrel' -> Hperm.
  destruct (event_rel_front s _ Hrel) as [Hf _]. unfold after_poll. rewrite Hf. simpl.
  split; [exists q; exact (Hrel' (sys_handled s ++ handled))|]. unfold conserved. simpl.
  destruct Hrel as (_ & _ & _ & _ & _ & _ & _ & _ & _ & _ & _ & Hdrop).
  assert (sys_produced s !! sys_consumed s = Some t) as Ht.
  { rewrite <- (Nat.add_0_r (sys_consumed s)), <- lookup_drop, Hdrop. done. }
  rewrite (take_S_r _ _ _ Ht), omap_app, Hcons. rewrite Hpop in Hperm.
  simpl. rewrite <- !app_assoc. apply Permutation_app_head.
  rewrite <- Hperm, Permutation_app_comm. by destruct (event_of_raw t).
Qed.

(** A poll that finds nothing changes nothing. *)
Lemma poll_idle s :
  event_inv s -> has_front (sys_mem s) (sys_ring s) (sys_interrupter s) = false ->
  event_inv (after_poll s (sys_ring s) (sys_interrupter s) []).
Proof.
  intros [Hrel Hc] Hf. unfold after_poll. rewrite Hf. unfold event_inv, conserved. simpl.
  rewrite app_nil_r. split; [exact Hrel|exact Hc].
Qed.

Lemma event_rel_produce s q t slots' pr' :
  event_rel s q -> (length (sys_produced s) < sys_consumed s + length (sys_slots s))%nat ->
  cycle_bit_of t = prod_cycle (sys_producer s) ->
  produce (sys_slots s) (sys_producer s) t = (slots', pr') ->
  event_rel (mkSystem (sys_ring s) (sys_interrupter s) slots' pr' (sys_produced s ++ [t])
    (sys_consumed s) (sys_handled s)) (q ++ [t]).
Proof.
  intros (Hn & Hb0 & Hal & Hend & Hsb & Hss & Hw & Hp & Hc & Hpr & Hnp & Hdrop) Hfull Hcy Hprod.
  unfold produce in Hprod. rewrite Hpr in Hprod, Hcy. simpl in Hprod, Hcy. simplify_eq.
  unfold event_rel, sys_base. simpl. rewrite length_insert, length_app. simpl.
  rewrite Nat.add_1_r. split_and!; try done.
  - by apply window_push.
  - pose proof (position_succ (length (sys_slots s)) (length (sys_produced s)) Hn) as Hpos.
    destruct (decide (S _ = _)); by injection Hpos as -> ->.
  - pose proof (win_queue _ _ _ _ _ _ Hw). rewrite drop_app_le by lia. done.
Qed.

(** Every step keeps the invariant. *)
Lemma event_inv_step s s' :
  event_inv s -> Z.of_nat (length (sys_produced s)) < 2 ^ 64 -> system_step s s' ->
  event_inv s'.
Proof.
  intros Hinv Hmax Hstep. pose proof Hinv as [[q Hrel] Hcons].
  destruct Hstep as [s t slots' pr' Hfull Hcy Hprod|s w p r i Hpoll|s w p r i Hpoll|s e r Hpop].
  - split; [exists (q ++ [t]); by apply event_rel_produce|].
    unfold conserved. simpl. rewrite take_app_le; [done|].
    destruct Hrel as (_ & _ & _ & _ & _ & _ & Hw & _).
    pose proof (win_queue _ _ _ _ _ _ Hw). lia.
  - unfold poll_transfer in Hpoll. destruct (event_rel_front s q Hrel) as [Hf _].
    rewrite Hf in Hpoll. destruct q as [|t q]; simpl in Hpoll.
    { simplify_eq. by apply poll_idle. }
    destruct (er_pop_rel s t q Hrel Hmax) as (r' & i' & Hpop & Hpp & _ & Hrel').
    rewrite Hpop in Hpoll. simpl in Hpoll.
    apply bind_Ret_inv in Hpoll as ([p' r''] & Hd & Heq). simplify_eq/=.
    apply dispatch_transfer_spec in Hd as (l & Hr & Hperm).
    by eapply (poll_step s t q r').
  - unfold poll_command in Hpoll. destruct (event_rel_front s q Hrel) as [Hf _].
    rewrite Hf in Hpoll. destruct q as [|t q]; simpl in Hpoll.
    { simplify_eq. by apply poll_idle. }
    destruct (er_pop_rel s t q Hrel Hmax) as (r' & i' & Hpop & Hpp & _ & Hrel').
    rewrite Hpop in Hpoll. simpl in Hpoll.
    destruct (dispatch_command _ _ _) as [p' r''] eqn:Hd. simplify_eq/=.
    apply dispatch_command_spec in Hd as (l & Hr & Hperm).
    by eapply (poll_step s t q r').
  - unfold pop_already_popped in Hpop. injection Hpop as Hlast <-.
    split; [exists q; exact Hrel|]. unfold conserved in *. simpl.
    apply last_Some in Hlast as [l Hl]. rewrite Hcons, Hl, length_app. simpl.
    rewrite Nat.add_sub, take_app_length. rewrite <- app_assoc.
    apply Permutation_app_head, Permutation_app_comm.
Qed.

Lemma sys_produced_mono s s' :
  rtc system_step s s' -> (length (sys_produced s) <= length (sys_produced s'))%nat.
Proof.
  induction 1 as [|s1 s2 s3 Hstep _ IH]; [done|]. destruct Hstep; simpl in *; try lia.
  rewrite length_app in IH. simpl in IH. lia.
Qed.

Lemma event_inv_run s s' :
  event_inv s -> Z.of_nat (length (sys_produced s')) < 2 ^ 64 -> rtc system_step s s' ->
  event_inv s'.
Proof.
  intros Hinv Hmax Hrun. induction Hrun as [|s1 s2 s3 Hstep Hrun IH]; [done|].
  apply IH; [|done]. eapply event_inv_step; [done| |done].
  pose proof (sys_produced_mono s1 s3 ltac:(by eapply rtc_l)). lia.
Qed.

(** The system of a new event ring. *)
Definition new_system (r : EventRing) (i : Interrupter) (slots : list TrbRaw) : system :=
  mkSystem r i slots (mkProducer 0 true) [] 0 [].

Lemma event_ring_new_inv allocator live buf_size i r i' slots allocator' :
  Bump.inv allocator live -> 0 < buf_size -> buf_size * TRB_SIZE <= 64 * PAGE_SIZE ->
  event_ring_new allocator buf_size i = Ret (r, i', slots, allocator') ->
  event_inv (new_system r i' slots) /\ length slots = Z.to_nat buf_size.
Proof.
  intros Hinv Hpos Hb Hnew. unfold event_ring_new in Hnew.
  apply bind_Ret_inv in Hnew as ([[res a1] m1] & Halloc & Hnew).
  destruct res as [[base len]|]; [|done].
  apply ring_memory with (live := live) in Halloc; [|done|lia|reflexivity|by split].
  destruct Halloc as (-> & Hbase & Hal & _ & _ & Hmx & _ & [Hin _]%Forall_cons & _).
  cbn [fst snd] in Hin. unfold TRB_SIZE in *. apply divide_64_16 in Hal as Hal16.
  apply bind_Ret_inv in Hnew as (u & Hsz%assert_Ret_inv & Hnew).
  apply Z.eqb_eq in Hsz. rewrite <- Hsz in Hnew. unfold cast in Hsz.
  pose proof (Z.mod_pos_bound buf_size (2 ^ 16)).
  destruct (erst_new_spec base buf_size) as (e & He & Heb & Hes);
    [done|unfold in_u16; lia|done|].
  rewrite He in Hnew. cbn [mbind outcome_bind] in Hnew.
  apply bind_Ret_inv in Hnew as ([[res2 a2] m2] & _ & Hnew).
  destruct res2 as [table|]; [|done].
  destruct (set_event_ring_dequeue_pointer_spec base (erdp i)) as (e' & He' & Hptr); [done..|].
  rewrite He' in Hnew. cbn [mbind outcome_bind] in Hnew. simplify_eq.
  split; [|by rewrite length_replicate].
  split; [|unfold conserved; simpl; constructor]. exists []. unfold event_rel, sys_base. simpl.
  rewrite length_replicate, Nat.Div0.mod_0_l. rewrite Z2Nat.id by lia.
  assert (phase (Z.to_nat buf_size) 0 = true) as Hph
    by (unfold phase; by rewrite Nat.Div0.div_0_l).
  rewrite Hph. split_and!; try done; try lia.
  apply window_init; [by rewrite length_replicate|].
  apply Forall_replicate. unfold cycle_bit_of, empty_event.
  by rewrite trb_cycle_bit_spec, cleared_link_cycle_bit.
Qed.

(** Which event a task waits for. *)
Definition waited (wait_on : TransferEventWaitKind) (e : TransferEvent) : bool :=
  match wait_on with
  | SlotId slot_id => te_slot_id e =? slot_id
  | TrbPtr ptr => te_trb_pointer e =? ptr
  | TrbPtrs ptrs => existsb (fun ptr => te_trb_pointer e =? ptr) ptrs
  end.

Lemma poll_ptrs_Ok e ptrs :
  poll_ptrs (Ok e) ptrs =
    match e with
    | EvTransferEvent ev =>
        if existsb (fun ptr => te_trb_pointer ev =? ptr) ptrs then Some (Ready ev) else None
    | _ => None
    end.
Proof.
  induction ptrs as [|ptr ptrs IH]; [by destruct e|]. simpl.
  destruct e; try done. by destruct (te_trb_pointer e =? ptr).
Qed.

End event_lemmas.

Section event_properties.
Context `{TL : TrbLib Cmd} `{!TrbLaws Cmd} `{BFL : BitFieldLaws}.
Context `{ET : EventTypes} `{EL : @EventLib ET} `{!EventLaws}.

(** C8: no event is lost.  From a new event ring, whatever the interleaving of
    events written by the controller, of polls of waiting tasks and of handling of
    kept events, the events popped from the ring are exactly, as a multiset, those
    handed to a task or handler and those kept in [popped]; the kernel sees an event
    exactly when the controller has written one that was not popped; and it never
    runs ahead of the controller, nor the controller a lap ahead of it. *)
Theorem event_ring_conserves allocator live buf_size i r i' slots allocator' s :
  Bump.inv allocator live -> 0 < buf_size -> buf_size * TRB_SIZE <= 64 * PAGE_SIZE ->
  event_ring_new allocator buf_size i = Ret (r, i', slots, allocator') ->
  rtc system_step (new_system r i' slots) s ->
  Z.of_nat (length (sys_produced s)) < 2 ^ 64 ->
  omap event_of_raw (take (sys_consumed s) (sys_produced s))
    ≡ₚ sys_handled s ++ popped (sys_ring s) /\
  (has_front (sys_mem s) (sys_ring s) (sys_interrupter s) = true <->
     (sys_consumed s < length (sys_produced s))%nat) /\
  (sys_consumed s <= length (sys_produced s) <= sys_consumed s + length (sys_slots s))%nat.
Proof.
  intros Hinv Hpos Hb Hnew Hrun Hmax.
  eapply event_ring_new_inv in Hnew as [Hi _]; [|done..].
  apply event_inv_run in Hrun as [[q Hrel] Hcons]; [|done..].
  destruct (event_rel_front s q Hrel) as [-> _].
  destruct Hrel as (_ & _ & _ & _ & _ & _ & Hw & _).
  pose proof (win_queue _ _ _ _ _ _ Hw). pose proof (win_bound _ _ _ _ _ _ Hw).
  split; [done|]. split; [|lia].
  destruct q; simpl in *; split; intros; try done; lia.
Qed.

(** C23: what one poll of a task that waits for a transfer event does.  Without an
    event in the ring it is pending and nothing changes.  Otherwise the oldest event
    leaves the ring: the task gets it if it is the one waited for; any other event
    is kept at the end of [popped]; a TRB that is no event is dropped, but makes a
    task that waits for an empty list of TRBs panic. *)
Theorem poll_transfer_outcome s wait_on :
  event_inv s -> Z.of_nat (length (sys_produced s)) < 2 ^ 64 ->
  match sys_produced s !! sys_consumed s with
  | None =>
      poll_transfer (sys_mem s) wait_on (sys_ring s) (sys_interrupter s)
        = Ret (Pending, sys_ring s, sys_interrupter s)
  | Some t =>
      exists r i, popped r = popped (sys_ring s) /\
      (forall h, event_rel (mkSystem r i (sys_slots s) (sys_producer s) (sys_produced s)
         (S (sys_consumed s)) h) (drop (S (sys_consumed s)) (sys_produced s))) /\
      poll_transfer (sys_mem s) wait_on (sys_ring s) (sys_interrupter s) =
        match event_of_raw t with
        | None => match wait_on with TrbPtrs [] => Panic | _ => Ret (Pending, r, i) end
        | Some e =>
            match e with
            | EvTransferEvent ev =>
                if waited wait_on ev then Ret (Ready ev, r, i)
                else Ret (Pending, er_push r e, i)
            | _ => Ret (Pending, er_push r e, i)
            end
        end
  end.
Proof.
  intros [[q Hrel] _] Hmax. destruct (event_rel_front s q Hrel) as [Hf _].
  unfold poll_transfer. rewrite Hf. pose proof Hrel as (_ & _ & _ & _ & _ & _ & _ & _ & _ & _ & _ & Hd).
  destruct q as [|t q].
  { rewrite lookup_ge_None_2; [done|]. apply (f_equal length) in Hd.
    rewrite length_drop in Hd. simpl in Hd. lia. }
  assert (sys_produced s !! sys_consumed s = Some t) as ->.
  { by rewrite <- (Nat.add_0_r (sys_consumed s)), <- lookup_drop, Hd. }
  destruct (er_pop_rel s t q Hrel Hmax) as (r & i & Hpop & Hpp & _ & Hrel').
  exists r, i. split; [done|]. split.
  { intros h. assert (drop (S (sys_consumed s)) (sys_produced s) = q) as ->; [|apply Hrel'].
    by rewrite <- Nat.add_1_r, <- drop_drop, Hd. }
  simpl. rewrite Hpop. simpl. unfold dispatch_transfer. destruct wait_on as [slot|ptr|ptrs].
  1, 2: destruct (event_of_raw t) as [[]|]; simpl; by try case_match.
  destruct (event_of_raw t) as [e|]; [|by destruct ptrs].
  rewrite poll_ptrs_Ok. destruct e; simpl; try done. by destruct (existsb _ _).
Qed.

(** The entry of the event ring segment table gives back the segment it was
    made for, at every 64-byte aligned address and every size; it cannot be made
    for another address. *)
Theorem erst_roundtrip base size :
  in_usize base -> in_u16 size ->
  match Erst.new base size with
  | Ret e => (64 | base) /\ Erst.ring_segment_base_address e = base /\
             Erst.ring_segment_size e = Ret size
  | Panic => ~ (64 | base)
  | NoFuel => False
  end.
Proof.
  intros Hb Hs. destruct (decide (base mod 64 = 0)) as [Hal|Hal].
  - apply Z.mod_divide in Hal; [|done].
    by destruct (erst_new_spec base size Hb Hs Hal) as (e & -> & ? & ?).
  - assert (~ (64 | base)) by (intros ?%Z.mod_divide; done).
    rewrite erst_new_misaligned; [done| |done]. unfold in_usize in Hb. lia.
Qed.

End event_properties.

(** * Witnesses: a ring of two slots *)

Module EventExamples.
#[local] Existing Instance bit_field_ref.

Definition table : Erst.EventRingSegmentTableEntry := Erst.mkErst 0x1000 0 2 0.

Definition ring (popped : list Allowed) (cycle_bit : bool) (n_pop : Z) : EventRing :=
  mkEventRing (0x1000, 2) popped table cycle_bit n_pop.

Definition intr (erdp : Z) : Interrupter := mkInterrupter 1 erdp 0x1040.

(** A transfer event for TRB [p] of slot 1, written in the first lap. *)
Definition transfer_event (p : Z) : TrbRaw := mkTrb p 0 (1 * 2 ^ 24) (32 * 2 ^ 10 + 2 ^ 24 + 1).

Definition slots0 : list TrbRaw := [empty_event; empty_event].

Definition sys0 : system := new_system (ring [] true 0) (intr 0x1000) slots0.

Definition sys1 : system :=
  mkSystem (ring [] true 0) (intr 0x1000) [transfer_event 0x5000; empty_event]
    (mkProducer 1 true) [transfer_event 0x5000] 0 [].

Lemma new_ring :
  event_ring_new RingExamples.heap 2 (mkInterrupter 0 0 0) =
    Ret (ring [] true 0, intr 0x1000, slots0, Bump.mkBump 0x1000 0x20000 0x1080 2).
Proof. reflexivity. Qed.

Lemma step1 : system_step sys0 sys1.
Proof.
  refine (sys_produce sys0 (transfer_event 0x5000) _ _ _ _ _);
    [simpl; lia|reflexivity|reflexivity].
Qed.

Lemma sys1_inv : event_inv sys1.
Proof.
  eapply (event_inv_step sys0); [|simpl; lia|exact step1].
  eapply (event_ring_new_inv _ [] _ _ _ _ _ _ RingExamples.heap_inv); [| |exact new_ring];
    [lia|vm_compute; discriminate].
Qed.

End EventExamples.

(** One event arrives, a task that waits for another TRB polls. *)
Lemma event_ring_conserves_witness :
  [EvTransferEvent (EventExamples.transfer_event 0x5000)] ≡ₚ
    [] ++ popped (EventExamples.ring
                    [EvTransferEvent (EventExamples.transfer_event 0x5000)] true 1).
Proof.
  refine (proj1 (event_ring_conserves (BFL := bit_field_ref_laws) RingExamples.heap [] 2
    (mkInterrupter 0 0 0) _ _ _ _
    (mkSystem (EventExamples.ring [EvTransferEvent (EventExamples.transfer_event 0x5000)] true 1)
       (EventExamples.intr 0x1018)
       [EventExamples.transfer_event 0x5000; empty_event]
       (mkProducer 1 true) [EventExamples.transfer_event 0x5000] 1 [])
    RingExamples.heap_inv _ _ EventExamples.new_ring _ _)).
  - lia.
  - vm_compute; discriminate.
  - eapply rtc_l; [exact EventExamples.step1|]. eapply rtc_l; [|apply rtc_refl].
    refine (sys_poll_transfer (BF := bit_field_ref) EventExamples.sys1 (TrbPtr 0x6000)
      Pending _ _ _).
    reflexivity.
  - simpl. lia.
Defined.

Lemma poll_transfer_outcome_witness :
  exists r i,
    poll_transfer (BF := bit_field_ref) (sys_mem EventExamples.sys1) (TrbPtrs [0x4000; 0x5000])
      (sys_ring EventExamples.sys1) (sys_interrupter EventExamples.sys1)
      = Ret (Ready (EventExamples.transfer_event 0x5000), r, i).
Proof.
  destruct (poll_transfer_outcome (H := bit_field_ref) EventExamples.sys1
    (TrbPtrs [0x4000; 0x5000]) EventExamples.sys1_inv) as (r & i & _ & _ & Hpoll).
  - simpl. lia.
  - exists r, i. exact Hpoll.
Defined.

Lemma erst_roundtrip_witness :
  in_usize 0x1_0000_0040 /\ in_u16 32 /\
  Erst.new (BF := bit_field_ref) 0x1_0000_0040 32 = Ret (Erst.mkErst 0x40 1 32 0) /\
  Erst.ring_segment_base_address (Erst.mkErst 0x40 1 32 0) = 0x1_0000_0040.
Proof.
  assert (Hb : in_usize 0x1_0000_0040) by (split; lia).
  assert (Hs : in_u16 32) by (split; lia).
  pose proof (erst_roundtrip (BFL := bit_field_ref_laws) 0x1_0000_0040 32 Hb Hs) as H.
  assert (He : Erst.new (BF := bit_field_ref) 0x1_0000_0040 32 = Ret (Erst.mkErst 0x40 1 32 0))
    by (vm_compute; reflexivity).
  rewrite He in H. split; [exact Hb|split; [exact Hs|split; [exact He|]]].
  exact (proj1 (proj2 H)).
Defined.
