(* ===== verification/Descriptor.v ===== *)
(** USB descriptors ([kernel/src/usb/descriptor.rs]) and the search of the endpoint
    of a boot keyboard or mouse in a configuration ([usb/class_driver/keyboard.rs],
    [usb/class_driver/mouse.rs]). *)
From S2P Require Import Prelude.

(** The descriptors of the [usb_host] crate, read from memory by a pointer cast, with
    the fields that the kernel looks at: [read_configuration] and its like take the bytes of
    the struct.  [behind_buffer data] is the memory behind a buffer that holds [data], which a cast
    near its end reads, too. *)
Class UsbHostLib := {
  ConfigurationDescriptor : Type;
  InterfaceDescriptor : Type;
  EndpointDescriptor : Type;
  read_configuration : list Z -> ConfigurationDescriptor;
  read_interface : list Z -> InterfaceDescriptor;
  read_endpoint : list Z -> EndpointDescriptor;
  size_of_configuration_descriptor : Z;
  size_of_device_descriptor : Z;
  size_of_interface_descriptor : Z;
  size_of_endpoint_descriptor : Z;
  behind_buffer : list Z -> nat -> Z;
  w_total_length : ConfigurationDescriptor -> Z;
  b_configuration_value : ConfigurationDescriptor -> Z;
  b_interface_number : InterfaceDescriptor -> Z;
  b_interface_class : InterfaceDescriptor -> Z;
  b_interface_sub_class : InterfaceDescriptor -> Z;
  b_interface_protocol : InterfaceDescriptor -> Z;
  b_endpoint_address : EndpointDescriptor -> Z;
  bm_attributes : EndpointDescriptor -> Z;
  w_max_packet_size : EndpointDescriptor -> Z;
  b_interval : EndpointDescriptor -> Z;
}.

(** The layout of the USB specification; there are zeros behind a buffer. *)
Module UsbLayout.

Definition byte (i : nat) (d : list Z) : Z := default 0 (d !! i).

#[global] Instance usb_layout : UsbHostLib := {|
  ConfigurationDescriptor := list Z;
  InterfaceDescriptor := list Z;
  EndpointDescriptor := list Z;
  read_configuration d := take 9 d;
  read_interface d := take 9 d;
  read_endpoint d := take 7 d;
  size_of_configuration_descriptor := 9;
  size_of_device_descriptor := 18;
  size_of_interface_descriptor := 9;
  size_of_endpoint_descriptor := 7;
  behind_buffer _ _ := 0;
  w_total_length d := byte 2 d + 256 * byte 3 d;
  b_configuration_value := byte 5;
  b_interface_number := byte 2;
  b_interface_class := byte 5;
  b_interface_sub_class := byte 6;
  b_interface_protocol := byte 7;
  b_endpoint_address := byte 2;
  bm_attributes := byte 3;
  w_max_packet_size d := byte 4 d + 256 * byte 5 d;
  b_interval := byte 6;
|}.

End UsbLayout.

Section descriptor.
Context `{UH : UsbHostLib}.

(** [DescriptorRef] and [Descriptor]: borrowed and copied, the same data. *)
Inductive Descriptor :=
  | Configuration (c : ConfigurationDescriptor)
  | Interface (i : InterfaceDescriptor)
  | Endpoint (e : EndpointDescriptor)
  | Unknown.

(** [data.as_ptr().cast()] to a struct of [size] bytes: the cast does not look at the length of
    [data], so that a struct that is longer has its other bytes from behind [data] in memory. *)
Definition cast_bytes (size : Z) (data : list Z) (after : nat -> Z) : list Z :=
  take (Z.to_nat size) data ++ (after <$> seq 0 (Z.to_nat size - length data)).

(** The memory behind a slice: the rest of its buffer, and what is behind that. *)
Definition memory_after (rest : list Z) (behind : nat -> Z) (i : nat) : Z :=
  match rest !! i with Some b => b | None => behind (i - length rest)%nat end.

(** [DescriptorRef::new], with the memory after [data]; 2, 4 and 5 are the type codes of
    configurations, interfaces and endpoints. *)
Definition descriptor_new (data : list Z) (after : nat -> Z) : outcome Descriptor :=
  ty ← unwrap (data !! 1%nat);
  Ret (if ty =? 2 then
         Configuration (read_configuration (cast_bytes size_of_configuration_descriptor data after))
       else if ty =? 4 then
         Interface (read_interface (cast_bytes size_of_interface_descriptor data after))
       else if ty =? 5 then
         Endpoint (read_endpoint (cast_bytes size_of_endpoint_descriptor data after))
       else Unknown).

Record DescriptorIter := mkIter { iter_data : list Z; read_bytes : nat }.

Definition iter_new (data : list Z) : DescriptorIter := mkIter data 0.

(** [&data[from..to]]. *)
Definition slice (data : list Z) (from to : nat) : outcome (list Z) :=
  if decide (from <= to /\ to <= length data)%nat
  then Ret (take (to - from) (drop from data)) else Panic.

Definition iter_next (self : DescriptorIter) : outcome (option Descriptor * DescriptorIter) :=
  if decide (length (iter_data self) <= read_bytes self)%nat then Ret (None, self)
  else
    len ← unwrap (iter_data self !! read_bytes self);
    let next_descriptor_length := Z.to_nat len in
    let read := (read_bytes self + next_descriptor_length)%nat in
    data ← slice (iter_data self) (read_bytes self) read;
    descriptor ← descriptor_new data
      (memory_after (drop read (iter_data self)) (behind_buffer (iter_data self)));
    Ret (Some descriptor, mkIter (iter_data self) read).

(** [iter.collect()]; [fuel] bounds the number of descriptors. *)
Fixpoint iter_collect (fuel : nat) (self : DescriptorIter) : outcome (list Descriptor) :=
  match fuel with
  | O => NoFuel
  | S fuel =>
      '(d, self) ← iter_next self;
      match d with
      | None => Ret []
      | Some d => ds ← iter_collect fuel self; Ret (d :: ds)
      end
  end.

Definition descriptors (data : list Z) : outcome (list Descriptor) :=
  iter_collect (S (length data)) (iter_new data).

(** * The endpoint of an input device *)

Record EndpointInfo := mkEndpointInfo { interface_num : Z; endpoint : EndpointDescriptor }.

(** The loop of [ep_for_bootkbd] and [ep_for_mouse], which differ in the tests on the
    interface and on the endpoint. *)
Fixpoint ep_search (interface_ok : InterfaceDescriptor -> bool)
    (endpoint_ok : EndpointDescriptor -> bool) (fuel : nat) (parser : DescriptorIter)
    (interface_found : option Z) : outcome (option EndpointInfo) :=
  match fuel with
  | O => NoFuel
  | S fuel =>
      '(desc, parser) ← iter_next parser;
      match desc with
      | None => Ret None
      | Some (Interface idesc) =>
          ep_search interface_ok endpoint_ok fuel parser
            (if interface_ok idesc then Some (b_interface_number idesc) else None)
      | Some (Endpoint edesc) =>
          if endpoint_ok edesc then
            match interface_found with
            | Some interface_num => Ret (Some (mkEndpointInfo interface_num edesc))
            | None => ep_search interface_ok endpoint_ok fuel parser interface_found
            end
          else ep_search interface_ok endpoint_ok fuel parser interface_found
      | Some _ => ep_search interface_ok endpoint_ok fuel parser interface_found
      end
  end.

Definition is_boot_interface (protocol : Z) (idesc : InterfaceDescriptor) : bool :=
  (b_interface_class idesc =? 0x03) && (b_interface_sub_class idesc =? 0x01)
    && (b_interface_protocol idesc =? protocol).

Definition is_keyboard_endpoint (edesc : EndpointDescriptor) : bool :=
  (Z.shiftr (b_endpoint_address edesc) 7 =? 1) && (Z.land (bm_attributes edesc) 3 =? 3)
    && (w_max_packet_size edesc =? 8).

Definition is_mouse_endpoint (edesc : EndpointDescriptor) : bool :=
  (Z.shiftr (b_endpoint_address edesc) 7 =? 1) && (Z.land (bm_attributes edesc) 3 =? 3).

Definition ep_for_bootkbd (buf : list Z) : outcome (option EndpointInfo) :=
  ep_search (is_boot_interface 0x01) is_keyboard_endpoint (S (length buf)) (iter_new buf) None.

Definition ep_for_mouse (buf : list Z) : outcome (option EndpointInfo) :=
  ep_search (is_boot_interface 0x02) is_mouse_endpoint (S (length buf)) (iter_new buf) None.

(** * Specification *)

(** A descriptor as the device sends it: at least its length and type, the first byte
    being the length. *)
Definition well_formed (d : list Z) : Prop :=
  (2 <= length d)%nat /\ exists rest, d = Z.of_nat (length d) :: rest.

(** What it is read as, with the memory after it, and what several are in one buffer. *)
Definition read_descriptor (d : list Z) (after : nat -> Z) : Descriptor :=
  match descriptor_new d after with Ret x => x | _ => Unknown end.

Fixpoint read_all (ds : list (list Z)) (behind : nat -> Z) : list Descriptor :=
  match ds with
  | [] => []
  | d :: ds => read_descriptor d (memory_after (concat ds) behind) :: read_all ds behind
  end.

(** A descriptor that has all the bytes of the struct of its type is read from its own bytes. *)
Definition struct_size (ty : Z) : Z :=
  if ty =? 2 then size_of_configuration_descriptor
  else if ty =? 4 then size_of_interface_descriptor
  else if ty =? 5 then size_of_endpoint_descriptor else 0.

Definition complete_descriptor (d : list Z) : Prop :=
  forall ty, d !! 1%nat = Some ty -> struct_size ty <= Z.of_nat (length d).

Definition read_alone (d : list Z) : Descriptor :=
  match d !! 1%nat with
  | Some ty =>
      let bytes := take (Z.to_nat (struct_size ty)) d in
      if ty =? 2 then Configuration (read_configuration bytes)
      else if ty =? 4 then Interface (read_interface bytes)
      else if ty =? 5 then Endpoint (read_endpoint bytes) else Unknown
  | None => Unknown
  end.

(** [found l n e]: the endpoint [e] is the first one of [l] that passes the test
    after an interface, numbered [n], that passes its own with no interface between. *)
Definition no_interface (l : list Descriptor) : Prop :=
  Forall (fun d => match d with Interface _ => False | _ => True end) l.

Definition belongs (interface_ok : InterfaceDescriptor -> bool)
    (endpoint_ok : EndpointDescriptor -> bool) (l : list Descriptor) (n : Z)
    (e : EndpointDescriptor) : Prop :=
  exists pre i mid, l = pre ++ Interface i :: mid ++ [Endpoint e] /\
    interface_ok i = true /\ n = b_interface_number i /\ no_interface mid /\
    endpoint_ok e = true.

End descriptor.

(** * Lemmas *)

Section descriptor_lemmas.
Context `{UH : UsbHostLib}.
#[local] Open Scope nat_scope.

Lemma descriptor_new_read d after :
  2 <= length d -> descriptor_new d after = Ret (read_descriptor d after).
Proof.
  intros Hd. unfold read_descriptor, descriptor_new.
  destruct (lookup_lt_is_Some_2 d 1) as [ty ->]; [lia|]. done.
Qed.

Lemma cast_bytes_alone size d after :
  (size <= Z.of_nat (length d))%Z -> cast_bytes size d after = take (Z.to_nat size) d.
Proof.
  intros Hsize. unfold cast_bytes.
  replace (Z.to_nat size - length d) with 0 by lia. apply app_nil_r.
Qed.

Lemma read_descriptor_alone d after : complete_descriptor d -> read_descriptor d after = read_alone d.
Proof.
  unfold complete_descriptor, read_descriptor, read_alone, descriptor_new, struct_size. intros Hd.
  destruct (d !! 1) as [ty|]; [|done]. specialize (Hd ty eq_refl). simpl.
  destruct (ty =? 2)%Z; [by rewrite cast_bytes_alone|].
  destruct (ty =? 4)%Z; [by rewrite cast_bytes_alone|].
  destruct (ty =? 5)%Z; [by rewrite cast_bytes_alone|done].
Qed.

Lemma read_all_alone ds behind : Forall complete_descriptor ds -> read_all ds behind = read_alone <$> ds.
Proof. induction 1 as [|d ds Hd _ IH]; [done|]. simpl. by rewrite read_descriptor_alone, IH. Qed.

(** The iterator in front of a well-formed descriptor. *)
Lemma iter_next_cons data pre d rest :
  data = pre ++ d ++ rest -> well_formed d ->
  iter_next (mkIter data (length pre)) =
    Ret (Some (read_descriptor d (memory_after rest (behind_buffer data))),
         mkIter data (length (pre ++ d))).
Proof.
  intros Hdata [Hlen [tl Hd]]. unfold iter_next. cbn [iter_data read_bytes].
  generalize (behind_buffer data). intros behind. subst data.
  rewrite decide_False by (rewrite !length_app; lia).
  rewrite lookup_app_r, Nat.sub_diag by done. rewrite Hd at 1. simpl.
  rewrite Nat2Z.id. unfold slice. rewrite decide_True by (rewrite !length_app; lia).
  cbn [mbind outcome_bind]. rewrite drop_app_length.
  replace (length pre + length d - length pre) with (length d) by lia.
  rewrite take_app_length, descriptor_new_read by done. cbn [mbind outcome_bind].
  rewrite <- length_app, app_assoc, drop_app_length. done.
Qed.

Lemma iter_next_end data : iter_next (mkIter data (length data)) = Ret (None, mkIter data (length data)).
Proof. unfold iter_next. simpl. by rewrite decide_True. Qed.

(** Any successful step reads a well-formed descriptor. *)
Lemma iter_next_inv data n d self' :
  Forall (fun b => 0 <= b)%Z data -> n <= length data ->
  iter_next (mkIter data n) = Ret (d, self') ->
  (d = None /\ n = length data) \/
  exists x rest, drop n data = x ++ rest /\ well_formed x /\
    d = Some (read_descriptor x (memory_after rest (behind_buffer data))) /\
    self' = mkIter data (n + length x) /\ n + length x <= length data.
Proof.
  intros Hpos Hn Hnext. unfold iter_next in Hnext. simpl in Hnext.
  destruct (decide (length data <= n)); [simplify_eq; left; split; [done|lia]|].
  apply bind_Ret_inv in Hnext as (len & Hlen%unwrap_Ret_inv & Hnext).
  apply bind_Ret_inv in Hnext as (x & Hx & Hnext). unfold slice in Hx.
  destruct (decide (n <= n + Z.to_nat len /\ _)) as [[_ Hle]|]; [|done].
  apply bind_Ret_inv in Hnext as (desc & Hdesc & Hnext). simplify_eq. right.
  replace (n + Z.to_nat len - n) with (Z.to_nat len) in Hdesc by lia.
  set (x := take (Z.to_nat len) (drop n data)) in *.
  assert (Hlx : length x = Z.to_nat len) by (unfold x; rewrite length_take, length_drop; lia).
  pose proof (Forall_lookup_1 _ _ _ _ Hpos Hlen) as Hl0.
  assert (H2 : 2 <= length x).
  { unfold descriptor_new in Hdesc. apply bind_Ret_inv in Hdesc as (ty & Hty%unwrap_Ret_inv & _).
    apply lookup_lt_Some in Hty. lia. }
  assert (Hx0 : x !! 0 = Some len).
  { rewrite <- (Nat.add_0_r n), <- lookup_drop in Hlen.
    unfold x. by rewrite lookup_take_lt by lia. }
  rewrite <- drop_drop in Hdesc.
  exists x, (drop (Z.to_nat len) (drop n data)).
  split; [unfold x; by rewrite take_drop|]. clearbody x.
  rewrite descriptor_new_read in Hdesc by done. simplify_eq. rewrite Hlx.
  split_and!; try done. split; [done|]. rewrite Hlx, Z2Nat.id by done.
  destruct x as [|y ys]; simplify_eq/=. by exists ys.
Qed.

Lemma iter_collect_concat ds : Forall well_formed ds ->
  forall data pre fuel, data = pre ++ concat ds -> length ds < fuel ->
  iter_collect fuel (mkIter data (length pre)) = Ret (read_all ds (behind_buffer data)).
Proof.
  induction 1 as [|d ds Hd Hds IH]; intros data pre fuel Hdata Hfuel;
    (destruct fuel as [|fuel]; [lia|]); simpl in *.
  - rewrite app_nil_r in Hdata. subst pre. by rewrite iter_next_end.
  - rewrite (iter_next_cons data pre d (concat ds)) by done. simpl.
    by rewrite (IH data (pre ++ d) fuel) by (rewrite ?Hdata, ?app_assoc; done || lia).
Qed.

Lemma iter_collect_inv data fuel n l :
  Forall (fun b => 0 <= b)%Z data -> n <= length data ->
  iter_collect fuel (mkIter data n) = Ret l ->
  exists ds, Forall well_formed ds /\ drop n data = concat ds /\ l = read_all ds (behind_buffer data).
Proof.
  intros Hpos. revert n l. induction fuel as [|fuel IH]; [done|]; intros n l Hn Hrun.
  cbn [iter_collect] in Hrun. apply bind_Ret_inv in Hrun as ([d self'] & Hnext & Hrun).
  apply iter_next_inv in Hnext as [[-> ->]|(x & rest & Hdrop & Hx & -> & -> & Hle)]; [| |done..].
  - simplify_eq. exists []. rewrite drop_all. split; [constructor|done].
  - apply bind_Ret_inv in Hrun as (ds' & Hds & Hrun). simplify_eq.
    apply IH in Hds as (ds & Hwf & Hrest & ->); [|done].
    rewrite <- drop_drop, Hdrop, drop_app_length in Hrest. subst rest.
    exists (x :: ds). split; [by constructor|]. by split.
Qed.

(** Enough fuel: every descriptor takes a byte at least. *)
Lemma iter_collect_fuel data fuel n :
  Forall (fun b => 0 <= b)%Z data -> n <= length data -> length data - n < fuel ->
  iter_collect fuel (mkIter data n) <> NoFuel.
Proof.
  intros Hpos. revert n. induction fuel as [|fuel IH]; [lia|]; intros n Hn Hfuel.
  cbn [iter_collect].
  destruct (iter_next (mkIter data n)) as [[d self']| |] eqn:Hnext; [|done|].
  - cbn [mbind outcome_bind].
    apply iter_next_inv in Hnext as [[-> ->]|(x & rest & _ & [Hx _] & -> & -> & Hle)]; [done| |done..].
    pose proof (IH (n + length x) Hle ltac:(lia)). by destruct (iter_collect _ _).
  - exfalso. unfold iter_next, slice, descriptor_new in Hnext. simpl in Hnext.
    destruct (decide (length data <= n)); [done|].
    destruct (data !! n); simpl in Hnext; [|done].
    destruct (decide (_ /\ _)); simpl in Hnext; [|done].
    by destruct (take _ _ !! 1).
Qed.

(** * The search *)

Context (interface_ok : InterfaceDescriptor -> bool) (endpoint_ok : EndpointDescriptor -> bool).

(** The search on a list of descriptors. *)
Fixpoint search_list (l : list Descriptor) (found : option Z) : option EndpointInfo :=
  match l with
  | [] => None
  | Interface i :: l =>
      search_list l (if interface_ok i then Some (b_interface_number i) else None)
  | Endpoint e :: l =>
      if endpoint_ok e then
        match found with
        | Some n => Some (mkEndpointInfo n e)
        | None => search_list l found
        end
      else search_list l found
  | _ :: l => search_list l found
  end.

Lemma ep_search_concat ds : Forall well_formed ds ->
  forall data pre fuel found, data = pre ++ concat ds -> length ds < fuel ->
  ep_search interface_ok endpoint_ok fuel (mkIter data (length pre)) found
    = Ret (search_list (read_all ds (behind_buffer data)) found).
Proof.
  induction 1 as [|d ds Hd Hds IH]; intros data pre fuel found Hdata Hfuel;
    (destruct fuel as [|fuel]; [lia|]); simpl in *.
  - rewrite app_nil_r in Hdata. subst pre. by rewrite iter_next_end.
  - rewrite (iter_next_cons data pre d (concat ds)) by done. simpl.
    assert (Hdata' : data = (pre ++ d) ++ concat ds) by by rewrite <- app_assoc.
    destruct (read_descriptor d _); try (apply IH; [done|lia]).
    destruct (endpoint_ok e), found; try done; apply IH; done || lia.
Qed.

(** [belongs] with an interface number already found before the list. *)
Definition belongs_after (found : option Z) (l : list Descriptor) (n : Z)
    (e : EndpointDescriptor) : Prop :=
  belongs interface_ok endpoint_ok l n e \/
  (found = Some n /\ exists mid, l = mid ++ [Endpoint e] /\ no_interface mid /\
     endpoint_ok e = true).

Definition next_found (d : Descriptor) (found : option Z) : option Z :=
  match d with
  | Interface i => if interface_ok i then Some (b_interface_number i) else None
  | _ => found
  end.

Lemma belongs_after_cons found d l n e :
  belongs_after found (d :: l) n e <->
  belongs_after (next_found d found) l n e \/
  (l = [] /\ d = Endpoint e /\ endpoint_ok e = true /\ found = Some n).
Proof.
  split.
  - intros [(pre & i & mid & Hl & Hi & Hn & Hmid & He)|(Hf & mid & Hl & Hmid & He)].
    + left. destruct pre as [|p pre]; simplify_list_eq.
      * right. simpl. rewrite Hi. split; [done|]. by exists mid.
      * left. by exists pre, i, mid.
    + destruct mid as [|m mid]; simplify_list_eq; [by right|left; right].
      apply Forall_cons in Hmid as [Hm Hmid]. split; [by destruct m|]. by exists mid.
  - intros [[(pre & i & mid & -> & Hi & Hn & Hmid & He)|(Hf & mid & -> & Hmid & He)]|
            (-> & -> & He & Hf)].
    + left. exists (d :: pre), i, mid. done.
    + destruct d as [c|i|e'|]; simpl in Hf; try (right; split; [done|]; eexists (_ :: mid);
        split; [reflexivity|]; split; [by constructor|done]).
      destruct (interface_ok i) eqn:Hi; [|done]. simplify_eq. left. exists [], i, mid. done.
    + right. split; [done|]. exists []. split; [done|]. split; [constructor|done].
Qed.

Lemma belongs_after_nil found n e : ~ belongs_after found [] n e.
Proof.
  intros [(pre & i & mid & Hl & _)|(_ & mid & Hl & _)].
  - by destruct pre.
  - by destruct mid.
Qed.

(** The endpoint on which the search ends. *)
Definition hit (d : Descriptor) (found : option Z) : option EndpointInfo :=
  match d, found with
  | Endpoint e, Some n => if endpoint_ok e then Some (mkEndpointInfo n e) else None
  | _, _ => None
  end.

Lemma hit_Some d found r :
  hit d found = Some r <->
  d = Endpoint (endpoint r) /\ endpoint_ok (endpoint r) = true /\
  found = Some (interface_num r).
Proof.
  destruct r as [n' e'], d as [| |e|], found as [n|]; simpl;
    try (split; [done|intros (? & ? & ?); congruence]).
  destruct (endpoint_ok e) eqn:He; (split; [|intros (? & ? & ?); congruence]).
  - by intros [= -> ->].
  - done.
Qed.

Lemma search_list_cons d l found :
  search_list (d :: l) found =
    match hit d found with
    | Some r => Some r
    | None => search_list l (next_found d found)
    end.
Proof. by destruct d as [| |e|], found; simpl; try destruct (endpoint_ok e). Qed.

(** The search finds the first endpoint that belongs to an interface, or there is
    none. *)
Lemma search_list_spec l found :
  match search_list l found with
  | Some r =>
      exists l1 l2, l = l1 ++ l2 /\ belongs_after found l1 (interface_num r) (endpoint r) /\
        forall p n e, p `prefix_of` l -> belongs_after found p n e -> length l1 <= length p
  | None => forall p n e, p `prefix_of` l -> ~ belongs_after found p n e
  end.
Proof.
  revert found. induction l as [|d l IH]; intros found.
  { intros p n e ->%prefix_nil_inv. apply belongs_after_nil. }
  rewrite search_list_cons. destruct (hit d found) as [r|] eqn:Hhit.
  { apply hit_Some in Hhit as (Hd & He & Hf). exists [d], l. split; [done|]. split.
    - apply belongs_after_cons. right. done.
    - intros [|x p] n e _ Hp; [by apply belongs_after_nil in Hp|simpl; lia]. }
  assert (Hmiss : forall p n e, belongs_after found (d :: p) n e ->
    belongs_after (next_found d found) p n e).
  { intros p n e [|(-> & Hd & He & Hf)]%belongs_after_cons; [done|].
    assert (hit d found = Some (mkEndpointInfo n e)) by (by apply hit_Some). congruence. }
  specialize (IH (next_found d found)). destruct (search_list l (next_found d found)) as [r|].
  - destruct IH as (l1 & l2 & -> & Hb & Hmin). exists (d :: l1), l2. split; [done|]. split.
    + apply belongs_after_cons. by left.
    + intros [|x p] n e Hpre Hp; [by apply belongs_after_nil in Hp|].
      apply prefix_cons_inv_1 in Hpre as Hx. apply prefix_cons_inv_2 in Hpre. subst x.
      simpl. apply le_n_S. by eapply Hmin, Hmiss.
  - intros [|x p] n e Hpre Hp; [by apply belongs_after_nil in Hp|].
    apply prefix_cons_inv_1 in Hpre as Hx. apply prefix_cons_inv_2 in Hpre. subst x.
    by eapply IH, Hmiss.
Qed.

(** From the start no interface has been found. *)
Lemma search_list_first l :
  match search_list l None with
  | Some r =>
      exists l1 l2, l = l1 ++ l2 /\
        belongs interface_ok endpoint_ok l1 (interface_num r) (endpoint r) /\
        forall p n e, p `prefix_of` l -> belongs interface_ok endpoint_ok p n e ->
          length l1 <= length p
  | None => forall p n e, p `prefix_of` l -> ~ belongs interface_ok endpoint_ok p n e
  end.
Proof.
  pose proof (search_list_spec l None) as H. destruct (search_list l None).
  - destruct H as (l1 & l2 & -> & [Hb|[? _]] & Hmin); [|done].
    exists l1, l2. split_and!; [done..|]. intros p n e' Hp Hbp. eapply Hmin; [done|by left].
  - intros p n e Hp Hb. eapply H; [done|by left].
Qed.

End descriptor_lemmas.

Section descriptor_properties.
Context `{UH : UsbHostLib}.

Lemma concat_length_wf ds : Forall well_formed ds -> (length ds <= length (concat ds))%nat.
Proof.
  induction 1 as [|d ds [Hd _] Hds IH]; simpl; [done|]. rewrite length_app. lia.
Qed.

(** C34: reading a configuration descriptor.  Iterating over a buffer returns descriptors exactly
    when the buffer is a concatenation of well-formed ones (the first byte of each is its length, 2 at
    least), and then these, in order; on any other buffer it panics, also on a descriptor of length 0
    or 1 or one that runs past the end; it never loops.  A descriptor that is as long as the struct of
    its type is read from its own bytes; one of type 2, 4 or 5 that is shorter takes the rest of its
    struct from what follows it, the next descriptors and the memory behind the buffer. *)
Theorem descriptors_exact data :
  Forall (fun b => 0 <= b) data ->
  (forall l, descriptors data = Ret l <->
     exists ds, Forall well_formed ds /\ data = concat ds /\ l = read_all ds (behind_buffer data)) /\
  (descriptors data = Panic <-> ~ exists ds, Forall well_formed ds /\ data = concat ds) /\
  (forall ds, Forall well_formed ds -> Forall complete_descriptor ds -> data = concat ds ->
     descriptors data = Ret (read_alone <$> ds)).
Proof.
  intros Hpos. unfold descriptors, iter_new.
  assert (Hiff : forall l, iter_collect (S (length data)) (mkIter data 0) = Ret l <->
    exists ds, Forall well_formed ds /\ data = concat ds /\ l = read_all ds (behind_buffer data)).
  { intros l. split.
    - intros Hrun. by apply iter_collect_inv in Hrun; [|done|lia].
    - intros (ds & Hds & -> & ->). pose proof (concat_length_wf ds Hds).
      by apply (iter_collect_concat ds Hds (concat ds) []); [|lia]. }
  split; [done|]. split; [split|].
  - intros Hp (ds & Hds & Heq). specialize (Hiff (read_all ds (behind_buffer data))).
    rewrite Hp in Hiff. by discriminate (proj2 Hiff ltac:(eauto)).
  - intros Hno. destruct (iter_collect _ _) as [l| |] eqn:Hrun; [|done|].
    + destruct Hno. destruct (proj1 (Hiff l) eq_refl) as (ds & ? & ? & _). eauto.
    + by apply iter_collect_fuel in Hrun; [|done|simpl; lia..].
  - intros ds Hds Hc Hdata. apply Hiff. exists ds. rewrite read_all_alone by done. done.
Qed.

(** The boot keyboard is found.  In a configuration made of well-formed
    descriptors, as they are read, [ep_for_bootkbd] returns the first interrupt IN endpoint of 8 bytes
    that follows a boot keyboard interface with no other interface between, with
    the number of that interface; and [None] exactly when there is none. *)
Theorem ep_for_bootkbd_first ds :
  Forall well_formed ds ->
  let l := read_all ds (behind_buffer (concat ds)) in
  let belongs := belongs (is_boot_interface 0x01) is_keyboard_endpoint in
  exists r, ep_for_bootkbd (concat ds) = Ret r /\
  match r with
  | Some r =>
      exists l1 l2, l = l1 ++ l2 /\ belongs l1 (interface_num r) (endpoint r) /\
        forall p n e, p `prefix_of` l -> belongs p n e -> (length l1 <= length p)%nat
  | None => forall p n e, p `prefix_of` l -> ~ belongs p n e
  end.
Proof.
  intros Hds l bel. pose proof (concat_length_wf ds Hds). unfold ep_for_bootkbd, iter_new.
  eexists. split; [apply (ep_search_concat _ _ ds Hds (concat ds) []); [done|lia]|].
  apply search_list_first.
Qed.

(** The boot mouse is found, in the same way; its endpoint may have any size. *)
Theorem ep_for_mouse_first ds :
  Forall well_formed ds ->
  let l := read_all ds (behind_buffer (concat ds)) in
  let belongs := belongs (is_boot_interface 0x02) is_mouse_endpoint in
  exists r, ep_for_mouse (concat ds) = Ret r /\
  match r with
  | Some r =>
      exists l1 l2, l = l1 ++ l2 /\ belongs l1 (interface_num r) (endpoint r) /\
        forall p n e, p `prefix_of` l -> belongs p n e -> (length l1 <= length p)%nat
  | None => forall p n e, p `prefix_of` l -> ~ belongs p n e
  end.
Proof.
  intros Hds l bel. pose proof (concat_length_wf ds Hds). unfold ep_for_mouse, iter_new.
  eexists. split; [apply (ep_search_concat _ _ ds Hds (concat ds) []); [done|lia]|].
  apply search_list_first.
Qed.

End descriptor_properties.

(** * Witnesses: a keyboard with a second, non-boot interface in front *)

Module DescriptorExamples.

Definition configuration : list Z := [9; 2; 50; 0; 2; 1; 0; 160; 50].
Definition other_interface : list Z := [9; 4; 0; 0; 1; 3; 0; 0; 0].
Definition boot_interface (protocol : Z) : list Z := [9; 4; 1; 0; 1; 3; 1; protocol; 0].
Definition hid : list Z := [9; 33; 17; 1; 0; 1; 34; 63; 0].
Definition endpoint_in (number size : Z) : list Z := [7; 5; 128 + number; 3; size; 0; 10].

Definition device (protocol size : Z) : list (list Z) :=
  [configuration; other_interface; endpoint_in 1 8; boot_interface protocol; hid;
   endpoint_in 2 size].

Lemma device_wf protocol size : Forall well_formed (device protocol size).
Proof. repeat constructor; simpl; try lia; by eexists. Qed.

Lemma device_complete protocol size : Forall complete_descriptor (device protocol size).
Proof. repeat constructor; intros ty [= <-]; vm_compute; discriminate. Qed.

End DescriptorExamples.

Lemma descriptors_exact_witness :
  descriptors (concat (DescriptorExamples.device 1 8))
    = Ret (read_alone <$> DescriptorExamples.device 1 8) /\
  descriptors (concat (DescriptorExamples.device 1 8) ++ [9; 4]) = Panic /\
  descriptors (concat [[3; 5; 0x81]; DescriptorExamples.hid])
    = Ret [Endpoint [3; 5; 0x81; 9; 33; 17; 1]; Unknown].
Proof.
  split; [|split].
  - apply (descriptors_exact (concat (DescriptorExamples.device 1 8))).
    + repeat (constructor; [simpl; lia|]). constructor.
    + apply DescriptorExamples.device_wf.
    + apply DescriptorExamples.device_complete.
    + reflexivity.
  - vm_compute. reflexivity.
  - apply (descriptors_exact (concat [[3; 5; 0x81]; DescriptorExamples.hid])).
    + repeat (constructor; [simpl; lia|]). constructor.
    + exists [[3; 5; 0x81]; DescriptorExamples.hid]. split; [|split; reflexivity].
      repeat constructor; simpl; try lia; by eexists.
Defined.

Lemma ep_for_bootkbd_first_witness :
  exists r, ep_for_bootkbd (concat (DescriptorExamples.device 1 8)) = Ret (Some r) /\
    interface_num r = 1 /\ endpoint r = DescriptorExamples.endpoint_in 2 8 /\
    exists l1, l1 `prefix_of` (read_alone <$> DescriptorExamples.device 1 8) /\
      belongs (is_boot_interface 0x01) is_keyboard_endpoint l1 1
        (DescriptorExamples.endpoint_in 2 8).
Proof.
  destruct (ep_for_bootkbd_first (DescriptorExamples.device 1 8)
    (DescriptorExamples.device_wf 1 8)) as (r & Hr & Hspec).
  assert (Hc : ep_for_bootkbd (concat (DescriptorExamples.device 1 8)) =
    Ret (Some (mkEndpointInfo 1 (DescriptorExamples.endpoint_in 2 8)))) by reflexivity.
  rewrite Hc in Hr. injection Hr as <-. destruct Hspec as (l1 & l2 & Hl & Hb & _).
  eexists. split; [exact Hc|]. split; [reflexivity|]. split; [reflexivity|].
  rewrite read_all_alone in Hl by apply DescriptorExamples.device_complete.
  exists l1. split; [by exists l2|exact Hb].
Defined.

Lemma ep_for_mouse_first_witness :
  exists r, ep_for_mouse (concat (DescriptorExamples.device 2 4)) = Ret (Some r) /\
    interface_num r = 1 /\
    exists l1, l1 `prefix_of` (read_alone <$> DescriptorExamples.device 2 4) /\
      belongs (is_boot_interface 0x02) is_mouse_endpoint l1 1
        (DescriptorExamples.endpoint_in 2 4).
Proof.
  destruct (ep_for_mouse_first (DescriptorExamples.device 2 4)
    (DescriptorExamples.device_wf 2 4)) as (r & Hr & Hspec).
  assert (Hc : ep_for_mouse (concat (DescriptorExamples.device 2 4)) =
    Ret (Some (mkEndpointInfo 1 (DescriptorExamples.endpoint_in 2 4)))) by reflexivity.
  rewrite Hc in Hr. injection Hr as <-. destruct Hspec as (l1 & l2 & Hl & Hb & _).
  eexists. split; [exact Hc|]. split; [reflexivity|].
  rewrite read_all_alone in Hl by apply DescriptorExamples.device_complete.
  exists l1. split; [by exists l2|exact Hb].
Defined.
