(* ===== verification/UsbHost.v ===== *)
(** The interface between the class drivers and the host controller: the requests and
    errors of the [usb_host] crate, the [Endpoint] of [usb/class_driver.rs], the
    trait [AsyncUSBHost] of [usb/traits.rs], and the effect of the drivers' code. *)
From stdpp Require Export strings.
From S2P Require Import Prelude.

#[global] Open Scope Z_scope.

(** * Requests and errors *)

Inductive RequestDirection := HostToDevice | DeviceToHost.
Inductive RequestKind := Standard | Class_ | Vendor.
Inductive RequestRecipient := RecipientDevice | RecipientInterface | RecipientEndpoint
  | RecipientOther.
Inductive RequestCode := GetStatus | ClearFeature | SetFeature | SetAddress | GetDescriptor
  | SetDescriptor | GetConfiguration | SetConfiguration | GetInterface | SetInterface
  | SynchFrame.
Inductive TransferType := Control | Isochronous | Bulk | Interrupt.
Inductive Direction := DirOut | DirIn.

(** The arguments of [control_transfer] but the endpoint and the buffer; [w_value] is
    the pair of its low and high byte. *)
Record Setup := mkSetup {
  request_type : RequestDirection * RequestKind * RequestRecipient;
  request : RequestCode;
  w_value : Z * Z;
  w_index : Z;
}.

Inductive TransferError := Retry (msg : string) | Permanent (msg : string).

(** The only [DriverError] the drivers build. *)
Inductive DriverError := DriverPermanent (address : Z) (msg : string).

#[global] Instance request_direction_eq_dec : EqDecision RequestDirection.
Proof. solve_decision. Defined.
#[global] Instance request_kind_eq_dec : EqDecision RequestKind.
Proof. solve_decision. Defined.
#[global] Instance request_recipient_eq_dec : EqDecision RequestRecipient.
Proof. solve_decision. Defined.
#[global] Instance request_code_eq_dec : EqDecision RequestCode.
Proof. solve_decision. Defined.
#[global] Instance setup_eq_dec : EqDecision Setup.
Proof. solve_decision. Defined.

(** Descriptor type codes. *)
Definition DT_DEVICE : Z := 1.
Definition DT_CONFIGURATION : Z := 2.

(** * Endpoints *)

Record Endpoint := mkEndpoint {
  ep_address : Z;
  ep_endpoint_num : Z;
  ep_interface_num : Z;
  ep_transfer_type : TransferType;
  ep_direction : Direction;
  ep_max_packet_size : Z;
  ep_in_toggle : bool;
  ep_out_toggle : bool;
}.

Definition endpoint_new (address endpoint_num interface_num : Z)
    (transfer_type : TransferType) (direction : Direction) (max_packet_size : Z) : Endpoint :=
  mkEndpoint address endpoint_num interface_num transfer_type direction max_packet_size
    false false.

Definition set_in_toggle (self : Endpoint) (toggle : bool) : Endpoint :=
  mkEndpoint (ep_address self) (ep_endpoint_num self) (ep_interface_num self)
    (ep_transfer_type self) (ep_direction self) (ep_max_packet_size self) toggle
    (ep_out_toggle self).

Definition set_out_toggle (self : Endpoint) (toggle : bool) : Endpoint :=
  mkEndpoint (ep_address self) (ep_endpoint_num self) (ep_interface_num self)
    (ep_transfer_type self) (ep_direction self) (ep_max_packet_size self)
    (ep_in_toggle self) toggle.

(** * The host *)

(** [AsyncUSBHost] (and [usb_host::USBHost], which has the same methods): a method
    may change the toggles of the endpoint, fills the buffer, and returns the number of bytes
    transferred. *)
Class USBHost (H : Type) := {
  control_transfer : H -> Endpoint -> Setup -> option (list Z) ->
    outcome (result Z TransferError * Endpoint * list Z * H);
  in_transfer : H -> Endpoint -> list Z ->
    outcome (result Z TransferError * Endpoint * list Z * H);
  out_transfer : H -> Endpoint -> list Z ->
    outcome (result Z TransferError * Endpoint * H);
  register_hub : H -> Z -> outcome (result unit TransferError * H);
  assign_address : H -> Z -> Z -> bool -> outcome (result unit TransferError * H);
}.

(** A host changes nothing of an endpoint but its toggles. *)
Definition same_endpoint (e e' : Endpoint) : Prop :=
  exists i o, e' = set_out_toggle (set_in_toggle e i) o.

Class USBHostLaws (H : Type) `{USBHost H} : Prop := {
  control_transfer_endpoint h e s b r e' b' h' :
    control_transfer h e s b = Ret (r, e', b', h') -> same_endpoint e e';
  in_transfer_endpoint h e b r e' b' h' :
    in_transfer h e b = Ret (r, e', b', h') -> same_endpoint e e';
}.

(** * The code of a driver for one device *)

(** A computation on the device [D] and the host [H] that may fail with a
    [TransferError] (the [?] operator) or panic. *)
Definition driver (D H A : Type) : Type :=
  D -> H -> outcome (result A TransferError * D * H).

#[global] Instance driver_ret D H : MRet (driver D H) := fun A a d h => Ret (Ok a, d, h).
#[global] Instance driver_bind D H : MBind (driver D H) := fun A B f m d h =>
  '(r, d, h) ← m d h;
  match r with
  | Ok a => f a d h
  | Err e => Ret (Err e, d, h)
  end.

Section driver_ops.
Context {D H : Type} `{USBHost H}.

Definition get : driver D H D := fun d h => Ret (Ok d, d, h).
Definition modify (f : D -> D) : driver D H unit := fun d h => Ret (Ok tt, f d, h).
Definition fail {A} (e : TransferError) : driver D H A := fun d h => Ret (Err e, d, h).
Definition lift {A} (o : outcome A) : driver D H A := fun d h => a ← o; Ret (Ok a, d, h).

(** A call of the host with the endpoint found by [get_ep] in the device, put back by
    [set_ep]. *)
Definition control (get_ep : D -> Endpoint) (set_ep : Endpoint -> D -> D) (s : Setup)
    (buf : option (list Z)) : driver D H (Z * list Z) := fun d h =>
  '(r, ep, b, h) ← control_transfer h (get_ep d) s buf;
  Ret (match r with Ok len => Ok (len, b) | Err e => Err e end, set_ep ep d, h).

(** [.unwrap()] on the result of a host call. *)
Definition unwrap_host (f : H -> outcome (result unit TransferError * H)) :
    driver D H unit := fun d h =>
  '(r, h) ← f h;
  match r with Ok _ => Ret (Ok tt, d, h) | Err _ => Panic end.

End driver_ops.

(** * The table of devices of a driver *)

(** [devices: [Option<D>; MAX_DEVICES]], shared by the drivers: the device goes to
    the first free entry, and leaves by its address. *)
Section device_table.
Context {D : Type} (addr_of : D -> Z).

Definition table_new (max_devices : nat) : list (option D) := replicate max_devices None.

Fixpoint table_add (devices : list (option D)) (dev : D) : option (list (option D)) :=
  match devices with
  | [] => None
  | None :: devices => Some (Some dev :: devices)
  | Some d :: devices => cons (Some d) <$> table_add devices dev
  end.

Fixpoint table_remove (devices : list (option D)) (address : Z) : list (option D) :=
  match devices with
  | [] => []
  | Some d :: devices =>
      if addr_of d =? address then None :: devices
      else Some d :: table_remove devices address
  | None :: devices => None :: table_remove devices address
  end.

Definition add_device (devices : list (option D)) (address : Z) (dev : D) :
    result unit DriverError * list (option D) :=
  match table_add devices dev with
  | Some devices => (Ok tt, devices)
  | None => (Err (DriverPermanent address "out of devices"), devices)
  end.

(** [tick]: one step of every device, in order, until one fails for good. *)
Fixpoint tick_devices {H} (fsm : driver D H unit) (devices : list (option D)) (h : H) :
    outcome (result unit DriverError * list (option D) * H) :=
  match devices with
  | [] => Ret (Ok tt, [], h)
  | None :: devices =>
      '(r, devices, h) ← tick_devices fsm devices h; Ret (r, None :: devices, h)
  | Some dev :: devices =>
      '(r, dev, h) ← fsm dev h;
      match r with
      | Err (Permanent e) => Ret (Err (DriverPermanent (addr_of dev) e), Some dev :: devices, h)
      | _ => '(r, devices, h) ← tick_devices fsm devices h; Ret (r, Some dev :: devices, h)
      end
  end.

(** The devices present. *)
Fixpoint present (devices : list (option D)) : list D :=
  match devices with
  | [] => []
  | Some d :: devices => d :: present devices
  | None :: devices => present devices
  end.

End device_table.

(** * Lemmas *)

#[global] Instance same_endpoint_refl : Reflexive same_endpoint.
Proof. intros []. by eexists _, _. Qed.

#[global] Instance same_endpoint_trans : Transitive same_endpoint.
Proof. intros e1 e2 e3 (i & o & ->) (i' & o' & ->). by exists i', o'. Qed.

Section driver_lemmas.
Context {D H : Type} `{USBHost H}.

(** Running a computation step by step. *)
Lemma driver_bind_Ok {A B} (m : driver D H A) (f : A -> driver D H B) a d h d' h' :
  m d h = Ret (Ok a, d', h') -> (m ≫= f) d h = f a d' h'.
Proof. intros Hm. unfold mbind, driver_bind. by rewrite Hm. Qed.

Lemma driver_bind_Err {A B} (m : driver D H A) (f : A -> driver D H B) e d h d' h' :
  m d h = Ret (Err e, d', h') -> (m ≫= f) d h = Ret (Err e, d', h').
Proof. intros Hm. unfold mbind, driver_bind. by rewrite Hm. Qed.

Lemma driver_get {A} (f : D -> driver D H A) d h : (get ≫= f) d h = f d d h.
Proof. done. Qed.

Lemma driver_lift {A B} (o : outcome A) a (f : A -> driver D H B) d h :
  o = Ret a -> (lift o ≫= f) d h = f a d h.
Proof. by intros ->. Qed.

Lemma driver_bind_inv {A B} (m : driver D H A) (f : A -> driver D H B) d h r d' h' :
  (m ≫= f) d h = Ret (r, d', h') ->
  (exists a d1 h1, m d h = Ret (Ok a, d1, h1) /\ f a d1 h1 = Ret (r, d', h')) \/
  (exists e, m d h = Ret (Err e, d', h') /\ r = Err e).
Proof.
  intros Hrun. apply bind_Ret_inv in Hrun as ([[[a|e] d1] h1] & Hm & Hrun).
  - left. eauto.
  - right. injection Hrun as <- <- <-. eauto.
Qed.

(** Hoare-style reasoning: when [m] starts in [P] and returns, [Q] holds of its
    result and of the device. *)
Definition triple {A} (P : D -> Prop) (m : driver D H A)
    (Q : result A TransferError -> D -> Prop) : Prop :=
  forall d h r d' h', P d -> m d h = Ret (r, d', h') -> Q r d'.

Lemma triple_ret {A} P (a : A) (Q : result A TransferError -> D -> Prop) :
  (forall d, P d -> Q (Ok a) d) -> triple P (mret a) Q.
Proof. intros HQ d h r d' h' Hd Hrun. injection Hrun as <- <- <-. auto. Qed.

Lemma triple_bind {A B} P R Q (m : driver D H A) (f : A -> driver D H B) :
  triple P m (fun r d => match r with Ok a => R a d | Err e => Q (Err e) d end) ->
  (forall a, triple (R a) (f a) Q) ->
  triple P (m ≫= f) Q.
Proof.
  intros Hm Hf d h r d' h' Hd Hrun. unfold mbind, driver_bind in Hrun.
  apply bind_Ret_inv in Hrun as ([[ra da] ha] & Hma & Hrun).
  apply Hm in Hma; [|done]. destruct ra as [a|e]; [by eapply Hf|].
  by injection Hrun as <- <- <-.
Qed.

Lemma triple_get P (Q : result D TransferError -> D -> Prop) :
  (forall d, P d -> Q (Ok d) d) -> triple P get Q.
Proof. intros HQ d h r d' h' Hd Hrun. injection Hrun as <- <- <-. auto. Qed.

Lemma triple_get_bind {A} P (f : D -> driver D H A) Q :
  (forall d0, P d0 -> triple (fun d => d = d0) (f d0) Q) -> triple P (get ≫= f) Q.
Proof. intros Hf d h r d' h' Hd Hrun. exact (Hf d Hd d h r d' h' eq_refl Hrun). Qed.

Lemma triple_modify P f (Q : result unit TransferError -> D -> Prop) :
  (forall d, P d -> Q (Ok tt) (f d)) -> triple P (modify f) Q.
Proof. intros HQ d h r d' h' Hd Hrun. injection Hrun as <- <- <-. auto. Qed.

Lemma triple_fail {A} P e (Q : result A TransferError -> D -> Prop) :
  (forall d, P d -> Q (Err e) d) -> triple P (fail e) Q.
Proof. intros HQ d h r d' h' Hd Hrun. injection Hrun as <- <- <-. auto. Qed.

Lemma triple_lift {A} P (o : outcome A) (Q : result A TransferError -> D -> Prop) :
  (forall a d, o = Ret a -> P d -> Q (Ok a) d) -> triple P (lift o) Q.
Proof.
  intros HQ d h r d' h' Hd Hrun. unfold lift in Hrun.
  apply bind_Ret_inv in Hrun as (a & Ha & Hrun). injection Hrun as <- <- <-. auto.
Qed.

Lemma triple_unwrap_host P f (Q : result unit TransferError -> D -> Prop) :
  (forall d, P d -> Q (Ok tt) d) -> triple P (unwrap_host f) Q.
Proof.
  intros HQ d h r d' h' Hd Hrun. unfold unwrap_host in Hrun.
  apply bind_Ret_inv in Hrun as ([ra ha] & _ & Hrun). destruct ra; [|done].
  injection Hrun as <- <- <-. auto.
Qed.

Lemma triple_control `{!USBHostLaws H} P get_ep set_ep s buf
    (Q : result (Z * list Z) TransferError -> D -> Prop) :
  (forall d ep r, P d -> same_endpoint (get_ep d) ep -> Q r (set_ep ep d)) ->
  triple P (control get_ep set_ep s buf) Q.
Proof.
  intros HQ d h r d' h' Hd Hrun. unfold control in Hrun.
  apply bind_Ret_inv in Hrun as ([[[ra ep] b] ha] & Hc & Hrun).
  apply control_transfer_endpoint in Hc. injection Hrun as <- <- <-. by apply HQ.
Qed.

Lemma triple_weaken {A} (P P' : D -> Prop) (m : driver D H A) Q :
  triple P' m Q -> (forall d, P d -> P' d) -> triple P m Q.
Proof. intros Hm HP d h r d' h' Hd. apply Hm. auto. Qed.

End driver_lemmas.

Section table_lemmas.
Context {D : Type} (addr_of : D -> Z).
Implicit Types (devices : list (option D)) (dev : D).

Lemma length_present (devices : list (option D)) :
  (length (present devices) <= length devices)%nat.
Proof. induction devices as [|[d|] devices IH]; simpl; lia. Qed.

Lemma table_add_Some devices dev (devices' : list (option D)) :
  table_add devices dev = Some devices' ->
  length devices' = length devices /\ present devices' ≡ₚ dev :: present devices.
Proof.
  revert devices'. induction devices as [|[d|] devices IH]; simpl; intros devices' Hadd; [done| |].
  - apply fmap_Some in Hadd as (ds & Hds & ->). destruct (IH _ Hds) as [Hl Hp].
    simpl. split; [by rewrite Hl|]. rewrite Hp. constructor.
  - by simplify_eq.
Qed.

Lemma table_add_None devices dev :
  table_add devices dev = None <-> length (present devices) = length devices.
Proof.
  induction devices as [|[d|] devices IH]; simpl; [done| |].
  - rewrite fmap_None, IH. lia.
  - split; [done|]. pose proof (length_present devices) as Hle. lia.
Qed.

Lemma table_remove_spec devices address :
  length (table_remove addr_of devices address) = length devices /\
  ((exists d, addr_of d = address /\
      present devices ≡ₚ d :: present (table_remove addr_of devices address)) \/
   (Forall (fun d => addr_of d <> address) (present devices) /\
    table_remove addr_of devices address = devices)).
Proof.
  induction devices as [|[d|] devices [Hl IH]]; simpl.
  - split; [done|]. right. split; [constructor|done].
  - destruct (Z.eqb_spec (addr_of d) address) as [Heq|Hne]; simpl.
    + split; [done|]. left. exists d. done.
    + split; [by rewrite Hl|]. destruct IH as [(d' & Hd' & Hp)|[Hall ->]].
      * left. exists d'. split; [done|]. rewrite Hp. constructor.
      * right. split; [by constructor|done].
  - split; [by rewrite Hl|]. destruct IH as [(d' & Hd' & Hp)|[Hall ->]]; [left; by exists d'|by right].
Qed.

Lemma table_new_present n : present (D := D) (table_new n) = [].
Proof. unfold table_new. by induction n. Qed.

End table_lemmas.
