(* ===== verification/InputDriver.v ===== *)
(** The driver of boot keyboards and mice, [InputOnlyDriver] of
    [kernel/src/usb/class_driver.rs]: the state machine that enumerates a device and
    reads its reports, and the table of devices. *)
From S2P Require Import Prelude Descriptor UsbHost.

Section input_driver.
Context `{UH : UsbHostLib} {H C : Type} `{HH : USBHost H}.

(** The constants of the driver, the callback on its state, and the contents of an
    uninitialised buffer. *)
Context (MAX_ENDPOINTS MAX_DEVICES : nat) (SETTLE_DELAY CONFIG_BUFFER_LEN : Z)
  (N_IN_TRANSFER_BYTES : nat) (callback : C -> Z -> list Z -> outcome C)
  (uninit : nat -> list Z).

Inductive DeviceState :=
  | Addressed
  | WaitForSettle (until : Z)
  | GetConfig
  | SetConfig (config_index : Z)
  | SetProtocol
  | SetIdle
  | Running.

#[global] Instance device_state_eq_dec : EqDecision DeviceState.
Proof. solve_decision. Defined.

Definition EndpointSearcher : Type := list Z -> outcome (option EndpointInfo).

Record InputOnlyDevice := mkDevice {
  addr : Z;
  ep0 : Endpoint;
  endpoints : list (option Endpoint);
  state : DeviceState;
  endpoint_searcher : EndpointSearcher;
}.

Definition set_ep0 (e : Endpoint) (d : InputOnlyDevice) : InputOnlyDevice :=
  mkDevice (addr d) e (endpoints d) (state d) (endpoint_searcher d).
Definition set_endpoint (e : Endpoint) (d : InputOnlyDevice) : InputOnlyDevice :=
  mkDevice (addr d) (ep0 d) (<[0%nat := Some e]> (endpoints d)) (state d) (endpoint_searcher d).
Definition set_state (s : DeviceState) (d : InputOnlyDevice) : InputOnlyDevice :=
  mkDevice (addr d) (ep0 d) (endpoints d) s (endpoint_searcher d).

Definition device_new (addr max_packet_size : Z) (endpoint_searcher : EndpointSearcher) :
    InputOnlyDevice :=
  mkDevice addr (endpoint_new addr 0 0 Control DirIn max_packet_size)
    (replicate MAX_ENDPOINTS None) Addressed endpoint_searcher.

(** The state machine runs with the host and the state of the callback. *)
#[global] Instance host_with_callback : USBHost (H * C) := {|
  control_transfer hc e s b :=
    '(r, e, b, h) ← control_transfer hc.1 e s b; Ret (r, e, b, (h, hc.2));
  in_transfer hc e b := '(r, e, b, h) ← in_transfer hc.1 e b; Ret (r, e, b, (h, hc.2));
  out_transfer hc e b := '(r, e, h) ← out_transfer hc.1 e b; Ret (r, e, (h, hc.2));
  register_hub hc a := '(r, h) ← register_hub hc.1 a; Ret (r, (h, hc.2));
  assign_address hc a p l := '(r, h) ← assign_address hc.1 a p l; Ret (r, (h, hc.2));
|}.

Abbreviation device_m := (driver InputOnlyDevice (H * C)).

Definition request_ep0 (s : Setup) (buf : option (list Z)) : device_m (Z * list Z) :=
  control ep0 set_ep0 s buf.

Definition call_callback (address : Z) (buffer : list Z) : device_m unit := fun d hc =>
  c ← callback hc.2 address buffer; Ret (Ok tt, d, (hc.1, c)).

(** [host.in_transfer(ep, &mut b)] on [endpoints[0]]; the error is not propagated. *)
Definition in_transfer_ep (ep : Endpoint) (b : list Z) :
    device_m (result Z TransferError * list Z) := fun d hc =>
  '(r, ep, b, hc) ← in_transfer hc ep b; Ret (Ok (r, b), set_endpoint ep d, hc).

Definition get_descriptor (ty : Z) : Setup :=
  mkSetup (DeviceToHost, Standard, RecipientDevice) GetDescriptor (0, ty) 0.

(** The arm [DeviceState::GetConfig]. *)
Definition get_config (self : InputOnlyDevice) : device_m unit :=
  '(len, desc_buf) ← request_ep0 (get_descriptor DT_CONFIGURATION)
                      (Some (uninit (Z.to_nat size_of_configuration_descriptor)));
  _ ← lift (assert (len =? size_of_configuration_descriptor));
  let total := w_total_length (read_configuration desc_buf) in
  if CONFIG_BUFFER_LEN <? total then fail (Permanent "config descriptor too large")
  else
    '(len, config_buf) ← request_ep0 (get_descriptor DT_CONFIGURATION)
                          (Some (uninit (Z.to_nat total)));
    _ ← lift (assert (len =? total));
    found ← lift (endpoint_searcher self config_buf);
    info ← lift (unwrap found);
    let e := endpoint info in
    _ ← modify (set_endpoint
          (endpoint_new (addr self) (Z.land (b_endpoint_address e) 0x7f)
             (interface_num info) Interrupt DirIn (w_max_packet_size e)));
    modify (set_state (SetConfig 1)).

(** The arm [DeviceState::Running]. *)
Definition read_report (self : InputOnlyDevice) : device_m unit :=
  match endpoints self !! 0%nat with
  | Some (Some ep) =>
      '(r, b) ← in_transfer_ep ep (replicate N_IN_TRANSFER_BYTES 0);
      match r with
      | Err (Permanent msg) => fail (Permanent msg)
      | Err (Retry _) => mret tt
      | Ok _ => call_callback (addr self) b
      end
  | Some None => fail (Permanent "no boot keyboard")
  | None => lift Panic
  end.

(** [usb_device.fsm(millis, host, callback)]. *)
Definition fsm (millis : Z) : device_m unit :=
  self ← get;
  match state self with
  | Addressed =>
      until ← lift (add_w 64 millis SETTLE_DELAY);
      modify (set_state (WaitForSettle until))
  | WaitForSettle until =>
      if until <? millis then
        '(len, _) ← request_ep0 (get_descriptor DT_DEVICE)
                      (Some (uninit (Z.to_nat size_of_device_descriptor)));
        _ ← lift (assert (len =? size_of_device_descriptor));
        modify (set_state GetConfig)
      else mret tt
  | GetConfig => get_config self
  | SetConfig config_index =>
      _ ← request_ep0 (mkSetup (HostToDevice, Standard, RecipientDevice) SetConfiguration
                         (config_index, 0) 0) None;
      modify (set_state SetProtocol)
  | SetProtocol =>
      match endpoints self !! 0%nat with
      | Some (Some ep) =>
          _ ← request_ep0 (mkSetup (HostToDevice, Class_, RecipientInterface) SetInterface
                             (0, 0) (ep_interface_num ep)) None;
          modify (set_state SetIdle)
      | Some None => fail (Permanent "no boot keyboard")
      | None => lift Panic
      end
  | SetIdle =>
      _ ← request_ep0 (mkSetup (HostToDevice, Class_, RecipientInterface) GetInterface
                         (0, 0) 0) None;
      modify (set_state Running)
  | Running => read_report self
  end.

(** [async_fsm] is the same code with its host calls awaited. *)
Definition async_fsm (millis : Z) : device_m unit := fsm millis.

(** * The driver *)

Record InputOnlyDriver := mkDriver {
  devices : list (option InputOnlyDevice);
  driver_searcher : EndpointSearcher;
}.

Definition driver_new (endpoint_searcher : EndpointSearcher) : InputOnlyDriver :=
  mkDriver (table_new MAX_DEVICES) endpoint_searcher.

Definition driver_add_device (self : InputOnlyDriver) (b_max_packet_size address : Z) :
    result unit DriverError * InputOnlyDriver :=
  let '(r, ds) := add_device (devices self) address
                    (device_new address b_max_packet_size (driver_searcher self)) in
  (r, mkDriver ds (driver_searcher self)).

Definition driver_remove_device (self : InputOnlyDriver) (address : Z) : InputOnlyDriver :=
  mkDriver (table_remove addr (devices self) address) (driver_searcher self).

Definition driver_tick (self : InputOnlyDriver) (millis : Z) (hc : H * C) :
    outcome (result unit DriverError * InputOnlyDriver * (H * C)) :=
  '(r, ds, hc) ← tick_devices addr (fsm millis) (devices self) hc;
  Ret (r, mkDriver ds (driver_searcher self), hc).

Definition driver_async_tick (self : InputOnlyDriver) (millis : Z) (hc : H * C) :
    outcome (result unit DriverError * InputOnlyDriver * (H * C)) :=
  '(r, ds, hc) ← tick_devices addr (async_fsm millis) (devices self) hc;
  Ret (r, mkDriver ds (driver_searcher self), hc).

Definition call_callback_at (self : InputOnlyDriver) (address : Z) (buffer : list Z) (c : C) :
    outcome C :=
  d ← unwrap (List.find (fun d => addr d =? address) (present (devices self)));
  _ ← assert (bool_decide (state d = Running));
  callback c address buffer.

(** [endpoints_mut]: the endpoints of the device with an address. *)
Definition endpoints_mut (self : InputOnlyDriver) (address : Z) :
    outcome (list (option Endpoint)) :=
  d ← unwrap (List.find (fun d => addr d =? address) (present (devices self)));
  Ret (endpoints d).

(** One round of [tick_until]: the devices that are not running make a step each, at
    successive times. *)
Fixpoint tick_round (ds : list (option InputOnlyDevice)) (millis : Z) (hc : H * C) :
    outcome (result unit DriverError * list (option InputOnlyDevice) * Z * (H * C)) :=
  match ds with
  | [] => Ret (Ok tt, [], millis, hc)
  | None :: ds => '(r, ds, millis, hc) ← tick_round ds millis hc; Ret (r, None :: ds, millis, hc)
  | Some dev :: ds =>
      if bool_decide (state dev = Running) then
        '(r, ds, millis, hc) ← tick_round ds millis hc; Ret (r, Some dev :: ds, millis, hc)
      else
        '(r, dev, hc) ← fsm millis dev hc;
        match r with
        | Err (Permanent e) => Ret (Err (DriverPermanent (addr dev) e), Some dev :: ds, millis, hc)
        | _ =>
            millis ← add_w 64 millis 1;
            '(r, ds, millis, hc) ← tick_round ds millis hc; Ret (r, Some dev :: ds, millis, hc)
        end
  end.

Definition all_in (s : DeviceState) (ds : list (option InputOnlyDevice)) : bool :=
  forallb (fun d => bool_decide (state d = s)) (present ds).

Fixpoint tick_until_loop (fuel : nat) (target : DeviceState) (self : InputOnlyDriver)
    (millis : Z) (hc : H * C) : outcome (result unit DriverError * InputOnlyDriver * (H * C)) :=
  match fuel with
  | O => NoFuel
  | S fuel =>
      if all_in target (devices self) then Ret (Ok tt, self, hc)
      else
        '(r, ds, millis, hc) ← tick_round (devices self) millis hc;
        let self := mkDriver ds (driver_searcher self) in
        match r with
        | Err e => Ret (Err e, self, hc)
        | Ok _ => tick_until_loop fuel target self millis hc
        end
  end.

Definition tick_until (fuel : nat) (self : InputOnlyDriver) (hc : H * C) (target : DeviceState) :
    outcome (result unit DriverError * InputOnlyDriver * (H * C)) :=
  tick_until_loop fuel target self 0 hc.

(** [tick_until_running_state]: as [tick_until], but with a round only every million
    turns of the loop. *)
Fixpoint tick_until_running_loop (fuel : nat) (self : InputOnlyDriver) (millis : Z)
    (hc : H * C) : outcome (result unit DriverError * InputOnlyDriver * (H * C)) :=
  match fuel with
  | O => NoFuel
  | S fuel =>
      if all_in Running (devices self) then Ret (Ok tt, self, hc)
      else
        millis ← add_w 64 millis 1;
        if negb (millis mod 1000000 =? 0) then tick_until_running_loop fuel self millis hc
        else
          '(r, ds, millis, hc) ← tick_round (devices self) millis hc;
          let self := mkDriver ds (driver_searcher self) in
          match r with
          | Err e => Ret (Err e, self, hc)
          | Ok _ => tick_until_running_loop fuel self millis hc
          end
  end.

Definition tick_until_running_state (fuel : nat) (self : InputOnlyDriver) (hc : H * C) :
    outcome (result unit DriverError * InputOnlyDriver * (H * C)) :=
  tick_until_running_loop fuel self 0 hc.

(** * The states of a device *)

(** The successor of a state. *)
Inductive next_state : DeviceState -> DeviceState -> Prop :=
  | next_settle until : next_state Addressed (WaitForSettle until)
  | next_get_config until : next_state (WaitForSettle until) GetConfig
  | next_set_config : next_state GetConfig (SetConfig 1)
  | next_set_protocol n : next_state (SetConfig n) SetProtocol
  | next_set_idle : next_state SetProtocol SetIdle
  | next_running : next_state SetIdle Running.

(** The device has its interrupt endpoint. *)
Definition configured (s : DeviceState) : bool :=
  match s with SetConfig _ | SetProtocol | SetIdle | Running => true | _ => false end.

Definition device_wf (d : InputOnlyDevice) : Prop :=
  (0 < length (endpoints d))%nat /\
  same_endpoint (endpoint_new (addr d) 0 0 Control DirIn (ep_max_packet_size (ep0 d))) (ep0 d) /\
  (configured (state d) = true ->
     exists ep, endpoints d !! 0%nat = Some (Some ep) /\ ep_address ep = addr d /\
       ep_transfer_type ep = Interrupt /\ ep_direction ep = DirIn /\
       0 <= ep_endpoint_num ep < 128) /\
  (forall n, state d = SetConfig n -> n = 1).

End input_driver.

(** * A compliant device *)

(** A device that answers every request and logs it: it sends its descriptors, as much
    as is asked for, and has reports queued on its interrupt endpoint. *)
Module CompliantDevice.

Record usb_device := mkUsbDevice {
  log : list Setup;
  device_descriptor : list Z;
  configuration : list Z;
  reports : list (list Z);
}.

(** What comes back in a buffer for a reply. *)
Definition fill (b reply : list Z) : list Z := take (length b) reply ++ drop (length reply) b.

Definition reply (self : usb_device) (s : Setup) : list Z :=
  if decide (request s = GetDescriptor) then
    if (w_value s).2 =? DT_DEVICE then device_descriptor self else configuration self
  else [].

Definition logged (self : usb_device) (s : Setup) : usb_device :=
  mkUsbDevice (log self ++ [s]) (device_descriptor self) (configuration self) (reports self).

#[global] Instance compliant_host : USBHost usb_device := {|
  control_transfer h e s buf :=
    let b := default [] buf in
    Ret (Ok (Z.of_nat (Nat.min (length b) (length (reply h s)))), e, fill b (reply h s),
         logged h s);
  in_transfer h e b :=
    match reports h with
    | [] => Ret (Err (Retry "nothing to report"), e, b, h)
    | r :: rs => Ret (Ok (Z.of_nat (length r)), e, fill b r,
                      mkUsbDevice (log h) (device_descriptor h) (configuration h) rs)
    end;
  out_transfer h e b := Ret (Ok (Z.of_nat (length b)), e, h);
  register_hub h a := Ret (Ok tt, h);
  assign_address h a p l := Ret (Ok tt, h);
|}.

#[global] Instance compliant_host_laws : USBHostLaws usb_device.
Proof.
  split; simpl; intros.
  - by simplify_eq.
  - destruct (reports h); by simplify_eq.
Qed.

End CompliantDevice.

(** * Lemmas *)

#[global] Instance host_with_callback_laws {H C} `{HH : USBHost H} `{!USBHostLaws H} :
  USBHostLaws (H * C).
Proof.
  split; intros h e *; simpl; intros Hrun.
  - apply bind_Ret_inv in Hrun as ([[[? ?] ?] ?] & Hc & Hrun).
    injection Hrun as <- <- <- <-. by eapply control_transfer_endpoint.
  - apply bind_Ret_inv in Hrun as ([[[? ?] ?] ?] & Hc & Hrun).
    injection Hrun as <- <- <- <-. by eapply in_transfer_endpoint.
Qed.

Section fsm_lemmas.
Context `{UH : UsbHostLib} {H C : Type} `{HH : USBHost H} `{!USBHostLaws H}.
Context (SETTLE_DELAY CONFIG_BUFFER_LEN : Z)
  (N_IN_TRANSFER_BYTES : nat) (callback : C -> Z -> list Z -> outcome C)
  (uninit : nat -> list Z).
Implicit Types (d : InputOnlyDevice).

(** The device after requests on its endpoint 0. *)
Definition near d0 d : Prop := exists e, same_endpoint (ep0 d0) e /\ d = set_ep0 e d0.

Lemma near_refl d : near d d.
Proof. exists (ep0 d). split; [done|]. by destruct d. Qed.

Lemma near_step d0 d e : near d0 d -> same_endpoint (ep0 d) e -> near d0 (set_ep0 e d).
Proof. intros (e0 & He0 & ->) He. exists e. split; [by etrans|done]. Qed.

Lemma near_wf d0 d : device_wf d0 -> near d0 d -> device_wf d /\ state d = state d0.
Proof.
  intros (Hl & He & Hc & Hs) (e & Hse & ->). split; [|done]. split; [done|].
  split; [|done]. simpl. destruct Hse as (i & o & ->). etrans; [exact He|]. by eexists _, _.
Qed.

Lemma near_set_state_wf d0 d s :
  device_wf d0 -> near d0 d -> (configured s = true -> configured (state d0) = true) ->
  (forall n, s = SetConfig n -> n = 1) -> device_wf (set_state s d).
Proof.
  intros Hwf Hn Hs Hn1. destruct (near_wf _ _ Hwf Hn) as [(Hl & He & Hc & _) Hst].
  split; [done|]. split; [done|]. split; [|done]. intros ?. apply Hc. rewrite Hst. by apply Hs.
Qed.

Lemma set_endpoint_wf d ep s :
  device_wf d -> (forall n, s = SetConfig n -> n = 1) -> ep_address ep = addr d ->
  ep_transfer_type ep = Interrupt -> ep_direction ep = DirIn ->
  0 <= ep_endpoint_num ep < 128 -> device_wf (set_state s (set_endpoint ep d)).
Proof.
  intros (Hl & He & _) Hs ? ? ? ?. split; [by simpl; rewrite length_insert|].
  split; [done|]. split; [|done]. intros _. exists ep. simpl.
  rewrite list_lookup_insert_eq by done. done.
Qed.

(** What one step may do to a device that was [d0]. *)
Definition fsm_post (millis : Z) d0 (r : result unit TransferError) d : Prop :=
  device_wf d /\ addr d = addr d0 /\
  match r with
  | Ok _ => next_state (state d0) (state d) \/
      state d = state d0 /\
      (state d0 = Running \/ exists until, state d0 = WaitForSettle until /\ millis <= until)
  | Err _ => state d = state d0
  end.

Lemma fsm_post_err millis d0 d e :
  device_wf d0 -> near d0 d -> fsm_post millis d0 (Err e) d.
Proof.
  intros Hwf Hn. destruct (near_wf _ _ Hwf Hn). split; [done|]. split; [|done].
  by destruct Hn as (? & _ & ->).
Qed.

Lemma fsm_post_next millis d0 d s :
  device_wf d0 -> near d0 d -> next_state (state d0) s ->
  (configured s = true -> configured (state d0) = true) ->
  (forall n, s = SetConfig n -> n = 1) ->
  fsm_post millis d0 (Ok tt) (set_state s d).
Proof.
  intros Hwf Hn Hs ? ?. split; [by eapply near_set_state_wf|].
  split; [by destruct Hn as (? & _ & ->)|by left].
Qed.

(** A request on endpoint 0. *)
Lemma triple_request d0 s buf :
  device_wf d0 ->
  triple (near d0) (request_ep0 (H := H) (C := C) s buf)
    (fun r d => near d0 d).
Proof. intros Hwf. apply triple_control. intros d ep r Hn He. by apply near_step. Qed.

Lemma triple_request_bind millis d0 s buf (f : Z * list Z -> driver InputOnlyDevice (H * C) unit) :
  device_wf d0 -> (forall a, triple (near d0) (f a) (fsm_post millis d0)) ->
  triple (near d0) (request_ep0 (H := H) (C := C) s buf ≫= f) (fsm_post millis d0).
Proof.
  intros Hwf Hf. eapply triple_bind with (R := fun _ => near d0); [|done].
  intros d h r d' h' Hd Hrun.
  pose proof (triple_request d0 s buf Hwf d h r d' h' Hd Hrun).
  destruct r; [done|by apply fsm_post_err].
Qed.

Lemma triple_lift_bind {A} millis d0 (o : outcome A) (f : A -> driver InputOnlyDevice (H * C) unit) :
  (forall a, o = Ret a -> triple (near d0) (f a) (fsm_post millis d0)) ->
  triple (near d0) (lift o ≫= f) (fsm_post millis d0).
Proof.
  intros Hf d h r d' h' Hd Hrun. unfold mbind, driver_bind, lift in Hrun.
  destruct o as [a| |]; [|done..]. exact (Hf a eq_refl d h r d' h' Hd Hrun).
Qed.

Lemma triple_next millis d0 s :
  device_wf d0 -> next_state (state d0) s ->
  (configured s = true -> configured (state d0) = true) ->
  (forall n, s = SetConfig n -> n = 1) ->
  triple (near d0) (modify (H := H * C) (set_state s)) (fsm_post millis d0).
Proof. intros. apply triple_modify. intros. by apply fsm_post_next. Qed.

Lemma fsm_get_config millis d0 :
  device_wf d0 -> state d0 = GetConfig ->
  triple (near d0) (get_config (H := H) (C := C) CONFIG_BUFFER_LEN uninit d0) (fsm_post millis d0).
Proof.
  intros Hwf Hst. unfold get_config. apply triple_request_bind; [done|intros [len desc_buf]].
  apply triple_lift_bind. intros _ _. cbv zeta. case_match.
  { apply triple_fail. intros. by apply fsm_post_err. }
  apply triple_request_bind; [done|intros [len' config_buf]].
  apply triple_lift_bind. intros _ _. apply triple_lift_bind. intros found _.
  apply triple_lift_bind. intros info _.
  intros d h r d' h' Hn Hrun. injection Hrun as <- <- <-.
  destruct (near_wf _ _ Hwf Hn) as [Hwf' _].
  assert (addr d = addr d0) as Ha by by destruct Hn as (? & _ & ->).
  split; [|split; [done|left; rewrite Hst; constructor]].
  apply set_endpoint_wf; try done; [congruence|].
  simpl. change 127 with (Z.ones 7). rewrite Z.land_ones by done. by apply Z.mod_pos_bound.
Qed.

Lemma fsm_running millis d0 ep :
  device_wf d0 -> state d0 = Running -> endpoints d0 !! 0%nat = Some (Some ep) ->
  triple (near d0) (read_report (H := H) N_IN_TRANSFER_BYTES callback d0) (fsm_post millis d0).
Proof.
  intros Hwf Hst Hep. unfold read_report. rewrite Hep.
  apply triple_bind with (R := fun _ d => device_wf d /\ addr d = addr d0 /\ state d = state d0).
  - intros d h r d' h' Hn Hrun. unfold in_transfer_ep in Hrun.
    apply bind_Ret_inv in Hrun as ([[[ra e] b] ha] & Hin & Hrun). injection Hrun as <- <- <-.
    apply in_transfer_endpoint in Hin as (i & o & ->).
    destruct (near_wf _ _ Hwf Hn) as [Hwf' Hs]. destruct Hn as (e0 & He0 & ->).
    destruct Hwf as (_ & _ & Hc & _). destruct Hc as (ep' & Hep' & ? & ? & ? & ?);
      [by rewrite Hst|]. simplify_eq. split; [|done].
    replace (set_endpoint _ _) with (set_state (state d0)
      (set_endpoint (set_out_toggle (set_in_toggle ep i) o) (set_ep0 e0 d0)))
      by reflexivity.
    by apply set_endpoint_wf; [done|rewrite Hst|..].
  - assert (Hpost : forall d, device_wf d /\ addr d = addr d0 /\ state d = state d0 ->
      fsm_post millis d0 (Ok tt) d).
    { intros d (? & ? & ?). split; [done|]. split; [done|]. right. split; [done|by left]. }
    intros [[len|[msg|msg]] b].
    + intros d h r d' h' Hd Hrun. unfold call_callback in Hrun.
      apply bind_Ret_inv in Hrun as (c & _ & Hrun). injection Hrun as <- <- <-. auto.
    + by apply triple_ret.
    + apply triple_fail. intros d (? & ? & ?). done.
Qed.

(** One step of the state machine, whatever the host does. *)
Lemma fsm_triple millis d0 :
  device_wf d0 ->
  triple (fun d => d = d0)
    (fsm SETTLE_DELAY CONFIG_BUFFER_LEN N_IN_TRANSFER_BYTES callback uninit millis
       : driver InputOnlyDevice (H * C) unit)
    (fsm_post millis d0).
Proof.
  intros Hwf. unfold fsm. apply triple_get_bind. intros d ->.
  apply triple_weaken with (near d0); [|intros d ->; apply near_refl].
  pose proof Hwf as (Hl & _ & Hc & Hs1).
  destruct (state d0) as [|until| |n| | |] eqn:Hst.
  - apply triple_lift_bind. intros u _. apply triple_next; [done|rewrite Hst; constructor|by rewrite Hst|done].
  - destruct (Z.ltb_spec until millis).
    + apply triple_request_bind; [done|intros [len b]]. apply triple_lift_bind. intros _ _.
      apply triple_next; [done|rewrite Hst; constructor|by rewrite Hst|done].
    + apply triple_ret. intros d Hn. destruct (near_wf _ _ Hwf Hn). split; [done|].
      split; [by destruct Hn as (? & _ & ->)|]. right. split; [done|]. right. rewrite Hst. eauto.
  - by apply fsm_get_config.
  - apply triple_request_bind; [done|intros _].
    apply triple_next; [done|rewrite Hst; constructor|by rewrite Hst|done].
  - destruct Hc as (ep & -> & _); [done|]. apply triple_request_bind; [done|intros _].
    apply triple_next; [done|rewrite Hst; constructor|by rewrite Hst|done].
  - apply triple_request_bind; [done|intros _].
    apply triple_next; [done|rewrite Hst; constructor|by rewrite Hst|done].
  - destruct Hc as (ep & Hep & _); [done|]. by eapply fsm_running.
Qed.

End fsm_lemmas.

Section input_driver_properties.
Context `{UH : UsbHostLib} {H C : Type} `{HH : USBHost H} `{!USBHostLaws H}.
Context (MAX_ENDPOINTS MAX_DEVICES : nat) (SETTLE_DELAY CONFIG_BUFFER_LEN : Z)
  (N_IN_TRANSFER_BYTES : nat) (callback : C -> Z -> list Z -> outcome C)
  (uninit : nat -> list Z).

Abbreviation the_fsm :=
  (fsm (H := H) SETTLE_DELAY CONFIG_BUFFER_LEN N_IN_TRANSFER_BYTES callback uninit).

(** A step of a device at some time, with some state of the host and of the callback. *)
Definition device_step (d d' : InputOnlyDevice) : Prop :=
  exists millis hc r hc', the_fsm millis d hc = Ret (r, d', hc').

Lemma device_new_wf addr max_packet_size searcher :
  (0 < MAX_ENDPOINTS)%nat ->
  device_wf (device_new MAX_ENDPOINTS addr max_packet_size searcher).
Proof.
  intros Hm. split; [simpl; by rewrite length_replicate|]. split; [done|]. done.
Qed.

Lemma device_step_wf d d' : device_wf d -> device_step d d' -> device_wf d'.
Proof. intros Hwf (m & hc & r & hc' & Hrun). by eapply fsm_triple in Hrun as (? & _). Qed.

(** C13: the enumeration state machine.  Whatever the host answers, errors included,
    a device that was added goes through the states in order and never back; a
    transfer error leaves it in its state, to be tried again; it waits at most until
    the settle time is over; and from [SetConfig] on, in particular when reports are
    read, it has the interrupt IN endpoint of its own address, so that no step ends
    because the endpoint is missing. *)
Theorem enumeration_in_order addr0 max_packet_size searcher d millis hc r d' hc' :
  (0 < MAX_ENDPOINTS)%nat ->
  rtc device_step (device_new MAX_ENDPOINTS addr0 max_packet_size searcher) d ->
  the_fsm millis d hc = Ret (r, d', hc') ->
  device_wf d /\ addr d' = addr0 /\ 
  match r with
  | Err _ => state d' = state d
  | Ok _ => next_state (state d) (state d') \/
      state d' = state d /\
      (state d = Running \/ exists until, state d = WaitForSettle until /\ millis <= until)
  end.
Proof.
  intros Hm Hrtc Hrun.
  assert (Hinv : device_wf d /\ addr d = addr0).
  { apply (rtc_invariant device_step (fun d => device_wf d /\ addr d = addr0)
      (device_new MAX_ENDPOINTS addr0 max_packet_size searcher)); [|split; [by apply device_new_wf|done]|done].
    intros d1 d2 [Hwf Ha] (m & h & r0 & h' & Hs).
    eapply fsm_triple in Hs as (? & ? & _); [|done..]. split; [done|congruence]. }
  destruct Hinv as [Hwf Ha]. split; [done|].
  eapply fsm_triple in Hrun as (_ & Ha' & Hpost); [|done..]. split; [congruence|done].
Qed.

(** The device table of the driver is a bounded bag of devices.  Adding succeeds
    exactly while fewer than [MAX_DEVICES] devices are present and adds exactly the
    new device; removing takes out one device with the address, if there is one, and
    nothing else. *)
Theorem driver_table (self : InputOnlyDriver) b_max_packet_size address :
  let ds := present (devices self) in
  let '(r, self') := driver_add_device MAX_ENDPOINTS self b_max_packet_size address in
  let ds' := present (devices self') in
  let removed := driver_remove_device self address in
  length (devices self') = length (devices self) /\
  match r with
  | Ok _ => (length ds < length (devices self))%nat /\
      ds' ≡ₚ device_new MAX_ENDPOINTS address b_max_packet_size (driver_searcher self) :: ds
  | Err _ => length ds = length (devices self) /\ self' = self
  end /\
  length (devices removed) = length (devices self) /\
  ((exists d, addr d = address /\ ds ≡ₚ d :: present (devices removed)) \/
   (Forall (fun d => addr d <> address) ds /\ removed = self)).
Proof.
  intros ds. unfold driver_add_device, add_device.
  destruct (table_remove_spec addr (devices self) address) as [Hl Hrem].
  assert (Hrem' : (exists d, addr d = address /\
      ds ≡ₚ d :: present (devices (driver_remove_device self address))) \/
    (Forall (fun d => addr d <> address) ds /\ driver_remove_device self address = self)).
  { destruct Hrem as [Hr|[Hall Heq]]; [by left|right]. split; [done|].
    unfold driver_remove_device. rewrite Heq. by destruct self. }
  destruct (table_add (devices self) _) as [ds'|] eqn:Hadd; simpl.
  - apply table_add_Some in Hadd as Hp. destruct Hp as [Hl' Hp].
    split; [done|]. split; [|done]. split; [|done].
    pose proof (length_present (devices self)). destruct (decide (length ds = length (devices self)))
      as [Heq|]; [|unfold ds in *; lia].
    apply (table_add_None _ (device_new MAX_ENDPOINTS address b_max_packet_size
      (driver_searcher self))) in Heq. congruence.
  - apply table_add_None in Hadd. split; [done|]. split; [|done]. split; [done|]. by destruct self.
Qed.

End input_driver_properties.

Section enumeration.
Context `{UH : UsbHostLib} {C : Type}.
Context (MAX_ENDPOINTS : nat) (SETTLE_DELAY CONFIG_BUFFER_LEN : Z)
  (N_IN_TRANSFER_BYTES : nat) (callback : C -> Z -> list Z -> outcome C)
  (uninit : nat -> list Z).
Import CompliantDevice.

(** The calls of the state machine at the times [ms], up to the first error. *)
Fixpoint fsm_run (ms : list Z) (d : InputOnlyDevice) (hc : usb_device * C) :
    outcome (result unit TransferError * InputOnlyDevice * (usb_device * C)) :=
  match ms with
  | [] => Ret (Ok tt, d, hc)
  | m :: ms =>
      '(r, d, hc) ← fsm SETTLE_DELAY CONFIG_BUFFER_LEN N_IN_TRANSFER_BYTES callback uninit m d hc;
      match r with
      | Ok _ => fsm_run ms d hc
      | Err e => Ret (Err e, d, hc)
      end
  end.

Lemma fill_exact n reply :
  (forall n, length (uninit n) = n) -> (n <= length reply)%nat ->
  fill (uninit n) reply = take n reply.
Proof.
  intros Hu Hn. unfold fill. rewrite Hu, drop_ge by (rewrite Hu; lia). apply app_nil_r.
Qed.

(** A control request to the compliant device. *)
Lemma request_compliant s n d dev (c : C) :
  (forall n, length (uninit n) = n) -> (n <= length (reply dev s))%nat ->
  request_ep0 s (Some (uninit n)) d (dev, c) =
    Ret (Ok (Z.of_nat n, take n (reply dev s)), set_ep0 (ep0 d) d, (logged dev s, c)).
Proof.
  intros Hu Hn. unfold request_ep0, control. simpl. rewrite fill_exact by done.
  by rewrite Hu, Nat.min_l by done.
Qed.

Lemma request_compliant_none s d dev (c : C) :
  reply dev s = [] ->
  request_ep0 s None d (dev, c) =
    Ret (Ok (0, []), set_ep0 (ep0 d) d, (logged dev s, c)).
Proof. intros Hr. unfold request_ep0, control. simpl. by rewrite Hr. Qed.

Lemma reply_device dev : reply dev (get_descriptor DT_DEVICE) = device_descriptor dev.
Proof. done. Qed.

Lemma reply_configuration dev :
  reply dev (get_descriptor DT_CONFIGURATION) = configuration dev.
Proof. done. Qed.

Lemma set_ep0_id d : set_ep0 (ep0 d) d = d.
Proof. by destruct d. Qed.

(** The requests of an enumeration, in order. *)
Definition enumeration_requests (interface : Z) : list Setup :=
  [get_descriptor DT_DEVICE; get_descriptor DT_CONFIGURATION; get_descriptor DT_CONFIGURATION;
   mkSetup (HostToDevice, Standard, RecipientDevice) SetConfiguration (1, 0) 0;
   mkSetup (HostToDevice, Class_, RecipientInterface) SetInterface (0, 0) interface;
   mkSetup (HostToDevice, Class_, RecipientInterface) GetInterface (0, 0) 0].

(** A device whose descriptors are complete and consistent. *)
Definition complete (dev : usb_device) : Prop :=
  (0 <= size_of_device_descriptor /\
   size_of_device_descriptor = Z.of_nat (length (device_descriptor dev))) /\
  0 <= size_of_configuration_descriptor <= Z.of_nat (length (configuration dev)) /\
  w_total_length (read_configuration
    (take (Z.to_nat size_of_configuration_descriptor) (configuration dev)))
    = Z.of_nat (length (configuration dev)).

Lemma fsm_wait until m d dev (c : C) :
  (forall n, length (uninit n) = n) -> complete dev -> state d = WaitForSettle until ->
  until < m ->
  fsm SETTLE_DELAY CONFIG_BUFFER_LEN N_IN_TRANSFER_BYTES callback uninit m d (dev, c) =
    Ret (Ok tt, set_state GetConfig d, (logged dev (get_descriptor DT_DEVICE), c)).
Proof.
  intros Hu ([Hsz Hlen] & _) Hst Hm. unfold fsm. rewrite driver_get, Hst.
  rewrite (proj2 (Z.ltb_lt _ _) Hm).
  erewrite driver_bind_Ok; [|apply request_compliant; [done|rewrite reply_device; lia]].
  cbv beta iota.
  rewrite (driver_lift _ tt) by (rewrite Z2Nat.id, Z.eqb_refl by lia; done).
  by rewrite set_ep0_id.
Qed.

Lemma fsm_config m d dev (c : C) info :
  (forall n, length (uninit n) = n) -> complete dev -> state d = GetConfig ->
  Z.of_nat (length (configuration dev)) <= CONFIG_BUFFER_LEN ->
  endpoint_searcher d (configuration dev) = Ret (Some info) ->
  fsm SETTLE_DELAY CONFIG_BUFFER_LEN N_IN_TRANSFER_BYTES callback uninit m d (dev, c) =
    Ret (Ok tt,
         set_state (SetConfig 1) (set_endpoint
           (endpoint_new (addr d) (Z.land (b_endpoint_address (endpoint info)) 0x7f)
              (interface_num info) Interrupt DirIn (w_max_packet_size (endpoint info))) d),
         (logged (logged dev (get_descriptor DT_CONFIGURATION))
            (get_descriptor DT_CONFIGURATION), c)).
Proof.
  intros Hu (_ & [Hsz Hle] & Htot) Hst Hbuf Hs. unfold fsm.
  rewrite driver_get, Hst. unfold get_config.
  erewrite driver_bind_Ok;
    [|apply request_compliant; [done|rewrite reply_configuration; simpl; lia]].
  cbv beta iota.
  rewrite (driver_lift _ tt) by (rewrite Z2Nat.id, Z.eqb_refl by lia; done).
  rewrite reply_configuration, set_ep0_id. cbv zeta. rewrite Htot.
  rewrite (proj2 (Z.ltb_ge _ _)) by done.
  erewrite driver_bind_Ok;
    [|apply request_compliant; [done|rewrite reply_configuration; simpl; lia]].
  cbv beta iota.
  rewrite (driver_lift _ tt) by (rewrite Z2Nat.id, Z.eqb_refl by lia; done).
  rewrite reply_configuration, set_ep0_id, Nat2Z.id. cbn [configuration logged].
  rewrite firstn_all, (driver_lift _ (Some info)) by done.
  by rewrite (driver_lift _ info) by done.
Qed.

Lemma fsm_report m d dev (c : C) ep r rs :
  state d = Running -> endpoints d !! 0%nat = Some (Some ep) -> reports dev = r :: rs ->
  fsm SETTLE_DELAY CONFIG_BUFFER_LEN N_IN_TRANSFER_BYTES callback uninit m d (dev, c) =
    (c' ← callback c (addr d) (fill (replicate N_IN_TRANSFER_BYTES 0) r);
     Ret (Ok tt, set_endpoint ep d,
          (mkUsbDevice (log dev) (device_descriptor dev) (configuration dev) rs, c'))).
Proof.
  intros Hst Hep Hr. unfold fsm. rewrite driver_get, Hst. unfold read_report. rewrite Hep.
  erewrite driver_bind_Ok;
    [|unfold in_transfer_ep; simpl; rewrite Hr; reflexivity].
  done.
Qed.

(** C26: the enumeration completes.  With a device that answers every request and
    sends consistent descriptors that fit the buffer and hold the endpoint searched
    for, six calls of the state machine, the second after the settle time, reach
    [Running], having sent exactly the requests of the USB enumeration; from then on a
    call hands the next report, cut or padded to the size of the buffer, to the callback. *)
Theorem enumeration_reaches_running addr0 max_packet_size searcher dev (c : C) info
    t t3 t4 t5 t6 t7 :
  (0 < MAX_ENDPOINTS)%nat -> (forall n, length (uninit n) = n) ->
  t + SETTLE_DELAY < 2 ^ 64 -> log dev = [] -> complete dev ->
  Z.of_nat (length (configuration dev)) <= CONFIG_BUFFER_LEN ->
  searcher (configuration dev) = Ret (Some info) ->
  exists d h,
    fsm_run [t; t + SETTLE_DELAY + 1; t3; t4; t5; t6]
      (device_new MAX_ENDPOINTS addr0 max_packet_size searcher) (dev, c) = Ret (Ok tt, d, (h, c)) /\
    state d = Running /\ log h = enumeration_requests (interface_num info) /\
    endpoints d !! 0%nat = Some (Some
      (endpoint_new addr0 (Z.land (b_endpoint_address (endpoint info)) 0x7f)
         (interface_num info) Interrupt DirIn (w_max_packet_size (endpoint info)))) /\
    forall r rs, reports dev = r :: rs ->
      exists d' h', reports h' = rs /\
      fsm_run [t7] d (h, c) =
        (c' ← callback c addr0 (fill (replicate N_IN_TRANSFER_BYTES 0) r);
         Ret (Ok tt, d', (h', c'))).
Proof.
  intros Hm Hu Ht Hlog Hcomp Hbuf Hs. cbn [fsm_run].
  destruct MAX_ENDPOINTS as [|n]; [lia|].
  assert (H1 : forall d, state d = Addressed ->
    fsm SETTLE_DELAY CONFIG_BUFFER_LEN N_IN_TRANSFER_BYTES callback uninit t d (dev, c) =
      Ret (Ok tt, set_state (WaitForSettle (t + SETTLE_DELAY)) d, (dev, c))).
  { intros d Hst. unfold fsm, mbind, driver_bind at 1. simpl. rewrite Hst.
    unfold mbind, driver_bind, lift. by rewrite add_w_Ret. }
  rewrite H1 by done. cbn [mbind outcome_bind].
  rewrite (fsm_wait (t + SETTLE_DELAY)) by (done || lia). cbn [mbind outcome_bind].
  rewrite (fsm_config _ _ _ _ info) by done. cbn [mbind outcome_bind].
  eexists _, _. split; [reflexivity|]. simpl. rewrite Hlog.
  split; [done|]. split; [done|]. split; [done|]. intros r rs Hr.
  eexists _, _. split; [|cbn [fsm_run]; erewrite fsm_report by done].
  2: by destruct (callback c _ _).
  done.
Qed.

End enumeration.

(** * Witnesses: the keyboard of [DescriptorExamples] *)

Module InputExamples.
Import CompliantDevice.

Definition keyboard : usb_device :=
  mkUsbDevice [] (replicate 18 0) (concat (DescriptorExamples.device 1 8))
    [[0; 0; 4; 0; 0; 0; 0; 0]].

(** The callback records its calls. *)
Definition record_call (calls : list (Z * list Z)) (address : Z) (buffer : list Z) :
    outcome (list (Z * list Z)) := Ret (calls ++ [(address, buffer)]).

Definition zeros (n : nat) : list Z := replicate n 0.

Definition new_keyboard : InputOnlyDevice := device_new 2 5 8 ep_for_bootkbd.

Lemma keyboard_complete : complete keyboard.
Proof.
  split; [split; [simpl; lia|reflexivity]|]. split; [split; [simpl; lia|]|reflexivity].
  vm_compute. discriminate.
Qed.

End InputExamples.

Lemma enumeration_in_order_witness :
  exists d', fsm 2 256 8 InputExamples.record_call InputExamples.zeros 10
      InputExamples.new_keyboard (InputExamples.keyboard, [])
    = Ret (Ok tt, d', (InputExamples.keyboard, [])) /\
    next_state Addressed (state d').
Proof.
  eexists. split; [reflexivity|].
  destruct (enumeration_in_order 2 2 256 8 InputExamples.record_call InputExamples.zeros
    5 8 ep_for_bootkbd InputExamples.new_keyboard 10 (InputExamples.keyboard, []) (Ok tt)
    (set_state (WaitForSettle 12) InputExamples.new_keyboard) (InputExamples.keyboard, [])
    ltac:(lia) ltac:(apply rtc_refl) eq_refl) as (_ & _ & [Hn|(Heq & _)]).
  - exact Hn.
  - discriminate Heq.
Defined.

Lemma enumeration_reaches_running_witness :
  exists d h,
    fsm_run 2 256 8 InputExamples.record_call InputExamples.zeros [10; 13; 14; 15; 16; 17]
      InputExamples.new_keyboard (InputExamples.keyboard, []) = Ret (Ok tt, d, (h, [])) /\
    state d = Running /\ CompliantDevice.log h = enumeration_requests 1.
Proof.
  destruct (enumeration_reaches_running 2 2 256 8 InputExamples.record_call InputExamples.zeros
    5 8 ep_for_bootkbd InputExamples.keyboard []
    (mkEndpointInfo (UH := UsbLayout.usb_layout) 1 (DescriptorExamples.endpoint_in 2 8)) 10 14 15 16 17 18)
    as (d & h & Hrun & Hst & Hlog & _).
  - lia.
  - intros n. apply length_replicate.
  - lia.
  - reflexivity.
  - exact InputExamples.keyboard_complete.
  - vm_compute. discriminate.
  - reflexivity.
  - exists d, h. split; [exact Hrun|]. split; [exact Hst|exact Hlog].
Defined.
