(* ===== verification/Hub.v ===== *)
(** The hub driver ([kernel/src/usb/class_driver/hub.rs]): the configuration of a hub
    and the initialisation of its ports, one after the other. *)
From Stdlib Require Import Sorting.Sorted.
From S2P Require Import Prelude Descriptor UsbHost.

(** [HubDescriptor] of [usb/descriptor.rs] and the read of its bytes through
    [to_slice_mut]: the structure is [repr(C)], so [w_hub_characteristics] is aligned
    to offset 4. *)
Record HubDescriptor := mkHubDescriptor {
  b_desc_length : Z;
  b_descriptor_type : Z;
  b_nbr_ports : Z;
  w_hub_characteristics : Z;
  b_pwr_on_2_pwr_good : Z;
  b_hub_contr_current : Z;
}.

Definition SIZE_OF_HUB_DESCRIPTOR : nat := 8.

Definition hub_byte (b : list Z) (i : nat) : Z := default 0 (b !! i).

Definition hub_descriptor_of (b : list Z) : HubDescriptor :=
  mkHubDescriptor (hub_byte b 0) (hub_byte b 1) (hub_byte b 2)
    (hub_byte b 4 + 256 * hub_byte b 5) (hub_byte b 6) (hub_byte b 7).

Module HubDriver.
Section hub.
Context `{UH : UsbHostLib} {H : Type} `{HH : USBHost H}.
Context (uninit : nat -> list Z).

Definition MAX_DEVICES : nat := 127.
Definition CONFIG_BUFFER_LEN : Z := 256.

Inductive HubState :=
  | Addressed
  | GetConfig
  | SetConfig
  | GetHubDescriptor
  | InitPort (port : Z)
  | Running.

#[global] Instance hub_state_eq_dec : EqDecision HubState.
Proof. solve_decision. Defined.

Record HubDevice := mkHubDevice {
  state : HubState;
  address : Z;
  ep0 : Endpoint;
  config_descriptor : option ConfigurationDescriptor;
  number_of_ports : Z;
  power_on_2_power_good : Z;
}.

Definition set_state (s : HubState) (d : HubDevice) : HubDevice :=
  mkHubDevice s (address d) (ep0 d) (config_descriptor d) (number_of_ports d)
    (power_on_2_power_good d).
Definition set_ep0 (e : Endpoint) (d : HubDevice) : HubDevice :=
  mkHubDevice (state d) (address d) e (config_descriptor d) (number_of_ports d)
    (power_on_2_power_good d).
Definition set_config (c : ConfigurationDescriptor) (d : HubDevice) : HubDevice :=
  mkHubDevice (state d) (address d) (ep0 d) (Some c) (number_of_ports d)
    (power_on_2_power_good d).
Definition set_ports (n p : Z) (d : HubDevice) : HubDevice :=
  mkHubDevice (state d) (address d) (ep0 d) (config_descriptor d) n p.

Definition device_new (address max_packet_size : Z) : HubDevice :=
  mkHubDevice Addressed address (endpoint_new address 0 0 Control DirIn max_packet_size)
    None 0 0.

Abbreviation hub_m := (driver HubDevice H).

Definition request_ep0 (s : Setup) (buf : option (list Z)) : hub_m (Z * list Z) :=
  control ep0 set_ep0 s buf.

(** [PortFeatureSelector] *)
Definition PortReset : Z := 4.
Definition PortPower : Z := 8.
Definition CPortConnection : Z := 16.
Definition CPortReset : Z := 20.

Definition port_out (code : RequestCode) (selector port_index : Z) : Setup :=
  mkSetup (HostToDevice, Class_, RecipientOther) code (selector, 0) (port_index + 1).
Definition port_status (port_index : Z) : Setup :=
  mkSetup (DeviceToHost, Class_, RecipientOther) GetStatus (0, 0) (port_index + 1).

(** The loop over the descriptors of the configuration: the last configuration
    descriptor is kept. *)
Definition keep_configuration (ds : list Descriptor) (d : HubDevice) : HubDevice :=
  foldl (fun d x => match x with Configuration c => set_config c d | _ => d end) d ds.

(** The second half of the arm [HubState::InitPort]: the device of a connected port. *)
Definition init_connected_port (self : HubDevice) (port_index : Z) : hub_m unit :=
  _ ← request_ep0 (port_out SetFeature PortReset port_index) None;
  _ ← request_ep0 (port_out ClearFeature CPortReset port_index) None;
  '(_, buf) ← request_ep0 (port_status port_index) (Some [0; 0; 0; 0]);
  let status0 := hub_byte buf 0 + 256 * hub_byte buf 1 in
  let is_low_speed := negb (Z.land status0 (Z.shiftl 1 9) =? 0) in
  _ ← unwrap_host (fun h => assign_address h (address self) port_index is_low_speed);
  next ← lift (add_w 8 port_index 1);
  modify (set_state (InitPort next)).

(** [HubState::InitPort(port_index) if port_index < self.number_of_ports]; the busy
    waits and the yields have no effect on the device. *)
Definition init_port (self : HubDevice) (port_index : Z) : hub_m unit :=
  _ ← request_ep0 (port_out SetFeature PortPower port_index) None;
  _ ← request_ep0 (port_out ClearFeature CPortConnection port_index) None;
  '(_, status) ← request_ep0 (port_status port_index) (Some [0; 0; 0; 0]);
  if Z.land (hub_byte status 0) 0x01 =? 0 then
    next ← lift (add_w 8 port_index 1);
    modify (set_state (InitPort next))
  else init_connected_port self port_index.

(** [HubDevice::fsm]. *)
Definition fsm (_millis : Z) : hub_m unit :=
  self ← get;
  match state self with
  | Addressed => modify (set_state GetConfig)
  | GetConfig =>
      '(len, desc_buf) ← request_ep0
          (mkSetup (DeviceToHost, Standard, RecipientDevice) GetDescriptor (0, DT_CONFIGURATION) 0)
          (Some (uninit (Z.to_nat size_of_configuration_descriptor)));
      _ ← lift (assert (len =? size_of_configuration_descriptor));
      let total := w_total_length (read_configuration desc_buf) in
      if CONFIG_BUFFER_LEN <? total then fail (Permanent "config descriptor too large")
      else
        '(len, config_buf) ← request_ep0
          (mkSetup (DeviceToHost, Standard, RecipientDevice) GetDescriptor (0, DT_CONFIGURATION) 0)
          (Some (uninit (Z.to_nat total)));
        _ ← lift (assert (len =? total));
        ds ← lift (descriptors config_buf);
        _ ← modify (keep_configuration ds);
        modify (set_state SetConfig)
  | SetConfig =>
      c ← lift (unwrap (config_descriptor self));
      _ ← request_ep0 (mkSetup (HostToDevice, Standard, RecipientDevice) SetConfiguration
                         (b_configuration_value c, 0) 0) None;
      _ ← unwrap_host (fun h => register_hub h (address self));
      modify (set_state GetHubDescriptor)
  | GetHubDescriptor =>
      '(_, buf) ← request_ep0
          (mkSetup (DeviceToHost, Class_, RecipientDevice) GetDescriptor (0, 0x29) 0)
          (Some (replicate SIZE_OF_HUB_DESCRIPTOR 0));
      let hub_descriptor := hub_descriptor_of buf in
      _ ← modify (set_ports (b_nbr_ports hub_descriptor) (b_pwr_on_2_pwr_good hub_descriptor));
      modify (set_state (InitPort 0))
  | InitPort port_index =>
      if port_index <? number_of_ports self then init_port self port_index
      else modify (set_state Running)
  | Running => mret tt
  end.

(** * The driver *)

Definition HubDriver : Type := list (option HubDevice).

Definition new : HubDriver := table_new MAX_DEVICES.

Definition add_device (self : HubDriver) (b_max_packet_size addr : Z) :
    result unit DriverError * HubDriver :=
  UsbHost.add_device self addr (device_new addr b_max_packet_size).

Definition remove_device (self : HubDriver) (addr : Z) : HubDriver :=
  table_remove address self addr.

Definition tick (self : HubDriver) (millis : Z) (h : H) :
    outcome (result unit DriverError * HubDriver * H) :=
  tick_devices address (fsm millis) self h.

Definition running (d : HubDevice) : bool := match state d with Running => true | _ => false end.

(** A round of [tick_until_running_state]: the devices that are not running make a step each, at
    successive times. *)
Fixpoint hub_round (ds : HubDriver) (millis : Z) (h : H) :
    outcome (result unit DriverError * HubDriver * Z * H) :=
  match ds with
  | [] => Ret (Ok tt, [], millis, h)
  | None :: ds => '(r, ds, millis, h) ← hub_round ds millis h; Ret (r, None :: ds, millis, h)
  | Some dev :: ds =>
      if running dev then
        '(r, ds, millis, h) ← hub_round ds millis h; Ret (r, Some dev :: ds, millis, h)
      else
        '(r, dev, h) ← fsm millis dev h;
        match r with
        | Err (Permanent e) => Ret (Err (DriverPermanent (address dev) e), Some dev :: ds, millis, h)
        | _ =>
            millis ← add_w 64 millis 1;
            '(r, ds, millis, h) ← hub_round ds millis h; Ret (r, Some dev :: ds, millis, h)
        end
  end.

(** [tick_until_running_state], with a round every million turns of the loop. *)
Fixpoint hub_until_loop (fuel : nat) (self : HubDriver) (millis : Z) (h : H) :
    outcome (result unit DriverError * HubDriver * H) :=
  match fuel with
  | O => NoFuel
  | S fuel =>
      if forallb running (present self) then Ret (Ok tt, self, h)
      else
        millis ← add_w 64 millis 1;
        if negb (millis mod 1000000 =? 0) then hub_until_loop fuel self millis h
        else
          '(r, self, millis, h) ← hub_round self millis h;
          match r with
          | Err e => Ret (Err e, self, h)
          | Ok _ => hub_until_loop fuel self millis h
          end
  end.

Definition hub_tick_until_running_state (fuel : nat) (self : HubDriver) (h : H) :
    outcome (result unit DriverError * HubDriver * H) :=
  hub_until_loop fuel self 0 h.

End hub.
End HubDriver.

(** * Hosts that record the calls *)

Inductive host_call :=
  | CallControl (s : Setup)
  | CallRegisterHub (address : Z)
  | CallAssign (address port_index : Z) (is_low_speed : bool).

(** Any host, with the list of the calls made to it so far. *)
#[global] Instance logged_host {H} `{HH : USBHost H} : USBHost (H * list host_call) := {|
  control_transfer hl e s b :=
    '(r, e, b, h) ← control_transfer hl.1 e s b; Ret (r, e, b, (h, hl.2 ++ [CallControl s]));
  in_transfer hl e b := '(r, e, b, h) ← in_transfer hl.1 e b; Ret (r, e, b, (h, hl.2));
  out_transfer hl e b := '(r, e, h) ← out_transfer hl.1 e b; Ret (r, e, (h, hl.2));
  register_hub hl a :=
    '(r, h) ← register_hub hl.1 a; Ret (r, (h, hl.2 ++ [CallRegisterHub a]));
  assign_address hl a p l :=
    '(r, h) ← assign_address hl.1 a p l; Ret (r, (h, hl.2 ++ [CallAssign a p l]));
|}.

(** The calls that bring up a port with a device. *)
Definition port_sequence (address port_index : Z) (is_low_speed : bool) : list host_call :=
  [CallControl (HubDriver.port_out SetFeature HubDriver.PortPower port_index);
   CallControl (HubDriver.port_out ClearFeature HubDriver.CPortConnection port_index);
   CallControl (HubDriver.port_status port_index);
   CallControl (HubDriver.port_out SetFeature HubDriver.PortReset port_index);
   CallControl (HubDriver.port_out ClearFeature HubDriver.CPortReset port_index);
   CallControl (HubDriver.port_status port_index);
   CallAssign address port_index is_low_speed].

(** * A compliant hub *)

(** A hub whose ports have the given status words (low byte, high byte). *)
Module CompliantHub.

Record hub := mkHub { configuration : list Z; hub_desc : list Z; ports : list (Z * Z) }.

Definition status_bytes (self : hub) (port : Z) : list Z :=
  match ports self !! Z.to_nat (port - 1) with
  | Some (lo, hi) => [lo; hi; 0; 0]
  | None => [0; 0; 0; 0]
  end.

Definition reply (self : hub) (s : Setup) : list Z :=
  match request s with
  | GetDescriptor => if (w_value s).2 =? 0x29 then hub_desc self else configuration self
  | GetStatus => status_bytes self (w_index s)
  | _ => []
  end.

#[global] Instance compliant_hub : USBHost hub := {|
  control_transfer h e s buf :=
    let b := default [] buf in
    Ret (Ok (Z.of_nat (Nat.min (length b) (length (reply h s)))), e,
         take (length b) (reply h s) ++ drop (length (reply h s)) b, h);
  in_transfer h e b := Ret (Err (Retry "no change"), e, b, h);
  out_transfer h e b := Ret (Ok 0, e, h);
  register_hub h a := Ret (Ok tt, h);
  assign_address h a p l := Ret (Ok tt, h);
|}.

End CompliantHub.

(** * Lemmas *)

Import HubDriver.

Section hub_lemmas.
Context `{UH : UsbHostLib} {H : Type} `{HH : USBHost H} `{!USBHostLaws H}.
Context (uninit : nat -> list Z).
Implicit Types (d : HubDevice) (log : list host_call).

(** What stays the same of a hub during the initialisation of its ports. *)
Definition same_hub d0 d : Prop := exists e, d = set_ep0 e d0.

Lemma same_hub_refl d : same_hub d d.
Proof. exists (ep0 d). by destruct d. Qed.

(** A request is logged, whatever its result. *)
Lemma request_logged d0 s buf d (h : H) log r d' h' log' :
  same_hub d0 d ->
  request_ep0 s buf d (h, log) = Ret (r, d', (h', log')) ->
  same_hub d0 d' /\ log' = log ++ [CallControl s].
Proof.
  intros (e & ->) Hrun. unfold request_ep0, control in Hrun. simpl in Hrun.
  apply bind_Ret_inv in Hrun as ([[[ra ep] b] ha] & Hc & Hrun).
  apply bind_Ret_inv in Hc as ([[[rb ep'] b'] hb] & _ & Hc). simplify_eq.
  split; [|done]. by exists ep.
Qed.

(** How far the initialisation of a port got. *)
Definition port_progress d0 (port_index : Z) log (r : result unit TransferError) d' log' : Prop :=
  exists l low, log' = log ++ l /\ l `prefix_of` port_sequence (address d0) port_index low /\
    match r with
    | Err _ => same_hub d0 d' /\ (0 < length l <= 6)%nat
    | Ok _ => same_hub (set_state (InitPort (port_index + 1)) d0) d' /\
        (length l = 3%nat \/ l = port_sequence (address d0) port_index low)
    end.

Lemma same_hub_set_state d0 d s : same_hub d0 d -> same_hub (set_state s d0) (set_state s d).
Proof. intros (e & ->). by exists e. Qed.

(** After the status request: an unconnected port is left, else the reset follows. *)
Lemma init_port_step d0 s buf (f : Z * list Z -> driver HubDevice (H * list host_call) unit)
    d h log r d' h' log' :
  same_hub d0 d ->
  (request_ep0 s buf ≫= f) d (h, log) = Ret (r, d', (h', log')) ->
  (exists a d1 h1, same_hub d0 d1 /\
     f a d1 (h1, log ++ [CallControl s]) = Ret (r, d', (h', log'))) \/
  (exists e, r = Err e /\ same_hub d0 d' /\ log' = log ++ [CallControl s]).
Proof.
  intros Hd [(a & d1 & [h1 log1] & Hreq & Hf)|(e & Hreq & ->)]%driver_bind_inv.
  - eapply request_logged in Hreq as [Hd1 ->]; [|done]. left. eauto.
  - eapply request_logged in Hreq as [Hd1 ->]; [|done]. right. eauto.
Qed.

Lemma init_port_done d0 d next h log r d' h' log' port_index :
  same_hub d0 d ->
  (n ← lift next; modify (set_state (InitPort n))) d (h, log)
    = Ret (r, d', (h', log')) -> next = add_w 8 port_index 1 ->
  r = Ok tt /\ same_hub (set_state (InitPort (port_index + 1)) d0) d' /\ log' = log /\
  h' = h :> H.
Proof.
  intros Hd Hrun ->. unfold mbind, driver_bind, lift, add_w in Hrun.
  destruct (decide _); [|done]. simpl in Hrun. unfold modify in Hrun. simplify_eq.
  split; [done|]. split; [by apply same_hub_set_state|done].
Qed.

Ltac next_request Hrun :=
  let a := fresh "len" in let b := fresh "b" in let d := fresh "d" in
  let h := fresh "h" in let Hd := fresh "Hd" in let e := fresh "e" in
  eapply init_port_step in Hrun as [([a b] & d & h & Hd & Hrun)|(e & -> & Hd & ->)];
    [|shelve|eassumption].

Lemma init_port_progress d0 port_index d (h : H) log r d' h' log' :
  same_hub d0 d ->
  init_port d0 port_index d (h, log) = Ret (r, d', (h', log')) ->
  port_progress d0 port_index log r d' log'.
Proof.
  intros Hd Hrun. unfold init_port, init_connected_port in Hrun.
  next_request Hrun.
  next_request Hrun.
  next_request Hrun.
  case_match.
  { eapply init_port_done in Hrun as (-> & Hd' & -> & _); [|eassumption|done].
    eexists _, false. rewrite <- !app_assoc. split; [reflexivity|].
    split; [by eexists|]. split; [done|by left]. }
  next_request Hrun.
  next_request Hrun.
  next_request Hrun.
  cbv zeta in Hrun. set (low := negb _) in Hrun.
  apply driver_bind_inv in Hrun as [([] & d7 & [h7 log7] & Ha & Hrun)|(e & Ha & ->)].
  - unfold unwrap_host in Ha. simpl in Ha.
    apply bind_Ret_inv in Ha as ([rr hh] & Hb & Ha).
    apply bind_Ret_inv in Hb as ([rr' hh'] & _ & Hb). simplify_eq.
    destruct rr; [|done]. simplify_eq.
    eapply init_port_done in Hrun as (-> & Hd' & -> & _); [|eassumption|done].
    eexists _, low. rewrite <- !app_assoc. split; [reflexivity|].
    split; [by eexists|]. split; [done|by right].
  - unfold unwrap_host in Ha. apply bind_Ret_inv in Ha as ([rr hh] & _ & Ha). by destruct rr.
  Unshelve.
  all: eexists _, false; rewrite <- ?app_assoc; split; [reflexivity|];
    split; [by eexists|split; [done|simpl; lia]].
Qed.

(** * The calls of a whole run *)

(** The ports that got an address. *)
Definition assigned log : list Z :=
  omap (fun c => match c with CallAssign _ p _ => Some p | _ => None end) log.

Definition quiet {A} (m : driver HubDevice (H * list host_call) A) : Prop :=
  forall d h log r d' h' log', m d (h, log) = Ret (r, d', (h', log')) ->
    assigned log' = assigned log.

Lemma quiet_bind {A B} (m : driver HubDevice (H * list host_call) A)
    (f : A -> driver HubDevice (H * list host_call) B) :
  quiet m -> (forall a, quiet (f a)) -> quiet (m ≫= f).
Proof.
  intros Hm Hf d h log r d' h' log'
    [(a & d1 & [h1 log1] & Ha & Hfa)|(e & He & _)]%driver_bind_inv.
  - apply Hf in Hfa as ->. by apply Hm in Ha.
  - by apply Hm in He.
Qed.

Lemma assigned_app l1 l2 : assigned (l1 ++ l2) = assigned l1 ++ assigned l2.
Proof. apply omap_app. Qed.

Lemma quiet_request s buf : quiet (request_ep0 (H := H * list host_call) s buf).
Proof.
  intros d h log r d' h' log' Hrun.
  eapply request_logged in Hrun as [_ ->]; [|apply same_hub_refl].
  rewrite assigned_app. simpl. apply app_nil_r.
Qed.

Lemma quiet_lift {A} (o : outcome A) : quiet (lift o).
Proof. intros d h log r d' h' log' Hrun. unfold lift in Hrun. destruct o; by simplify_eq/=. Qed.

Lemma quiet_modify f : quiet (modify f).
Proof. intros d h log r d' h' log' Hrun. unfold modify in Hrun. by simplify_eq. Qed.

Lemma quiet_fail {A} e : quiet (fail (A := A) e).
Proof. intros d h log r d' h' log' Hrun. unfold fail in Hrun. by simplify_eq. Qed.

Lemma quiet_register a :
  quiet (unwrap_host (H := H * list host_call) (fun h => register_hub h a)).
Proof.
  intros d h log r d' h' log' Hrun. unfold unwrap_host in Hrun. simpl in Hrun.
  apply bind_Ret_inv in Hrun as ([rr hh] & Hb & Hrun).
  apply bind_Ret_inv in Hb as ([rr' hh'] & _ & Hb). simplify_eq.
  destruct rr; [|done]. simplify_eq. rewrite assigned_app. simpl. apply app_nil_r.
Qed.

Ltac solve_quiet :=
  repeat first
    [ apply quiet_request | apply quiet_lift | apply quiet_modify | apply quiet_fail
    | apply quiet_register | apply quiet_bind; [|intros ?; cbv beta zeta]
    | case_match ].

(** The states before the ports. *)
Definition before_ports (s : HubState) : bool :=
  match s with InitPort _ | Running => false | _ => true end.

Lemma fsm_before_quiet m d h log r d' h' log' :
  before_ports (state d) = true ->
  fsm (H := H * list host_call) uninit m d (h, log) = Ret (r, d', (h', log')) ->
  assigned log' = assigned log.
Proof.
  intros Hb Hrun. unfold fsm in Hrun. rewrite driver_get in Hrun.
  match type of Hrun with ?m _ _ = _ => assert (Hq : quiet m); [|by eapply Hq] end.
  destruct (state d); try done; solve_quiet.
Qed.

(** Their order: they end with the first port. *)
Definition early (d : HubDevice) : Prop :=
  before_ports (state d) = true \/ state d = InitPort 0.

Lemma early_request s buf :
  triple (fun d => before_ports (state d) = true) (request_ep0 (H := H * list host_call) s buf)
    (fun r d => before_ports (state d) = true).
Proof.
  intros d [h log] r d' [h' log'] Hd Hrun.
  eapply request_logged in Hrun as [(e & ->) _]; [|apply same_hub_refl]. done.
Qed.

Lemma early_request_bind s buf (f : Z * list Z -> driver HubDevice (H * list host_call) unit) :
  (forall a, triple (fun d => before_ports (state d) = true) (f a) (fun _ => early)) ->
  triple (fun d => before_ports (state d) = true) (request_ep0 s buf ≫= f) (fun _ => early).
Proof.
  intros Hf. eapply triple_bind with (R := fun _ d => before_ports (state d) = true); [|done].
  intros d h r d' h' Hd Hrun. apply early_request in Hrun; [|done].
  destruct r; [done|by left].
Qed.

Lemma early_lift_bind {A} (o : outcome A) (f : A -> driver HubDevice (H * list host_call) unit) :
  (forall a, triple (fun d => before_ports (state d) = true) (f a) (fun _ => early)) ->
  triple (fun d => before_ports (state d) = true) (lift o ≫= f) (fun _ => early).
Proof.
  intros Hf d h r d' h' Hd Hrun. destruct o as [a| |]; [|done..].
  rewrite (driver_lift _ a) in Hrun by done. by eapply Hf.
Qed.

Lemma early_modify_bind g (f : unit -> driver HubDevice (H * list host_call) unit) :
  (forall d, state (g d) = state d) ->
  (forall a, triple (fun d => before_ports (state d) = true) (f a) (fun _ => early)) ->
  triple (fun d => before_ports (state d) = true) (modify g ≫= f) (fun _ => early).
Proof.
  intros Hg Hf d h r d' h' Hd Hrun.
  apply (Hf tt (g d) h r d' h'); [by rewrite Hg|exact Hrun].
Qed.

Lemma keep_configuration_state ds d : state (keep_configuration ds d) = state d.
Proof. unfold keep_configuration. revert d. induction ds as [|[] ds IH]; intros d; simpl; by rewrite ?IH. Qed.

Lemma fsm_before_early m d0 :
  before_ports (state d0) = true ->
  triple (fun d => d = d0) (fsm (H := H * list host_call) uninit m) (fun _ => early).
Proof.
  intros Hb. unfold fsm. apply triple_get_bind. intros d ->.
  apply triple_weaken with (fun d => before_ports (state d) = true); [|by intros d ->].
  assert (Hset : forall s, before_ports s = true \/ s = InitPort 0 ->
    triple (fun d => before_ports (state d) = true)
      (modify (H := H * list host_call) (set_state s)) (fun _ => early)).
  { intros s Hs. apply triple_modify. done. }
  destruct (state d0) eqn:Hst; try done.
  - apply Hset. by left.
  - apply early_request_bind. intros [len b]. apply early_lift_bind. intros _. cbv zeta.
    case_match; [apply triple_fail; by left|].
    apply early_request_bind. intros [len' b']. apply early_lift_bind. intros _.
    apply early_lift_bind. intros ds.
    apply early_modify_bind; [apply keep_configuration_state|]. intros _. apply Hset. by left.
  - apply early_lift_bind. intros c. apply early_request_bind. intros _.
    apply triple_bind with (R := fun _ d => before_ports (state d) = true);
      [apply triple_unwrap_host; intros d Hd; exact Hd|].
    intros _. apply Hset. by left.
  - apply early_request_bind. intros [len b]. cbv zeta.
    apply early_modify_bind; [done|]. intros _. apply Hset. by right.
Qed.

(** * Every port is addressed once at most *)

(** A call of the state machine for a hub on a logging host. *)
Definition hub_step (s s' : HubDevice * list host_call) : Prop :=
  exists m h r h', fsm (H := H * list host_call) uninit m s.1 (h, s.2)
    = Ret (r, s'.1, (h', s'.2)).

Definition ports_inv (s : HubDevice * list host_call) : Prop :=
  StronglySorted Z.lt (assigned s.2) /\
  (before_ports (state s.1) = true -> assigned s.2 = []) /\
  (forall p, state s.1 = InitPort p -> 0 <= p /\ Forall (fun q => 0 <= q < p) (assigned s.2)).

Lemma same_hub_fields d0 d : same_hub d0 d -> state d = state d0.
Proof. by intros (e & ->). Qed.

Lemma StronglySorted_snoc l p :
  StronglySorted Z.lt l -> Forall (fun q => q < p) l -> StronglySorted Z.lt (l ++ [p]).
Proof.
  induction 1 as [|x l Hl IH Hx]; intros Hp; simpl.
  - repeat constructor.
  - apply Forall_cons in Hp as [Hxp Hp]. constructor; [by apply IH|].
    apply Forall_app_2; [done|by constructor].
Qed.

Lemma ports_inv_progress d p log r d' log' :
  state d = InitPort p -> ports_inv (d, log) -> port_progress d p log r d' log' ->
  ports_inv (d', log').
Proof.
  intros Hst (Hsort & _ & Hall) (l & low & -> & Hpre & Hr). simpl in *.
  destruct (Hall p Hst) as [Hp0 Hlt].
  assert (Hl : (length l <= 6)%nat -> assigned l = []).
  { intros Hle. destruct Hpre as [k Hk].
    assert (l = take (length l) (port_sequence (address d) p low)) as ->.
    { by rewrite Hk, take_app_length. }
    generalize dependent (length l). intros n Hn.
    destruct n as [|[|[|[|[|[|[|n]]]]]]]; try reflexivity. lia. }
  unfold ports_inv. simpl. rewrite assigned_app. destruct r as [[]|e].
  - destruct Hr as [Hd' Hlen]. apply same_hub_fields in Hd'. simpl in Hd'. rewrite Hd'.
    destruct Hlen as [Hlen| ->].
    + rewrite Hl, app_nil_r by lia. split; [done|]. split; [done|].
      intros q [= <-]. split; [lia|]. eapply Forall_impl; [exact Hlt|]. simpl. lia.
    + simpl. split; [apply StronglySorted_snoc; [done|];
        eapply Forall_impl; [exact Hlt|]; simpl; lia|]. split; [done|].
      intros q [= <-]. split; [lia|]. apply Forall_app_2.
      * eapply Forall_impl; [exact Hlt|]. simpl. lia.
      * constructor; [lia|constructor].
  - destruct Hr as [Hd' Hlen]. apply same_hub_fields in Hd'. rewrite Hd', Hl, app_nil_r by lia.
    split; [done|]. split; [by rewrite Hst|]. rewrite Hst. intros q [= <-]. done.
Qed.

Lemma ports_inv_step s s' : ports_inv s -> hub_step s s' -> ports_inv s'.
Proof.
  destruct s as [d log], s' as [d' log']. intros Hinv (m & h & r & h' & Hrun). simpl in Hrun.
  destruct (before_ports (state d)) eqn:Hb.
  - destruct Hinv as (_ & Hnil & _). specialize (Hnil Hb). simpl in Hnil.
    apply fsm_before_quiet in Hrun as Hq; [|done]. rewrite Hnil in Hq.
    apply (fsm_before_early m d Hb) in Hrun as He; [|done].
    unfold ports_inv. simpl. rewrite Hq. split; [constructor|]. split; [done|].
    intros p Hp. split; [|constructor]. destruct He as [He|He]; rewrite Hp in He; [done|].
    by simplify_eq.
  - unfold fsm in Hrun. rewrite driver_get in Hrun.
    destruct (state d) as [| | | |p|] eqn:Hst; try done.
    + destruct (p <? number_of_ports d).
      * eapply init_port_progress in Hrun; [|apply same_hub_refl]. by eapply ports_inv_progress.
      * unfold modify in Hrun. simplify_eq. destruct Hinv as (Hs & _ & _).
        split; [done|]. done.
    + unfold mret, driver_ret in Hrun. simplify_eq. done.
Qed.

End hub_lemmas.

Section compliant_hub.
Context `{UH : UsbHostLib}.
Context (uninit : nat -> list Z).
Import CompliantHub.

(** The calls made for the port [p]. *)
Definition connected (h : hub) (p : Z) : bool :=
  negb (Z.land (hub_byte (status_bytes h (p + 1)) 0) 1 =? 0).

Definition low_speed (h : hub) (p : Z) : bool :=
  negb (Z.land (hub_byte (status_bytes h (p + 1)) 0 + 256 * hub_byte (status_bytes h (p + 1)) 1)
          (Z.shiftl 1 9) =? 0).

Definition port_calls (h : hub) (address p : Z) : list host_call :=
  if connected h p then port_sequence address p (low_speed h p)
  else take 3 (port_sequence address p false).

(** [n] calls of the state machine, all of which must succeed. *)
Fixpoint fsm_run (n : nat) (d : HubDevice) (hl : hub * list host_call) :
    outcome (HubDevice * (hub * list host_call)) :=
  match n with
  | O => Ret (d, hl)
  | S n =>
      '(r, d, hl) ← fsm uninit 0 d hl;
      match r with Ok _ => fsm_run n d hl | Err _ => Panic end
  end.

#[local] Arguments status_bytes : simpl never.
#[local] Arguments port_sequence : simpl never.

Lemma status_bytes_length h p : length (status_bytes h p) = 4%nat.
Proof. unfold status_bytes. by destruct (ports h !! _) as [[]|]. Qed.

Lemma request_none d s h log :
  reply h s = [] ->
  request_ep0 s None d (h, log) =
    Ret (Ok (0, []), d, (h, log ++ [CallControl s])).
Proof. intros Hr. unfold request_ep0, control. simpl. rewrite Hr. simpl. by destruct d. Qed.

Lemma request_status d p h log :
  request_ep0 (port_status p) (Some [0; 0; 0; 0]) d (h, log) =
    Ret (Ok (4, status_bytes h (p + 1)), d, (h, log ++ [CallControl (port_status p)])).
Proof.
  unfold request_ep0, control. simpl. change (reply h (port_status p)) with (status_bytes h (p + 1)).
  rewrite status_bytes_length. simpl.
  destruct d. simpl. do 4 f_equal. f_equal.
  pose proof (status_bytes_length h (p + 1)) as Hl.
  destruct (status_bytes h (p + 1)) as [|a [|b [|c [|e [|]]]]]; try done.
Qed.

(** One port of a compliant hub. *)
Lemma init_port_compliant d p h log :
  p + 1 < 2 ^ 8 ->
  init_port d p d (h, log) =
    Ret (Ok tt, set_state (InitPort (p + 1)) d, (h, log ++ port_calls h (address d) p)).
Proof.
  intros Hp. unfold init_port, init_connected_port, port_calls, connected.
  erewrite driver_bind_Ok; [|apply request_none; reflexivity]. cbv beta.
  erewrite driver_bind_Ok; [|apply request_none; reflexivity]. cbv beta.
  erewrite driver_bind_Ok; [|apply request_status]. cbv beta iota.
  destruct (Z.eqb_spec (Z.land (hub_byte (status_bytes h (p + 1)) 0) 1) 0); simpl negb; cbv iota.
  - rewrite (driver_lift _ (p + 1)) by by apply add_w_Ret.
    unfold modify. by rewrite <- !app_assoc.
  - erewrite driver_bind_Ok; [|apply request_none; reflexivity]. cbv beta.
    erewrite driver_bind_Ok; [|apply request_none; reflexivity]. cbv beta.
    erewrite driver_bind_Ok; [|apply request_status]. cbv beta iota zeta.
    fold (low_speed h p).
    erewrite driver_bind_Ok; [|unfold unwrap_host; simpl; reflexivity].
    rewrite (driver_lift _ (p + 1)) by by apply add_w_Ret.
    unfold modify. by rewrite <- !app_assoc.
Qed.

Lemma fsm_run_ports k : forall d p h log,
  state d = InitPort p -> number_of_ports d = p + Z.of_nat k -> number_of_ports d < 2 ^ 8 ->
  fsm_run (k + 1) d (h, log) =
    Ret (set_state Running d,
         (h, log ++ concat ((fun i => port_calls h (address d) (p + Z.of_nat i)) <$> seq 0 k))).
Proof.
  induction k as [|k IH]; intros d p h log Hst Hn Hmax; cbn [fsm_run Nat.add].
  - unfold fsm. rewrite driver_get, Hst. rewrite (proj2 (Z.ltb_ge _ _)) by lia.
    simpl. by rewrite app_nil_r.
  - unfold fsm. rewrite driver_get, Hst. rewrite (proj2 (Z.ltb_lt _ _)) by lia.
    rewrite init_port_compliant by lia. cbn [mbind outcome_bind].
    rewrite (IH _ (p + 1)) by (simpl; done || lia).
    assert (Hl : concat ((fun i => port_calls h (address d) (p + Z.of_nat i)) <$> seq 0 (S k)) =
      port_calls h (address d) p ++
      concat ((fun i => port_calls h (address d) (p + 1 + Z.of_nat i)) <$> seq 0 k)).
    { rewrite <- cons_seq, fmap_cons. simpl. rewrite Z.add_0_r. do 2 f_equal.
      rewrite <- (fmap_S_seq 0 k), <- list_fmap_compose.
      apply list_fmap_ext. intros i x _. simpl. f_equal. lia. }
    by rewrite Hl, app_assoc.
Qed.

End compliant_hub.

Section hub_properties.
Context `{UH : UsbHostLib} {H : Type} `{HH : USBHost H} `{!USBHostLaws H}.
Context (uninit : nat -> list Z).

(** C14: no port of a hub is addressed twice.  Whatever the host answers, also when
    transfers fail and are tried again, the calls of [assign_address] that the state
    machine of a hub makes over its whole life are for strictly increasing ports. *)
Theorem hub_ports_once addr0 max_packet_size d log :
  rtc (hub_step (H := H) uninit) (device_new addr0 max_packet_size, []) (d, log) ->
  StronglySorted Z.lt (assigned log).
Proof.
  intros Hrun. apply (rtc_invariant _ ports_inv) in Hrun as [Hs _]; [done| |].
  - intros s1 s2. apply ports_inv_step.
  - split; [constructor|]. split; [done|]. intros p Hp. done.
Qed.

(** C32: how a port is brought up.  A call of the state machine on port [p] makes a
    prefix of the sequence power on, clear connection change, get status, reset,
    clear reset change, get status, assign address.  It moves on to port [p + 1]
    exactly when it returned [Ok], after the status said that nothing is connected
    or after the whole sequence; any failed transfer leaves the port to be brought
    up again from the start; so a device is addressed only after its reset. *)
Theorem hub_port_sequence d p m (h : H) log r d' h' log' :
  state d = InitPort p -> p < number_of_ports d ->
  fsm uninit m d (h, log) = Ret (r, d', (h', log')) ->
  exists l low, log' = log ++ l /\ l `prefix_of` port_sequence (address d) p low /\
    match r with
    | Err _ => state d' = InitPort p /\ (0 < length l <= 6)%nat
    | Ok _ => state d' = InitPort (p + 1) /\
        (length l = 3%nat \/ l = port_sequence (address d) p low)
    end.
Proof.
  intros Hst Hp Hrun. unfold fsm in Hrun. rewrite driver_get, Hst in Hrun.
  rewrite (proj2 (Z.ltb_lt _ _)) in Hrun by done.
  eapply init_port_progress in Hrun as (l & low & Hl & Hpre & Hr); [|apply same_hub_refl].
  exists l, low. split; [done|]. split; [done|].
  destruct r as [[]|e]; destruct Hr as [Hd' Hlen]; apply same_hub_fields in Hd' as ->; done.
Qed.

(** C27: every connected port gets an address.  On a hub that answers its requests,
    from the first port on, one call per port and one more bring the driver to
    [Running]; the calls made are, port by port, those for a connected or an
    unconnected port, with the speed that the port reported. *)
Theorem hub_all_ports d (h : CompliantHub.hub) log :
  state d = InitPort 0 -> 0 <= number_of_ports d < 2 ^ 8 ->
  fsm_run uninit (Z.to_nat (number_of_ports d) + 1) d (h, log) =
    Ret (set_state Running d,
         (h, log ++ concat ((fun i => port_calls h (address d) (Z.of_nat i))
                              <$> seq 0 (Z.to_nat (number_of_ports d))))).
Proof.
  intros Hst [H0 Hmax]. rewrite (fsm_run_ports uninit _ d 0) by (done || lia). done.
Qed.

End hub_properties.

(** The power-on delay of a hub is not what the driver reads.  The bytes of a
    hub descriptor are packed (USB 2.0, 11.23.2.1): the power-on time is byte 5 and
    the current is byte 6.  Read through the [repr(C)] structure, with its padding
    after the third byte, [b_pwr_on_2_pwr_good] is the current. *)
Theorem hub_descriptor_misread len ty ports c0 c1 power_time current removable :
  let d := hub_descriptor_of [len; ty; ports; c0; c1; power_time; current; removable] in
  b_nbr_ports d = ports /\ b_pwr_on_2_pwr_good d = current /\
  w_hub_characteristics d = c1 + 256 * power_time.
Proof. done. Qed.

(** * Witnesses *)

Module HubExamples.

(** A hub with a low-speed device on its second port. *)
Definition two_ports : CompliantHub.hub :=
  CompliantHub.mkHub [9; 2; 9; 0; 0; 3; 0; 224; 0] [9; 41; 2; 0; 0; 50; 100; 0]
    [(0, 1); (1, 3)].

Definition device (s : HubState) : HubDevice :=
  mkHubDevice s 7 (endpoint_new 7 0 0 Control DirIn 64) None 2 0.

#[global] Instance compliant_hub_laws : USBHostLaws CompliantHub.hub.
Proof. split; simpl; intros; by simplify_eq. Qed.

End HubExamples.

Lemma hub_ports_once_witness :
  StronglySorted Z.lt (assigned []) /\
  rtc (hub_step (H := CompliantHub.hub) (fun n => replicate n 0)) (device_new 7 64, [])
    (set_state GetConfig (device_new 7 64), []).
Proof.
  assert (Hrun : rtc (hub_step (H := CompliantHub.hub) (fun n => replicate n 0))
    (device_new 7 64, []) (set_state GetConfig (device_new 7 64), [])).
  { eapply rtc_l; [|apply rtc_refl]. exists 0, HubExamples.two_ports, (Ok tt), HubExamples.two_ports.
    reflexivity. }
  split; [|exact Hrun]. exact (hub_ports_once (fun n => replicate n 0) 7 64 _ [] Hrun).
Defined.

Lemma hub_port_sequence_witness :
  exists d' log', fsm (fun n => replicate n 0) 0 (HubExamples.device (InitPort 1))
      (HubExamples.two_ports, []) = Ret (Ok tt, d', (HubExamples.two_ports, log')) /\
    exists l low, log' = [] ++ l /\ l `prefix_of` port_sequence 7 1 low /\
      state d' = InitPort 2 /\ (length l = 3%nat \/ l = port_sequence 7 1 low).
Proof.
  exists (HubExamples.device (InitPort 2)), (port_sequence 7 1 true).
  split; [reflexivity|].
  exact (hub_port_sequence (fun n => replicate n 0) (HubExamples.device (InitPort 1)) 1 0
    HubExamples.two_ports [] (Ok tt) _ HubExamples.two_ports _ eq_refl eq_refl eq_refl).
Defined.

Lemma hub_all_ports_witness :
  fsm_run (fun n => replicate n 0)
      (Z.to_nat (number_of_ports (HubExamples.device (InitPort 0))) + 1)
      (HubExamples.device (InitPort 0)) (HubExamples.two_ports, []) =
    Ret (HubExamples.device Running,
         (HubExamples.two_ports,
          take 3 (port_sequence 7 0 false) ++ port_sequence 7 1 true)).
Proof.
  assert (Hn : 0 <= number_of_ports (HubExamples.device (InitPort 0)) < 2 ^ 8) by (simpl; lia).
  pose proof (hub_all_ports (fun n => replicate n 0) (HubExamples.device (InitPort 0))
    HubExamples.two_ports [] eq_refl Hn) as Hrun.
  etransitivity; [exact Hrun|]. reflexivity.
Defined.
