(* ===== verification/ClassDrivers.v ===== *)
(** [ClassDriverManager] of [kernel/src/usb/class_driver.rs]: the mouse, keyboard and
    hub drivers with the slot each of them serves. *)
From S2P Require Import Prelude Descriptor UsbHost InputDriver Hub.

Section class_drivers.
Context `{UH : UsbHostLib}.

(** [DriverInfo]. *)
Record DriverInfo (T : Type) := mkDriverInfo { slot_id : option Z; driver : T }.
#[global] Arguments mkDriverInfo {T} _ _.
#[global] Arguments slot_id {T} _.
#[global] Arguments driver {T} _.

Inductive DriverKind := Mouse | Keyboard | HubKind.

Record ClassDriverManager := mkManager {
  mouse : DriverInfo InputOnlyDriver;
  keyboard : DriverInfo InputOnlyDriver;
  hub : DriverInfo HubDriver.HubDriver;
}.

(** [MAX_DEVICES] and [MAX_ENDPOINTS] of [keyboard.rs] and [mouse.rs]. *)
Definition MAX_DEVICES : nat := 32.
Definition MAX_ENDPOINTS : nat := 2.

Definition manager_new : ClassDriverManager :=
  mkManager (mkDriverInfo None (driver_new MAX_DEVICES ep_for_mouse))
    (mkDriverInfo None (driver_new MAX_DEVICES ep_for_bootkbd))
    (mkDriverInfo None HubDriver.new).

Definition driver_kind (self : ClassDriverManager) (slot : Z) : option DriverKind :=
  if match slot_id (mouse self) with Some s => s =? slot | None => false end then Some Mouse
  else if match slot_id (keyboard self) with Some s => s =? slot | None => false end
  then Some Keyboard
  else None.

(** [add_device!]; every driver wants every device.  The slot is recorded before the
    driver is asked whether it has room. *)
Definition add_mouse_device (self : ClassDriverManager) (slot b_max_packet_size addr : Z) :
    result unit DriverError * ClassDriverManager :=
  let '(r, d) := driver_add_device MAX_ENDPOINTS (driver (mouse self)) b_max_packet_size addr in
  (r, mkManager (mkDriverInfo (Some slot) d) (keyboard self) (hub self)).

Definition add_keyboard_device (self : ClassDriverManager) (slot b_max_packet_size addr : Z) :
    result unit DriverError * ClassDriverManager :=
  let '(r, d) := driver_add_device MAX_ENDPOINTS (driver (keyboard self)) b_max_packet_size addr in
  (r, mkManager (mouse self) (mkDriverInfo (Some slot) d) (hub self)).

Definition add_hub_device (self : ClassDriverManager) (slot b_max_packet_size addr : Z) :
    result unit DriverError * ClassDriverManager :=
  let '(r, d) := HubDriver.add_device (driver (hub self)) b_max_packet_size addr in
  (r, mkManager (mouse self) (keyboard self) (mkDriverInfo (Some slot) d)).

(** * Lemmas *)

(** The kind of a slot is never [Hub], not even for the slot of the hub driver. *)
Lemma driver_kind_not_hub self slot : driver_kind self slot <> Some HubKind.
Proof. unfold driver_kind. by repeat case_match. Qed.

(** A keyboard added after another takes over the slot of the driver: the slot of the
    first one is no longer a keyboard to [driver_kind], although its device is still
    in the table. *)
Lemma second_keyboard_shadows_first self s1 s2 p1 p2 a1 a2 r1 m1 r2 m2 :
  add_keyboard_device self s1 p1 a1 = (r1, m1) ->
  add_keyboard_device m1 s2 p2 a2 = (r2, m2) -> s1 <> s2 ->
  driver_kind m2 s1 <> Some Keyboard /\ slot_id (keyboard m2) = Some s2.
Proof.
  unfold add_keyboard_device. intros H1 H2 Hne.
  destruct (driver_add_device _ (driver (keyboard self)) _ _) as [? d1]. simplify_eq/=.
  destruct (driver_add_device _ d1 _ _) as [? d2]. simplify_eq/=. split; [|done].
  unfold driver_kind. simpl. rewrite (proj2 (Z.eqb_neq s2 s1)) by done. by case_match.
Qed.

End class_drivers.
