(* ===== verification/Log.v ===== *)
(** Log: the text of a log message ([kernel-lib/src/logger.rs]) and the serial port
    ([kernel/src/serial.rs]). *)
From S2P Require Import Prelude.

(** Characters are numbers. *)
Abbreviation text := (list Z) (only parsing).
Definition newline : Z := 10.
Definition carriage_return : Z := 13.

(** * The logger *)

(** [str::lines]: the parts that end in a newline, or in a carriage return and a newline, and the
    rest if there is any. *)
Fixpoint lines (s : text) : list text :=
  match s with
  | [] => []
  | c :: s =>
      if c =? newline then [] :: lines s
      else if (c =? carriage_return) && bool_decide (head s = Some newline) then lines s
      else match lines s with
           | [] => [[c]]
           | l :: ls => (c :: l) :: ls
           end
  end.

(** [{:>n}] and [{:03}]. *)
Definition pad_left (n : nat) (fill : Z) (s : text) : text := replicate (n - length s) fill ++ s.

Fixpoint decimal_from (fuel : nat) (n : Z) (s : text) : text :=
  match fuel with
  | O => s
  | S fuel => let s := (48 + n mod 10) :: s in if n / 10 =? 0 then s else decimal_from fuel (n / 10) s
  end.
(** A [u32] has at most ten digits. *)
Definition decimal (n : Z) : text := decimal_from 10 n [].

Section logger.
Context (level file : text) (line : Z).

(** The writer takes what it is given: [out] is what it has. *)
Record DecoratedLog := mkLog { out : text; at_line_start : bool }.

(** ["[{:>5}]: {:>12}@{:03}: "] and ["{}: "]. *)
Definition line_head : text :=
  [91] ++ pad_left 5 32 level ++ [93; 58; 32] ++ pad_left 12 32 file ++ [64] ++
  pad_left 3 48 (decimal line) ++ [58; 32].
Definition next_line_head : text := level ++ [58; 32].

Definition write_str (s : text) (self : DecoratedLog) : DecoratedLog :=
  let ls := lines s in
  let first := default [] (head ls) in
  let o := (if at_line_start self then out self ++ line_head else out self) ++ first in
  let o := o ++ concat ((fun l => newline :: next_line_head ++ l) <$> tail ls) in
  if bool_decide (last s = Some newline) then mkLog (o ++ [newline]) true
  else mkLog o false.

(** [DecoratedLog::write]: the pieces of the message and the newline of [writeln!]. *)
Definition log_write (pieces : list text) (o : text) : text :=
  out (foldl (fun self s => write_str s self) (mkLog o true) (pieces ++ [[newline]])).

(** * Lemmas *)

Definition no_return (s : text) : Prop := carriage_return ∉ s.

(** A text without the carriage returns that stand before a newline: [str::lines] takes one away from
    the end of a line. *)
Fixpoint drop_returns (s : text) : text :=
  match s with
  | [] => []
  | c :: s =>
      if (c =? carriage_return) && bool_decide (head s = Some newline) then drop_returns s
      else c :: drop_returns s
  end.

Lemma drop_returns_none s : no_return s -> drop_returns s = s.
Proof.
  unfold no_return. induction s as [|c s IH]; [done|]. intros [Hc Hs]%not_elem_of_cons. simpl.
  rewrite (proj2 (Z.eqb_neq _ _)) by congruence. simpl. by rewrite IH.
Qed.

Lemma drop_returns_all pieces : Forall no_return pieces -> drop_returns <$> pieces = pieces.
Proof. induction 1 as [|s pieces Hs _ IH]; [done|]. cbn. by rewrite drop_returns_none, IH. Qed.

Lemma drop_returns_last s : last (drop_returns s) = Some newline <-> last s = Some newline.
Proof.
  induction s as [|c s IH]; [done|]. cbn [drop_returns].
  destruct s as [|c' s]; [by destruct (c =? carriage_return)|].
  rewrite last_cons_cons, <- IH. destruct ((c =? carriage_return) && _); [done|].
  assert (drop_returns (c' :: s) <> []) as Hne.
  { clear. revert c'. induction s as [|c s IH]; intros c'; cbn [drop_returns].
    - by destruct (c' =? carriage_return).
    - destruct ((c' =? carriage_return) && _); [apply IH|done]. }
  by destruct (drop_returns (c' :: s)).
Qed.

(** The parts of a text: the lines that are finished and the rest. *)
Definition unlines (ls : list text) (rest : text) : text :=
  concat ((fun l => l ++ [newline]) <$> ls) ++ rest.

Lemma unlines_cons l ls rest : unlines (l :: ls) rest = l ++ (newline :: unlines ls rest).
Proof. unfold unlines. simpl. by rewrite <- !app_assoc. Qed.

Lemma lines_unlines s : exists ls rest, drop_returns s = unlines ls rest /\ (newline ∉ rest) /\
  Forall (fun l => newline ∉ l) ls /\ (rest = [] -> lines s = ls) /\ (rest <> [] -> lines s = ls ++ [rest]).
Proof.
  induction s as [|c s (ls & rest & Hs & Hr & Hls & He & Hne)].
  { exists [], []. repeat split; try done. by intros ?%elem_of_nil. }
  cbn [lines drop_returns]. destruct (Z.eqb_spec c newline) as [->|Hn].
  - change (newline =? carriage_return) with false. cbn [andb].
    exists ([] :: ls), rest. rewrite Hs at 1. split; [by rewrite unlines_cons|]. split; [done|].
    split; [constructor; [by intros ?%elem_of_nil|done]|].
    split; intros Hrest; [by rewrite He|by rewrite Hne].
  - destruct ((c =? carriage_return) && _); [by exists ls, rest|].
    destruct ls as [|l ls].
    + exists [], (c :: rest). split; [by rewrite Hs|]. split; [rewrite not_elem_of_cons; done|].
      split; [done|]. split; [done|]. intros _. destruct rest as [|c' rest]; [by rewrite He|by rewrite Hne].
    + exists ((c :: l) :: ls), rest. apply Forall_cons in Hls as [Hl Hls].
      split; [rewrite Hs at 1; by rewrite !unlines_cons|]. split; [done|].
      split; [constructor; [rewrite not_elem_of_cons; done|done]|].
      split; intros Hrest; [rewrite He by done; done|rewrite Hne by done; done].
Qed.

(** Lines with what stands before them. *)
Definition decorated (ds : list (text * text)) : text := concat ((fun d => d.1 ++ d.2 ++ [newline]) <$> ds).

Lemma decorated_app ds ds' : decorated (ds ++ ds') = decorated ds ++ decorated ds'.
Proof. unfold decorated. by rewrite fmap_app, concat_app. Qed.

Lemma decorated_one d r : decorated [(d, r)] = d ++ r ++ [newline].
Proof. unfold decorated. simpl. by rewrite app_nil_r. Qed.

Lemma decorate_parts ps : forall d x, exists ds d' r,
  d ++ x ++ concat ((fun l => newline :: next_line_head ++ l) <$> ps) = decorated ds ++ d' ++ r /\
  ds.*2 ++ [r] = x :: ps /\ ds.*1 ++ [d'] = d :: replicate (length ps) next_line_head.
Proof.
  induction ps as [|p ps IH]; intros d x.
  - exists [], d, x. simpl. by rewrite app_nil_r.
  - destruct (IH next_line_head p) as (ds & d' & r & Heq & H2 & H1). exists ((d, x) :: ds), d', r.
    split; [|split; [exact (f_equal (cons x) H2)|exact (f_equal (cons d) H1)]].
    unfold decorated. cbn [fmap list_fmap concat fst snd]. fold (decorated ds). rewrite <- !app_assoc.
    rewrite <- Heq. simpl. by rewrite <- !app_assoc.
Qed.

Lemma last_newline ls rest : newline ∉ rest ->
  last (unlines ls rest) = Some newline <-> rest = [] /\ ls <> [].
Proof.
  intros Hr. unfold unlines. destruct rest as [|c rest] using rev_ind.
  - rewrite app_nil_r. destruct ls as [|l ls] using rev_ind; [split; [done|by intros [_ ?]]|].
    rewrite fmap_app, concat_app. simpl. rewrite app_nil_r, app_assoc, last_snoc.
    split; [|done]. intros _. split; [done|]. by destruct ls.
  - rewrite app_assoc, last_snoc. split; [intros [= ->]; exfalso; apply Hr, elem_of_app; right; by left|].
    intros [Hn _]. by destruct rest.
Qed.

(** What the log has of the message so far: its lines, each after a head, the first one after the
    whole head; and the line that is not finished. *)
Definition heads_ok (heads : list text) : Prop :=
  Forall (fun d => d = line_head \/ d = next_line_head) heads /\ forall d, head heads = Some d -> d = line_head.

Definition log_shows (o : text) (self : DecoratedLog) (message : text) : Prop :=
  exists ds cur, heads_ok (ds.*1 ++ cur.*1) /\ Forall (fun l => newline ∉ l) (ds.*2 ++ cur.*2) /\
    out self = o ++ decorated ds ++ concat ((fun d => d.1 ++ d.2) <$> cur) /\
    message = unlines ds.*2 (concat cur.*2) /\
    if at_line_start self then cur = [] else exists d l, cur = [(d, l)].

Lemma unlines_app a b r : unlines (a ++ b) r = unlines a [] ++ unlines b r.
Proof. unfold unlines. by rewrite fmap_app, concat_app, app_nil_r, app_assoc. Qed.

Lemma unlines_rest a r : unlines a r = unlines a [] ++ r.
Proof. unfold unlines. by rewrite app_nil_r. Qed.

Lemma unlines_parts ls rest x ps a r l0 : ls ++ [rest] = x :: ps -> a ++ [r] = (l0 ++ x) :: ps ->
  l0 ++ unlines ls rest = unlines a r.
Proof.
  intros H1 H2. destruct ls as [|y ls]; simpl in H1; injection H1 as <- <-.
  - destruct a as [|z a]; simpl in H2; [by injection H2 as ->|]. by destruct a.
  - change ((l0 ++ y) :: ls ++ [rest]) with (((l0 ++ y) :: ls) ++ [rest]) in H2.
    apply app_inj_tail in H2 as [-> ->]. by rewrite !unlines_cons, <- app_assoc.
Qed.

(** The line that is written on. *)
Lemma log_shows_open o self message : log_shows o self message ->
  exists ds d l, (if at_line_start self then out self ++ line_head else out self) = o ++ decorated ds ++ d ++ l /\
    heads_ok (ds.*1 ++ [d]) /\ Forall (fun l => newline ∉ l) (ds.*2 ++ [l]) /\ message = unlines ds.*2 l.
Proof.
  intros (ds & cur & Hh & Hl & -> & -> & Hat). exists ds. destruct (at_line_start self).
  - subst cur. simpl in *. rewrite !app_nil_r in *. exists line_head, [].
    split; [by rewrite <- !app_assoc, app_nil_r|]. split; [|split; [|done]].
    + destruct Hh as [Hall Hhead]. split.
      * apply Forall_app. split; [done|]. apply Forall_singleton. by left.
      * intros d Hd. destruct ds; simpl in *; [by injection Hd as <-|by apply Hhead].
    + apply Forall_app. split; [done|]. apply Forall_singleton. by intros ?%elem_of_nil.
  - destruct Hat as (d & l & ->). simpl in *. rewrite !app_nil_r. by exists d, l.
Qed.

Lemma heads_ok_parts ds d ds' d' n : heads_ok (ds ++ [d]) ->
  ds' ++ [d'] = d :: replicate n next_line_head -> heads_ok (ds ++ ds' ++ [d']).
Proof.
  intros [Hall Hhead] Heq. rewrite Heq. split.
  - apply Forall_app in Hall as [Hds Hd]. apply Forall_app. split; [done|].
    apply Forall_cons in Hd as [Hd _]. constructor; [done|]. apply Forall_replicate. by right.
  - intros e He. apply Hhead. by destruct ds.
Qed.

Lemma write_str_shows o self message s : log_shows o self message ->
  log_shows o (write_str s self) (message ++ drop_returns s).
Proof.
  intros (ds & d & l & Hout & Hh & Hl & ->)%log_shows_open. unfold write_str. rewrite Hout.
  destruct (lines_unlines s) as (ls & rest & Hs & Hr & Hls & Hnil & Hsome).
  remember (default [] (head (lines s))) as x eqn:Hxeq. remember (tail (lines s)) as ps eqn:Hpseq.
  destruct (decorate_parts ps d (l ++ x)) as (ds' & d' & r & Heq & H2 & H1).
  assert ((o ++ decorated ds ++ d ++ l) ++ x = o ++ decorated ds ++ d ++ l ++ x) as -> by (by rewrite <- !app_assoc).
  assert ((o ++ decorated ds ++ d ++ l ++ x) ++ concat ((fun l => newline :: next_line_head ++ l) <$> ps) =
    o ++ decorated ds ++ decorated ds' ++ d' ++ r) as -> by (rewrite <- Heq; by rewrite <- !app_assoc).
  apply Forall_app in Hl as [Hds Hl]. apply Forall_cons in Hl as [Hl _].
  pose proof (heads_ok_parts _ _ _ _ _ Hh H1) as Hheads.
  pose proof (last_newline ls rest Hr) as Hlast. rewrite <- Hs, drop_returns_last in Hlast.
  assert (Forall (fun l => newline ∉ l) (x :: ps) -> Forall (fun l => newline ∉ l) (ds'.*2 ++ [r])) as Hparts.
  { intros [Hx Hps]%Forall_cons. rewrite H2. constructor; [|done]. by rewrite elem_of_app; intros [|]. }
  destruct (bool_decide_reflect (last s = Some newline)) as [Hend|Hend].
  - apply Hlast in Hend as [-> Hne]. destruct ls as [|y ls]; [done|].
    assert (x = y /\ ps = ls) as [-> ->] by (rewrite Hxeq, Hpseq, Hnil by done; done).
    exists (ds ++ ds' ++ [(d', r)]), []. rewrite !app_nil_r, !fmap_app. cbn [fmap list_fmap fst snd out at_line_start].
    split; [done|]. split; [apply Forall_app; split; [done|apply Hparts; exact Hls]|].
    split; [rewrite !decorated_app, decorated_one; simpl; by rewrite ?app_nil_r, <- !app_assoc|].
    split; [|done]. rewrite H2. rewrite Hs at 1. simpl. rewrite (unlines_rest ds.*2 l).
    rewrite unlines_app, !unlines_cons, <- !app_assoc. done.
  - assert (ls ++ [rest] = x :: ps) as Hx.
    { destruct rest as [|c rest].
      - rewrite Hxeq, Hpseq, Hnil by done. destruct ls as [|y ls]; [done|]. exfalso. apply Hend. by apply Hlast.
      - rewrite Hxeq, Hpseq, Hsome by done. by destruct ls. }
    exists (ds ++ ds'), [(d', r)]. rewrite !fmap_app. cbn [fmap list_fmap fst snd out at_line_start concat].
    rewrite <- !app_assoc. split; [done|]. split.
    { apply Forall_app. split; [done|]. apply Hparts. rewrite <- Hx. apply Forall_app. split; [done|by constructor]. }
    split; [rewrite decorated_app, !app_nil_r, <- !app_assoc; done|]. split; [|by eexists _, _].
    rewrite app_nil_r, unlines_app, (unlines_rest ds.*2 l), <- app_assoc. rewrite Hs at 1. f_equal.
    by apply (unlines_parts ls rest x ps).
Qed.

Lemma write_strs_show o pieces : forall self message, log_shows o self message ->
  log_shows o (foldl (fun self s => write_str s self) self pieces) (message ++ concat (drop_returns <$> pieces)).
Proof.
  induction pieces as [|s pieces IH]; intros self message Hs; [simpl; by rewrite app_nil_r|].
  cbn [foldl fmap list_fmap concat]. rewrite app_assoc. apply IH. by apply write_str_shows.
Qed.

End logger.

(** * The serial port *)

(** The status register and the data register: what they give and take, and the time that a look
    at the status takes. *)
Class SerialPort (HW : Type) := {
  inb_status : HW -> Z * HW;
  outb_data : Z -> HW -> HW;
}.

Section serial.
Context `{SerialPort HW}.

Definition is_transmit_empty (hw : HW) : bool * HW :=
  let '(status, hw) := inb_status hw in (negb (Z.land status 0x20 =? 0), hw).

Fixpoint wait_transmit_empty (fuel : nat) (hw : HW) : outcome HW :=
  match fuel with
  | O => NoFuel
  | S fuel =>
      let '(empty, hw) := is_transmit_empty hw in
      if empty : bool then Ret hw else wait_transmit_empty fuel hw
  end.

Definition write_serial (fuel : nat) (byte : Z) (hw : HW) : outcome HW :=
  hw ← wait_transmit_empty fuel hw; Ret (outb_data byte hw).

Fixpoint write_serial_str (fuel : nat) (bytes : list Z) (hw : HW) : outcome HW :=
  match bytes with
  | [] => Ret hw
  | byte :: bytes => hw ← write_serial fuel byte hw; write_serial_str fuel bytes hw
  end.

(** [char::encode_utf8]. *)
Definition encode_utf8 (c : Z) : list Z :=
  if c <? 0x80 then [c]
  else if c <? 0x800 then [0xc0 + c / 64; 0x80 + c mod 64]
  else if c <? 0x10000 then [0xe0 + c / 4096; 0x80 + c / 64 mod 64; 0x80 + c mod 64]
  else [0xf0 + c / 262144; 0x80 + c / 4096 mod 64; 0x80 + c / 64 mod 64; 0x80 + c mod 64].

(** [SerialWriter::write_str]: a newline is sent with a carriage return before it. *)
Definition serial_bytes (c : Z) : list Z :=
  if c =? newline then [carriage_return; newline] else encode_utf8 c.

Fixpoint serial_write_str (fuel : nat) (s : text) (hw : HW) : outcome HW :=
  match s with
  | [] => Ret hw
  | c :: s => hw ← write_serial_str fuel (serial_bytes c) hw; serial_write_str fuel s hw
  end.

(** A port that sends what it is given, and is ready again after at most [latency] looks. *)
Class ReadyPort (sent : HW -> list Z) (busy : HW -> nat) (latency : nat) := {
  ready_status hw : exists status hw', inb_status hw = (status, hw') /\ sent hw' = sent hw /\
    (Z.land status 0x20 = 0 -> (busy hw' < busy hw)%nat);
  ready_data b hw : sent (outb_data b hw) = sent hw ++ [b];
  ready_again hw : (busy hw <= latency)%nat;
}.

Section ready.
Context (sent : HW -> list Z) (busy : HW -> nat) (latency : nat) `{!ReadyPort sent busy latency}.

Lemma wait_transmit_sent fuel : forall hw, (busy hw < fuel)%nat ->
  exists hw', wait_transmit_empty fuel hw = Ret hw' /\ sent hw' = sent hw.
Proof.
  induction fuel as [|fuel IH]; intros hw Hb; [lia|]. cbn [wait_transmit_empty]. unfold is_transmit_empty.
  destruct (ready_status hw) as (status & hw1 & -> & Hs & Hbusy).
  destruct (Z.eqb_spec (Z.land status 0x20) 0) as [Hz|Hz]; cbn [negb]; [|by exists hw1].
  destruct (IH hw1) as (hw' & Hrun & Hs'); [specialize (Hbusy Hz); lia|]. exists hw'. by rewrite Hs'.
Qed.

Lemma write_bytes_sent fuel bytes : (latency < fuel)%nat -> forall hw,
  exists hw', write_serial_str fuel bytes hw = Ret hw' /\ sent hw' = sent hw ++ bytes.
Proof.
  intros Hf. induction bytes as [|b bytes IH]; intros hw; cbn [write_serial_str].
  { exists hw. by rewrite app_nil_r. }
  unfold write_serial. pose proof (ready_again hw).
  destruct (wait_transmit_sent fuel hw) as (hw1 & -> & Hs); [lia|]. cbn [mbind outcome_bind].
  destruct (IH (outb_data b hw1)) as (hw' & -> & Hs'). exists hw'. split; [done|].
  by rewrite Hs', ready_data, Hs, <- app_assoc.
Qed.

(** The serial port gets every character, and a carriage return before each newline. *)
Lemma serial_write_str_sent fuel s : (latency < fuel)%nat -> forall hw,
  exists hw', serial_write_str fuel s hw = Ret hw' /\ sent hw' = sent hw ++ concat (serial_bytes <$> s).
Proof.
  intros Hf. induction s as [|c s IH]; intros hw; cbn [serial_write_str].
  { exists hw. by rewrite app_nil_r. }
  destruct (write_bytes_sent fuel (serial_bytes c) Hf hw) as (hw1 & -> & Hs1). cbn [mbind outcome_bind].
  destruct (IH hw1) as (hw' & -> & Hs'). exists hw'. split; [done|].
  rewrite Hs', Hs1. cbn [fmap list_fmap concat]. by rewrite <- app_assoc.
Qed.

End ready.
End serial.

(** * The text of a message *)

(** Whatever pieces a message is formatted in, the text ends a line exactly where the message does,
    loses nothing of it but the carriage returns before newlines, and every line stands after the level of the message; the first one, after
    its file and line too. *)
Lemma write_decorated level file line pieces o :
  exists ds, log_write level file line pieces o = o ++ decorated ds /\
    unlines ds.*2 [] = concat (drop_returns <$> pieces) ++ [newline] /\ Forall (fun l => newline ∉ l) ds.*2 /\
    head ds.*1 = Some (line_head level file line) /\
    Forall (fun d => d = line_head level file line \/ d = next_line_head level) ds.*1.
Proof.
  unfold log_write. rewrite foldl_snoc.
  assert (log_shows level file line o (mkLog o true) []) as H0.
  { exists [], []. split; [by split|]. split; [constructor|]. simpl. by rewrite app_nil_r. }
  apply (write_strs_show level file line o pieces) in H0.
  set (self := foldl _ _ pieces) in *. apply (write_str_shows level file line o self _ [newline]) in H0.
  destruct H0 as (ds & cur & [Hall Hhead] & Hl & -> & Hmsg & Hat).
  assert (cur = []) as -> by exact Hat. rewrite !app_nil_r in *. exists ds.
  split; [by rewrite ?app_nil_r|]. split; [exact (eq_sym Hmsg)|]. split; [done|]. split; [|done].
  destruct ds as [|[d l] ds]; [|cbn in *; by rewrite (Hhead d)].
  exfalso. unfold unlines in Hmsg. simpl in Hmsg. by destruct (concat (drop_returns <$> pieces)).
Qed.

Example log_two_lines :
  log_write [73; 78; 70; 79] [109; 46; 114; 115] 7 [[97; 10; 98]; [99]] [] =
  [91; 32; 73; 78; 70; 79; 93; 58; 32; 32; 32; 32; 32; 32; 32; 32; 32; 109; 46; 114; 115; 64; 48; 48; 55; 58; 32; 97;
   10; 73; 78; 70; 79; 58; 32; 98; 99; 10].
Proof. vm_compute. reflexivity. Qed.

(** The line ends of [serial_println!], which has a carriage return of its own. *)
Example serial_println_line_end :
  concat (serial_bytes <$> [carriage_return; newline]) = [carriage_return; carriage_return; newline].
Proof. reflexivity. Qed.
