(* ===== verification/Font.v ===== *)
(** Font: the table of glyphs that the macro [gen_font!] makes of the font file
    ([gen_font/src/lib.rs]). *)
From Stdlib Require Import Ascii String Sorted.
From S2P Require Import Prelude.

Abbreviation line := (list ascii) (only parsing).

(** * Strings *)

Definition dot : ascii := "."%char.

Definition is_whitespace (c : ascii) : bool :=
  let n := Z.of_nat (nat_of_ascii c) in (n =? 32) || ((9 <=? n) && (n <=? 13)).

(** [line.split_whitespace().next()]. *)
Fixpoint take_word (l : line) : line :=
  match l with
  | [] => []
  | c :: l => if is_whitespace c then [] else c :: take_word l
  end.
Fixpoint first_word (l : line) : option line :=
  match l with
  | [] => None
  | c :: l => if is_whitespace c then first_word l else Some (c :: take_word l)
  end.

(** [&s[2..]]. *)
Definition slice_from_2 (s : line) : outcome line :=
  match s with _ :: _ :: s => Ret s | _ => Panic end.

Definition hex_digit (c : ascii) : option Z :=
  let n := Z.of_nat (nat_of_ascii c) in
  if (48 <=? n) && (n <=? 57) then Some (n - 48)
  else if (97 <=? n) && (n <=? 102) then Some (n - 87)
  else if (65 <=? n) && (n <=? 70) then Some (n - 55)
  else None.

Definition bin_digit (c : ascii) : option Z :=
  if (c =? "0")%char then Some 0 else if (c =? "1")%char then Some 1 else None.

(** [from_str_radix] of a type of [w] bits: digits, at least one, perhaps after a plus sign. *)
Fixpoint digits (w radix : Z) (digit : ascii -> option Z) (acc : Z) (s : line) : option Z :=
  match s with
  | [] => Some acc
  | c :: s =>
      d ← digit c;
      let acc := acc * radix + d in
      if acc <? 2 ^ w then digits w radix digit acc s else None
  end.
Definition from_str_radix (w radix : Z) (digit : ascii -> option Z) (s : line) : option Z :=
  let s := match s with c :: (_ :: _) as s' => if (c =? "+")%char then s' else s | _ => s end in
  match s with [] => None | _ => digits w radix digit 0 s end.

(** * The macro *)

Record Font := mkFont { char_code : Z; bytes : list line }.

(** The code in a line such as [0x41]. *)
Definition code_of_line (l : line) : outcome (option Z) :=
  str_repr ← unwrap (first_word l);
  hex ← slice_from_2 str_repr;
  Ret (from_str_radix 64 16 hex_digit hex).

Definition row_of_line (l : line) : line :=
  (fun c => if (c =? dot)%char then "0"%char else "1"%char) <$> l.

(** The loop over the lines. *)
Fixpoint parse_lines (idx : Z) (lines : list line) (font_data : list Font) (current_char_code : Z)
    (current_char_bytes : list line) : outcome (result (list Font) unit) :=
  match lines with
  | [] => Ret (Ok font_data)
  | l :: lines =>
      match l with
      | [] => parse_lines (idx + 1) lines font_data current_char_code current_char_bytes
      | _ =>
          if idx mod 18 =? 1 then
            char_code ← code_of_line l;
            match char_code with
            | None => Ret (Err tt)
            | Some char_code => parse_lines (idx + 1) lines font_data char_code current_char_bytes
            end
          else
            let chars := row_of_line l in
            if negb (length chars =? 8)%nat then Ret (Err tt)
            else
              let current_char_bytes := current_char_bytes ++ [chars] in
              if idx mod 18 =? 17 then
                parse_lines (idx + 1) lines (font_data ++ [mkFont current_char_code current_char_bytes])
                  current_char_code []
              else parse_lines (idx + 1) lines font_data current_char_code current_char_bytes
      end
  end.

Definition empty_glyph : list Z := replicate 16 0.

(** The tokens between the brackets of the array. *)
Inductive token := Glyph (rows : list Z) | Comma.

(** The loop over the codes, with the last value of [array_len]; the tokens of an empty glyph, which
    end in a comma, are followed by another one. *)
Fixpoint fill_table (fuel : nat) (idx : Z) (font_data : list Font) : outcome (list token * Z) :=
  match fuel with
  | O => NoFuel
  | S fuel =>
      match font_data with
      | [] => Ret ([], idx)
      | font :: rest =>
          if negb (idx =? char_code font) then
            '(tokens, array_len) ← fill_table fuel (idx + 1) font_data;
            Ret (Glyph empty_glyph :: Comma :: Comma :: tokens, array_len)
          else
            glyph ← unwrap (mapM (from_str_radix 8 2 bin_digit) (bytes font));
            '(tokens, array_len) ← fill_table fuel (idx + 1) rest;
            Ret (Glyph glyph :: Comma :: tokens, array_len)
      end
  end.

(** What the compiler makes of [const FONT: [[u8; 16]; #array_len] = [#tokens];]: the elements of
    an array have commas between them, and perhaps one after the last. *)
Fixpoint array_elements (tokens : list token) : option (list (list Z)) :=
  match tokens with
  | [] => Some []
  | Glyph rows :: tokens =>
      if (length rows =? 16)%nat then
        match tokens with
        | [] => Some [rows]
        | Comma :: tokens => table ← array_elements tokens; Some (rows :: table)
        | _ => None
        end
      else None
  | Comma :: _ => None
  end.

Definition const_FONT (tokens : list token) (array_len : Z) : option (list (list Z)) :=
  table ← array_elements tokens;
  if Z.of_nat (length table) =? array_len then Some table else None.

(** [gen_font_impl]. *)
Definition gen_font_impl (fuel : nat) (FONT_DATA : list line) :
    outcome (result (list token * Z) unit) :=
  font_data ← parse_lines 0 FONT_DATA [] 0 [];
  match font_data with
  | Err e => Ret (Err e)
  | Ok font_data => tokens ← fill_table fuel 0 font_data; Ret (Ok tokens)
  end.

(** * Lemmas *)

(** The number that a row is: the bits of its pixels, the first one the highest. *)
Definition row_bits (l : line) : Z :=
  foldl (fun acc c => acc * 2 + (if (c =? dot)%char then 0 else 1)) 0 l.

Lemma row_bits_snoc l c : row_bits (l ++ [c]) = row_bits l * 2 + (if (c =? dot)%char then 0 else 1).
Proof. unfold row_bits. by rewrite foldl_app. Qed.

Lemma row_bits_bound l : 0 <= row_bits l < 2 ^ Z.of_nat (length l).
Proof.
  induction l as [|c l IH] using rev_ind; [done|]. rewrite row_bits_snoc, length_app.
  replace (Z.of_nat (length l + length [c])) with (Z.of_nat (length l) + 1) by (simpl; lia).
  rewrite Z.pow_add_r by lia. destruct (c =? dot)%char; lia.
Qed.

(** The pixel at a column. *)
Lemma row_bits_pixel l : forall i c, l !! i = Some c ->
  Z.testbit (row_bits l) (Z.of_nat (length l) - 1 - Z.of_nat i) = negb (c =? dot)%char.
Proof.
  induction l as [|c' l IH] using rev_ind; intros i c Hi; [done|]. rewrite row_bits_snoc, length_app.
  simpl length. set (b := if (c' =? dot)%char then 0 else 1).
  assert (row_bits l * 2 + b = 2 * row_bits l + Z.b2z (negb (c' =? dot)%char)) as ->
    by (unfold b; destruct (c' =? dot)%char; simpl; lia).
  pose proof (lookup_lt_Some _ _ _ Hi) as Hlt. rewrite length_app in Hlt. simpl in Hlt.
  destruct (decide (i = length l)) as [->|Hne].
  - rewrite list_lookup_middle in Hi by done. injection Hi as <-.
    replace (_ - 1 - _) with 0 by lia. apply Z.testbit_0_r.
  - rewrite lookup_app_l in Hi by lia. rewrite <- (IH i c Hi).
    replace (Z.of_nat (length l + 1) - 1 - Z.of_nat i) with (Z.succ (Z.of_nat (length l) - 1 - Z.of_nat i)) by lia.
    apply Z.testbit_succ_r. lia.
Qed.

Definition add_pixel (acc : Z) (c : ascii) : Z := acc * 2 + (if (c =? dot)%char then 0 else 1).

Lemma digits_row l : forall acc, 0 <= acc -> (acc + 1) * 2 ^ Z.of_nat (length l) <= 2 ^ 8 ->
  digits 8 2 bin_digit acc (row_of_line l) = Some (foldl add_pixel acc l).
Proof.
  induction l as [|c l IH]; intros acc Hacc Hfit; [done|].
  assert (exists d, bin_digit (if (c =? dot)%char then "0"%char else "1"%char) = Some d /\
    acc * 2 + d = add_pixel acc c /\ 0 <= d <= 1) as (d & Hd & Heq & Hb)
    by (unfold add_pixel; destruct (c =? dot)%char; by eexists).
  replace (Z.of_nat (length (c :: l))) with (1 + Z.of_nat (length l)) in Hfit by (simpl; lia).
  rewrite Z.pow_add_r in Hfit by lia. assert (0 < 2 ^ Z.of_nat (length l)) by (apply Z.pow_pos_nonneg; lia).
  cbn [row_of_line fmap list_fmap digits foldl]. rewrite Hd. cbn [mbind option_bind]. rewrite Heq.
  assert ((add_pixel acc c + 1) * 2 ^ Z.of_nat (length l) <= 2 ^ 8) as Hfit'.
  { assert (add_pixel acc c + 1 <= (acc + 1) * 2) by lia. nia. }
  destruct (Z.ltb_spec (add_pixel acc c) (2 ^ 8)); [|nia]. apply IH; [lia|done].
Qed.

Lemma parse_row l : length l = 8%nat -> from_str_radix 8 2 bin_digit (row_of_line l) = Some (row_bits l).
Proof.
  intros Hl. unfold from_str_radix. destruct l as [|c [|c' l]]; [done|done|].
  assert (((if (c =? dot)%char then "0" else "1") =? "+")%char = false) as Hplus by (by destruct (c =? dot)%char).
  cbn [row_of_line fmap list_fmap]. rewrite Hplus.
  apply (digits_row (c :: c' :: l) 0); [done|]. by rewrite Hl.
Qed.

Lemma parse_rows rows : Forall (fun l => length l = 8%nat) rows ->
  mapM (from_str_radix 8 2 bin_digit) (row_of_line <$> rows) = Some (row_bits <$> rows).
Proof.
  induction 1 as [|l rows Hl _ IH]; [done|]. cbn [fmap list_fmap mapM]. rewrite parse_row by done.
  cbn [mbind option_bind]. by rewrite IH.
Qed.

(** ** The file *)

(** A character in the file: its line with the code, the code and its rows. *)
Record glyph_text := mkGlyph { g_header : line; g_code : Z; g_rows : list line }.

Record glyph_ok (g : glyph_text) : Prop := {
  ok_header : g_header g <> [];
  ok_code : code_of_line (g_header g) = Ret (Some (g_code g));
  ok_rows : length (g_rows g) = 16%nat;
  ok_widths : Forall (fun l => length l = 8%nat) (g_rows g);
}.

Definition glyph_lines (g : glyph_text) : list line := [] :: g_header g :: g_rows g.
Definition file_of (gs : list glyph_text) : list line := concat (glyph_lines <$> gs).
Definition font_of (g : glyph_text) : Font := mkFont (g_code g) (row_of_line <$> g_rows g).

(** The rows of one character, from its row [k] on. *)
Lemma parse_rows_lines rows : forall k idx lines fonts code before,
  Forall (fun l => length l = 8%nat) rows -> (length rows + k = 16)%nat -> rows <> [] ->
  idx mod 18 = 2 + Z.of_nat k ->
  parse_lines idx (rows ++ lines) fonts code before =
  parse_lines (idx + Z.of_nat (length rows)) lines
    (fonts ++ [mkFont code (before ++ (row_of_line <$> rows))]) code [].
Proof.
  induction rows as [|l rows IH]; intros k idx lines fonts code before Hw Hk Hne Hidx; [done|].
  apply Forall_cons in Hw as [Hl Hw]. cbn [app parse_lines length] in *.
  destruct l as [|c l0]; [done|]. set (l := c :: l0) in *.
  rewrite Hidx. destruct (Z.eqb_spec (2 + Z.of_nat k) 1); [lia|].
  assert ((length (row_of_line l) =? 8)%nat = true) as ->
    by (unfold row_of_line; rewrite length_fmap, Hl; done). cbn [negb].
  destruct rows as [|l2 rows].
  - simpl in Hk. destruct (Z.eqb_spec (2 + Z.of_nat k) 17); [|lia]. done.
  - simpl in Hk. destruct (Z.eqb_spec (2 + Z.of_nat k) 17); [lia|].
    rewrite (IH (S k)); [|done|simpl; lia|done|Z.to_euclidean_division_equations; lia].
    cbn [fmap list_fmap length]. rewrite <- app_assoc. f_equal; lia || done.
Qed.

Lemma parse_file gs : Forall glyph_ok gs -> forall idx fonts code, idx mod 18 = 0 ->
  parse_lines idx (file_of gs) fonts code [] = Ret (Ok (fonts ++ (font_of <$> gs))).
Proof.
  induction 1 as [|g gs Hg _ IH]; intros idx fonts code Hidx.
  { unfold file_of. simpl. by rewrite app_nil_r. }
  destruct Hg as [Hh Hc Hr Hw]. unfold file_of in *. cbn [fmap list_fmap concat glyph_lines app parse_lines].
  destruct (g_header g) as [|c h] eqn:Hg; [done|].
  destruct (Z.eqb_spec ((idx + 1) mod 18) 1); [|Z.to_euclidean_division_equations; lia].
  rewrite Hc. cbn [mbind outcome_bind]. rewrite (parse_rows_lines _ 0); [|done|lia| |].
  - rewrite IH by (rewrite Hr; Z.to_euclidean_division_equations; lia).
    by rewrite <- app_assoc.
  - intros Hnil. by rewrite Hnil in Hr.
  - Z.to_euclidean_division_equations; lia.
Qed.

(** ** The table *)

Definition ascending (gs : list glyph_text) : Prop := StronglySorted (fun g g' => g_code g < g_code g') gs.

(** The code after the last one. *)
Definition table_end (idx : Z) (gs : list glyph_text) : Z := foldl (fun _ g => g_code g + 1) idx gs.

(** A code without a character. *)
Definition gap (idx : Z) (gs : list glyph_text) : Prop :=
  exists i, idx <= i < table_end idx gs /\ forall g, g ∈ gs -> g_code g <> i.

(** The table from [idx] on: the glyphs in their places, one for each code; with a gap there is none. *)
Definition table_from (idx : Z) (gs : list glyph_text) (table : option (list (list Z))) : Prop :=
  match table with
  | Some table =>
      Z.of_nat (length table) = table_end idx gs - idx /\ ~ gap idx gs /\
      forall g, g ∈ gs -> table !! Z.to_nat (g_code g - idx) = Some (row_bits <$> g_rows g)
  | None => gap idx gs
  end.

Lemma table_end_ge gs : forall idx, ascending gs -> Forall (fun g => idx <= g_code g) gs -> idx <= table_end idx gs.
Proof.
  induction gs as [|g gs IH]; intros idx Hs Hge; [done|]. apply Forall_cons in Hge as [Hg _].
  apply StronglySorted_inv in Hs as [Hs Hlt]. change (table_end idx (g :: gs)) with (table_end (g_code g + 1) gs).
  transitivity (g_code g + 1); [lia|]. apply IH; [done|]. eapply Forall_impl; [exact Hlt|]. simpl. lia.
Qed.

Lemma table_from_glyph g gs table : Forall (fun g' => g_code g < g_code g') gs ->
  table_from (g_code g + 1) gs table ->
  table_from (g_code g) (g :: gs) (table ← table; Some ((row_bits <$> g_rows g) :: table)).
Proof.
  intros Hgt. rewrite Forall_forall in Hgt. unfold table_from, gap.
  change (table_end (g_code g) (g :: gs)) with (table_end (g_code g + 1) gs).
  destruct table as [table|]; cbn [mbind option_bind].
  - intros (Hlen & Hall & Hin). split; [simpl length; lia|]. split.
    { intros (i & Hi & Hno). destruct (decide (i = g_code g)) as [->|Hne]; [by apply (Hno g); [left|]|].
      apply Hall. exists i. split; [lia|]. intros g' Hg'. apply Hno. by right. }
    intros g' Hg'. apply elem_of_cons in Hg' as [->|Hg']; [by rewrite Z.sub_diag|].
    specialize (Hgt g' Hg'). specialize (Hin g' Hg').
    replace (Z.to_nat (g_code g' - g_code g)) with (S (Z.to_nat (g_code g' - (g_code g + 1)))) by lia. exact Hin.
  - intros (i & Hi & Hno). exists i. split; [lia|]. intros g' Hg'.
    apply elem_of_cons in Hg' as [->|Hg']; [lia|by apply Hno].
Qed.

Lemma fill_table_spec fuel : forall idx gs, Forall glyph_ok gs -> ascending gs ->
  Forall (fun g => idx <= g_code g) gs -> table_end idx gs - idx < Z.of_nat fuel ->
  exists tokens, fill_table fuel idx (font_of <$> gs) = Ret (tokens, table_end idx gs) /\
    table_from idx gs (array_elements tokens).
Proof.
  induction fuel as [|fuel IH]; intros idx gs Hok Hs Hge Hfuel.
  { pose proof (table_end_ge gs idx Hs Hge). lia. }
  destruct gs as [|g gs]; cbn [fmap list_fmap fill_table].
  { exists []. split; [done|]. unfold table_from, table_end. simpl. split; [lia|].
    split; [by intros (i & ? & _); unfold table_end in *; simpl in *; lia|].
    intros g Hg. by apply elem_of_nil in Hg. }
  pose proof Hge as Hge'. apply Forall_cons in Hge' as [Hg _]. pose proof Hs as Hs'.
  apply StronglySorted_inv in Hs' as [Hs' Hlt]. cbn [char_code font_of bytes].
  destruct (Z.eqb_spec idx (g_code g)) as [->|Hne]; cbn [negb].
  - apply Forall_cons in Hok as [[_ _ Hr Hw] Hok]. rewrite parse_rows by done. cbn [unwrap mbind outcome_bind].
    destruct (IH (g_code g + 1) gs) as (tokens & -> & Htable); [done|done| | |].
    { eapply Forall_impl; [exact Hlt|]. simpl. lia. }
    { change (table_end (g_code g) (g :: gs)) with (table_end (g_code g + 1) gs) in Hfuel. lia. }
    cbn [mbind outcome_bind]. eexists. split; [done|]. cbn [array_elements].
    rewrite length_fmap, Hr. by apply table_from_glyph.
  - assert (Forall (fun g' => idx < g_code g') (g :: gs)) as Hgt
      by (constructor; [lia|eapply Forall_impl; [exact Hlt|]; simpl; lia]).
    destruct (IH (idx + 1) (g :: gs)) as (tokens & Hrun & _); [done|done| | |].
    { eapply Forall_impl; [exact Hgt|]. simpl. lia. }
    { change (table_end (idx + 1) (g :: gs)) with (table_end idx (g :: gs)). lia. }
    change (font_of g :: (font_of <$> gs)) with (font_of <$> (g :: gs)). rewrite Hrun. cbn [mbind outcome_bind].
    eexists. split; [done|]. simpl. exists idx. split.
    + pose proof (table_end_ge (g :: gs) (idx + 1) Hs) as Hend.
      change (table_end (idx + 1) (g :: gs)) with (table_end idx (g :: gs)) in Hend.
      split; [lia|]. apply Z.lt_le_trans with (idx + 1); [lia|]. apply Hend.
      eapply Forall_impl; [exact Hgt|]. simpl. lia.
    + rewrite Forall_forall in Hgt. intros g' Hg'. specialize (Hgt g' Hg'). lia.
Qed.

(** A code that does not come after the one before it is never reached. *)
Lemma fill_table_misses fuel : forall idx font rest, char_code font < idx ->
  fill_table fuel idx (font :: rest) = NoFuel.
Proof.
  induction fuel as [|fuel IH]; intros idx font rest Hlt; [done|]. cbn [fill_table].
  destruct (Z.eqb_spec idx (char_code font)); [lia|]. cbn [negb]. by rewrite IH by lia.
Qed.

(** * Property *)

(** C37: the macro makes the table of the glyphs in the font file.  For a file of characters whose
    codes ascend, each an empty line, a line of its code and sixteen rows of eight pixels, it ends (for a code
    that does not ascend it does not: [fill_table_misses]); what it makes compiles exactly when every
    code up to the last one has a character, and is then a table of a glyph for each code, in which
    the bit of a pixel of a glyph is set exactly when the file has no dot there. *)
Theorem gen_font_exact gs fuel : Forall glyph_ok gs -> ascending gs -> Forall (fun g => 0 <= g_code g) gs ->
  table_end 0 gs < Z.of_nat fuel ->
  exists tokens, gen_font_impl fuel (file_of gs) = Ret (Ok (tokens, table_end 0 gs)) /\
    (const_FONT tokens (table_end 0 gs) = None <->
       exists i, 0 <= i < table_end 0 gs /\ forall g, g ∈ gs -> g_code g <> i) /\
    (forall table, const_FONT tokens (table_end 0 gs) = Some table ->
       Z.of_nat (length table) = table_end 0 gs /\
       forall g dx dy row c, g ∈ gs -> g_rows g !! dy = Some row -> row !! dx = Some c ->
         exists glyph bits, table !! Z.to_nat (g_code g) = Some glyph /\ glyph !! dy = Some bits /\
           0 <= bits < 2 ^ 8 /\ Z.testbit bits (7 - Z.of_nat dx) = negb (c =? dot)%char).
Proof.
  intros Hok Hs Hge Hfuel. unfold gen_font_impl. rewrite parse_file by done. cbn [mbind outcome_bind app].
  destruct (fill_table_spec fuel 0 gs Hok Hs Hge) as (tokens & -> & Htable); [lia|].
  cbn [mbind outcome_bind]. exists tokens. split; [done|]. unfold const_FONT.
  destruct (array_elements tokens) as [table|]; cbn [mbind option_bind table_from] in *; [|by split].
  destruct Htable as (Hlen & Hall & Hin).
  destruct (Z.eqb_spec (Z.of_nat (length table)) (table_end 0 gs)); [|lia].
  split; [by split|]. intros ? [= <-]. split; [done|]. intros g dx dy row c Hg Hrow Hc. specialize (Hin g Hg). rewrite Z.sub_0_r in Hin.
  exists (row_bits <$> g_rows g), (row_bits row). rewrite list_lookup_fmap, Hrow.
  rewrite Forall_forall in Hok. destruct (Hok g Hg) as [_ _ _ Hw]. rewrite Forall_forall in Hw.
  specialize (Hw row (list_elem_of_lookup_2 _ _ _ Hrow)).
  pose proof (row_bits_bound row) as Hb. pose proof (row_bits_pixel row dx c Hc) as Hpx. rewrite Hw in Hb, Hpx.
  split_and!; [done|done|lia|lia|]. by replace (7 - Z.of_nat dx) with (Z.of_nat 8 - 1 - Z.of_nat dx) by lia.
Qed.

(** * Witness *)

Module FontExamples.

Definition text (s : string) : line := list_ascii_of_string s.

(** Two characters of a pattern each, and another one after a gap. *)
Definition glyphs : list glyph_text :=
  [mkGlyph (text "0x00") 0 (replicate 16 (text "...@...."));
   mkGlyph (text "0x01 'a'") 1 (replicate 16 (text "@......@"))].
Definition beyond_gap : list glyph_text :=
  glyphs ++ [mkGlyph (text "0x03") 3 (replicate 16 (text "........"))].

Lemma glyphs_ok : Forall glyph_ok beyond_gap.
Proof. repeat constructor; done. Qed.

Lemma glyphs_ascend : ascending beyond_gap.
Proof. repeat constructor. Qed.

(** A gap does not compile. *)
Example gap_does_not_compile :
  match gen_font_impl 10 (file_of beyond_gap) with
  | Ret (Ok (tokens, n)) => const_FONT tokens n
  | _ => Some []
  end = None.
Proof. vm_compute. reflexivity. Qed.

End FontExamples.

Lemma gen_font_exact_witness :
  exists tokens table, gen_font_impl 10 (file_of FontExamples.glyphs) = Ret (Ok (tokens, 2)) /\
    const_FONT tokens 2 = Some table /\
    exists glyph bits, table !! 1%nat = Some glyph /\ glyph !! 15%nat = Some bits /\ Z.testbit bits 7 = true.
Proof.
  destruct (gen_font_exact FontExamples.glyphs 10) as (tokens & Hrun & Hgap & Hin).
  - exact (proj1 (proj1 (Forall_app _ FontExamples.glyphs _) FontExamples.glyphs_ok)).
  - repeat constructor.
  - repeat constructor; simpl; lia.
  - vm_compute. reflexivity.
  - change (table_end 0 FontExamples.glyphs) with 2 in Hrun, Hgap, Hin.
    destruct (const_FONT tokens 2) as [table|] eqn:Hconst.
    + destruct (Hin table eq_refl) as [_ Hpx]. exists tokens, table. split; [exact Hrun|]. split; [exact Hconst|].
      destruct (Hpx (mkGlyph (FontExamples.text "0x01 'a'") 1 (replicate 16 (FontExamples.text "@......@")))
        0%nat 15%nat (FontExamples.text "@......@") "@"%char) as (glyph & bits & Ht & Hg & _ & Hb);
        [right; left|reflexivity|reflexivity|].
      exists glyph, bits. split; [exact Ht|]. split; [exact Hg|]. exact Hb.
    + exfalso. destruct (proj1 Hgap eq_refl) as (i & Hi & Hno).
      assert (i = 0 \/ i = 1) as [->| ->] by lia.
      * by apply (Hno (mkGlyph (FontExamples.text "0x00") 0 (replicate 16 (FontExamples.text "...@....")))); [left|].
      * by eapply Hno; [right; left|].
Defined.
