(* ===== verification/Pixels.v ===== *)
(** Pixels: colours and their byte formats ([kernel-lib/src/lib.rs], [pixel.rs]), the
    drawing routines on any pixel device ([kernel-lib/src/render.rs], [shapes.rs]) and
    the frame buffer ([PixcelWriter] of [kernel/src/graphics.rs]). *)
From S2P Require Import Prelude.

Record Color := mkColor { r : Z; g : Z; b : Z }.

#[global] Instance color_eq_dec : EqDecision Color.
Proof. solve_decision. Defined.

Definition black : Color := mkColor 0 0 0.
Definition white : Color := mkColor 255 255 255.
Definition green : Color := mkColor 0 255 0.

(** [PixcelFormat], and [RenderedPixel::pixel] of the two handlers. *)
Inductive PixcelFormat := Rgb | Bgr.

Definition pixel (f : PixcelFormat) (c : Color) : list Z :=
  match f with
  | Rgb => [r c; g c; b c; 0xff]
  | Bgr => [b c; g c; r c; 0xff]
  end.

(** [PixcelWritableMut::write]; [PixcelWritable] is the same with the state behind a
    shared reference. *)
Class PixelWriter (W : Type) := write : W -> Z -> Z -> Color -> outcome W.

(** * The drawing routines *)

Record Vector2D := mkVec { vx : Z; vy : Z }.

Definition vec_add (v w : Vector2D) : outcome Vector2D :=
  x ← add_w 64 (vx v) (vx w); y ← add_w 64 (vy v) (vy w); Ret (mkVec x y).

(** [Shape]: width, height and the colour of each pixel, which panics outside. *)
Record Shape := mkShape {
  get_width : Z;
  get_height : Z;
  get_pixel : Z -> Z -> outcome Color;
}.

(** A shape given by an array of rows of pixels of a type that converts to a colour. *)
Definition array_shape {T} (into : T -> Color) (W : Z) (rows : list (list T)) : Shape :=
  mkShape W (Z.of_nat (length rows))
    (fun x y =>
       row ← unwrap (rows !! Z.to_nat y);
       p ← unwrap (row !! Z.to_nat x);
       Ret (into p)).

Section renderer.
Context `{PW : PixelWriter W}.

Definition fill_rect (pos size : Vector2D) (color : Color) (self : W) : outcome W :=
  y_end ← add_w 64 (vy pos) (vy size);
  for_range (vy pos) y_end (fun y self =>
    x_end ← add_w 64 (vx pos) (vx size);
    for_range (vx pos) x_end (fun x self => write self x y color) self) self.

Definition draw_rect_outline (pos size : Vector2D) (color : Color) (self : W) : outcome W :=
  x_end ← add_w 64 (vx pos) (vx size);
  self ← for_range (vx pos) x_end (fun x self =>
    self ← write self x (vy pos) color;
    y_end ← add_w 64 (vy pos) (vy size);
    y ← sub_w y_end 1;
    write self x y color) self;
  y_end ← add_w 64 (vy pos) (vy size);
  for_range (vy pos) y_end (fun y self =>
    self ← write self (vx pos) y color;
    x_end ← add_w 64 (vx pos) (vx size);
    x ← sub_w x_end 1;
    write self x y color) self.

(** [board[y][x]]. *)
Definition board_cell (board : list (list bool)) (y x : Z) : outcome bool :=
  row ← unwrap (board !! Z.to_nat y); unwrap (row !! Z.to_nat x).

Definition render_cell (board : list (list bool)) (pos : Vector2D) (size : Z) (color : Color)
    (y x : Z) (self : W) : outcome W :=
  dx ← mul_w 64 x size; bx ← add_w 64 (vx pos) dx;
  dy ← mul_w 64 y size; by_ ← add_w 64 (vy pos) dy;
  alive ← board_cell board y x;
  ix ← add_w 64 bx 1; iy ← add_w 64 by_ 1; isize ← sub_w size 1;
  self ← fill_rect (mkVec ix iy) (mkVec isize isize) (if alive : bool then color else black) self;
  draw_rect_outline (mkVec bx by_) (mkVec size size) white self.

Definition render_board (board : list (list bool)) (pos : Vector2D) (size : Z) (color : Color)
    (self : W) : outcome W :=
  let len := Z.of_nat (length board) in
  for_range 0 len (fun y self =>
    for_range 0 len (fun x self => render_cell board pos size color y x self) self) self.

Definition fill_shape (pos : Vector2D) (shape : Shape) (self : W) : outcome W :=
  for_range 0 (get_height shape) (fun y self =>
    for_range 0 (get_width shape) (fun x self =>
      px ← add_w 64 (vx pos) x; py ← add_w 64 (vy pos) y;
      c ← get_pixel shape x y;
      write self px py c) self) self.

End renderer.

(** What a device promises: inside its area a write succeeds and changes that pixel
    and no other one of the area. *)
Class PixelWriterSpec (W : Type) `{PW : PixelWriter W} := {
  area : W -> Z -> Z -> Prop;
  pixel_at : W -> Z -> Z -> Color;
  valid_color : Color -> Prop;
  write_spec w x y c :
    area w x y -> valid_color c ->
    exists w', write w x y c = Ret w' /\ (forall x' y', area w' x' y' <-> area w x' y') /\
      forall x' y', area w x' y' ->
        pixel_at w' x' y' = if decide (x' = x /\ y' = y) then c else pixel_at w x' y';
}.

(** * The frame buffer *)

(** A [PixcelWriter] with the memory it writes to. *)
Record FrameBuffer := mkFrameBuffer {
  frame_buffer_base : Z;
  pixcels_per_scan_line : Z;
  horizontal_resolution : Z;
  vertical_resolution : Z;
  pixcel_format : PixcelFormat;
  memory : gmap Z Z;
}.

Definition set_memory (self : FrameBuffer) (m : gmap Z Z) : FrameBuffer :=
  mkFrameBuffer (frame_buffer_base self) (pixcels_per_scan_line self)
    (horizontal_resolution self) (vertical_resolution self) (pixcel_format self) m.

(** The three bytes that are stored for a colour. *)
Definition color_bytes (f : PixcelFormat) (c : Color) : list Z := take 3 (pixel f c).

Definition store_bytes (m : gmap Z Z) (a : Z) (bs : list Z) : gmap Z Z :=
  foldl (fun m p => <[(a + Z.of_nat p.1)%Z := p.2]> m) m (imap pair bs).

Definition get_offset (self : FrameBuffer) (x y : Z) : outcome Z :=
  row ← mul_w 64 y (pixcels_per_scan_line self); add_w 64 row x.

Definition write_pixcel_at_offset (self : FrameBuffer) (offset : Z) (color : Color) :
    outcome FrameBuffer :=
  offset ← mul_w 64 offset 4;
  Ret (set_memory self (store_bytes (memory self) (frame_buffer_base self + offset)
         (color_bytes (pixcel_format self) color))).

#[global] Instance frame_buffer_writer : PixelWriter FrameBuffer := fun self x y color =>
  offset ← get_offset self x y; write_pixcel_at_offset self offset color.

(** [GraphicsInfo] of [common/src/types.rs], and [PixcelWriterBuilder::get_writer]. *)
Record GraphicsInfo := mkGraphicsInfo {
  gi_horizontal_resolution : Z;
  gi_vertical_resolution : Z;
  gi_pixels_per_scan_line : Z;
  gi_frame_buffer_base : Z;
  gi_pixcel_format : PixcelFormat;
}.

Definition get_writer (graphics_info : GraphicsInfo) (m : gmap Z Z) : FrameBuffer :=
  mkFrameBuffer (gi_frame_buffer_base graphics_info) (gi_pixels_per_scan_line graphics_info)
    (gi_horizontal_resolution graphics_info) (gi_vertical_resolution graphics_info)
    (gi_pixcel_format graphics_info) m.

(** The clearing of the screen in [init_graphics]. *)
Definition init_graphics (graphics_info : GraphicsInfo) (m : gmap Z Z) : outcome FrameBuffer :=
  m ← for_range 0 (gi_vertical_resolution graphics_info) (fun y m =>
    for_range 0 (gi_horizontal_resolution graphics_info) (fun x m =>
      row ← mul_w 64 y (gi_pixels_per_scan_line graphics_info);
      offset ← add_w 64 row x;
      o ← mul_w 64 offset 4;
      Ret (store_bytes m (gi_frame_buffer_base graphics_info + o) [0; 0; 0])) m) m;
  Ret (get_writer graphics_info m).

(** * Lemmas: what a routine paints *)

(** What is painted at a point is an optional colour; the later one covers. *)
Definition over (g f : option Color) : option Color :=
  match g with Some c => Some c | None => f end.

Definition point (x y : Z) (c : Color) (x' y' : Z) : option Color :=
  if decide (x' = x /\ y' = y) then Some c else None.

(** What painting all points with a property looks like, each in its colour or all in
    one. *)
Definition fill_with (P : Z -> Z -> Prop) `{forall x y, Decision (P x y)}
    (h : Z -> Z -> Color) (x y : Z) : option Color :=
  if decide (P x y) then Some (h x y) else None.

Definition fill (P : Z -> Z -> Prop) `{forall x y, Decision (P x y)} (c : Color) :=
  fill_with P (fun _ _ => c).

Definition in_rect (pos size : Vector2D) (x y : Z) : Prop :=
  vx pos <= x < vx pos + vx size /\ vy pos <= y < vy pos + vy size.

#[global] Instance in_rect_dec pos size x y : Decision (in_rect pos size x y).
Proof. unfold in_rect. apply _. Defined.

Definition on_outline (pos size : Vector2D) (x y : Z) : Prop :=
  (vx pos <= x < vx pos + vx size /\ (y = vy pos \/ y = vy pos + vy size - 1)) \/
  (vy pos <= y < vy pos + vy size /\ (x = vx pos \/ x = vx pos + vx size - 1)).

#[global] Instance on_outline_dec pos size x y : Decision (on_outline pos size x y).
Proof. unfold on_outline. apply _. Defined.

Ltac solve_paint := intros; unfold fill, fill_with, point, over, in_rect, on_outline in *; simpl in *;
  repeat case_decide; try done; exfalso; lia.

Section painting.
Context `{PS : PixelWriterSpec W}.

(** Two states of a device with the same pixels. *)
Definition same_area (w w' : W) : Prop := forall x y, area w' x y <-> area w x y.

#[export] Instance same_area_equivalence : Equivalence same_area.
Proof.
  split; [by intros ???|by intros w1 w2 H x y; symmetry|].
  intros w1 w2 w3 H1 H2 x y. by rewrite (H2 x y), (H1 x y).
Qed.

(** From [w] to [w'] the pixels where [f] gives a colour have got it, and the others
    are as they were. *)
Definition paints (w w' : W) (f : Z -> Z -> option Color) : Prop :=
  same_area w w' /\
  forall x y, area w x y -> pixel_at w' x y = default (pixel_at w x y) (f x y).

Lemma paints_none w : paints w w (fun _ _ => None).
Proof. by split. Qed.

Lemma paints_ext w w' f g : (forall x y, f x y = g x y) -> paints w w' f -> paints w w' g.
Proof. intros Hfg [Ha Hf]. split; [done|]. intros x y. rewrite <- Hfg. apply Hf. Qed.

Lemma paints_ext_area w w' f g :
  (forall x y, area w x y -> f x y = g x y) -> paints w w' f -> paints w w' g.
Proof. intros Hfg [Ha Hf]. split; [done|]. intros x y Hxy. rewrite <- Hfg by done. by apply Hf. Qed.

Lemma paints_trans w1 w2 w3 f g :
  paints w1 w2 f -> paints w2 w3 g -> paints w1 w3 (fun x y => over (g x y) (f x y)).
Proof.
  intros [Ha1 Hf] [Ha2 Hg]. split; [by etrans|]. intros x y Hxy.
  rewrite Hg by by apply Ha1. destruct (g x y); simpl; [done|by apply Hf].
Qed.

Lemma paints_write w x y c :
  area w x y -> valid_color (W := W) c ->
  exists w', write w x y c = Ret w' /\ paints w w' (point x y c).
Proof.
  intros Ha Hc. destruct (write_spec w x y c Ha Hc) as (w' & Hw & Har & Hp).
  exists w'. split; [done|]. split; [done|]. intros x' y' Hxy. rewrite Hp by done.
  unfold point. by destruct (decide (x' = x /\ y' = y)).
Qed.

(** The rule for the loops: turn [i] paints [g i], [F k] is what has been painted before
    turn [k], and [G] what the whole loop paints. *)
Lemma paints_for (F g : Z -> Z -> Z -> option Color) (G : Z -> Z -> option Color)
    lo hi (f : Z -> W -> outcome W) w :
  lo <= hi ->
  (forall s i, lo <= i < hi -> same_area w s -> exists s', f i s = Ret s' /\ paints s s' (g i)) ->
  (forall x y, F lo x y = None) ->
  (forall k x y, lo <= k < hi -> F (k + 1) x y = over (g k x y) (F k x y)) ->
  (forall x y, F hi x y = G x y) ->
  exists s', for_range lo hi f w = Ret s' /\ paints w s' G.
Proof.
  intros Hle Hf Hlo Hstep HG.
  destruct (for_range_inv (fun k s => paints w s (F k)) lo hi f w) as (s' & Hs' & Hp); [done| | |].
  - eapply paints_ext; [|apply paints_none]. intros x y. by rewrite Hlo.
  - intros i s Hi Hs. destruct (Hf s i Hi (proj1 Hs)) as (s' & Hs' & Hp).
    exists s'. split; [done|]. eapply paints_ext; [|by eapply paints_trans].
    intros x y. by rewrite Hstep.
  - exists s'. split; [done|]. by eapply paints_ext.
Qed.

(** Two steps one after the other. *)
Lemma paints_seq w (m : outcome W) (k : W -> outcome W) f g G :
  (exists w1, m = Ret w1 /\ paints w w1 f) ->
  (forall w1, same_area w w1 -> exists w', k w1 = Ret w' /\ paints w1 w' g) ->
  (forall x y, over (g x y) (f x y) = G x y) ->
  exists w', (m ≫= k) = Ret w' /\ paints w w' G.
Proof.
  intros (w1 & -> & Hp1) Hk HG. simpl. destruct (Hk w1 (proj1 Hp1)) as (w' & -> & Hp').
  exists w'. split; [done|]. apply (paints_ext _ _ (fun x y => over (g x y) (f x y))); [done|].
  by eapply paints_trans.
Qed.

(** A rectangle on the device, within the range of the coordinates. *)
Definition on_device (w : W) (pos size : Vector2D) : Prop :=
  0 <= vx size /\ 0 <= vy size /\ 0 <= vx pos /\ 0 <= vy pos /\
  vx pos + vx size < 2 ^ 64 /\ vy pos + vy size < 2 ^ 64 /\
  forall x y, in_rect pos size x y -> area w x y.

Lemma fill_rect_paints pos size c w :
  on_device w pos size -> valid_color (W := W) c ->
  exists w', fill_rect pos size c w = Ret w' /\ paints w w' (fill (in_rect pos size) c).
Proof.
  intros (Hsx & Hsy & Hpx & Hpy & Hx & Hy & Harea) Hc. unfold fill_rect.
  rewrite !add_w_Ret by done. cbn [mbind outcome_bind].
  apply (paints_for
    (fun k => fill (fun x y => vx pos <= x < vx pos + vx size /\ vy pos <= y < k) c)
    (fun k => fill (fun x y => vx pos <= x < vx pos + vx size /\ y = k) c));
    [lia| |solve_paint|solve_paint|solve_paint].
  intros s y Hyr Hs.
  apply (paints_for (fun k => fill (fun x' y' => vx pos <= x' < k /\ y' = y) c)
    (fun x => point x y c)); [lia| |solve_paint|solve_paint|solve_paint].
  intros s0 x Hxr Hs0. apply paints_write; [|done].
  apply Hs0, Hs, Harea. by split.
Qed.

(** Two writes of the same colour. *)
Lemma paints_two w x1 y1 x2 y2 c :
  area w x1 y1 -> area w x2 y2 -> valid_color (W := W) c ->
  exists w', (s ← write w x1 y1 c; write s x2 y2 c) = Ret w' /\
    paints w w' (fun x y => over (point x2 y2 c x y) (point x1 y1 c x y)).
Proof.
  intros H1 H2 Hc. eapply paints_seq; [by apply paints_write| |done].
  intros w1 Hw1. apply paints_write; [by apply Hw1|done].
Qed.

Lemma draw_rect_outline_paints pos size c w :
  on_device w pos size -> 0 < vx size -> 0 < vy size -> valid_color (W := W) c ->
  exists w', draw_rect_outline pos size c w = Ret w' /\ paints w w' (fill (on_outline pos size) c).
Proof.
  intros (_ & _ & Hpx & Hpy & Hx & Hy & Harea) Hsx Hsy Hc. unfold draw_rect_outline.
  rewrite !add_w_Ret by done. cbn [mbind outcome_bind]. rewrite !sub_w_Ret by lia.
  eapply (paints_seq _ _ _
    (fill (fun x y => vx pos <= x < vx pos + vx size /\ (y = vy pos \/ y = vy pos + vy size - 1)) c)
    (fill (fun x y => vy pos <= y < vy pos + vy size /\ (x = vx pos \/ x = vx pos + vx size - 1)) c));
    [| |solve_paint].
  - apply (paints_for
      (fun k => fill (fun x y => vx pos <= x < k /\ (y = vy pos \/ y = vy pos + vy size - 1)) c)
      (fun k => fill (fun x y => x = k /\ (y = vy pos \/ y = vy pos + vy size - 1)) c));
      [lia| |solve_paint|solve_paint|solve_paint].
    intros s x Hxr Hs.
    destruct (paints_two s x (vy pos) x (vy pos + vy size - 1) c) as (s' & Hs' & Hp);
      [apply Hs, Harea; split; lia|apply Hs, Harea; split; lia|done|].
    exists s'. split; [exact Hs'|]. eapply paints_ext; [|exact Hp]. solve_paint.
  - intros w1 Hw1. apply (paints_for
      (fun k => fill (fun x y => vy pos <= y < k /\ (x = vx pos \/ x = vx pos + vx size - 1)) c)
      (fun k => fill (fun x y => y = k /\ (x = vx pos \/ x = vx pos + vx size - 1)) c));
      [lia| |solve_paint|solve_paint|solve_paint].
    intros s y Hyr Hs. assert (Hws : same_area w s) by (by etrans). clear Hs. rename Hws into Hs.
    destruct (paints_two s (vx pos) y (vx pos + vx size - 1) y c) as (s' & Hs' & Hp);
      [apply Hs, Harea; split; lia|apply Hs, Harea; split; lia|done|].
    exists s'. split; [exact Hs'|]. eapply paints_ext; [|exact Hp]. solve_paint.
Qed.

(** ** The board *)

(** The colour of a pixel of the board: the cells are squares of [size] pixels with a
    white outline. *)
Definition board_pixel (board : list (list bool)) (pos : Vector2D) (size : Z) (color : Color)
    (x y : Z) : Color :=
  let dx := x - vx pos in let dy := y - vy pos in
  if decide (dx mod size = 0 \/ dx mod size = size - 1 \/ dy mod size = 0 \/ dy mod size = size - 1)
  then white
  else match board_cell board (dy / size) (dx / size) with
       | Ret true => color
       | _ => black
       end.

Definition square_board (board : list (list bool)) : Prop :=
  Forall (fun row => length row = length board) board.

Lemma board_cell_Ret board x y :
  square_board board -> 0 <= x < Z.of_nat (length board) -> 0 <= y < Z.of_nat (length board) ->
  exists alive, board_cell board y x = Ret alive.
Proof.
  intros Hsq Hx Hy. unfold board_cell.
  destruct (lookup_lt_is_Some_2 board (Z.to_nat y)) as [row Hrow]; [lia|].
  rewrite Hrow. simpl. eapply Forall_lookup in Hsq; [|done]. simpl in Hsq.
  destruct (lookup_lt_is_Some_2 row (Z.to_nat x)) as [cell Hcell]; [lia|].
  rewrite Hcell. eauto.
Qed.

(** A pixel of the block of the cell ([x], [y]). *)
Lemma block_div pos size k d : 0 < size -> pos + k * size <= d < pos + k * size + size ->
  (d - pos) / size = k /\ (d - pos) mod size = d - pos - k * size.
Proof.
  intros Hs Hd. assert (Hq : (d - pos) / size = k).
  { symmetry. apply (Z.div_unique_pos _ _ _ (d - pos - k * size)); lia. }
  split; [done|]. rewrite Z.mod_eq by lia. rewrite Hq. lia.
Qed.

Definition block (pos : Vector2D) (size x y : Z) : Vector2D :=
  mkVec (vx pos + x * size) (vy pos + y * size).

Lemma board_pixel_block board pos size color x y alive :
  0 < size -> board_cell board y x = Ret alive ->
  forall px py, in_rect (block pos size x y) (mkVec size size) px py ->
  board_pixel board pos size color px py =
    if decide (on_outline (block pos size x y) (mkVec size size) px py) then white
    else if alive then color else black.
Proof.
  intros Hs Hcell px py [Hx Hy]. simpl in *. unfold board_pixel.
  destruct (block_div (vx pos) size x px) as [-> ->]; [done|lia|].
  destruct (block_div (vy pos) size y py) as [-> ->]; [done|lia|].
  rewrite Hcell. unfold on_outline. simpl.
  repeat case_decide; try done; try (exfalso; lia); by destruct alive.
Qed.

Lemma render_cell_paints board pos size color x y w :
  0 < size -> square_board board ->
  0 <= x < Z.of_nat (length board) -> 0 <= y < Z.of_nat (length board) ->
  0 <= vx pos -> 0 <= vy pos -> on_device w (block pos size x y) (mkVec size size) ->
  valid_color (W := W) color -> valid_color (W := W) black -> valid_color (W := W) white ->
  exists w', render_cell board pos size color y x w = Ret w' /\
    paints w w' (fill_with (in_rect (block pos size x y) (mkVec size size))
                  (board_pixel board pos size color)).
Proof.
  intros Hs Hsq Hx Hy Hpx Hpy Hdev Hc Hb Hw.
  destruct (board_cell_Ret board x y) as [alive Hcell]; [done..|].
  pose proof (Z.mul_nonneg_nonneg x size). pose proof (Z.mul_nonneg_nonneg y size).
  destruct Hdev as (_ & _ & _ & _ & Hex & Hey & Harea). simpl in Hex, Hey.
  unfold render_cell. rewrite !mul_w_Ret by lia. cbn [mbind outcome_bind].
  rewrite !add_w_Ret by lia. cbn [mbind outcome_bind]. rewrite Hcell. cbn [mbind outcome_bind].
  rewrite !add_w_Ret by lia. cbn [mbind outcome_bind]. rewrite sub_w_Ret by lia.
  cbn [mbind outcome_bind].
  eapply paints_seq.
  - apply fill_rect_paints; [|by destruct alive].
    repeat split; simpl; try lia. intros px py [??]; simpl in *. apply Harea. split; simpl; lia.
  - intros w1 Hw1. apply (draw_rect_outline_paints (block pos size x y)); [|done..].
    repeat split; simpl; try lia. intros px py ?. by apply Hw1, Harea.
  - intros px py. unfold fill, fill_with.
    destruct (decide (in_rect (block pos size x y) (mkVec size size) px py)) as [Hin|Hin].
    + rewrite (board_pixel_block _ _ _ _ x y alive) by done.
      unfold over. repeat case_decide; try done; exfalso; unfold on_outline, in_rect in *; simpl in *; lia.
    + unfold over. repeat case_decide; try done; exfalso; unfold on_outline, in_rect in *; simpl in *; lia.
Qed.

(** [block]s below the end of the board are inside of the board. *)
Lemma block_end size k n : 0 < size -> 0 <= k < n -> 0 <= k * size /\ (k + 1) * size <= n * size.
Proof. nia. Qed.

End painting.

Lemma render_board_paints `{PS : PixelWriterSpec W} board pos size color (w : W) :
  0 < size -> square_board board ->
  on_device w pos (mkVec (Z.of_nat (length board) * size) (Z.of_nat (length board) * size)) ->
  valid_color (W := W) color -> valid_color (W := W) black -> valid_color (W := W) white ->
  exists w', render_board board pos size color w = Ret w' /\
    paints w w' (fill_with
      (in_rect pos (mkVec (Z.of_nat (length board) * size) (Z.of_nat (length board) * size)))
      (board_pixel board pos size color)).
Proof.
  intros Hs Hsq (Hsx & Hsy & Hpx & Hpy & Hex & Hey & Harea) Hc Hb Hw. simpl in *.
  unfold render_board. set (n := Z.of_nat (length board)) in *.
  apply (paints_for
    (fun k => fill_with (in_rect pos (mkVec (n * size) (k * size))) (board_pixel board pos size color))
    (fun k => fill_with (in_rect (block pos size 0 k) (mkVec (n * size) size))
                (board_pixel board pos size color))); [lia| |solve_paint|solve_paint|done].
  intros s y Hy Hareas.
  apply (paints_for
    (fun k => fill_with (in_rect (block pos size 0 y) (mkVec (k * size) size))
                (board_pixel board pos size color))
    (fun k => fill_with (in_rect (block pos size k y) (mkVec size size))
                (board_pixel board pos size color))); [lia| |solve_paint|solve_paint|done].
  intros s0 x Hx Hareas0.
  destruct (block_end size x n) as [Hx1 Hx2]; [done..|].
  destruct (block_end size y n) as [Hy1 Hy2]; [done..|].
  apply render_cell_paints; try done.
  repeat split; simpl; try lia.
  intros px py [??]; simpl in *. apply Hareas0, Hareas, Harea. split; simpl; lia.
Qed.

Lemma fill_shape_paints `{PS : PixelWriterSpec W} pos shape h (w : W) :
  let size := mkVec (get_width shape) (get_height shape) in
  on_device w pos size ->
  (forall x y, 0 <= x < get_width shape -> 0 <= y < get_height shape ->
     get_pixel shape x y = Ret (h x y) /\ valid_color (W := W) (h x y)) ->
  exists w', fill_shape pos shape w = Ret w' /\
    paints w w' (fill_with (in_rect pos size) (fun x y => h (x - vx pos) (y - vy pos))).
Proof.
  intros size (Hsx & Hsy & Hpx & Hpy & Hx & Hy & Harea) Hget. subst size. simpl in *.
  unfold fill_shape. set (f := fun x y => h (x - vx pos) (y - vy pos)).
  apply (paints_for (fun k => fill_with (in_rect pos (mkVec (get_width shape) k)) f)
    (fun k => fill_with (in_rect (mkVec (vx pos) (vy pos + k)) (mkVec (get_width shape) 1)) f));
    [lia| |solve_paint|solve_paint|done].
  intros s y Hyr Hs.
  apply (paints_for
    (fun k => fill_with (in_rect (mkVec (vx pos) (vy pos + y)) (mkVec k 1)) f)
    (fun k => point (vx pos + k) (vy pos + y) (h k y)));
    [lia| |solve_paint| |done].
  - intros s0 x Hxr Hs0. rewrite !add_w_Ret by lia. cbn [mbind outcome_bind].
    destruct (Hget x y) as [-> Hv]; [done..|]. cbn [mbind outcome_bind].
    apply paints_write; [|done]. apply Hs0, Hs, Harea. split; simpl; lia.
  - intros k x' y' Hk. unfold fill_with, point, over, in_rect. simpl.
    repeat case_decide; try done; try (exfalso; lia).
    destruct_and!. subst. unfold f. do 2 f_equal; lia.
Qed.

(** What every write keeps, the drawing keeps. *)
Section keeps.
Context `{PW : PixelWriter W} (P : W -> Prop).
Context (Hwrite : forall w x y c w', P w -> write w x y c = Ret w' -> P w').

Lemma fill_rect_keeps pos size c w w' : P w -> fill_rect pos size c w = Ret w' -> P w'.
Proof.
  intros Hw H. unfold fill_rect in H. apply bind_Ret_inv in H as (ye & _ & H). revert Hw H.
  apply for_range_Ret. intros y s s' Hs H. apply bind_Ret_inv in H as (xe & _ & H). revert Hs H.
  apply for_range_Ret. intros x s0 s0' Hs0 H. by eapply Hwrite.
Qed.

Lemma draw_rect_outline_keeps pos size c w w' :
  P w -> draw_rect_outline pos size c w = Ret w' -> P w'.
Proof.
  intros Hw H. unfold draw_rect_outline in H. apply bind_Ret_inv in H as (xe & _ & H).
  apply bind_Ret_inv in H as (w1 & Hw1 & H). apply bind_Ret_inv in H as (ye & _ & H).
  assert (P w1) as HP1; [revert Hw Hw1|revert HP1 H]; apply for_range_Ret;
    intros i s s' Hs Hr; apply bind_Ret_inv in Hr as (s1 & Hs1 & Hr);
    apply bind_Ret_inv in Hr as (a & _ & Hr); apply bind_Ret_inv in Hr as (b & _ & Hr);
    (eapply Hwrite; [|exact Hr]); by eapply Hwrite.
Qed.

Lemma render_board_keeps board pos size c w w' :
  P w -> render_board board pos size c w = Ret w' -> P w'.
Proof.
  unfold render_board. apply for_range_Ret. intros y s s'. apply for_range_Ret.
  intros x s0 s0' Hs0 H. unfold render_cell in H.
  do 8 (apply bind_Ret_inv in H as (? & _ & H)). apply bind_Ret_inv in H as (s1 & H1 & H).
  eapply draw_rect_outline_keeps; [|exact H]. by eapply fill_rect_keeps.
Qed.
End keeps.

(** ** The frame buffer as a device *)

Definition color_of_bytes (f : PixcelFormat) (b0 b1 b2 : Z) : Color :=
  match f with Rgb => mkColor b0 b1 b2 | Bgr => mkColor b2 b1 b0 end.

(** The address of a pixel. *)
Definition pixel_address (self : FrameBuffer) (x y : Z) : Z :=
  frame_buffer_base self + 4 * (y * pixcels_per_scan_line self + x).

Definition byte_at (self : FrameBuffer) (a : Z) : Z := default 0 (memory self !! a).

Definition frame_pixel (self : FrameBuffer) (x y : Z) : Color :=
  let a := pixel_address self x y in
  color_of_bytes (pixcel_format self) (byte_at self a) (byte_at self (a + 1)) (byte_at self (a + 2)).

(** The pixels of the buffer, whose size in bytes is a [usize]. *)
Definition frame_area (self : FrameBuffer) (x y : Z) : Prop :=
  0 <= x < pixcels_per_scan_line self /\ 0 <= y < vertical_resolution self /\
  4 * (vertical_resolution self * pixcels_per_scan_line self) <= 2 ^ 64.

Lemma lookup_store_bytes bs : forall m a i,
  store_bytes m a bs !! i =
    if decide (a <= i < a + Z.of_nat (length bs)) then bs !! Z.to_nat (i - a) else m !! i.
Proof.
  induction bs as [|x bs IH] using rev_ind; intros m a i; simpl.
  - rewrite decide_False by lia. done.
  - unfold store_bytes in *. rewrite imap_app, foldl_app, length_app. simpl.
    rewrite Nat.add_0_r. destruct (decide (i = a + Z.of_nat (length bs))) as [->|Hne].
    + rewrite lookup_insert_eq, decide_True by lia.
      rewrite lookup_app_r by lia.
      by replace (Z.to_nat (a + Z.of_nat (length bs) - a) - length bs)%nat with 0%nat by lia.
    + rewrite lookup_insert_ne by done. rewrite IH.
      repeat case_decide; try (exfalso; lia); [|done].
      by rewrite lookup_app_l by lia.
Qed.

Lemma frame_write_Ret self x y c : frame_area self x y ->
  write self x y c = Ret (set_memory self
    (store_bytes (memory self) (pixel_address self x y) (color_bytes (pixcel_format self) c))).
Proof.
  intros (Hx & Hy & Hlim). unfold write, frame_buffer_writer, get_offset, write_pixcel_at_offset.
  assert (y * pixcels_per_scan_line self + x < vertical_resolution self * pixcels_per_scan_line self)
    by nia.
  rewrite mul_w_Ret by lia. cbn [mbind outcome_bind]. rewrite add_w_Ret by lia.
  cbn [mbind outcome_bind]. rewrite mul_w_Ret by lia. cbn [mbind outcome_bind].
  unfold pixel_address. do 3 f_equal. lia.
Qed.

(** Different pixels are at different addresses. *)
Lemma pixel_address_inj self x y x' y' :
  frame_area self x y -> frame_area self x' y' ->
  pixel_address self x y = pixel_address self x' y' -> x = x' /\ y = y'.
Proof.
  intros (Hx & Hy & _) (Hx' & Hy' & _) Heq. unfold pixel_address in Heq.
  set (s := pixcels_per_scan_line self) in *.
  assert (Hq : forall u v, 0 <= u < s -> (v * s + u) / s = v)
    by (intros u v Hu; symmetry; apply (Z.div_unique_pos _ _ _ u); lia).
  assert (y = y') as -> by (rewrite <- (Hq x y), <- (Hq x' y') by done; f_equal; lia).
  split; [lia|done].
Qed.

Lemma byte_at_store self a bs i :
  byte_at (set_memory self (store_bytes (memory self) a bs)) i =
    if decide (a <= i < a + Z.of_nat (length bs)) then default 0 (bs !! Z.to_nat (i - a))
    else byte_at self i.
Proof. unfold byte_at. simpl. rewrite lookup_store_bytes. by case_decide. Qed.

Lemma frame_pixel_store self x y c x' y' :
  frame_area self x y -> frame_area self x' y' ->
  frame_pixel (set_memory self (store_bytes (memory self) (pixel_address self x y)
                 (color_bytes (pixcel_format self) c))) x' y' =
    if decide (x' = x /\ y' = y) then c else frame_pixel self x' y'.
Proof.
  intros Ha Ha'. pose proof (pixel_address_inj self x' y' x y Ha' Ha) as Hinj.
  unfold frame_pixel.
  change (pixel_address (set_memory self ?m)) with (pixel_address self).
  change (pixcel_format (set_memory self ?m)) with (pixcel_format self).
  assert (Hlen : Z.of_nat (length (color_bytes (pixcel_format self) c)) = 3)
    by (unfold color_bytes; destruct (pixcel_format self); done).
  rewrite !byte_at_store, Hlen.
  set (A := pixel_address self x' y') in *. set (B := pixel_address self x y) in *.
  destruct (decide (x' = x /\ y' = y)) as [Heq|Heq].
  - assert (HAB : A = B) by (unfold A, B; destruct Heq; congruence). rewrite !decide_True by lia.
    unfold color_bytes. destruct c, (pixcel_format self); simpl;
      replace (Z.to_nat (A - B)) with 0%nat by lia;
      replace (Z.to_nat (A + 1 - B)) with 1%nat by lia;
      replace (Z.to_nat (A + 2 - B)) with 2%nat by lia; done.
  - assert (A <> B) by (intros HAB; apply Heq, Hinj, HAB).
    assert (Hstep : (4 | A - B)).
    { exists ((y' * pixcels_per_scan_line self + x') - (y * pixcels_per_scan_line self + x)).
      unfold A, B, pixel_address. lia. }
    destruct Hstep as [k Hk]. rewrite !decide_False by lia. done.
Qed.

#[global] Instance frame_buffer_spec : PixelWriterSpec FrameBuffer.
Proof.
  refine {| area := frame_area; pixel_at := frame_pixel; valid_color := fun _ => True |}.
  intros self x y c Ha _. eexists. split; [by apply frame_write_Ret|]. split; [done|].
  intros x' y' Ha'. by apply frame_pixel_store.
Defined.

(** C36: drawing a square board on any pixel device returns, paints every pixel of the
    board as the picture says — outlines white, the inside of a cell in the colour or
    black by whether it lives — and no other pixel. *)
Theorem render_board_exact `{PS : PixelWriterSpec W} board pos size color (w : W) :
  0 < size -> square_board board ->
  on_device w pos (mkVec (Z.of_nat (length board) * size) (Z.of_nat (length board) * size)) ->
  valid_color (W := W) color -> valid_color (W := W) black -> valid_color (W := W) white ->
  exists w', render_board board pos size color w = Ret w' /\
    paints w w' (fill_with
      (in_rect pos (mkVec (Z.of_nat (length board) * size) (Z.of_nat (length board) * size)))
      (board_pixel board pos size color)).
Proof. apply render_board_paints. Qed.

(** A write to a pixel of the frame buffer stores the three bytes of the colour in
    the order of the format, inside the buffer, and changes no other byte; reading the
    pixel gives the colour back. *)
Theorem frame_buffer_pixel self x y c :
  frame_area self x y ->
  exists self', write self x y c = Ret self' /\ frame_pixel self' x y = c /\
    (forall i, memory self' !! (pixel_address self x y + i) =
       if decide (0 <= i < 3) then pixel (pixcel_format self) c !! Z.to_nat i
       else memory self !! (pixel_address self x y + i)) /\
    frame_buffer_base self <= pixel_address self x y /\
    pixel_address self x y + 3 <
      frame_buffer_base self + 4 * (vertical_resolution self * pixcels_per_scan_line self).
Proof.
  intros Ha. eexists. split; [by apply frame_write_Ret|]. split_and!.
  - rewrite frame_pixel_store by done. by rewrite decide_True.
  - intros i. simpl. rewrite lookup_store_bytes. unfold color_bytes.
    assert (length (take 3 (pixel (pixcel_format self) c)) = 3%nat) as ->
      by (destruct (pixcel_format self); done).
    repeat case_decide; try (exfalso; lia); [|done].
    replace (Z.to_nat (pixel_address self x y + i - pixel_address self x y)) with (Z.to_nat i) by lia.
    rewrite lookup_take_lt by lia. done.
  - destruct Ha as (? & ? & ?). unfold pixel_address. nia.
  - destruct Ha as (? & ? & ?). unfold pixel_address. nia.
Qed.

Lemma frame_write_black self x y :
  write self x y black =
    (offset ← get_offset self x y; o ← mul_w 64 offset 4;
     Ret (set_memory self (store_bytes (memory self) (frame_buffer_base self + o) [0; 0; 0]))).
Proof.
  unfold write, frame_buffer_writer, write_pixcel_at_offset. destruct (get_offset self x y); simpl; try done.
  destruct (mul_w 64 a 4); simpl; [|done..]. by destruct (pixcel_format self).
Qed.

(** The loops of [init_graphics] do on the memory what the loops of [fill_rect] do on the
    writer. *)
Lemma for_range_writer gi lo hi (f : Z -> gmap Z Z -> outcome (gmap Z Z))
    (g : Z -> FrameBuffer -> outcome FrameBuffer) m :
  (forall i m, (m' ← f i m; Ret (get_writer gi m')) = g i (get_writer gi m)) ->
  (m' ← for_range lo hi f m; Ret (get_writer gi m')) = for_range lo hi g (get_writer gi m).
Proof.
  intros Hfg. unfold for_range. generalize (Z.to_nat (hi - lo)) as n. intros n. revert lo m.
  induction n as [|n IH]; intros lo m; simpl; [done|].
  rewrite <- Hfg. destruct (f lo m) as [m'| |]; simpl; [by rewrite <- IH|done..].
Qed.

Lemma init_graphics_fill gi m :
  in_usize (gi_horizontal_resolution gi) -> in_usize (gi_vertical_resolution gi) ->
  init_graphics gi m =
    fill_rect (mkVec 0 0) (mkVec (gi_horizontal_resolution gi) (gi_vertical_resolution gi)) black
      (get_writer gi m).
Proof.
  intros Hx Hy. unfold fill_rect. simpl.
  rewrite (add_w_Ret 64 0 (gi_vertical_resolution gi)) by apply Hy.
  rewrite (add_w_Ret 64 0 (gi_horizontal_resolution gi)) by apply Hx. cbn [mbind outcome_bind].
  rewrite !Z.add_0_l. unfold init_graphics.
  apply (for_range_writer gi). intros y m1. apply (for_range_writer gi). intros x m2.
  rewrite frame_write_black. unfold get_offset. simpl.
  destruct (mul_w 64 y (gi_pixels_per_scan_line gi)); simpl; [|done..].
  destruct (add_w 64 a x) as [a0| |]; simpl; [|done..].
  by destruct (mul_w 64 a0 4).
Qed.

(** For a mode whose lines are no longer than the stride and whose frame buffer has a
    size that fits, [init_graphics] returns with every visible pixel black and the pixels
    between the lines as they were. *)
Theorem init_graphics_clears gi m :
  let self := get_writer gi m in
  0 <= gi_horizontal_resolution gi <= gi_pixels_per_scan_line gi ->
  0 <= gi_vertical_resolution gi < 2 ^ 64 -> gi_pixels_per_scan_line gi < 2 ^ 64 ->
  4 * (gi_vertical_resolution gi * gi_pixels_per_scan_line gi) <= 2 ^ 64 ->
  exists self', init_graphics gi m = Ret self' /\
    forall x y, frame_area self x y ->
      frame_pixel self' x y = if decide (x < gi_horizontal_resolution gi) then black
                              else frame_pixel self x y.
Proof.
  intros self Hx Hy Hs Hlim. rewrite init_graphics_fill by (unfold in_usize; lia).
  destruct (fill_rect_paints (mkVec 0 0)
    (mkVec (gi_horizontal_resolution gi) (gi_vertical_resolution gi)) black self)
    as (self' & Hself' & _ & Hp); [|done|].
  - repeat split; simpl in *; try lia; destruct H; simpl in *; lia.
  - exists self'. split; [done|]. intros x y Hxy. etransitivity; [exact (Hp x y Hxy)|].
    destruct Hxy as ((? & ?) & (? & ?) & _). unfold fill, fill_with, in_rect.
    simpl in *. repeat case_decide; try done; exfalso; lia.
Qed.

(** * Witnesses *)

Definition demo_info : GraphicsInfo := mkGraphicsInfo 6 5 8 0x1000 Bgr.
Definition demo_screen : FrameBuffer := get_writer demo_info ∅.
Definition demo_board : list (list bool) := [[true; false]; [false; true]].

Lemma render_board_exact_witness :
  exists w', render_board demo_board (mkVec 1 0) 2 green demo_screen = Ret w' /\
    paints demo_screen w' (fill_with (in_rect (mkVec 1 0) (mkVec 4 4))
                             (board_pixel demo_board (mkVec 1 0) 2 green)).
Proof.
  apply (render_board_exact demo_board (mkVec 1 0) 2 green demo_screen);
    [lia|by repeat constructor| |done..].
  repeat split; simpl in *; try lia; destruct H; simpl in *; lia.
Defined.

Lemma frame_buffer_pixel_witness :
  exists self', write demo_screen 3 2 green = Ret self' /\ frame_pixel self' 3 2 = green /\
    (forall i, memory self' !! (pixel_address demo_screen 3 2 + i) =
       if decide (0 <= i < 3) then pixel (pixcel_format demo_screen) green !! Z.to_nat i
       else memory demo_screen !! (pixel_address demo_screen 3 2 + i)) /\
    frame_buffer_base demo_screen <= pixel_address demo_screen 3 2 /\
    pixel_address demo_screen 3 2 + 3 < frame_buffer_base demo_screen +
      4 * (vertical_resolution demo_screen * pixcels_per_scan_line demo_screen).
Proof. apply frame_buffer_pixel. unfold frame_area. simpl. lia. Defined.

Lemma init_graphics_clears_witness :
  exists self', init_graphics demo_info ∅ = Ret self' /\
    forall x y, frame_area demo_screen x y ->
      frame_pixel self' x y = if decide (x < 6) then black else frame_pixel demo_screen x y.
Proof. apply (init_graphics_clears demo_info ∅); simpl; lia. Defined.
