(* ===== verification/Console.v ===== *)
(** Console: the text console of [kernel-lib/src/lib.rs] ([AsciiWriter] and [Writer]),
    on any pixel device, and the fixed buffer of [kernel-lib/src/write_to.rs]. *)
From S2P Require Import Prelude.
From S2P Require Import Pixels.

(** Characters are their code points; ['\n'] and [' ']. *)
Definition newline : Z := 10.
Definition space : Z := 32.

Record CursorPosition := mkCursor { cx : Z; cy : Z }.

Definition just_new_line (self : CursorPosition) : CursorPosition := mkCursor 0 (cy self + 1).

(** [Writer<N_ROW, N_COLUMN>], with the device it draws on. *)
Record Writer (W : Type) := mkWriter {
  device : W;
  position : CursorPosition;
  background_color : Color;
  foreground_color : Color;
  buffer : list (list Z);
}.
Arguments mkWriter {W}.
Arguments device {W}.
Arguments position {W}.
Arguments background_color {W}.
Arguments foreground_color {W}.
Arguments buffer {W}.

Section console.
(** [FONT] is the table that [gen_font!] generates: a list of glyphs, each a list of
    lines of eight pixels. *)
Context `{PW : PixelWriter W} (FONT : list (list Z)) (N_ROW N_COLUMN : Z).

Definition write_ascii (x y c : Z) (bg_color fg_color : Color) (self : W) : outcome W :=
  match FONT !! Z.to_nat c with
  | None => Ret self
  | Some glyph =>
      for_range 0 (Z.of_nat (length glyph)) (fun dy self =>
        for_range 0 8 (fun dx self =>
          font ← unwrap (glyph !! Z.to_nat dy);
          px ← add_w 64 x dx; py ← add_w 64 y dy;
          write self px py (if Z.testbit font (7 - dx) then fg_color else bg_color)) self) self
  end.

Fixpoint write_chars (idx : Z) (x y : Z) (s : list Z) (color : Color) (self : W) : outcome W :=
  match s with
  | [] => Ret self
  | c :: s =>
      o ← mul_w 64 8 idx; px ← add_w 64 x o;
      self ← write_ascii px y c black color self;
      write_chars (idx + 1) x y s color self
  end.

Definition write_string (x y : Z) (s : list Z) (color : Color) (self : W) : outcome W :=
  write_chars 0 x y s color self.

Definition blank_row : list Z := replicate (Z.to_nat N_COLUMN) space.

Definition writer_new (writer : W) : Writer W :=
  mkWriter writer (mkCursor 0 0) black white (replicate (Z.to_nat N_ROW) blank_row).

Definition set_device (self : Writer W) (d : W) : Writer W :=
  mkWriter d (position self) (background_color self) (foreground_color self) (buffer self).
Definition set_position (self : Writer W) (p : CursorPosition) : Writer W :=
  mkWriter (device self) p (background_color self) (foreground_color self) (buffer self).
Definition set_buffer (self : Writer W) (b : list (list Z)) : Writer W :=
  mkWriter (device self) (position self) (background_color self) (foreground_color self) b.

(** [buffer[y][x]]. *)
Definition cell (b : list (list Z)) (y x : Z) : outcome Z :=
  row ← unwrap (b !! Z.to_nat y); unwrap (row !! Z.to_nat x).

(** [buffer[y] = row]. *)
Definition set_row (b : list (list Z)) (y : Z) (row : list Z) : outcome (list (list Z)) :=
  if decide (Z.to_nat y < length b)%nat then Ret (<[Z.to_nat y := row]> b) else Panic.

Definition store (self : Writer W) (c : Z) : outcome (Writer W) :=
  let y := cy (position self) in let x := cx (position self) in
  row ← unwrap (buffer self !! Z.to_nat y);
  _ ← unwrap (row !! Z.to_nat x);
  b ← set_row (buffer self) y (<[Z.to_nat x := c]> row);
  Ret (set_buffer self b).

Definition flush (self : Writer W) : outcome (Writer W) :=
  d ← for_range 0 N_ROW (fun y d =>
    for_range 0 N_COLUMN (fun x d =>
      px ← mul_w 64 x 8; py ← mul_w 64 y 16;
      c ← cell (buffer self) y x;
      write_ascii px py c (background_color self) (foreground_color self) d) d) (device self);
  Ret (set_device self d).

Definition scroll (self : Writer W) (dy : Z) : outcome (Writer W) :=
  last ← sub_w N_ROW dy;
  b ← for_range 0 last (fun y b =>
    src ← add_w 64 y dy;
    row ← unwrap (b !! Z.to_nat src);
    set_row b y row) (buffer self);
  b ← for_range last N_ROW (fun y b => set_row b y blank_row) b;
  y ← sub_w (cy (position self)) dy;
  Ret (set_position (set_buffer self b) (mkCursor 0 y)).

Definition new_line (self : Writer W) : outcome (Writer W) :=
  self ← (if cy (position self) <? N_ROW
          then Ret (set_position self (just_new_line (position self)))
          else scroll self 1);
  flush self.

Definition advance_cursor (self : Writer W) : outcome (Writer W) :=
  x ← add_w 64 (cx (position self)) 1;
  Ret (set_position self (mkCursor x (cy (position self)))).

Definition put_char (self : Writer W) (c : Z) : outcome (Writer W) :=
  if c =? newline then new_line self
  else if (cx (position self) <? N_COLUMN) && (cy (position self) <? N_ROW) then
    self ← store self c; advance_cursor self
  else
    self ← new_line self;
    self ← (if cy (position self) =? N_ROW then scroll self 1 else Ret self);
    self ← store self c;
    advance_cursor self.

Fixpoint put_string (self : Writer W) (s : list Z) : outcome (Writer W) :=
  match s with
  | [] => Ret self
  | c :: s => self ← put_char self c; put_string self s
  end.

End console.

(** * The terminal that the console implements *)

Section terminal.
Context (N_ROW N_COLUMN : Z).

(** All the lines since the start, the current one last, and whether the current one is
    still below the screen. *)
Record Terminal := mkTerminal { finished : list (list Z); current : list Z; below : bool }.

Definition term_new : Terminal := mkTerminal [] [] false.

(** A new line goes to the screen while there is room, then it waits below it. *)
Definition term_newline (t : Terminal) : Terminal :=
  if below t then mkTerminal (finished t) (current t) false
  else mkTerminal (finished t ++ [current t]) [] (N_ROW <=? Z.of_nat (length (finished t)) + 1).

Definition term_put (t : Terminal) (c : Z) : Terminal :=
  if c =? newline then term_newline t
  else if Z.of_nat (length (current t)) <? N_COLUMN then
    mkTerminal (finished t) (current t ++ [c]) false
  else mkTerminal (finished t ++ [current t]) [c] false.

Definition term_puts (t : Terminal) (s : list Z) : Terminal := foldl term_put t s.

Definition pad_row (row : list Z) : list Z :=
  row ++ replicate (Z.to_nat N_COLUMN - length row) space.

(** The lines on the screen. *)
Definition visible (t : Terminal) : list (list Z) :=
  let ls := if below t then finished t else finished t ++ [current t] in
  drop (length ls - Z.to_nat N_ROW) ls.

Definition screen (t : Terminal) : list (list Z) :=
  let ls := pad_row <$> visible t in
  ls ++ replicate (Z.to_nat N_ROW - length ls) (replicate (Z.to_nat N_COLUMN) space).

Definition cursor (t : Terminal) : CursorPosition :=
  mkCursor (Z.of_nat (length (current t)))
    (if below t then N_ROW else Z.of_nat (length (visible t)) - 1).

End terminal.

(** * The buffer of [write_to.rs] *)

Record WriteTo := mkWriteTo { wt_buffer : list Z; used : Z }.

Definition write_to_new (buffer : list Z) : WriteTo := mkWriteTo buffer 0.

Definition as_str (self : WriteTo) : option (list Z) :=
  if used self <=? Z.of_nat (length (wt_buffer self))
  then Some (take (Z.to_nat (used self)) (wt_buffer self)) else None.

(** The new state, and whether the write succeeded. *)
Definition write_str (self : WriteTo) (s : list Z) : outcome (WriteTo * bool) :=
  if Z.of_nat (length (wt_buffer self)) <? used self then Ret (self, false)
  else
    let u := Z.to_nat (used self) in
    let write_num := Nat.min (length s) (length (wt_buffer self) - u) in
    u' ← add_w 64 (used self) (Z.of_nat (length s));
    Ret (mkWriteTo (take u (wt_buffer self) ++ take write_num s ++
                    drop (u + write_num) (wt_buffer self)) u',
         negb (Nat.ltb write_num (length s))).

(** [fmt::write] hands the pieces of the text to [write_str] and stops at an error. *)
Fixpoint fmt_write (self : WriteTo) (pieces : list (list Z)) : outcome (WriteTo * bool) :=
  match pieces with
  | [] => Ret (self, true)
  | s :: pieces =>
      '(self, ok) ← write_str self s;
      if ok : bool then fmt_write self pieces else Ret (self, false)
  end.

Definition show (buffer : list Z) (pieces : list (list Z)) : outcome (option (list Z)) :=
  '(w, ok) ← fmt_write (write_to_new buffer) pieces;
  if ok : bool then Ret (as_str w) else Ret None.

(** * Lemmas on the terminal *)

Section terminal_lemmas.
Context (N_ROW N_COLUMN : Z) (Hrow : 0 < N_ROW) (Hcol : 0 < N_COLUMN).

Definition reveal (t : Terminal) : Terminal := mkTerminal (finished t) (current t) false.

Definition append (t : Terminal) (c : Z) : Terminal :=
  mkTerminal (finished t) (current t ++ [c]) false.

Record term_wf (t : Terminal) : Prop := {
  wf_finished : Forall (fun row => Z.of_nat (length row) <= N_COLUMN) (finished t);
  wf_current : Z.of_nat (length (current t)) <= N_COLUMN;
  wf_below : below t = true -> current t = [] /\ N_ROW <= Z.of_nat (length (finished t));
}.

Lemma visible_not_below t : below t = false ->
  visible N_ROW t =
    drop (S (length (finished t)) - Z.to_nat N_ROW) (finished t) ++ [current t].
Proof.
  intros Hb. unfold visible. rewrite Hb, length_app. simpl.
  rewrite drop_app_le by lia. do 2 f_equal. lia.
Qed.

Lemma length_visible_not_below t : below t = false ->
  Z.of_nat (length (visible N_ROW t)) = Z.min (Z.of_nat (length (finished t)) + 1) N_ROW.
Proof. intros. rewrite visible_not_below by done. rewrite length_app, length_drop. simpl. lia. Qed.

Lemma visible_below t : below t = true ->
  visible N_ROW t = drop (length (finished t) - Z.to_nat N_ROW) (finished t).
Proof. intros Hb. unfold visible. by rewrite Hb. Qed.

Lemma length_visible t : (length (visible N_ROW t) <= Z.to_nat N_ROW)%nat.
Proof. unfold visible. rewrite length_drop. lia. Qed.

Lemma length_screen t : length (screen N_ROW N_COLUMN t) = Z.to_nat N_ROW.
Proof.
  unfold screen. rewrite length_app, length_replicate, length_fmap.
  pose proof (length_visible t). lia.
Qed.

Lemma screen_reveal t : below t = true -> term_wf t ->
  screen N_ROW N_COLUMN (reveal t) =
    drop 1 (screen N_ROW N_COLUMN t) ++ [replicate (Z.to_nat N_COLUMN) space].
Proof.
  intros Hb [_ _ Hwf]. destruct (Hwf Hb) as [Hcur Hlen]. unfold screen.
  rewrite (visible_not_below (reveal t)) by done. rewrite (visible_below t) by done. simpl.
  rewrite Hcur, !length_fmap, length_app, !length_drop. simpl.
  replace (Z.to_nat N_ROW - _)%nat with 0%nat by lia.
  replace (Z.to_nat N_ROW - _)%nat with 0%nat by lia. simpl. rewrite !app_nil_r.
  rewrite fmap_app. simpl. unfold pad_row at 2. simpl. rewrite Nat.sub_0_r. f_equal.
  rewrite <- fmap_drop, drop_drop. do 2 f_equal. lia.
Qed.

Lemma screen_newline t : below t = false ->
  screen N_ROW N_COLUMN (term_newline N_ROW t) = screen N_ROW N_COLUMN t.
Proof.
  intros Hb. pose proof (length_visible_not_below t Hb) as Hlen.
  unfold term_newline. rewrite Hb.
  destruct (Z.leb_spec N_ROW (Z.of_nat (length (finished t)) + 1)) as [Hle|Hgt].
  - unfold screen. rewrite visible_below by done. rewrite visible_not_below by done. simpl.
    rewrite length_app. simpl. rewrite drop_app_le by lia.
    by replace (length (finished t) + 1)%nat with (S (length (finished t))) by lia.
  - unfold screen at 1. rewrite visible_not_below by done. simpl.
    unfold screen. rewrite (visible_not_below t) by done. rewrite length_app. simpl.
    rewrite !length_fmap, !length_app, !length_drop, length_app. simpl.
    replace (S (length (finished t) + 1) - Z.to_nat N_ROW)%nat with 0%nat by lia.
    replace (S (length (finished t)) - Z.to_nat N_ROW)%nat with 0%nat by lia. simpl.
    rewrite (fmap_app _ _ [[]]). simpl. unfold pad_row at 2. simpl. rewrite Nat.sub_0_r, <- app_assoc.
    f_equal. rewrite !Nat.sub_0_r.
    replace (Z.to_nat N_ROW - (length (finished t) + 1))%nat
      with (S (Z.to_nat N_ROW - (length (finished t) + 1 + 1)))%nat by lia.
    done.
Qed.

(** The row of the cursor. *)
Lemma screen_cursor_row t : below t = false ->
  screen N_ROW N_COLUMN t !! (length (visible N_ROW t) - 1)%nat = Some (pad_row N_COLUMN (current t)).
Proof.
  intros Hb. unfold screen. rewrite visible_not_below by done.
  rewrite fmap_app, length_app. simpl. rewrite lookup_app_l
    by (rewrite length_app, !length_fmap; simpl; lia).
  rewrite lookup_app_r by (rewrite length_fmap; lia).
  rewrite length_fmap. by replace (_ - _ - _)%nat with 0%nat by lia.
Qed.

Lemma pad_row_snoc row c : Z.of_nat (length row) < N_COLUMN ->
  <[length row := c]> (pad_row N_COLUMN row) = pad_row N_COLUMN (row ++ [c]) /\
  pad_row N_COLUMN row !! length row = Some space.
Proof.
  intros Hlt. unfold pad_row. rewrite length_app. simpl.
  replace (Z.to_nat N_COLUMN - length row)%nat
    with (S (Z.to_nat N_COLUMN - (length row + 1)))%nat by lia. simpl. split.
  - rewrite insert_app_r_alt by lia. rewrite Nat.sub_diag. simpl. by rewrite <- app_assoc.
  - rewrite lookup_app_r by lia. by rewrite Nat.sub_diag.
Qed.

Lemma screen_append t c : below t = false -> Z.of_nat (length (current t)) < N_COLUMN ->
  screen N_ROW N_COLUMN (append t c) =
    <[(length (visible N_ROW t) - 1)%nat := <[length (current t) := c]> (pad_row N_COLUMN (current t))]>
      (screen N_ROW N_COLUMN t).
Proof.
  intros Hb Hlt. destruct (pad_row_snoc (current t) c Hlt) as [-> _].
  unfold screen. rewrite (visible_not_below t), (visible_not_below (append t c)) by done. simpl.
  rewrite !fmap_app, !length_app, !length_fmap. simpl.
  rewrite insert_app_l by (rewrite length_app, length_fmap; simpl; lia).
  rewrite insert_app_r_alt by (rewrite length_fmap; lia). rewrite length_fmap.
  by replace (_ - _ - _)%nat with 0%nat by lia.
Qed.

Lemma term_newline_wf t : term_wf t -> term_wf (term_newline N_ROW t).
Proof.
  intros [Hf Hc Hb]. unfold term_newline. destruct (below t) eqn:E; split; simpl; try done; [|lia|].
  - by apply Forall_app_2; [|constructor].
  - intros Hle%Z.leb_le. split; [done|]. rewrite length_app. simpl. lia.
Qed.

Lemma append_wf t c : below t = false -> Z.of_nat (length (current t)) < N_COLUMN ->
  term_wf t -> term_wf (append t c).
Proof. intros Hb Hlt [Hf _ _]. split; simpl; [done| |done]. rewrite length_app. simpl. lia. Qed.

Lemma reveal_wf t : term_wf t -> term_wf (reveal t).
Proof. intros [Hf Hc _]. by split. Qed.

Lemma screen_rows t : term_wf t ->
  Forall (fun row => length row = Z.to_nat N_COLUMN) (screen N_ROW N_COLUMN t).
Proof.
  intros [Hf Hc _]. unfold screen. apply Forall_app_2.
  - apply Forall_fmap. unfold visible. apply Forall_drop.
    assert (Hl : Forall (fun row => Z.of_nat (length row) <= N_COLUMN) (finished t ++ [current t]))
      by (apply Forall_app_2; [done|by constructor]).
    apply Forall_impl with (P := fun row => Z.of_nat (length row) <= N_COLUMN); [by destruct (below t)|].
    intros row Hlen. unfold compose, pad_row. rewrite length_app, length_replicate. lia.
  - apply Forall_replicate. by rewrite length_replicate.
Qed.

(** What a character does in terms of the others. *)
Lemma term_put_cases t c :
  c <> newline -> term_wf t ->
  (below t = false /\ Z.of_nat (length (current t)) < N_COLUMN /\
     term_put N_ROW N_COLUMN t c = append t c) \/
  (below t = true /\ term_put N_ROW N_COLUMN t c = append (term_newline N_ROW t) c) \/
  (below t = false /\ Z.of_nat (length (current t)) = N_COLUMN /\
     term_put N_ROW N_COLUMN t c = append (reveal (term_newline N_ROW t)) c).
Proof.
  intros Hne [Hf Hc Hb]. unfold term_put, term_newline. rewrite (proj2 (Z.eqb_neq _ _) Hne).
  destruct (below t) eqn:E.
  - right; left. destruct (Hb eq_refl) as [-> _]. by rewrite (proj2 (Z.ltb_lt (Z.of_nat (length (@nil Z))) _) Hcol).
  - destruct (Z.ltb_spec (Z.of_nat (length (current t))) N_COLUMN); [left; done|].
    right; right. split_and!; [done|lia|done].
Qed.

End terminal_lemmas.

(** * Lemmas on the console *)

(** The pixel of a character: [dx], [dy] within its cell. *)
Definition char_pixel (FONT : list (list Z)) (bg fg : Color) (c dx dy : Z) : option Color :=
  glyph ← FONT !! Z.to_nat c;
  Some (if Z.testbit (nth (Z.to_nat dy) glyph 0) (7 - dx) then fg else bg).

Definition region (P : Z -> Z -> Prop) `{forall x y, Decision (P x y)}
    (h : Z -> Z -> option Color) (x y : Z) : option Color :=
  if decide (P x y) then h x y else None.

Definition console_size (N_ROW N_COLUMN : Z) : Vector2D := mkVec (8 * N_COLUMN) (16 * N_ROW).

(** The pixel of the whole console. *)
Definition console_pixel (FONT : list (list Z)) (bg fg : Color) (b : list (list Z)) (x y : Z) :
    option Color :=
  match cell b (y / 16) (x / 8) with
  | Ret c => char_pixel FONT bg fg c (x mod 8) (y mod 16)
  | _ => None
  end.

Ltac solve_region := intros; unfold region, point, over, in_rect, console_size in *; simpl in *;
  repeat case_decide; try done; try (exfalso; lia); repeat case_match; done.

Section console_lemmas.
Context `{PS : PixelWriterSpec W} (FONT : list (list Z)) (N_ROW N_COLUMN : Z).
Context (Hfont : Forall (fun glyph => length glyph = 16%nat) FONT).
Context (Hrow : 0 < N_ROW) (Hcol : 0 < N_COLUMN).
Context (Hrow64 : 16 * N_ROW < 2 ^ 64) (Hcol64 : 8 * N_COLUMN < 2 ^ 64).

Lemma write_ascii_paints x y c bg fg w :
  on_device w (mkVec x y) (mkVec 8 16) -> valid_color (W := W) bg -> valid_color (W := W) fg ->
  exists w', write_ascii FONT x y c bg fg w = Ret w' /\
    paints w w' (region (in_rect (mkVec x y) (mkVec 8 16))
                   (fun px py => char_pixel FONT bg fg c (px - x) (py - y))).
Proof.
  intros (_ & _ & Hx0 & Hy0 & Hx & Hy & Harea) Hbg Hfg. simpl in *.
  unfold write_ascii, char_pixel. destruct (FONT !! Z.to_nat c) as [glyph|] eqn:Hg; simpl.
  2:{ exists w. split; [done|]. eapply paints_ext; [|apply paints_none]. solve_region. }
  eapply Forall_lookup in Hg as Hlen; [|done]. simpl in Hlen. rewrite Hlen.
  set (h := fun px py => Some (if Z.testbit (nth (Z.to_nat (py - y)) glyph 0) (7 - (px - x)) then fg else bg)).
  apply (paints_for (fun k => region (in_rect (mkVec x y) (mkVec 8 k)) h)
    (fun k => region (in_rect (mkVec x (y + k)) (mkVec 8 1)) h)); [lia| |solve_region|solve_region|solve_region].
  intros s dy Hdy Hs.
  apply (paints_for (fun k => region (in_rect (mkVec x (y + dy)) (mkVec k 1)) h)
    (fun k => point (x + k) (y + dy)
       (if Z.testbit (nth (Z.to_nat dy) glyph 0) (7 - k) then fg else bg)));
    [lia| |solve_region| |solve_region].
  - intros s0 dx Hdx Hs0.
    destruct (lookup_lt_is_Some_2 glyph (Z.to_nat dy)) as [font Hf]; [lia|].
    rewrite Hf. cbn [unwrap mbind outcome_bind]. rewrite !add_w_Ret by lia. cbn [mbind outcome_bind].
    rewrite (nth_lookup_Some _ _ _ _ Hf).
    apply paints_write; [|by case_match]. apply Hs0, Hs, Harea. split; simpl; lia.
  - intros k x' y' Hk. unfold region, point, over, in_rect. simpl.
    repeat case_decide; try done; try (exfalso; lia).
    destruct_and!. subst. unfold h. replace (x + k - x) with k by lia.
    by replace (y + dy - y) with dy by lia.
Qed.

(** The console is on the device. *)
Definition console_on (d : W) : Prop := on_device d (mkVec 0 0) (console_size N_ROW N_COLUMN).

Definition buffer_wf (b : list (list Z)) : Prop :=
  length b = Z.to_nat N_ROW /\ Forall (fun row => length row = Z.to_nat N_COLUMN) b.

Lemma cell_Ret b y x : buffer_wf b -> 0 <= y < N_ROW -> 0 <= x < N_COLUMN ->
  exists c, cell b y x = Ret c.
Proof.
  intros [Hl Hb] Hy Hx. unfold cell.
  destruct (lookup_lt_is_Some_2 b (Z.to_nat y)) as [row Hr]; [lia|].
  eapply Forall_lookup in Hb; [|done]. simpl in Hb. rewrite Hr. simpl.
  destruct (lookup_lt_is_Some_2 row (Z.to_nat x)) as [c ->]; [lia|]. eauto.
Qed.

Lemma cell_split n k d : 0 < n -> n * k <= d < n * k + n -> d / n = k /\ d mod n = d - n * k.
Proof.
  intros Hn Hd. assert (Hq : d / n = k) by (symmetry; apply (Z.div_unique_pos _ _ _ (d - n * k)); lia).
  split; [done|]. rewrite Z.mod_eq by lia. by rewrite Hq.
Qed.

Lemma flush_paints (self : Writer W) :
  buffer_wf (buffer self) -> console_on (device self) ->
  valid_color (W := W) (background_color self) -> valid_color (W := W) (foreground_color self) ->
  exists d, flush FONT N_ROW N_COLUMN self = Ret (set_device self d) /\
    paints (device self) d (region (in_rect (mkVec 0 0) (console_size N_ROW N_COLUMN))
      (console_pixel FONT (background_color self) (foreground_color self) (buffer self))).
Proof.
  intros Hb Hon Hbg Hfg. destruct Hon as (_ & _ & _ & _ & _ & _ & Harea). simpl in *.
  unfold flush. set (h := console_pixel FONT _ _ _).
  match goal with |- context [for_range 0 N_ROW ?f (device self)] =>
    assert (exists d, for_range 0 N_ROW f (device self) = Ret d /\
      paints (device self) d (region (in_rect (mkVec 0 0) (console_size N_ROW N_COLUMN)) h))
      as (d & -> & Hp); [|by exists d] end.
  apply (paints_for (fun k => region (in_rect (mkVec 0 0) (console_size k N_COLUMN)) h)
    (fun k => region (in_rect (mkVec 0 (16 * k)) (console_size 1 N_COLUMN)) h));
    [lia| |solve_region|solve_region|solve_region].
  intros s y Hy Hs.
  apply (paints_for (fun k => region (in_rect (mkVec 0 (16 * y)) (console_size 1 k)) h)
    (fun k => region (in_rect (mkVec (8 * k) (16 * y)) (mkVec 8 16)) h));
    [lia| |solve_region|solve_region|solve_region].
  intros s0 x Hx Hs0. rewrite !mul_w_Ret by lia. cbn [mbind outcome_bind].
  destruct (cell_Ret (buffer self) y x) as [c Hc]; [done..|].
  rewrite Hc. cbn [mbind outcome_bind].
  destruct (write_ascii_paints (x * 8) (y * 16) c (background_color self) (foreground_color self) s0)
    as (s' & Hs' & Hp); [|done..|].
  - repeat split; simpl; try lia. intros px py [??]; simpl in *. apply Hs0, Hs, Harea. split; simpl; lia.
  - exists s'. split; [done|]. eapply paints_ext; [|exact Hp].
    intros px py. unfold region, in_rect. simpl. repeat case_decide; try done; try (exfalso; lia).
    unfold h, console_pixel. destruct (cell_split 8 x px) as [-> ->]; [lia..|].
    destruct (cell_split 16 y py) as [-> ->]; [lia..|]. rewrite Hc. f_equal; lia.
Qed.

(** ** Scrolling by one row *)

Lemma set_row_Ret b y row : (Z.to_nat y < length b)%nat ->
  set_row b y row = Ret (<[Z.to_nat y := row]> b).
Proof. intros. unfold set_row. by rewrite decide_True. Qed.

Lemma scroll_one (self : Writer W) :
  buffer_wf (buffer self) -> 1 <= cy (position self) ->
  scroll N_ROW N_COLUMN self 1 =
    Ret (set_position (set_buffer self (drop 1 (buffer self) ++ [blank_row N_COLUMN]))
           (mkCursor 0 (cy (position self) - 1))).
Proof.
  intros [Hl _] Hy. set (b := buffer self) in *. unfold scroll. rewrite (sub_w_Ret N_ROW) by lia.
  change (Ret ?a ≫= ?k) with (k a). cbv beta. fold b.
  destruct (for_range_inv (fun k bk => length bk = length b /\
      forall i, bk !! i = if decide (Z.of_nat i < k) then b !! S i else b !! i)
    0 (N_ROW - 1) (fun y b => src ← add_w 64 y 1; row ← unwrap (b !! Z.to_nat src); set_row b y row) b)
    as (b1 & -> & Hl1 & Hb1); [lia| | |].
  - split; [done|]. intros i. by rewrite decide_False by lia.
  - intros y bk Hyr [Hlk Hbk]. rewrite add_w_Ret by lia. cbn [mbind outcome_bind].
    destruct (lookup_lt_is_Some_2 bk (Z.to_nat (y + 1))) as [row Hr]; [lia|].
    rewrite Hr. cbn [unwrap mbind outcome_bind]. rewrite set_row_Ret by lia.
    eexists. split; [done|]. split; [by rewrite length_insert|]. intros i.
    destruct (decide (i = Z.to_nat y)) as [->|Hne].
    + rewrite list_lookup_insert_eq, decide_True by lia. rewrite <- Hr, Hbk, decide_False by lia.
      f_equal. lia.
    + rewrite list_lookup_insert_ne, Hbk by done. repeat case_decide; try done; exfalso; lia.
  - cbn [mbind outcome_bind]. unfold for_range.
    replace (Z.to_nat (N_ROW - (N_ROW - 1))) with 1%nat by lia. simpl.
    rewrite set_row_Ret by lia. cbn [mbind outcome_bind]. rewrite sub_w_Ret by lia.
    cbn [mbind outcome_bind]. do 3 f_equal. apply list_eq. intros i.
    destruct (decide (i = Z.to_nat (N_ROW - 1))) as [->|Hne].
    + rewrite list_lookup_insert_eq by lia. rewrite lookup_app_r by (rewrite length_drop; lia).
      rewrite length_drop. by replace (_ - _)%nat with 0%nat by lia.
    + rewrite list_lookup_insert_ne, Hb1 by done. case_decide.
      * rewrite lookup_app_l by (rewrite length_drop; lia). by rewrite lookup_drop.
      * rewrite lookup_ge_None_2 by lia. symmetry. apply lookup_ge_None_2.
        rewrite length_app, length_drop. simpl. lia.
Qed.

(** ** The console implements the terminal *)

Record shows (self : Writer W) (t : Terminal) : Prop := {
  shows_buffer : buffer self = screen N_ROW N_COLUMN t;
  shows_cursor : position self = cursor N_ROW t;
  shows_wf : term_wf N_ROW N_COLUMN t;
  shows_device : console_on (device self);
  shows_bg : valid_color (W := W) (background_color self);
  shows_fg : valid_color (W := W) (foreground_color self);
}.

Lemma shows_buffer_wf self t : shows self t -> buffer_wf (buffer self).
Proof.
  intros Hs. rewrite (shows_buffer _ _ Hs). split; [by apply length_screen|].
  apply screen_rows; [done..|]. apply (shows_wf _ _ Hs).
Qed.

Lemma flush_shows_term self t : shows self t ->
  exists self', flush FONT N_ROW N_COLUMN self = Ret self' /\ shows self' t.
Proof.
  intros Hs. destruct (flush_paints self) as (d & -> & [Ha _]); [|apply Hs..|].
  - by eapply shows_buffer_wf.
  - exists (set_device self d). destruct Hs as [Hb Hc Hw Hd Hbg Hfg].
    split; [done|]. split; simpl; try done.
    unfold console_on, on_device in *. destruct_and!. split_and!; try done. intros. by apply Ha; auto.
Qed.

Lemma scroll_shows self t : shows self t -> below t = true ->
  scroll N_ROW N_COLUMN self 1 =
    Ret (set_position (set_buffer self (drop 1 (buffer self) ++ [blank_row N_COLUMN]))
           (mkCursor 0 (cy (position self) - 1))) /\
  shows (set_position (set_buffer self (drop 1 (buffer self) ++ [blank_row N_COLUMN]))
           (mkCursor 0 (cy (position self) - 1))) (reveal t).
Proof.
  intros Hs Hb. pose proof (shows_buffer_wf _ _ Hs) as Hbw. destruct Hs as [Hbuf Hc Hw Hd Hbg Hfg].
  destruct (wf_below _ _ _ Hw Hb) as [Hcur Hlen]. split.
  - apply scroll_one; [done|]. rewrite Hc. unfold cursor. rewrite Hb. simpl. lia.
  - split; simpl; try done.
    + rewrite Hbuf. symmetry. by apply screen_reveal.
    + rewrite Hc. unfold cursor. rewrite Hb. simpl. rewrite Hcur. f_equal.
      rewrite length_visible_not_below by done. simpl. lia.
    + by apply reveal_wf.
Qed.

Lemma new_line_shows self t : shows self t ->
  exists self', new_line FONT N_ROW N_COLUMN self = Ret self' /\
    shows self' (term_newline N_ROW t).
Proof.
  intros Hs. unfold new_line. rewrite (shows_cursor _ _ Hs). unfold cursor. simpl.
  destruct (below t) eqn:Hb.
  - rewrite Z.ltb_irrefl. destruct (scroll_shows self t Hs Hb) as [-> Hs'].
    cbn [mbind outcome_bind]. destruct (flush_shows_term _ _ Hs') as (self' & -> & Hs'').
    exists self'. split; [done|]. unfold term_newline. by rewrite Hb.
  - pose proof (length_visible_not_below N_ROW Hrow t Hb) as Hlen.
    rewrite (proj2 (Z.ltb_lt _ _)) by lia. cbn [mbind outcome_bind].
    match goal with |- context [flush _ _ _ ?w] => assert (Hs' : shows w (term_newline N_ROW t)) end.
    { destruct Hs as [Hbuf Hc Hw Hd Hbg Hfg]. split; simpl; try done.
      - rewrite Hbuf. symmetry. by apply screen_newline.
      - unfold term_newline. rewrite Hb. unfold cursor, just_new_line. simpl. f_equal.
        destruct (Z.leb_spec N_ROW (Z.of_nat (length (finished t)) + 1)); simpl; [lia|].
        rewrite Hlen, length_visible_not_below by done. simpl. rewrite length_app. simpl. lia.
      - by apply term_newline_wf. }
    destruct (flush_shows_term _ _ Hs') as (self' & -> & Hs'').
    by exists self'.
Qed.

Lemma store_shows self t c : shows self t -> below t = false ->
  Z.of_nat (length (current t)) < N_COLUMN ->
  exists self', (s ← store self c; advance_cursor s) = Ret self' /\ shows self' (append t c).
Proof.
  intros [Hbuf Hc Hw Hd Hbg Hfg] Hb Hlt.
  pose proof (length_visible_not_below N_ROW Hrow t Hb) as Hlen.
  pose proof (screen_cursor_row N_ROW N_COLUMN Hrow t Hb) as Hcr.
  destruct (pad_row_snoc N_COLUMN Hcol (current t) c Hlt) as [_ Hsp].
  unfold store. rewrite Hc, Hbuf. unfold cursor. rewrite Hb. simpl.
  replace (Z.to_nat (Z.of_nat (length (visible N_ROW t)) - 1))
    with (length (visible N_ROW t) - 1)%nat by lia.
  rewrite Hcr. simpl. rewrite Nat2Z.id, Hsp. simpl.
  unfold set_row. rewrite length_screen by done.
  rewrite decide_True by lia. cbn [mbind outcome_bind]. unfold advance_cursor. simpl.
  rewrite Hc. unfold cursor. rewrite Hb. simpl. rewrite add_w_Ret by lia. cbn [mbind outcome_bind].
  eexists. split; [done|]. split; simpl; try done.
  - rewrite screen_append by done. f_equal. lia.
  - unfold cursor. simpl. f_equal; [rewrite length_app; simpl; lia|].
    by rewrite !length_visible_not_below by done.
  - by apply append_wf.
Qed.

Lemma newline_below t : below t = true -> below (term_newline N_ROW t) = false.
Proof. intros Hb. unfold term_newline. by rewrite Hb. Qed.

(** After a new line the cursor is on the screen, or waits below it and the scrolling
    brings it there. *)
Lemma reveal_line_shows self t : shows self t ->
  exists self', (if cy (position self) =? N_ROW then scroll N_ROW N_COLUMN self 1 else Ret self)
      = Ret self' /\ shows self' (reveal t).
Proof.
  intros Hs. rewrite (shows_cursor _ _ Hs). unfold cursor. simpl. destruct (below t) eqn:Hb.
  - rewrite Z.eqb_refl. destruct (scroll_shows self t Hs Hb) as [-> Hs']. eauto.
  - pose proof (length_visible N_ROW Hrow t). rewrite (proj2 (Z.eqb_neq _ _)) by lia.
    exists self. split; [done|]. destruct t as [f c b]. simpl in Hb. by subst b.
Qed.

(** The else branch of [put_char]. *)
Lemma wrap_shows self t c :
  shows self t -> Z.of_nat (length (current (term_newline N_ROW t))) < N_COLUMN ->
  exists self',
    (self ← new_line FONT N_ROW N_COLUMN self;
     self ← (if cy (position self) =? N_ROW then scroll N_ROW N_COLUMN self 1 else Ret self);
     self ← store self c; advance_cursor self) = Ret self' /\
    shows self' (append (reveal (term_newline N_ROW t)) c).
Proof.
  intros Hs Hlt. destruct (new_line_shows self t Hs) as (s1 & -> & Hs1).
  cbn [mbind outcome_bind]. destruct (reveal_line_shows s1 _ Hs1) as (s2 & Hr & Hs2).
  cbn [mbind outcome_bind] in Hr. rewrite Hr. cbn [mbind outcome_bind].
  destruct (store_shows s2 _ c Hs2) as (s3 & Hst & Hs3); [done|done|].
  exists s3. by split; [exact Hst|].
Qed.

Lemma put_char_shows self t c : shows self t ->
  exists self', put_char FONT N_ROW N_COLUMN self c = Ret self' /\
    shows self' (term_put N_ROW N_COLUMN t c).
Proof.
  intros Hs. unfold put_char. destruct (Z.eqb_spec c newline) as [->|Hne].
  { destruct (new_line_shows self t Hs) as (self' & -> & Hs'). by exists self'. }
  rewrite (shows_cursor _ _ Hs). unfold cursor. cbn [cx cy].
  destruct (term_put_cases N_ROW N_COLUMN Hcol t c Hne (shows_wf _ _ Hs))
    as [(Hb & Hlt & ->)|[(Hb & ->)|(Hb & Heq & ->)]]; rewrite Hb.
  - pose proof (length_visible_not_below N_ROW Hrow t Hb).
    rewrite (proj2 (Z.ltb_lt _ _) Hlt), (proj2 (Z.ltb_lt _ N_ROW)) by lia. cbn [andb].
    destruct (store_shows self t c Hs Hb Hlt) as (s' & Hst & Hs').
    exists s'. by split; [exact Hst|].
  - rewrite Z.ltb_irrefl, andb_false_r.
    destruct (wrap_shows self t c Hs) as (s' & Hw & Hs').
    { unfold term_newline. rewrite Hb. simpl.
      destruct (wf_below _ _ _ (shows_wf _ _ Hs) Hb) as [-> _]. done. }
    exists s'. split; [exact Hw|]. unfold term_newline in *. by rewrite Hb in *.
  - rewrite Heq, Z.ltb_irrefl. cbn [andb].
    destruct (wrap_shows self t c Hs) as (s' & Hw & Hs').
    { unfold term_newline. by rewrite Hb. }
    exists s'. by split; [exact Hw|].
Qed.

Lemma put_string_shows s : forall self t, shows self t ->
  exists self', put_string FONT N_ROW N_COLUMN self s = Ret self' /\
    shows self' (term_puts N_ROW N_COLUMN t s).
Proof.
  induction s as [|c s IH]; intros self t Hs; simpl; [by exists self|].
  destruct (put_char_shows self t c Hs) as (s1 & -> & Hs1). cbn [mbind outcome_bind].
  destruct (IH s1 _ Hs1) as (s2 & -> & Hs2). by exists s2.
Qed.

Lemma writer_new_shows d : console_on d -> valid_color (W := W) black -> valid_color (W := W) white ->
  shows (writer_new N_ROW N_COLUMN d) term_new.
Proof.
  intros Hd Hb Hw. split; try done.
  - unfold screen, visible. simpl. replace (1 - Z.to_nat N_ROW)%nat with 0%nat by lia. simpl.
    unfold pad_row. simpl. rewrite Nat.sub_0_r.
    change (?x :: replicate ?n ?x) with (replicate (S n) x). unfold blank_row. f_equal. lia.
  - unfold cursor, visible. simpl. by replace (1 - Z.to_nat N_ROW)%nat with 0%nat by lia.
  - split; simpl; [constructor|lia|done].
Qed.

Lemma new_line_draws self t : shows self t ->
  exists self', new_line FONT N_ROW N_COLUMN self = Ret self' /\
    paints (device self) (device self') (region (in_rect (mkVec 0 0) (console_size N_ROW N_COLUMN))
      (console_pixel FONT (background_color self) (foreground_color self)
         (screen N_ROW N_COLUMN (term_newline N_ROW t)))).
Proof.
  intros Hs. unfold new_line. rewrite (shows_cursor _ _ Hs). unfold cursor. simpl.
  pose proof (shows_buffer_wf _ _ Hs) as Hwf. destruct (below t) eqn:Hb.
  - rewrite Z.ltb_irrefl. destruct (scroll_shows self t Hs Hb) as [-> Hs'].
    cbn [mbind outcome_bind]. destruct (flush_paints _ (shows_buffer_wf _ _ Hs')) as (d & Hf & Hp);
      [apply Hs'..|]. eexists. split; [exact Hf|].
    rewrite (shows_buffer _ _ Hs') in Hp. unfold term_newline. by rewrite Hb.
  - pose proof (length_visible_not_below N_ROW Hrow t Hb) as Hlen.
    rewrite (proj2 (Z.ltb_lt _ _)) by lia. cbn [mbind outcome_bind].
    match goal with |- context [flush _ _ _ ?w] => destruct (flush_paints w) as (d & Hf & Hp) end;
      [done|apply Hs..|]. eexists. split; [exact Hf|].
    rewrite screen_newline by done. by rewrite <- (shows_buffer _ _ Hs).
Qed.

End console_lemmas.

(** * Properties *)

Section properties.
Context `{PS : PixelWriterSpec W} (FONT : list (list Z)) (N_ROW N_COLUMN : Z).

(** What the properties assume: a table of glyphs of sixteen lines, a console with at
    least one cell and within the device, and the two colours of the console. *)
Record console_setup (d : W) : Prop := {
  setup_font : Forall (fun glyph => length glyph = 16%nat) FONT;
  setup_row : 0 < N_ROW;
  setup_column : 0 < N_COLUMN;
  setup_device : console_on N_ROW N_COLUMN d;
  setup_black : valid_color (W := W) black;
  setup_white : valid_color (W := W) white;
}.

Lemma setup_sizes d : console_setup d -> 16 * N_ROW < 2 ^ 64 /\ 8 * N_COLUMN < 2 ^ 64.
Proof. intros [_ _ _ (_ & _ & _ & _ & Hx & Hy & _) _ _]. simpl in *. lia. Qed.

(** C18: whatever text is put on a fresh console, nothing panics, and the buffer and the
    cursor are those of the abstract terminal: the last lines of the text, split at new
    lines and after [N_COLUMN] characters, each padded to the width. *)
Theorem console_refines d s :
  console_setup d ->
  exists self', put_string FONT N_ROW N_COLUMN (writer_new N_ROW N_COLUMN d) s = Ret self' /\
    buffer self' = screen N_ROW N_COLUMN (term_puts N_ROW N_COLUMN term_new s) /\
    position self' = cursor N_ROW (term_puts N_ROW N_COLUMN term_new s).
Proof.
  intros Hd. destruct (setup_sizes d Hd) as [H1 H2]. destruct Hd as [Hf Hr Hc Hd Hb Hw].
  destruct (put_string_shows FONT N_ROW N_COLUMN Hf Hr Hc H1 H2 s (writer_new N_ROW N_COLUMN d) term_new)
    as (self' & Hp & Hs); [by apply writer_new_shows|].
  exists self'. split; [exact Hp|]. split; apply Hs.
Qed.

(** C35: after any text and a new line the console area of the device shows, in every
    cell, the glyph of the character that the terminal has there, and the pixels outside
    are those from before the new line. *)
Theorem console_draws d s :
  console_setup d ->
  exists self1 self2,
    put_string FONT N_ROW N_COLUMN (writer_new N_ROW N_COLUMN d) s = Ret self1 /\
    put_char FONT N_ROW N_COLUMN self1 newline = Ret self2 /\
    forall x y, area (device self1) x y ->
      pixel_at (device self2) x y = default (pixel_at (device self1) x y)
        (region (in_rect (mkVec 0 0) (console_size N_ROW N_COLUMN))
          (console_pixel FONT (background_color self1) (foreground_color self1)
            (screen N_ROW N_COLUMN (term_puts N_ROW N_COLUMN term_new (s ++ [newline])))) x y).
Proof.
  intros Hd. destruct (setup_sizes d Hd) as [H1 H2]. destruct Hd as [Hf Hr Hc Hd Hb Hw].
  destruct (put_string_shows FONT N_ROW N_COLUMN Hf Hr Hc H1 H2 s (writer_new N_ROW N_COLUMN d) term_new)
    as (s1 & Hp & Hs); [by apply writer_new_shows|].
  destruct (new_line_draws FONT N_ROW N_COLUMN Hf Hr Hc H1 H2 s1 _ Hs) as (s2 & Hn & Hpaint).
  exists s1, s2. split; [exact Hp|]. split; [exact Hn|]. intros x y Hxy.
  unfold term_puts. rewrite foldl_app. by apply (proj2 Hpaint).
Qed.

(** Once the screen is full the first of two new lines in a row is lost: with the
    cursor waiting below the screen, a new line before a character changes nothing. *)
Theorem newline_swallowed self t c :
  console_setup (device self) -> shows N_ROW N_COLUMN self t -> cy (position self) = N_ROW ->
  c <> newline ->
  (self ← put_char FONT N_ROW N_COLUMN self newline; put_char FONT N_ROW N_COLUMN self c)
    = put_char FONT N_ROW N_COLUMN self c.
Proof.
  intros Hd Hs Hy Hne. destruct (setup_sizes _ Hd) as [H1 H2]. destruct Hd as [Hf Hr Hc Hd Hb Hw].
  assert (Hbel : below t = true).
  { rewrite (shows_cursor _ _ _ _ Hs) in Hy. unfold cursor in Hy. simpl in Hy.
    pose proof (length_visible N_ROW Hr t). destruct (below t); [done|lia]. }
  destruct (new_line_shows FONT N_ROW N_COLUMN Hf Hr Hc H1 H2 self t Hs) as (s1 & Hn & Hs1).
  pose proof (newline_below N_ROW t Hbel) as Hb1.
  assert (Hpos : position s1 = mkCursor 0 (N_ROW - 1)).
  { rewrite (shows_cursor _ _ _ _ Hs1). unfold cursor. rewrite Hb1.
    pose proof (length_visible_not_below N_ROW Hr _ Hb1) as Hl.
    destruct (wf_below _ _ _ (shows_wf _ _ _ _ Hs) Hbel) as [Hcur Hlen].
    unfold term_newline in *. rewrite Hbel in *. simpl in *. rewrite Hcur in *.
    simpl. f_equal. lia. }
  unfold put_char. rewrite Z.eqb_refl, Hn. cbn [mbind outcome_bind].
  rewrite (proj2 (Z.eqb_neq _ _) Hne), Hy, Z.ltb_irrefl, andb_false_r, Hpos. cbn [cx cy].
  rewrite (proj2 (Z.ltb_lt 0 _) Hc), (proj2 (Z.ltb_lt _ N_ROW)) by lia. cbn [andb].
  cbn [mbind outcome_bind]. by rewrite (proj2 (Z.eqb_neq (N_ROW - 1) N_ROW)) by lia.
Qed.

End properties.

(** ** The fixed buffer *)

Definition total_length (pieces : list (list Z)) : Z := Z.of_nat (length (concat pieces)).

(** Writing pieces after [pre] when all of them fit. *)
Lemma fmt_write_fits pieces : forall pre rest,
  Z.of_nat (length (pre ++ rest)) < 2 ^ 64 ->
  (length (concat pieces) <= length rest)%nat ->
  fmt_write (mkWriteTo (pre ++ rest) (Z.of_nat (length pre))) pieces =
    Ret (mkWriteTo (pre ++ concat pieces ++ drop (length (concat pieces)) rest)
           (Z.of_nat (length (pre ++ concat pieces))), true).
Proof.
  induction pieces as [|s pieces IH]; intros pre rest Hsz Hfit; simpl.
  { by rewrite app_nil_r. }
  rewrite length_app in *. simpl in Hfit. rewrite length_app in Hfit.
  unfold write_str. simpl. rewrite length_app, (proj2 (Z.ltb_ge _ _)) by lia.
  rewrite Nat2Z.id, add_w_Ret by lia. cbn [mbind outcome_bind].
  replace (length s `min` (length pre + length rest - length pre))%nat with (length s) by lia.
  rewrite Nat.ltb_irrefl. cbn [negb]. rewrite take_app_length, drop_app_add, firstn_all.
  rewrite app_assoc. rewrite <- Nat2Z.inj_add, <- length_app. cbn [mbind outcome_bind].
  rewrite IH.
  - rewrite drop_drop, !length_app, <- !app_assoc. do 3 f_equal. simpl. lia.
  - rewrite !length_app, length_drop. lia.
  - rewrite length_drop. lia.
Qed.

(** And when they do not. *)
Lemma fmt_write_overflow pieces : forall pre rest,
  Z.of_nat (length (pre ++ rest)) < 2 ^ 63 -> total_length pieces < 2 ^ 63 ->
  (length rest < length (concat pieces))%nat ->
  exists w, fmt_write (mkWriteTo (pre ++ rest) (Z.of_nat (length pre))) pieces = Ret (w, false).
Proof.
  unfold total_length. induction pieces as [|s pieces IH]; intros pre rest Hsz Ht Hfit;
    simpl in *; [lia|].
  rewrite length_app in *. unfold write_str. simpl.
  rewrite length_app, (proj2 (Z.ltb_ge _ _)) by lia.
  rewrite Nat2Z.id, add_w_Ret by lia. cbn [mbind outcome_bind].
  destruct (decide (length s <= length rest)%nat) as [Hle|Hgt].
  - replace (length s `min` (length pre + length rest - length pre))%nat with (length s) by lia.
    rewrite Nat.ltb_irrefl. cbn [negb]. rewrite take_app_length, drop_app_add, firstn_all.
    rewrite app_assoc. rewrite <- Nat2Z.inj_add, <- length_app. cbn [mbind outcome_bind].
    apply IH; rewrite ?length_app, ?length_drop; lia.
  - rewrite (proj2 (Nat.ltb_lt _ _)) by lia. cbn [negb]. eauto.
Qed.

(** [show] gives the text of all the pieces when it fits in the buffer, and an error
    otherwise. *)
Theorem show_fits buffer pieces :
  Z.of_nat (length buffer) < 2 ^ 63 -> total_length pieces < 2 ^ 63 ->
  show buffer pieces =
    Ret (if decide (total_length pieces <= Z.of_nat (length buffer))
         then Some (concat pieces) else None).
Proof.
  unfold total_length. intros Hb Ht. unfold show, write_to_new. case_decide as Hfit.
  - pose proof (fmt_write_fits pieces [] buffer) as Hw. simpl in Hw. change (Z.of_nat 0) with 0 in Hw. rewrite Hw by lia. simpl.
    unfold as_str. simpl. rewrite length_app, length_drop.
    rewrite (proj2 (Z.leb_le _ _)) by lia. by rewrite Nat2Z.id, take_app_length.
  - destruct (fmt_write_overflow pieces [] buffer) as [w Hw]; [done|done|lia|].
    change (Z.of_nat (length (@nil Z))) with 0 in Hw. simpl app in Hw. by rewrite Hw.
Qed.

(** * Witnesses *)

Definition demo_font : list (list Z) := replicate 128 (replicate 16 0x81).
Definition demo_device : FrameBuffer := get_writer (mkGraphicsInfo 32 32 32 0x1000 Rgb) ∅.

Lemma demo_setup : console_setup demo_font 2 4 demo_device.
Proof.
  split; try done.
  - by apply Forall_replicate.
  - repeat split; simpl in *; try lia; destruct H; simpl in *; lia.
Qed.

Lemma console_refines_witness :
  exists self', put_string demo_font 2 4 (writer_new 2 4 demo_device) [97; 98; 99; 100; 101] = Ret self' /\
    buffer self' = screen 2 4 (term_puts 2 4 term_new [97; 98; 99; 100; 101]) /\
    position self' = cursor 2 (term_puts 2 4 term_new [97; 98; 99; 100; 101]).
Proof. apply (console_refines demo_font 2 4 demo_device [97; 98; 99; 100; 101] demo_setup). Defined.

Lemma console_draws_witness :
  exists self1 self2,
    put_string demo_font 2 4 (writer_new 2 4 demo_device) [97] = Ret self1 /\
    put_char demo_font 2 4 self1 newline = Ret self2 /\
    forall x y, frame_area (device self1) x y ->
      pixel_at (device self2) x y = default (pixel_at (device self1) x y)
        (region (in_rect (mkVec 0 0) (console_size 2 4))
          (console_pixel demo_font (background_color self1) (foreground_color self1)
            (screen 2 4 (term_puts 2 4 term_new ([97] ++ [newline])))) x y).
Proof. apply (console_draws demo_font 2 4 demo_device [97] demo_setup). Defined.

(** A full screen of two rows. *)
Definition full_console : Writer FrameBuffer :=
  mkWriter demo_device (mkCursor 0 2) black white
    (screen 2 4 (term_puts 2 4 term_new [97; 10; 98; 10])).

Lemma full_console_shows : shows 2 4 full_console (term_puts 2 4 term_new [97; 10; 98; 10]).
Proof.
  split; try done; [|apply (setup_device _ _ _ _ demo_setup)].
  split; simpl; [repeat constructor; simpl; lia|lia|]. intros _. split; [done|lia].
Qed.

Lemma newline_swallowed_witness :
  (self ← put_char demo_font 2 4 full_console newline; put_char demo_font 2 4 self 99)
    = put_char demo_font 2 4 full_console 99.
Proof.
  refine (newline_swallowed demo_font 2 4 full_console _ 99 demo_setup full_console_shows _ _).
  - reflexivity.
  - discriminate.
Defined.

Lemma show_fits_witness :
  show [0; 0; 0; 0] [[104; 105]; [33]] = Ret (Some [104; 105; 33]).
Proof. refine (show_fits [0; 0; 0; 0] [[104; 105]; [33]] _ _); reflexivity. Defined.
