(* ===== verification/Layer.v ===== *)
(** Layer: windows and the layer manager of [kernel-lib/src/layer.rs], drawing on the
    frame buffer. *)
From S2P Require Import Prelude.
From S2P Require Import Pixels.

Record Position := mkPosition { pos_x : Z; pos_y : Z }.

Record Window := mkWindow {
  transparent_color : option Color;
  rendering_handler : PixcelFormat;
  win_buffer : list Z;
  pixels : list (list Color);
  win_position : Position;
}.

Definition window_new (width height : Z) (handler : PixcelFormat) (transparent : option Color)
    (position : Position) : outcome Window :=
  n ← mul_w 64 width height; n4 ← mul_w 64 n 4;
  Ret (mkWindow transparent handler (replicate (Z.to_nat n4) 0)
    (replicate (Z.to_nat width) (replicate (Z.to_nat height) (default black transparent)))
    position).

Definition set_win_position (self : Window) (p : Position) : Window :=
  mkWindow (transparent_color self) (rendering_handler self) (win_buffer self) (pixels self) p.

Definition move_to (self : Window) (new_position : Position) : Window :=
  set_win_position self new_position.

(** [x as isize], addition on [isize], and [try_into().unwrap_or(0)]. *)
Definition as_isize (x : Z) : Z := if decide (x < 2 ^ 63) then x else x - 2 ^ 64.
Definition add_isize (x y : Z) : outcome Z :=
  if decide (- 2 ^ 63 <= x + y < 2 ^ 63) then Ret (x + y) else Panic.
Definition to_usize_or_0 (x : Z) : Z := if decide (0 <= x) then x else 0.

Definition win_move_relative (self : Window) (x_diff y_diff : Z) : outcome Window :=
  x ← add_isize (as_isize (pos_x (win_position self))) x_diff;
  y ← add_isize (as_isize (pos_y (win_position self))) y_diff;
  Ret (set_win_position self (mkPosition (to_usize_or_0 x) (to_usize_or_0 y))).

Definition width (self : Window) : Z := Z.of_nat (length (pixels self)).

Definition height (self : Window) : outcome Z :=
  col ← unwrap (pixels self !! 0%nat); Ret (Z.of_nat (length col)).

(** [pixels[x][y]]. *)
Definition win_pixel (self : Window) (x y : Z) : outcome Color :=
  col ← unwrap (pixels self !! Z.to_nat x); unwrap (col !! Z.to_nat y).

(** [v[a..b]]. *)
Definition buffer_slice (v : list Z) (a b : Z) : outcome (list Z) :=
  if decide (a <= b <= Z.of_nat (length v))
  then Ret (take (Z.to_nat (b - a)) (drop (Z.to_nat a) v)) else Panic.

(** [dst.copy_from_slice(src)] for a part of the frame buffer of [n] bytes at [a]. *)
Definition copy_from_slice (self : FrameBuffer) (a n : Z) (src : list Z) : outcome FrameBuffer :=
  if decide (n = Z.of_nat (length src))
  then Ret (set_memory self (store_bytes (memory self) a src)) else Panic.

(** The end of a range of rows or columns: [min(start + len, limit)]. *)
Definition range_end (start len limit : Z) : outcome Z :=
  e ← add_w 64 start len; Ret (Z.min e limit).

Definition flush_transparent (self : Window) (color : Color) (writer : FrameBuffer) :
    outcome FrameBuffer :=
  let p := win_position self in
  h ← height self;
  y_end ← range_end (pos_y p) h (horizontal_resolution writer);
  for_range (pos_y p) y_end (fun y w =>
    x_end ← range_end (pos_x p) (width self) (pixcels_per_scan_line writer);
    for_range (pos_x p) x_end (fun x w =>
      c ← win_pixel self (x - pos_x p) (y - pos_y p);
      if decide (c = color) then Ret w else write w x y c) w) writer.

Definition get_frame_buffer_index (writer : FrameBuffer) (x y : Z) : outcome Z :=
  row ← mul_w 64 y (pixcels_per_scan_line writer); i ← add_w 64 x row; mul_w 64 i 4.

Definition get_buffer_index (self : Window) (x y : Z) : outcome Z :=
  row ← mul_w 64 y (width self); i ← add_w 64 x row; mul_w 64 i 4.

Definition flush_opaque (self : Window) (writer : FrameBuffer) : outcome FrameBuffer :=
  let p := win_position self in
  h ← height self;
  y_end ← range_end (pos_y p) h (horizontal_resolution writer);
  x_end ← range_end (pos_x p) (width self) (pixcels_per_scan_line writer);
  for_range (pos_y p) y_end (fun y w =>
    offset ← get_frame_buffer_index writer (pos_x p) y;
    n ← sub_w x_end (pos_x p);
    n4 ← mul_w 64 n 4;
    a ← get_buffer_index self 0 (y - pos_y p);
    b ← get_buffer_index self (x_end - pos_x p) (y - pos_y p);
    src ← buffer_slice (win_buffer self) a b;
    copy_from_slice w (frame_buffer_base writer + offset) n4 src) writer.

Definition window_flush (self : Window) (writer : FrameBuffer) : outcome FrameBuffer :=
  match transparent_color self with
  | Some color => flush_transparent self color writer
  | None => flush_opaque self writer
  end.

(** [buffer[i..i + len(bs)].copy_from_slice(bs)]. *)
Definition splice (v : list Z) (i : Z) (bs : list Z) : outcome (list Z) :=
  if decide (i + Z.of_nat (length bs) <= Z.of_nat (length v))
  then Ret (take (Z.to_nat i) v ++ bs ++ drop (Z.to_nat i + length bs) v) else Panic.

Definition window_write (self : Window) (x y : Z) (c : Color) : outcome Window :=
  col ← unwrap (pixels self !! Z.to_nat x);
  _ ← unwrap (col !! Z.to_nat y);
  index ← get_buffer_index self x y;
  buffer ← splice (win_buffer self) index (pixel (rendering_handler self) c);
  Ret (mkWindow (transparent_color self) (rendering_handler self) buffer
    (<[Z.to_nat x := <[Z.to_nat y := c]> col]> (pixels self)) (win_position self)).

(** * The layer manager *)

(** Layers are numbered from the static counter, which is part of the state here. *)
Record LayerManager := mkLayerManager {
  lm_writer : FrameBuffer;
  layer_stack : list Z;
  layers : gmap Z Window;
  latest_unused_id : Z;
}.

Definition uninitialized_id : Z := 2 ^ 64 - 1.

Definition layer_manager_new (writer : FrameBuffer) : LayerManager := mkLayerManager writer [] ∅ 0.

Definition set_layers (self : LayerManager) (ls : gmap Z Window) : LayerManager :=
  mkLayerManager (lm_writer self) (layer_stack self) ls (latest_unused_id self).
Definition set_stack (self : LayerManager) (st : list Z) : LayerManager :=
  mkLayerManager (lm_writer self) st (layers self) (latest_unused_id self).

Definition new_layer (self : LayerManager) (window : Window) : outcome (LayerManager * Z) :=
  let id := latest_unused_id self in
  _ ← assert (id <? uninitialized_id);
  Ret (mkLayerManager (lm_writer self) (id :: layer_stack self) (<[id := window]> (layers self))
         ((id + 1) mod 2 ^ 64), id).

Definition move_layer (self : LayerManager) (id : Z) (new_position : Position) : LayerManager :=
  match layers self !! id with
  | None => self
  | Some w => set_layers self (<[id := move_to w new_position]> (layers self))
  end.

Definition move_relative (self : LayerManager) (id x_diff y_diff : Z) : outcome LayerManager :=
  match layers self !! id with
  | None => Ret self
  | Some w =>
      w ← win_move_relative w x_diff y_diff;
      Ret (set_layers self (<[id := w]> (layers self)))
  end.

(** [layer_mut(id)] and a write to it. *)
Definition layer_write (self : LayerManager) (id x y : Z) (c : Color) : outcome LayerManager :=
  match layers self !! id with
  | None => Ret self
  | Some w =>
      w ← window_write w x y c;
      Ret (set_layers self (<[id := w]> (layers self)))
  end.

Fixpoint flush_stack (ls : gmap Z Window) (stack : list Z) (writer : FrameBuffer) :
    outcome FrameBuffer :=
  match stack with
  | [] => Ret writer
  | id :: stack =>
      w ← unwrap (ls !! id); writer ← window_flush w writer; flush_stack ls stack writer
  end.

Definition lm_flush (self : LayerManager) : outcome LayerManager :=
  writer ← flush_stack (layers self) (layer_stack self) (lm_writer self);
  Ret (mkLayerManager writer (layer_stack self) (layers self) (latest_unused_id self)).

(** The first occurrence is removed. *)
Fixpoint remove_first (id : Z) (st : list Z) : list Z :=
  match st with
  | [] => []
  | x :: st => if decide (x = id) then st else x :: remove_first id st
  end.

Definition hide (self : LayerManager) (id : Z) : LayerManager :=
  set_stack self (remove_first id (layer_stack self)).

Definition set_to_top (self : LayerManager) (id : Z) : LayerManager :=
  let self := hide self id in set_stack self (layer_stack self ++ [id]).

(** The calls that change a manager. *)
Inductive lm_step : LayerManager -> LayerManager -> Prop :=
  | step_new self w h handler transparent position window self' id :
      0 < w -> 0 <= h -> window_new w h handler transparent position = Ret window ->
      new_layer self window = Ret (self', id) -> lm_step self self'
  | step_move self id position : lm_step self (move_layer self id position)
  | step_move_relative self id dx dy self' :
      move_relative self id dx dy = Ret self' -> lm_step self self'
  | step_write self id x y c self' :
      0 <= x -> 0 <= y -> layer_write self id x y c = Ret self' -> lm_step self self'
  | step_flush self self' : lm_flush self = Ret self' -> lm_step self self'
  | step_hide self id : lm_step self (hide self id)
  | step_set_to_top self id : is_Some (layers self !! id) -> lm_step self (set_to_top self id).

(** * Windows *)

Definition win_height (self : Window) : nat := default 0%nat (length <$> head (pixels self)).

Definition px (self : Window) (x y : nat) : option Color := col ← pixels self !! x; col !! y.

(** The index in the buffer of the bytes of a pixel. *)
Definition index_of (self : Window) (x y : nat) : nat := 4 * (x + y * length (pixels self)).

(** The columns have one height, and the buffer of an opaque window holds the bytes of
    its pixels. *)
Record window_wf (self : Window) : Prop := {
  wwf_width : (0 < length (pixels self))%nat;
  wwf_columns : Forall (fun col => length col = win_height self) (pixels self);
  wwf_buffer : length (win_buffer self) = (4 * (length (pixels self) * win_height self))%nat;
  wwf_size : Z.of_nat (length (win_buffer self)) < 2 ^ 64;
  wwf_bytes : transparent_color self = None ->
    forall x y c i, px self x y = Some c -> (i < 3)%nat ->
      win_buffer self !! (index_of self x y + i)%nat = color_bytes (rendering_handler self) c !! i;
}.

Lemma px_Some_inv self x y c : window_wf self -> px self x y = Some c ->
  (x < length (pixels self))%nat /\ (y < win_height self)%nat.
Proof.
  intros Hwf (col & Hcol & Hc)%bind_Some. split; [by eapply lookup_lt_Some|].
  pose proof (wwf_columns _ Hwf) as Hcols. eapply Forall_lookup in Hcols; [|done].
  rewrite <- Hcols. by eapply lookup_lt_Some.
Qed.

Lemma px_Some self x y : window_wf self -> (x < length (pixels self))%nat ->
  (y < win_height self)%nat -> exists c, px self x y = Some c.
Proof.
  intros Hwf Hx Hy. unfold px. destruct (lookup_lt_is_Some_2 (pixels self) x Hx) as [col Hcol].
  rewrite Hcol. simpl. pose proof (wwf_columns _ Hwf) as Hcols.
  eapply Forall_lookup in Hcols; [|done]. apply lookup_lt_is_Some_2. lia.
Qed.

Lemma win_pixel_px self x y c : px self (Z.to_nat x) (Z.to_nat y) = Some c ->
  win_pixel self x y = Ret c.
Proof. intros (col & Hcol & Hc)%bind_Some. unfold win_pixel. rewrite Hcol. simpl. by rewrite Hc. Qed.

Lemma height_Ret self : window_wf self -> height self = Ret (Z.of_nat (win_height self)).
Proof.
  intros Hwf. pose proof (wwf_width _ Hwf). unfold height, win_height.
  destruct (pixels self); simpl in *; [lia|done].
Qed.

Lemma win_height_replicate t f b w h c p : 0 < w ->
  win_height (mkWindow t f b (replicate (Z.to_nat w) (replicate h c)) p) = h.
Proof.
  intros Hw. unfold win_height. simpl. replace (Z.to_nat w) with (S (Z.to_nat (w - 1))) by lia.
  simpl. by rewrite length_replicate.
Qed.

Lemma window_new_wf w h f t p self :
  0 < w -> 0 <= h -> window_new w h f t p = Ret self -> window_wf self.
Proof.
  intros Hw Hh Hnew. unfold window_new in Hnew. inv_ret. subst.
  pose proof (win_height_replicate t f (replicate (Z.to_nat (w * h * 4)) 0) w (Z.to_nat h) (default black t) p Hw)
    as Hh'.
  split; rewrite ?Hh'; simpl; rewrite ?length_replicate; try lia.
  - apply Forall_replicate. by rewrite length_replicate.
  - intros -> x y c i (col & [-> Hx]%lookup_replicate & [-> Hy]%lookup_replicate)%bind_Some Hi.
    unfold index_of. simpl. rewrite length_replicate. simpl default. transitivity (Some 0).
    + apply lookup_replicate. split; [done|]. nia.
    + unfold color_bytes. destruct f; simpl; do 3 (destruct i as [|i]; [done|]); lia.
Qed.

Lemma index_of_cols self self' x y : length (pixels self') = length (pixels self) ->
  index_of self' x y = index_of self x y.
Proof. unfold index_of. congruence. Qed.

Lemma index_of_inj self x y x' y' i j :
  (x < length (pixels self))%nat -> (x' < length (pixels self))%nat -> (i < 4)%nat -> (j < 4)%nat ->
  (index_of self x y + i = index_of self x' y' + j)%nat -> x = x' /\ y = y' /\ i = j.
Proof.
  unfold index_of. intros Hx Hx' Hi Hj Heq.
  assert (i = j /\ x + y * length (pixels self) = x' + y' * length (pixels self))%nat as [-> He] by lia.
  assert (y = y') as -> by nia. lia.
Qed.

Lemma splice_lookup v i bs v' j : 0 <= i -> splice v i bs = Ret v' ->
  length v' = length v /\
  v' !! j = if decide (Z.to_nat i <= j < Z.to_nat i + length bs)%nat
            then bs !! (j - Z.to_nat i)%nat else v !! j.
Proof.
  intros Hi. unfold splice. case_decide as Hle; [|done]. intros [= <-].
  split; [rewrite !length_app, length_take, length_drop; lia|].
  destruct (decide (j < Z.to_nat i)%nat) as [Hlt|Hge].
  - rewrite lookup_app_l by (rewrite length_take; lia).
    rewrite decide_False by lia. by apply lookup_take_lt.
  - rewrite lookup_app_r by (rewrite length_take; lia). rewrite length_take.
    replace (Z.to_nat i `min` length v)%nat with (Z.to_nat i) by lia.
    case_decide as Hj.
    + by rewrite lookup_app_l by lia.
    + rewrite lookup_app_r by lia. rewrite lookup_drop. f_equal. lia.
Qed.

Lemma get_buffer_index_inv self x y i : 0 <= x -> 0 <= y -> get_buffer_index self x y = Ret i ->
  i = Z.of_nat (index_of self (Z.to_nat x) (Z.to_nat y)).
Proof.
  intros Hx Hy H. unfold get_buffer_index, width in H. inv_ret. unfold index_of. lia.
Qed.

Lemma px_insert self x y c x' y' t f b p col :
  pixels self !! x = Some col -> (y < length col)%nat ->
  px (mkWindow t f b (<[x := <[y := c]> col]> (pixels self)) p) x' y' =
    if decide (x' = x /\ y' = y) then Some c else px self x' y'.
Proof.
  intros Hcol Hy. unfold px. simpl. pose proof (lookup_lt_Some _ _ _ Hcol).
  destruct (decide (x' = x)) as [->|Hx].
  - rewrite list_lookup_insert_eq by done. simpl. rewrite Hcol. simpl.
    destruct (decide (y' = y)) as [->|Hy'].
    + rewrite list_lookup_insert_eq by done. by rewrite decide_True.
    + rewrite list_lookup_insert_ne by done. rewrite decide_False by tauto. done.
  - rewrite list_lookup_insert_ne by done. rewrite decide_False by tauto. done.
Qed.

Lemma win_height_insert self t f b x y c col p : pixels self !! x = Some col ->
  win_height (mkWindow t f b (<[x := <[y := c]> col]> (pixels self)) p) = win_height self.
Proof.
  intros Hcol. unfold win_height. simpl. destruct (pixels self) as [|col0 cols]; [done|].
  destruct x as [|x]; simpl in *; [|done]. injection Hcol as ->. by rewrite length_insert.
Qed.

Lemma window_write_wf self x y c self' :
  0 <= x -> 0 <= y -> window_wf self -> window_write self x y c = Ret self' ->
  window_wf self' /\ win_position self' = win_position self.
Proof.
  intros Hx Hy Hwf Hw. unfold window_write in Hw. inv_ret. subst.
  match goal with H : splice _ _ _ = _ |- _ => rename H into Hs end.
  match goal with H : get_buffer_index _ _ _ = _ |- _ => apply get_buffer_index_inv in H; [subst|done..] end.
  match goal with H : pixels self !! _ = Some ?a |- _ => rename H into Hcol; rename a into col end.
  match goal with H : col !! _ = Some ?a |- _ => rename H into Hc0; rename a into c0 end.
  pose proof (lookup_lt_Some _ _ _ Hcol) as Hxl. pose proof (lookup_lt_Some _ _ _ Hc0) as Hyl.
  destruct Hwf as [Hwd Hcols Hbuf Hsz Hbytes]. split; [|done].
  assert (Hlen : length col = win_height self)
    by (eapply Forall_lookup in Hcols; [|done]; done).
  split; rewrite ?(win_height_insert self) by done; simpl; rewrite ?length_insert; try done.
  - apply Forall_insert; [done|]. by rewrite length_insert.
  - by rewrite (proj1 (splice_lookup _ _ _ _ 0%nat (Zle_0_nat _) Hs)).
  - by rewrite (proj1 (splice_lookup _ _ _ _ 0%nat (Zle_0_nat _) Hs)).
  - intros Ht x' y' c' i Hpx Hi. rewrite (px_insert self) in Hpx by done.
    rewrite (proj2 (splice_lookup _ _ _ _ _ (Zle_0_nat _) Hs)), Nat2Z.id.
    match goal with |- context [index_of ?w x' y'] =>
      rewrite (index_of_cols self w x' y') by apply length_insert end.
    assert (Hp4 : length (pixel (rendering_handler self) c) = 4%nat) by (by destruct (rendering_handler self)).
    rewrite Hp4. case_decide as Hxy.
    + destruct Hxy as [-> ->]. injection Hpx as <-. rewrite decide_True by lia.
      replace (_ - _)%nat with i by lia. unfold color_bytes. by rewrite lookup_take_lt.
    + rewrite decide_False; [by apply Hbytes|]. intros Hr.
      assert (Hx' : (x' < length (pixels self))%nat).
      { apply bind_Some in Hpx as (col' & Hcol' & _). by eapply lookup_lt_Some. }
      destruct (index_of_inj self x' y' (Z.to_nat x) (Z.to_nat y) i
        (index_of self x' y' + i - index_of self (Z.to_nat x) (Z.to_nat y))%nat); [lia..|]. tauto.
Qed.

(** ** A window is a pixel device *)

#[global] Instance window_writer : PixelWriter Window := window_write.

Definition window_area (self : Window) (x y : Z) : Prop :=
  window_wf self /\ 0 <= x < width self /\ 0 <= y < Z.of_nat (win_height self).

Definition window_pixel (self : Window) (x y : Z) : Color :=
  default black (px self (Z.to_nat x) (Z.to_nat y)).

Lemma get_buffer_index_Ret self x y : window_area self x y ->
  get_buffer_index self x y = Ret (Z.of_nat (index_of self (Z.to_nat x) (Z.to_nat y))) /\
  (index_of self (Z.to_nat x) (Z.to_nat y) + 4 <= length (win_buffer self))%nat.
Proof.
  intros (Hwf & Hx & Hy). pose proof (wwf_buffer _ Hwf) as Hbuf. pose proof (wwf_size _ Hwf) as Hsz.
  unfold width in Hx. rewrite Hbuf in *. set (w := length (pixels self)) in *.
  assert (Hi : (Z.to_nat x + Z.to_nat y * w + 1 <= w * win_height self)%nat) by nia.
  unfold get_buffer_index, width, index_of. fold w.
  rewrite mul_w_Ret by nia. cbn [mbind outcome_bind]. rewrite add_w_Ret by nia.
  cbn [mbind outcome_bind]. rewrite mul_w_Ret by nia. split; [f_equal; nia|lia].
Qed.

Lemma window_write_Ret self x y c : window_area self x y ->
  exists self', window_write self x y c = Ret self' /\
    length (pixels self') = length (pixels self) /\ win_height self' = win_height self /\
    forall x' y', px self' x' y' =
      if decide (x' = Z.to_nat x /\ y' = Z.to_nat y) then Some c else px self x' y'.
Proof.
  intros Ha. destruct (get_buffer_index_Ret self x y Ha) as [Hi Hlen].
  destruct Ha as (Hwf & Hx & Hy). unfold width in Hx.
  destruct (px_Some self (Z.to_nat x) (Z.to_nat y)) as [c0 Hc0]; [done|lia|lia|].
  apply bind_Some in Hc0 as (col & Hcol & Hc0). unfold window_write.
  rewrite Hcol. cbn [unwrap mbind outcome_bind]. rewrite Hc0. cbn [unwrap mbind outcome_bind].
  rewrite Hi. cbn [mbind outcome_bind]. unfold splice.
  assert (Hp4 : length (pixel (rendering_handler self) c) = 4%nat) by (by destruct (rendering_handler self)).
  rewrite Hp4, decide_True by lia. cbn [mbind outcome_bind]. eexists. split; [done|]. split_and!.
  - simpl. by rewrite length_insert.
  - by apply win_height_insert.
  - intros x' y'. rewrite (px_insert self) by (done || by eapply lookup_lt_Some). done.
Qed.

#[global] Instance window_spec : PixelWriterSpec Window.
Proof.
  refine {| area := window_area; pixel_at := window_pixel; valid_color := fun _ => True |}.
  intros self x y c Ha _. destruct (window_write_Ret self x y c Ha) as (self' & Hw & Hl & Hh & Hp).
  exists self'. split; [done|]. destruct Ha as (Hwf & Hx & Hy).
  destruct (window_write_wf self x y c self') as [Hwf' _]; [lia|lia|done..|]. split.
  - intros x' y'. unfold window_area, width. rewrite Hl, Hh. tauto.
  - intros x' y' (_ & Hx' & Hy'). unfold window_pixel. rewrite Hp.
    destruct (decide (x' = x /\ y' = y)) as [[-> ->]|Hne]; [by rewrite decide_True|].
    by rewrite decide_False by lia.
Defined.

(** * Flushing a window *)

(** The colour that a window has at a point of the screen. *)
Definition window_color (self : Window) (x y : Z) : option Color :=
  let p := win_position self in
  if decide (pos_x p <= x /\ pos_y p <= y) then
    c ← px self (Z.to_nat (x - pos_x p)) (Z.to_nat (y - pos_y p));
    if decide (transparent_color self = Some c) then None else Some c
  else None.

(** The part of it in the rows that the loops of [flush] reach: they end at the horizontal resolution,
    not at the vertical one. *)
Definition reached_color (fb : FrameBuffer) (self : Window) (x y : Z) : option Color :=
  if decide (y < horizontal_resolution fb) then window_color self x y else None.

Record screen_wf (fb : FrameBuffer) : Prop := {
  sw_stride : 0 <= pixcels_per_scan_line fb;
  sw_hres : 0 <= horizontal_resolution fb;
  sw_size : 4 * (vertical_resolution fb * pixcels_per_scan_line fb) < 2 ^ 64;
}.

(** A window that does not start beyond the end of a line and whose drawn rows are on the
    screen. *)
Record fits (fb : FrameBuffer) (self : Window) : Prop := {
  fits_x : 0 <= pos_x (win_position self) <= pixcels_per_scan_line fb;
  fits_y : 0 <= pos_y (win_position self);
  fits_x_end : pos_x (win_position self) + width self < 2 ^ 64;
  fits_y_end : pos_y (win_position self) + Z.of_nat (win_height self) < 2 ^ 64;
  fits_rows : Z.min (pos_y (win_position self) + Z.of_nat (win_height self))
                (horizontal_resolution fb) <= vertical_resolution fb;
  fits_format : rendering_handler self = pixcel_format fb;
}.

Lemma range_end_Ret s l m : s + l < 2 ^ 64 -> range_end s l m = Ret (Z.min (s + l) m).
Proof. intros. unfold range_end. by rewrite add_w_Ret. Qed.

(** The pixels after the bytes of [n] pixels have been copied into a line. *)
Lemma frame_pixel_row fb x0 y n bs x' y' :
  frame_area fb x' y' -> 0 <= x0 -> x0 + n <= pixcels_per_scan_line fb -> 0 <= n ->
  Z.of_nat (length bs) = 4 * n ->
  frame_pixel (set_memory fb (store_bytes (memory fb) (pixel_address fb x0 y) bs)) x' y' =
    if decide (y' = y /\ x0 <= x' < x0 + n) then
      let i := Z.to_nat (4 * (x' - x0)) in
      color_of_bytes (pixcel_format fb) (nth i bs 0) (nth (i + 1) bs 0) (nth (i + 2) bs 0)
    else frame_pixel fb x' y'.
Proof.
  intros (Hx' & Hy' & _) Hx0 Hn Hn0 Hbs. unfold frame_pixel.
  change (pixel_address (set_memory fb ?m)) with (pixel_address fb).
  change (pixcel_format (set_memory fb ?m)) with (pixcel_format fb).
  rewrite !byte_at_store, Hbs.
  set (s := pixcels_per_scan_line fb) in *.
  assert (HA : pixel_address fb x' y' = pixel_address fb x0 y + 4 * ((y' - y) * s + (x' - x0)))
    by (unfold pixel_address; subst s; lia).
  destruct (decide (y' = y /\ x0 <= x' < x0 + n)) as [[-> Hx]|Hout].
  - rewrite HA. rewrite !decide_True by lia. cbn zeta.
    rewrite !nth_lookup. f_equal; do 2 f_equal; lia.
  - rewrite HA. assert (Hfar : (y' - y) * s + (x' - x0) < 0 \/ n <= (y' - y) * s + (x' - x0)).
    { destruct (Z.lt_trichotomy y' y) as [Hlt|[->|Hgt]]; [left; nia|lia|right; nia]. }
    rewrite !decide_False by lia. done.
Qed.

Lemma color_of_color_bytes f c b0 b1 b2 :
  color_bytes f c !! 0%nat = Some b0 -> color_bytes f c !! 1%nat = Some b1 ->
  color_bytes f c !! 2%nat = Some b2 -> color_of_bytes f b0 b1 b2 = c.
Proof. unfold color_bytes. destruct f, c; simpl; intros [= <-] [= <-] [= <-]; done. Qed.

(** The bytes that an opaque window copies into a line. *)
Definition row_bytes (self : Window) (n dy : Z) : list Z :=
  take (Z.to_nat (4 * n)) (drop (index_of self 0 (Z.to_nat dy)) (win_buffer self)).

Lemma row_bytes_color self n dy dx c : window_wf self -> transparent_color self = None ->
  0 <= dx < n -> px self (Z.to_nat dx) (Z.to_nat dy) = Some c ->
  let i := Z.to_nat (4 * dx) in let bs := row_bytes self n dy in
  color_of_bytes (rendering_handler self) (nth i bs 0) (nth (i + 1) bs 0) (nth (i + 2) bs 0) = c.
Proof.
  intros Hwf Ht Hdx Hpx i bs.
  assert (Hj : forall j b, (j < 3)%nat -> color_bytes (rendering_handler self) c !! j = Some b ->
    nth (i + j) bs 0 = b).
  { intros j b Hj Hb. rewrite <- (wwf_bytes _ Hwf Ht _ _ _ _ Hpx Hj) in Hb.
    apply nth_lookup_Some. unfold bs, row_bytes. rewrite lookup_take_lt by lia.
    rewrite lookup_drop, <- Hb. f_equal. unfold i, index_of. lia. }
  assert (Hl : length (color_bytes (rendering_handler self) c) = 3%nat)
    by (unfold color_bytes; by destruct (rendering_handler self)).
  destruct (lookup_lt_is_Some_2 (color_bytes (rendering_handler self) c) 0) as [b0 H0]; [lia|].
  destruct (lookup_lt_is_Some_2 (color_bytes (rendering_handler self) c) 1) as [b1 H1]; [lia|].
  destruct (lookup_lt_is_Some_2 (color_bytes (rendering_handler self) c) 2) as [b2 H2]; [lia|].
  rewrite (Hj 1%nat b1), (Hj 2%nat b2) by (done || lia).
  rewrite <- (Nat.add_0_r i), (Hj 0%nat b0) by (done || lia).
  by apply color_of_color_bytes.
Qed.

(** What has been painted when the columns before [x_end] and the rows before [y_end] are
    done. *)
Definition window_part (self : Window) (x_end y_end x y : Z) : option Color :=
  if decide (x < x_end /\ y < y_end) then window_color self x y else None.

Lemma window_color_before self x y :
  x < pos_x (win_position self) \/ y < pos_y (win_position self) -> window_color self x y = None.
Proof. intros. unfold window_color. by rewrite decide_False by lia. Qed.

Lemma window_color_after self x y : window_wf self ->
  pos_x (win_position self) + width self <= x \/
  pos_y (win_position self) + Z.of_nat (win_height self) <= y -> window_color self x y = None.
Proof.
  intros Hwf Hout. unfold window_color. case_decide as Hin; [|done].
  destruct (px self _ _) as [c|] eqn:Hpx; simpl; [|done].
  apply px_Some_inv in Hpx; [|done]. unfold width in Hout. lia.
Qed.

Lemma window_color_inside self x y : window_wf self ->
  pos_x (win_position self) <= x < pos_x (win_position self) + width self ->
  pos_y (win_position self) <= y < pos_y (win_position self) + Z.of_nat (win_height self) ->
  exists c, px self (Z.to_nat (x - pos_x (win_position self))) (Z.to_nat (y - pos_y (win_position self)))
      = Some c /\
    window_color self x y = if decide (transparent_color self = Some c) then None else Some c.
Proof.
  intros Hwf Hx Hy. unfold width in Hx.
  destruct (px_Some self (Z.to_nat (x - pos_x (win_position self)))
    (Z.to_nat (y - pos_y (win_position self)))) as [c Hc]; [done|lia|lia|].
  exists c. split; [done|]. unfold window_color. rewrite decide_True by lia. by rewrite Hc.
Qed.

Lemma window_part_drawn fb self x y : window_wf self -> frame_area fb x y ->
  window_part self (Z.min (pos_x (win_position self) + width self) (pixcels_per_scan_line fb))
    (Z.min (pos_y (win_position self) + Z.of_nat (win_height self)) (horizontal_resolution fb)) x y
  = reached_color fb self x y.
Proof.
  intros Hwf (Hx & Hy & _). unfold window_part, reached_color.
  repeat case_decide; try done; try (exfalso; lia).
  symmetry. apply window_color_after; [done|]. lia.
Qed.

Ltac solve_part := intros; unfold window_part, over; repeat case_decide;
  try done; try (exfalso; lia);
  first [ by apply window_color_before; lia
        | by rewrite window_color_before by lia
        | match goal with |- context [window_color ?a ?b ?c] => by destruct (window_color a b c) end ].

Lemma fits_area fb self x y : screen_wf fb -> fits fb self ->
  0 <= x < pixcels_per_scan_line fb -> pos_y (win_position self) <= y ->
  y < Z.min (pos_y (win_position self) + Z.of_nat (win_height self)) (horizontal_resolution fb) ->
  frame_area fb x y.
Proof. intros [? ? ?] [? ? ? ? ? ?] Hx Hy Hy'. split_and!; lia. Qed.

Lemma flush_transparent_paints fb self color :
  screen_wf fb -> fits fb self -> window_wf self -> transparent_color self = Some color ->
  exists fb', flush_transparent self color fb = Ret fb' /\ paints fb fb' (reached_color fb self).
Proof.
  intros Hfb Hfit Hwf Ht. unfold flush_transparent. rewrite height_Ret by done.
  cbn [mbind outcome_bind]. pose proof Hfit as [Hx Hy Hxe Hye _ _]. rewrite range_end_Ret by done.
  cbn [mbind outcome_bind]. rewrite range_end_Ret by done. cbn [mbind outcome_bind].
  set (y_end := Z.min (pos_y _ + _) _). set (x_end := Z.min (pos_x _ + _) _).
  assert (Hpart : forall x y, frame_area fb x y -> window_part self x_end y_end x y = reached_color fb self x y)
    by (intros; by apply window_part_drawn).
  destruct (decide (pos_y (win_position self) <= y_end)) as [Hle|Hgt].
  2:{ rewrite for_range_empty by lia. exists fb. split; [done|].
      eapply paints_ext_area; [|apply paints_none]. intros x y Hxy. rewrite <- Hpart by done. solve_part. }
  match goal with |- exists fb', ?m = Ret fb' /\ _ =>
    assert (exists fb', m = Ret fb' /\ paints fb fb' (window_part self x_end y_end)) as (fb' & Hm & Hp) end;
    [|exists fb'; split; [exact Hm|]; eapply paints_ext_area; [|exact Hp]; exact Hpart].
  assert (Hwd : 0 <= width self) by (unfold width; lia).
  apply (paints_for (fun k => window_part self x_end k)
    (fun k x y => if decide (y = k) then window_part self x_end (k + 1) x y else None));
    [done| |solve_part|solve_part|done].
  intros s y Hyr Hs.
  apply (paints_for (fun k x' y' => if decide (y' = y) then window_part self k (y + 1) x' y' else None)
    (fun k x' y' => if decide (x' = k /\ y' = y) then window_color self x' y' else None));
    [unfold x_end; lia| |solve_part|solve_part|done].
  intros s0 x Hxr Hs0.
  destruct (window_color_inside self x y Hwf) as (c & Hc & Hcol); [lia..|].
  rewrite (win_pixel_px _ _ _ c) by done. cbn [mbind outcome_bind]. rewrite Ht in Hcol.
  destruct (decide (c = color)) as [Heq|Heq].
  - exists s0. split; [done|]. eapply paints_ext; [|apply paints_none].
    intros x' y'. cbn beta. destruct (decide (x' = x /\ y' = y)) as [[-> ->]|]; [|done].
    rewrite Hcol, decide_True; congruence.
  - destruct (paints_write s0 x y c) as (s' & Hs' & Hp); [|done|].
    + apply Hs0, Hs, (fits_area fb self); (done || lia).
    + exists s'. split; [exact Hs'|]. eapply paints_ext; [|exact Hp].
      intros x' y'. unfold point. destruct (decide (x' = x /\ y' = y)) as [[-> ->]|]; [|done].
      rewrite Hcol, decide_False; congruence.
Qed.

Lemma flush_opaque_row fb self y n : screen_wf fb -> fits fb self -> window_wf self ->
  transparent_color self = None ->
  pos_y (win_position self) <= y <
    Z.min (pos_y (win_position self) + Z.of_nat (win_height self)) (horizontal_resolution fb) ->
  n = Z.min (pos_x (win_position self) + width self) (pixcels_per_scan_line fb) - pos_x (win_position self) ->
  paints fb
    (set_memory fb (store_bytes (memory fb) (pixel_address fb (pos_x (win_position self)) y)
       (row_bytes self n (y - pos_y (win_position self)))))
    (fun x' y' => if decide (y' = y) then
       window_part self (Z.min (pos_x (win_position self) + width self) (pixcels_per_scan_line fb))
         (y + 1) x' y' else None).
Proof.
  intros Hfb Hfit Hwf Ht Hy Hn. pose proof Hfit as [Hx Hy0 _ _ _ Hfmt].
  assert (Hwd : 0 <= width self) by (unfold width; lia).
  split; [done|]. intros x' y' Hxy'. change (pixel_at ?a) with (frame_pixel a).
  assert (Hlen : Z.of_nat (length (row_bytes self n (y - pos_y (win_position self)))) = 4 * n).
  { unfold row_bytes. rewrite length_take, length_drop, (wwf_buffer _ Hwf). unfold index_of.
    unfold width in *. nia. }
  rewrite (frame_pixel_row fb _ _ n) by (done || lia).
  destruct (decide (y' = y)) as [->|Hne]; [|rewrite decide_False by lia; done].
  destruct (decide (pos_x (win_position self) <= x' < pos_x (win_position self) + n)) as [Hin|Hout].
  - rewrite decide_True by done.
    destruct (window_color_inside self x' y Hwf) as (c & Hc & Hcol); [lia..|].
    unfold window_part. rewrite decide_True by lia. rewrite Hcol, Ht. simpl.
    rewrite <- Hfmt. apply row_bytes_color; (done || lia).
  - rewrite decide_False by lia. unfold window_part. case_decide; [|done].
    by rewrite window_color_before by lia.
Qed.

(** The computations for one line. *)
Lemma opaque_indices fb self y : screen_wf fb -> fits fb self -> window_wf self ->
  let x0 := pos_x (win_position self) in
  let x_end := Z.min (x0 + width self) (pixcels_per_scan_line fb) in
  let dy := y - pos_y (win_position self) in
  pos_y (win_position self) <= y <
    Z.min (pos_y (win_position self) + Z.of_nat (win_height self)) (horizontal_resolution fb) ->
  get_frame_buffer_index fb x0 y = Ret (4 * (y * pixcels_per_scan_line fb + x0)) /\
  sub_w x_end x0 = Ret (x_end - x0) /\ mul_w 64 (x_end - x0) 4 = Ret ((x_end - x0) * 4) /\
  exists a b, get_buffer_index self 0 dy = Ret a /\ get_buffer_index self (x_end - x0) dy = Ret b /\
    buffer_slice (win_buffer self) a b = Ret (row_bytes self (x_end - x0) dy) /\
    (x_end - x0) * 4 = Z.of_nat (length (row_bytes self (x_end - x0) dy)).
Proof.
  intros [Hs Hh Hsz] [Hx Hy0 _ _ Hrows _] Hwf x0 x_end dy Hy.
  pose proof (wwf_buffer _ Hwf) as Hbuf. pose proof (wwf_size _ Hwf) as Hbs. rewrite Hbuf in Hbs.
  set (s := pixcels_per_scan_line fb) in *.
  assert (Hys : y * s + x0 <= vertical_resolution fb * s) by nia.
  assert (Hd : (Z.to_nat dy < win_height self)%nat) by lia.
  assert (Hw0 : 0 <= width self) by (unfold width; lia).
  assert (Hdw : dy * width self + width self <= width self * Z.of_nat (win_height self))
    by (unfold width; nia).
  assert (Hbs' : 4 * (width self * Z.of_nat (win_height self)) < 2 ^ 64) by (unfold width; lia).
  assert (Hdw0 : 0 <= dy * width self) by nia.
  assert (Hxe : x0 <= x_end <= x0 + width self) by lia.
  unfold get_frame_buffer_index, get_buffer_index. fold s.
  assert (Hys0 : 0 <= y * s) by nia.
  rewrite !mul_w_Ret by lia. cbn [mbind outcome_bind]. rewrite !add_w_Ret by lia.
  cbn [mbind outcome_bind]. rewrite !mul_w_Ret by lia. rewrite sub_w_Ret by lia.
  split_and!; [f_equal; lia|done..|]. eexists _, _. split_and!; [done|done| |].
  - unfold buffer_slice. rewrite decide_True by (rewrite Hbuf; unfold width in *; lia).
    unfold row_bytes, index_of. f_equal. f_equal; [lia|]. f_equal. unfold width in *. lia.
  - unfold row_bytes. rewrite length_take, length_drop, Hbuf. unfold index_of, width in *. nia.
Qed.

Definition same_screen (fb fb' : FrameBuffer) : Prop := exists m, fb' = set_memory fb m.

Lemma flush_opaque_paints fb self :
  screen_wf fb -> fits fb self -> window_wf self -> transparent_color self = None ->
  exists fb', flush_opaque self fb = Ret fb' /\ same_screen fb fb' /\
    paints fb fb' (reached_color fb self).
Proof.
  intros Hfb Hfit Hwf Ht. unfold flush_opaque. rewrite height_Ret by done.
  cbn [mbind outcome_bind]. pose proof Hfit as [Hx Hy Hxe Hye _ _].
  rewrite !range_end_Ret by done. cbn [mbind outcome_bind].
  set (y_end := Z.min (pos_y _ + _) _). set (x_end := Z.min (pos_x _ + _) _).
  assert (Hpart : forall x y, frame_area fb x y -> window_part self x_end y_end x y = reached_color fb self x y)
    by (intros; by apply window_part_drawn).
  destruct (decide (pos_y (win_position self) <= y_end)) as [Hle|Hgt].
  2:{ rewrite for_range_empty by lia. exists fb. split; [done|]. split; [exists (memory fb); by destruct fb|].
      eapply paints_ext_area; [|apply paints_none]. intros x y Hxy. rewrite <- Hpart by done. solve_part. }
  match goal with |- exists fb', for_range ?lo ?hi ?f ?s = _ /\ _ =>
    destruct (for_range_inv (fun k s => same_screen fb s /\ paints fb s (window_part self x_end k))
      lo hi f s) as (fb' & Hm & Hsame & Hp) end; [done| | |].
  - split; [exists (memory fb); by destruct fb|].
    eapply paints_ext; [|apply paints_none]. solve_part.
  - intros y s Hyr ([m ->] & Hp).
    destruct (opaque_indices fb self y) as (-> & Hsub & Hn & a & b & Ha & Hb & Hsl & Hlen); [done..|].
    fold x_end in Hsub, Hn, Hb, Hsl, Hlen. cbn [mbind outcome_bind]. rewrite Hsub.
    cbn [mbind outcome_bind]. rewrite Hn. cbn [mbind outcome_bind]. rewrite Ha.
    cbn [mbind outcome_bind]. rewrite Hb. cbn [mbind outcome_bind]. rewrite Hsl. cbn [mbind outcome_bind]. unfold copy_from_slice. rewrite decide_True by exact Hlen.
    eexists. split; [done|]. split; [by eexists|].
    pose proof (flush_opaque_row (set_memory fb m) self y (x_end - pos_x (win_position self))
      ltac:(by destruct Hfb) ltac:(by destruct Hfit) Hwf Ht Hyr eq_refl) as Hrow.
    eapply paints_ext; [|exact (paints_trans _ _ _ _ _ Hp Hrow)].
    intros x' y'. cbn beta. change (pixcels_per_scan_line (set_memory fb m)) with (pixcels_per_scan_line fb).
    fold x_end. solve_part.
  - exists fb'. split; [exact Hm|]. split; [done|]. eapply paints_ext_area; [|exact Hp]. done.
Qed.

Lemma flush_transparent_same fb self color fb' :
  flush_transparent self color fb = Ret fb' -> same_screen fb fb'.
Proof.
  intros H. unfold flush_transparent in H. inv_ret. revert H. apply for_range_Ret.
  2:{ exists (memory fb). by destruct fb. }
  intros y s s' Hs Hr. apply bind_Ret_inv in Hr as (xe & _ & Hr). revert Hs Hr.
  apply for_range_Ret. clear. intros x s s' [m ->] Hr. apply bind_Ret_inv in Hr as (c & _ & Hr).
  case_decide; [injection Hr as <-; by exists m|].
  apply bind_Ret_inv in Hr as (o & _ & Hr). apply bind_Ret_inv in Hr as (o' & _ & Hr).
  injection Hr as <-. by eexists.
Qed.

Lemma window_flush_paints fb self : screen_wf fb -> fits fb self -> window_wf self ->
  exists fb', window_flush self fb = Ret fb' /\ same_screen fb fb' /\
    paints fb fb' (reached_color fb self).
Proof.
  intros Hfb Hfit Hwf. unfold window_flush. destruct (transparent_color self) as [c|] eqn:Ht.
  - destruct (flush_transparent_paints fb self c) as (fb' & Hf & Hp); [done..|].
    exists fb'. split_and!; [done| |done]. by eapply flush_transparent_same.
  - by apply flush_opaque_paints.
Qed.

(** Whatever is drawn, the screen stays the one it is. *)
Lemma same_screen_trans fb1 fb2 fb3 : same_screen fb1 fb2 -> same_screen fb2 fb3 -> same_screen fb1 fb3.
Proof. intros [m ->] [m' ->]. by exists m'. Qed.

Lemma frame_write_same (fb : FrameBuffer) x y c fb' : write fb x y c = Ret fb' -> same_screen fb fb'.
Proof. intros H. apply bind_Ret_inv in H as (o & _ & H). apply bind_Ret_inv in H as (o' & _ & H). injection H as <-. by eexists. Qed.

Lemma fill_rect_same pos size c (fb fb' : FrameBuffer) : fill_rect pos size c fb = Ret fb' -> same_screen fb fb'.
Proof.
  intros H. unfold fill_rect in H. apply bind_Ret_inv in H as (ye & _ & H). revert H.
  apply for_range_Ret; [|exists (memory fb); by destruct fb].
  intros y s s' Hs Hr. apply bind_Ret_inv in Hr as (xe & _ & Hr). revert Hr. apply for_range_Ret; [|done].
  intros x s1 s2 H1 H2%frame_write_same. by eapply same_screen_trans.
Qed.

Lemma flush_opaque_same fb self fb' : flush_opaque self fb = Ret fb' -> same_screen fb fb'.
Proof.
  intros H. unfold flush_opaque in H. do 3 apply bind_Ret_inv in H as (? & _ & H). revert H.
  apply for_range_Ret; [|exists (memory fb); by destruct fb].
  intros y s s' [m ->] Hr. do 6 apply bind_Ret_inv in Hr as (? & _ & Hr).
  unfold copy_from_slice in Hr. case_decide; [|done]. injection Hr as <-. by eexists.
Qed.

Lemma window_flush_same fb self fb' : window_flush self fb = Ret fb' -> same_screen fb fb'.
Proof.
  unfold window_flush. destruct (transparent_color self); [apply flush_transparent_same|apply flush_opaque_same].
Qed.

Lemma flush_stack_same ls stack : forall fb fb', flush_stack ls stack fb = Ret fb' -> same_screen fb fb'.
Proof.
  induction stack as [|id stack IH]; intros fb fb' H; simpl in H.
  - injection H as <-. exists (memory fb). by destruct fb.
  - apply bind_Ret_inv in H as (w & _ & H). apply bind_Ret_inv in H as (fb1 & H1%window_flush_same & H).
    eapply same_screen_trans; [exact H1|]. by apply IH.
Qed.

(** * The stack *)

(** The colour on top: that of the last layer of the stack whose window is there and not transparent. *)
Fixpoint top_color (ls : gmap Z Window) (stack : list Z) (x y : Z) : option Color :=
  match stack with
  | [] => None
  | id :: stack => over (top_color ls stack x y) (w ← ls !! id; window_color w x y)
  end.

Lemma flush_stack_paints ls stack : forall fb, screen_wf fb ->
  (forall id, id ∈ stack -> exists w, ls !! id = Some w /\ fits fb w /\ window_wf w) ->
  exists fb', flush_stack ls stack fb = Ret fb' /\ same_screen fb fb' /\
    paints fb fb' (fun x y => if decide (y < horizontal_resolution fb) then top_color ls stack x y else None).
Proof.
  induction stack as [|id stack IH]; intros fb Hfb Hin; simpl.
  { exists fb. split; [done|]. split; [exists (memory fb); by destruct fb|].
    eapply paints_ext; [|apply paints_none]. intros x y. by case_decide. }
  destruct (Hin id) as (w & Hw & Hfit & Hwf); [by left|]. rewrite Hw. cbn [unwrap mbind outcome_bind].
  destruct (window_flush_paints fb w) as (fb1 & -> & [m ->] & Hp1); [done..|].
  cbn [mbind outcome_bind]. destruct (IH (set_memory fb m)) as (fb2 & -> & [m2 ->] & Hp2).
  - by destruct Hfb.
  - intros id' Hid'. destruct (Hin id') as (w' & Hw' & Hfit' & Hwf'); [by right|].
    exists w'. split_and!; [done|by destruct Hfit'|done].
  - exists (set_memory fb m2). split; [done|]. split; [by eexists|].
    eapply paints_ext; [|exact (paints_trans _ _ _ _ _ Hp1 Hp2)]. intros x y. cbn beta.
    unfold reached_color. change (horizontal_resolution (set_memory fb m)) with (horizontal_resolution fb).
    by case_decide.
Qed.

(** A flush that returns found every layer. *)
Lemma flush_stack_known ls stack : forall fb fb', flush_stack ls stack fb = Ret fb' ->
  forall id, id ∈ stack -> is_Some (ls !! id).
Proof.
  induction stack as [|i stack IH]; intros fb fb' H id Hid; simpl in H; [by apply not_elem_of_nil in Hid|].
  apply bind_Ret_inv in H as (w & Hw & H). apply bind_Ret_inv in H as (fb1 & _ & H).
  apply unwrap_Ret_inv in Hw. apply elem_of_cons in Hid as [->|Hid]; eauto.
Qed.

Lemma remove_first_filter id st : NoDup st -> remove_first id st = filter (fun i => i <> id) st.
Proof.
  induction 1 as [|i st Hi Hnd IH]; simpl; [done|]. rewrite filter_cons.
  destruct (decide (i = id)) as [->|Hne].
  - rewrite decide_False by (by intros []). symmetry. clear IH. revert Hi.
    induction st as [|j st IHst]; intros Hi; [done|]. rewrite filter_cons, decide_True.
    + f_equal. apply IHst; [by inversion Hnd|]. intros ?. apply Hi. by right.
    + intros ->. apply Hi. by left.
  - rewrite decide_True by done. by rewrite IH.
Qed.

Record lm_wf (self : LayerManager) : Prop := {
  lmw_nodup : NoDup (layer_stack self);
  lmw_known : forall id, id ∈ layer_stack self -> is_Some (layers self !! id);
  lmw_windows : map_Forall (fun id w => id < latest_unused_id self /\ window_wf w) (layers self);
  lmw_counter : latest_unused_id self <= uninitialized_id /\ 0 <= latest_unused_id self;
}.

Lemma lm_wf_new fb : lm_wf (layer_manager_new fb).
Proof.
  split; simpl; [constructor|by intros id ?%not_elem_of_nil|apply map_Forall_empty|].
  unfold uninitialized_id. lia.
Qed.

(** A layer is replaced by one that is well formed, too. *)
Lemma lm_wf_update self id w w' : lm_wf self -> layers self !! id = Some w ->
  (window_wf w -> window_wf w') -> lm_wf (set_layers self (<[id := w']> (layers self))).
Proof.
  intros [Hnd Hk Hw Hc] Hid Hww'. split; simpl; [done| | |done].
  - intros i Hi. destruct (decide (i = id)) as [->|Hne]; simplify_map_eq; eauto.
  - destruct (Hw _ _ Hid) as [Hlt Hwf]. apply map_Forall_insert_2; [auto|done].
Qed.

Lemma lm_wf_new_layer self w self' id : window_wf w -> lm_wf self ->
  new_layer self w = Ret (self', id) ->
  lm_wf self' /\ id = latest_unused_id self /\ layers self !! id = None /\
  layer_stack self' = id :: layer_stack self /\ layers self' = <[id := w]> (layers self).
Proof.
  intros Hw [Hnd Hk Hws Hc] Hnew. unfold new_layer in Hnew.
  apply bind_Ret_inv in Hnew as (u & Hlt%assert_Ret_inv%Z.ltb_lt & Hnew). injection Hnew as <- <-.
  assert (Hnone : layers self !! latest_unused_id self = None).
  { apply eq_None_not_Some. intros [w' Hw']. destruct (Hws _ _ Hw'). lia. }
  split_and!; try done. unfold uninitialized_id in *.
  assert (Hmod : (latest_unused_id self + 1) mod 2 ^ 64 = latest_unused_id self + 1)
    by (apply Z.mod_small; lia).
  split; simpl; rewrite ?Hmod.
  - constructor; [|done]. intros Hin. destruct (Hk _ Hin). congruence.
  - intros i [->|Hi]%elem_of_cons; [by rewrite lookup_insert_eq; eauto|].
    rewrite lookup_insert_ne; [by auto|]. intros <-. destruct (Hk _ Hi). congruence.
  - apply map_Forall_insert_2; [split; [lia|done]|].
    intros i w' Hi. destruct (Hws _ _ Hi). split; [lia|done].
  - unfold uninitialized_id. lia.
Qed.

Lemma lm_wf_hide self id : lm_wf self -> lm_wf (hide self id).
Proof.
  intros [Hnd Hk Hw Hc]. unfold hide. split; simpl; try done; rewrite remove_first_filter by done.
  - by apply NoDup_filter.
  - intros i [_ Hi]%list_elem_of_filter. auto.
Qed.

Lemma lm_wf_set_to_top self id : lm_wf self -> is_Some (layers self !! id) ->
  lm_wf (set_to_top self id).
Proof.
  intros Hwf Hid. pose proof (lm_wf_hide self id Hwf) as [Hnd Hk Hw Hc].
  unfold set_to_top. split; simpl in *; try done.
  - apply NoDup_app. split_and!; [done| |apply NoDup_singleton].
    intros i Hi ->%list_elem_of_singleton. rewrite remove_first_filter in Hi by apply Hwf.
    apply list_elem_of_filter in Hi. by destruct Hi.
  - intros i [Hi| ->%list_elem_of_singleton]%elem_of_app; [by auto|done].
Qed.

Lemma lm_step_wf self self' : lm_wf self -> lm_step self self' -> lm_wf self'.
Proof.
  intros Hwf Hstep. destruct Hstep as [self w h f t p window self' id Hw Hh Hnew Hl|self id p|
    self id dx dy self' Hm|self id x y c self' Hx Hy Hwr|self self' Hf|self id|self id Hid].
  - apply (lm_wf_new_layer self window self' id); [|done|done]. by eapply window_new_wf.
  - unfold move_layer. destruct (layers self !! id) as [w|] eqn:E; [|done].
    eapply lm_wf_update; [done..|]. intros [? ? ? ? ?]. by split.
  - unfold move_relative in Hm. destruct (layers self !! id) as [w|] eqn:E; [|by simplify_eq].
    apply bind_Ret_inv in Hm as (w' & Hw' & Hm). injection Hm as <-.
    eapply lm_wf_update; [done..|]. unfold win_move_relative in Hw'.
    apply bind_Ret_inv in Hw' as (? & _ & Hw'). apply bind_Ret_inv in Hw' as (? & _ & Hw').
    injection Hw' as <-. intros [? ? ? ? ?]. by split.
  - unfold layer_write in Hwr. destruct (layers self !! id) as [w|] eqn:E; [|by simplify_eq].
    apply bind_Ret_inv in Hwr as (w' & Hw' & Hm). injection Hm as <-.
    eapply lm_wf_update; [done..|]. intros Hww. by destruct (window_write_wf w x y c w' Hx Hy Hww Hw').
  - unfold lm_flush in Hf. apply bind_Ret_inv in Hf as (fb & _ & Hf). injection Hf as <-.
    by destruct Hwf.
  - by apply lm_wf_hide.
  - by apply lm_wf_set_to_top.
Qed.

Lemma lm_reachable_wf fb self : rtc lm_step (layer_manager_new fb) self -> lm_wf self.
Proof. intros H. eapply (rtc_invariant lm_step); [apply lm_step_wf|apply lm_wf_new|done]. Qed.

(** * Properties *)

(** C12: in every state that the calls can reach, when the windows in the stack fit on the screen
    ([fits]), a flush returns and every pixel in the rows before the horizontal resolution, which is
    every pixel of a screen that is not higher than wide, gets the colour of the topmost window that
    is not transparent there, and keeps its own where there is none.  The rows from there on are left
    as they are, whatever windows they have: the code takes the width for the height. *)
Theorem flush_composes fb self :
  rtc lm_step (layer_manager_new fb) self -> screen_wf (lm_writer self) ->
  (forall id w, id ∈ layer_stack self -> layers self !! id = Some w -> fits (lm_writer self) w) ->
  exists self', lm_flush self = Ret self' /\
    layer_stack self' = layer_stack self /\ layers self' = layers self /\
    forall x y, frame_area (lm_writer self) x y ->
      frame_pixel (lm_writer self') x y =
        if decide (y < horizontal_resolution (lm_writer self)) then
          default (frame_pixel (lm_writer self) x y) (top_color (layers self) (layer_stack self) x y)
        else frame_pixel (lm_writer self) x y.
Proof.
  intros Hr Hfb Hfit. pose proof (lm_reachable_wf fb self Hr) as [Hnd Hk Hws _].
  destruct (flush_stack_paints (layers self) (layer_stack self) (lm_writer self) Hfb)
    as (fb' & Hf & _ & Hp).
  - intros id Hid. destruct (Hk id Hid) as [w Hw]. exists w. split_and!; [done|by eauto|].
    apply (Hws _ _ Hw).
  - unfold lm_flush. rewrite Hf. cbn [mbind outcome_bind]. eexists. split_and!; [done..|].
    intros x y Hxy. pose proof (proj2 Hp x y Hxy) as Hpx. cbn beta in Hpx.
    revert Hpx. by case_decide.
Qed.

(** C33: in every state that the calls can reach the stack has no id twice and only ids of
    layers; a new layer gets an unused id and goes to the bottom, [hide] takes exactly the
    id out, [set_to_top] moves exactly the id to the top, and after [set_to_top] with an
    unknown id no flush returns. *)
Theorem layer_stack_order fb self id :
  rtc lm_step (layer_manager_new fb) self ->
  NoDup (layer_stack self) /\
  (forall i, i ∈ layer_stack self -> is_Some (layers self !! i)) /\
  (forall w self' i, window_wf w -> new_layer self w = Ret (self', i) ->
     layers self !! i = None /\ layer_stack self' = i :: layer_stack self) /\
  layer_stack (hide self id) = filter (fun i => i <> id) (layer_stack self) /\
  layer_stack (set_to_top self id) = filter (fun i => i <> id) (layer_stack self) ++ [id] /\
  (layers self !! id = None -> forall self', lm_flush (set_to_top self id) <> Ret self').
Proof.
  intros Hr. pose proof (lm_reachable_wf fb self Hr) as Hwf. pose proof Hwf as [Hnd Hk _ _].
  split_and!; [done|done| | | |].
  - intros w self' i Hw Hnew. by destruct (lm_wf_new_layer _ _ _ _ Hw Hwf Hnew) as (_ & _ & ? & ? & _).
  - simpl. by apply remove_first_filter.
  - simpl. by rewrite remove_first_filter.
  - intros Hnone self' Hf. unfold lm_flush in Hf. apply bind_Ret_inv in Hf as (fb' & Hf & _).
    assert (Hin : id ∈ layer_stack (set_to_top self id)) by (simpl; apply elem_of_app; right; by left).
    destruct (flush_stack_known _ _ _ _ Hf id Hin) as [w Hw]. simpl in Hw. congruence.
Qed.

(** An opaque window that starts beyond the end of the lines makes the flush panic. *)
Lemma opaque_beyond_line_panics fb self :
  screen_wf fb -> window_wf self -> transparent_color self = None ->
  pixcels_per_scan_line fb < pos_x (win_position self) ->
  pos_x (win_position self) + width self < 2 ^ 64 ->
  pos_y (win_position self) + Z.of_nat (win_height self) < 2 ^ 64 ->
  pos_y (win_position self) <
    Z.min (pos_y (win_position self) + Z.of_nat (win_height self)) (horizontal_resolution fb) ->
  window_flush self fb = Panic.
Proof.
  intros Hfb Hwf Ht Hx Hxe Hye Hy. unfold window_flush. rewrite Ht. unfold flush_opaque.
  rewrite height_Ret by done. cbn [mbind outcome_bind]. rewrite !range_end_Ret by done.
  cbn [mbind outcome_bind]. unfold for_range.
  destruct (Z.to_nat (_ - _)) as [|n] eqn:Hn; [lia|]. cbn [for_loop].
  destruct (get_frame_buffer_index fb _ _) as [o| |] eqn:Ho; cbn [mbind outcome_bind]; [|done|].
  - unfold sub_w. rewrite decide_False by lia. done.
  - exfalso. revert Ho. unfold get_frame_buffer_index, mul_w, add_w.
    repeat (case_decide; simpl; try done).
Qed.

(** * Witnesses *)

Definition demo_screen2 : FrameBuffer := get_writer (mkGraphicsInfo 8 8 8 0 Rgb) ∅.
Definition demo_window : Window :=
  mkWindow None Rgb (replicate 16 0) (replicate 2 (replicate 2 black)) (mkPosition 1 1).
Definition demo_manager : LayerManager := mkLayerManager demo_screen2 [0] {[0 := demo_window]} 1.

Lemma demo_reachable : rtc lm_step (layer_manager_new demo_screen2) demo_manager.
Proof.
  eapply rtc_l; [|apply rtc_refl].
  apply (step_new _ 2 2 Rgb None (mkPosition 1 1) demo_window _ 0); [lia|lia|reflexivity|reflexivity].
Qed.

Lemma flush_composes_witness :
  exists self', lm_flush demo_manager = Ret self' /\
    layer_stack self' = [0] /\ layers self' = layers demo_manager /\
    forall x y, frame_area demo_screen2 x y ->
      frame_pixel (lm_writer self') x y =
        if decide (y < 8) then
          default (frame_pixel demo_screen2 x y) (top_color (layers demo_manager) [0] x y)
        else frame_pixel demo_screen2 x y.
Proof.
  refine (flush_composes demo_screen2 demo_manager demo_reachable _ _).
  - split; simpl; lia.
  - intros id w _ Hw. change (layers demo_manager) with ({[0 := demo_window]} : gmap Z Window) in Hw. apply lookup_singleton_Some in Hw as [_ <-].
    split; simpl; try lia; try done; unfold width; simpl; lia.
Defined.

Lemma layer_stack_order_witness :
  NoDup (layer_stack demo_manager) /\
  (forall i, i ∈ layer_stack demo_manager -> is_Some (layers demo_manager !! i)) /\
  (forall w self' i, window_wf w -> new_layer demo_manager w = Ret (self', i) ->
     layers demo_manager !! i = None /\ layer_stack self' = i :: layer_stack demo_manager) /\
  layer_stack (hide demo_manager 0) = filter (fun i => i <> 0) (layer_stack demo_manager) /\
  layer_stack (set_to_top demo_manager 0) =
    filter (fun i => i <> 0) (layer_stack demo_manager) ++ [0] /\
  (layers demo_manager !! 0 = None -> forall self', lm_flush (set_to_top demo_manager 0) <> Ret self').
Proof. exact (layer_stack_order demo_screen2 demo_manager 0 demo_reachable). Defined.
