(* ===== verification/Graphics.v ===== *)
(** Graphics: the statics of [kernel/src/graphics.rs]: the screen that the console and the layers share,
    the macros that print, and the logger that writes to the serial port and to the console. *)
From S2P Require Import Prelude.
From S2P Require Import Pixels.
From S2P Require Import Console.
From S2P Require Import Log.
From S2P Require Import Layer.

Definition N_CHAR_PER_LINE : Z := 80.
Definition N_WRITEABLE_LINE : Z := 25.

(** [log::Level], as the crate numbers it. *)
Definition LevelError : Z := 1.
Definition LevelWarn : Z := 2.
Definition LevelInfo : Z := 3.
Definition LevelDebug : Z := 4.
Definition LevelTrace : Z := 5.

(** [log::Record]: the message in the pieces that it is formatted in. *)
Record LogRecord := mkRecord {
  rec_level : Z; rec_level_text : list Z; rec_pieces : list (list Z);
  rec_file : option (list Z); rec_line : option Z;
}.

(** ["<unknown>"]. *)
Definition unknown_file : list Z := [60; 117; 110; 107; 110; 111; 119; 110; 62].

Section graphics.
Context `{Log.SerialPort HW} (FONT : list (list Z)) (fuel : nat).

(** [WRITER] and [LAYER_MANGER], once they are initialised, on the memory of the one screen; the
    serial port; whether the [log] crate has the logger, and its maximum level. *)
Record Output := mkOutput {
  o_memory : gmap Z Z;
  o_writer : option (Console.Writer FrameBuffer);
  o_layers : option Layer.LayerManager;
  o_serial : HW;
  o_logger : bool;
  o_max_level : Z;
}.

Definition set_serial (o : Output) (hw : HW) : Output :=
  mkOutput (o_memory o) (o_writer o) (o_layers o) hw (o_logger o) (o_max_level o).
Definition set_writer (o : Output) (w : Console.Writer FrameBuffer) : Output :=
  mkOutput (memory (Console.device w)) (Some w) (o_layers o) (o_serial o) (o_logger o) (o_max_level o).

(** The writer with the screen as it is. *)
Definition current_writer (o : Output) : option (Console.Writer FrameBuffer) :=
  (fun w => Console.set_device w (set_memory (Console.device w) (o_memory o))) <$> o_writer o.
Definition current_layers (o : Output) : option Layer.LayerManager :=
  (fun lm => Layer.mkLayerManager (set_memory (Layer.lm_writer lm) (o_memory o)) (Layer.layer_stack lm)
     (Layer.layers lm) (Layer.latest_unused_id lm)) <$> o_layers o.

(** [init_graphics]: the screen is cleared, and the statics get their first value. *)
Definition init_graphics (graphics_info : GraphicsInfo) (o : Output) : outcome (FrameBuffer * Output) :=
  pixcel_writer ← Pixels.init_graphics graphics_info (o_memory o);
  let writer := default (Console.writer_new N_WRITEABLE_LINE N_CHAR_PER_LINE pixcel_writer) (o_writer o) in
  let layers := default (Layer.layer_manager_new pixcel_writer) (o_layers o) in
  Ret (pixcel_writer,
       mkOutput (memory pixcel_writer) (Some writer) (Some layers) (o_serial o) (o_logger o) (o_max_level o)).

(** [_serial_print], [_print] and [_print_and_flush] for a text. *)
Definition serial_print (s : list Z) (o : Output) : outcome Output :=
  hw ← Log.serial_write_str fuel s (o_serial o); Ret (set_serial o hw).

Definition print (s : list Z) (o : Output) : outcome Output :=
  w ← unwrap (current_writer o);
  w ← Console.put_string FONT N_WRITEABLE_LINE N_CHAR_PER_LINE w s;
  Ret (set_writer o w).

Definition print_and_flush (s : list Z) (o : Output) : outcome Output :=
  w ← unwrap (current_writer o);
  w ← Console.put_string FONT N_WRITEABLE_LINE N_CHAR_PER_LINE w s;
  w ← Console.flush FONT N_WRITEABLE_LINE N_CHAR_PER_LINE w;
  Ret (set_writer o w).

(** [lock_layer_manager!().flush()]. *)
Definition flush_layers (o : Output) : outcome Output :=
  lm ← unwrap (current_layers o);
  lm ← Layer.lm_flush lm;
  Ret (mkOutput (memory (Layer.lm_writer lm)) (o_writer o) (Some lm) (o_serial o) (o_logger o) (o_max_level o)).

(** ** The logger *)

(** [CharWriter::enabled], which [SerialAndVgaCharWriter::enabled] asks. *)
Definition enabled (o : Output) : bool := match o_writer o with Some _ => true | None => false end.

(** The closures of the [InstantWriter]s. *)
Definition instant_write (vga : bool) (s : list Z) (o : Output) : outcome Output :=
  o ← serial_print s o; if vga then print s o else Ret o.

(** The text that [DecoratedLog::write] writes for a record. *)
Definition decorate (r : LogRecord) : list Z :=
  Log.log_write (rec_level_text r) (default unknown_file (rec_file r)) (default 0 (rec_line r))
    (rec_pieces r) [].

(** [SerialAndVgaCharWriter::log]. *)
Definition logger_log (r : LogRecord) (o : Output) : outcome Output :=
  if enabled o then instant_write (rec_level r <=? LevelInfo) (decorate r) o else Ret o.

(** [CharWriter::log] and [CharWriter::flush]. *)
Definition char_writer_log (r : LogRecord) (o : Output) : outcome Output :=
  if enabled o then print (decorate r) o else Ret o.
Definition char_writer_flush (o : Output) : outcome Output :=
  w ← unwrap (current_writer o);
  w ← Console.flush FONT N_WRITEABLE_LINE N_CHAR_PER_LINE w; Ret (set_writer o w).

(** The macros [error!] to [trace!] of the [log] crate: nothing without a logger or above the
    maximum level. *)
Definition log_macro (r : LogRecord) (o : Output) : outcome Output :=
  if o_logger o && (rec_level r <=? o_max_level o) then logger_log r o else Ret o.

(** [init_logger]: [set_logger] fails the second time. *)
Definition init_logger (r : LogRecord) (o : Output) : outcome Output :=
  _ ← assert (negb (o_logger o));
  log_macro r (mkOutput (o_memory o) (o_writer o) (o_layers o) (o_serial o) true LevelTrace).

(** ** Lemmas *)

(** What the screen is used for does not change with its contents. *)
Definition output_ok (o : Output) : Prop :=
  forall w, o_writer o = Some w -> Console.console_setup FONT N_WRITEABLE_LINE N_CHAR_PER_LINE (Console.device w).

(** The console of the output shows a terminal. *)
Definition output_shows (o : Output) (t : Console.Terminal) : Prop :=
  exists w, o_writer o = Some w /\ Console.shows N_WRITEABLE_LINE N_CHAR_PER_LINE w t.

Lemma set_memory_area fb m x y : frame_area (set_memory fb m) x y <-> frame_area fb x y.
Proof. done. Qed.

Lemma shows_memory w t m : Console.shows N_WRITEABLE_LINE N_CHAR_PER_LINE w t ->
  Console.shows N_WRITEABLE_LINE N_CHAR_PER_LINE (Console.set_device w (set_memory (Console.device w) m)) t.
Proof. by intros []. Qed.

Context (Hfont : Forall (fun glyph => length glyph = 16%nat) FONT).

Lemma print_shows s o t : output_shows o t ->
  exists o', print s o = Ret o' /\ output_shows o' (Console.term_puts N_WRITEABLE_LINE N_CHAR_PER_LINE t s) /\
    o_serial o' = o_serial o /\ o_logger o' = o_logger o /\ o_max_level o' = o_max_level o /\
    o_layers o' = o_layers o.
Proof.
  intros (w & Hw & Hs). unfold print, current_writer. rewrite Hw. cbn [fmap option_fmap option_map unwrap].
  destruct (Console.put_string_shows FONT N_WRITEABLE_LINE N_CHAR_PER_LINE Hfont eq_refl eq_refl eq_refl
    eq_refl s _ t (shows_memory w t (o_memory o) Hs)) as (w' & Hp & Hs').
  cbn [mbind outcome_bind]. rewrite Hp. cbn [mbind outcome_bind]. eexists. split; [done|]. split; [|done].
  by exists w'.
Qed.

(** How the text is cut into pieces makes no difference. *)
Lemma serial_write_str_app a b : forall hw,
  Log.serial_write_str fuel (a ++ b) hw =
    (hw ← Log.serial_write_str fuel a hw; Log.serial_write_str fuel b hw).
Proof.
  induction a as [|c a IH]; intros hw; [done|]. simpl.
  destruct (Log.write_serial_str fuel _ hw); [apply IH|done..].
Qed.

Lemma put_string_app a b : forall w : Console.Writer FrameBuffer,
  Console.put_string FONT N_WRITEABLE_LINE N_CHAR_PER_LINE w (a ++ b) =
    (w ← Console.put_string FONT N_WRITEABLE_LINE N_CHAR_PER_LINE w a;
     Console.put_string FONT N_WRITEABLE_LINE N_CHAR_PER_LINE w b).
Proof.
  induction a as [|c a IH]; intros w; [done|]. simpl.
  destruct (Console.put_char FONT _ _ w c); [apply IH|done..].
Qed.

Lemma current_set_writer o w : current_writer (set_writer o w) = Some w.
Proof. unfold current_writer. simpl. f_equal. by destruct w as [[] ? ? ? ?]. Qed.

Lemma instant_write_app vga a b o o1 : instant_write vga a o = Ret o1 ->
  instant_write vga (a ++ b) o = instant_write vga b o1.
Proof.
  unfold instant_write, serial_print. intros H1. apply bind_Ret_inv in H1 as (o2 & H2 & H1).
  apply bind_Ret_inv in H2 as (hw & Hhw & H2). injection H2 as <-.
  rewrite serial_write_str_app, Hhw. cbn [mbind outcome_bind]. destruct vga; [|by injection H1 as <-].
  unfold print in *. apply bind_Ret_inv in H1 as (w & Hw & H1). apply bind_Ret_inv in H1 as (w1 & Hw1 & H1).
  injection H1 as <-. cbn [set_writer o_serial set_serial].
  destruct (Log.serial_write_str fuel b hw) as [hw2| |]; [|done..]. cbn [mbind outcome_bind].
  change (current_writer (set_serial o hw)) with (current_writer o) in Hw.
  change (current_writer (set_serial o hw2)) with (current_writer o). rewrite Hw. cbn [mbind outcome_bind].
  rewrite put_string_app, Hw1. cbn [mbind outcome_bind].
  replace (current_writer (set_serial _ hw2)) with (Some w1); [|symmetry; apply (current_set_writer o)].
  reflexivity.
Qed.

End graphics.

(** * Properties *)

(** What the serial port is sent for a text. *)
Definition serial_text (s : list Z) : list Z := concat (Log.serial_bytes <$> s).

Section properties.
Context `{Log.SerialPort HW} (FONT : list (list Z)) (fuel : nat)
  (Hfont : Forall (fun glyph => length glyph = 16%nat) FONT).
Context (sent : HW -> list Z) (busy : HW -> nat) (latency : nat) `{!Log.ReadyPort sent busy latency}
  (Hfuel : (latency < fuel)%nat).

Lemma serial_print_sent s o : exists o', serial_print fuel s o = Ret o' /\
  sent (o_serial o') = sent (o_serial o) ++ serial_text s /\ o' = set_serial o (o_serial o').
Proof.
  destruct (Log.serial_write_str_sent sent busy latency fuel s Hfuel (o_serial o)) as (hw & Hr & Hs).
  unfold serial_print. rewrite Hr. exists (set_serial o hw). by split_and!.
Qed.

Lemma logger_log_reaches r o t : output_shows o t ->
  exists o', logger_log FONT fuel r o = Ret o' /\
    sent (o_serial o') = sent (o_serial o) ++ serial_text (decorate r) /\
    output_shows o' (if rec_level r <=? LevelInfo
                     then Console.term_puts N_WRITEABLE_LINE N_CHAR_PER_LINE t (decorate r) else t) /\
    o_layers o' = o_layers o.
Proof.
  intros Ht. pose proof Ht as (w & Hw & Hs). unfold logger_log, enabled. rewrite Hw. unfold instant_write.
  destruct (serial_print_sent (decorate r) o) as (o1 & H1 & Hsent & Heq). rewrite H1. cbn [mbind outcome_bind].
  destruct (rec_level r <=? LevelInfo).
  - destruct (print_shows FONT Hfont (decorate r) o1 t) as (o2 & H2 & Ht2 & Hser & _ & _ & Hl).
    { exists w. rewrite Heq. done. }
    exists o2. split; [done|]. rewrite Hser. split; [done|]. split; [done|]. rewrite Hl. by rewrite Heq.
  - exists o1. split; [done|]. split; [done|]. rewrite Heq. split; [|done]. by exists w.
Qed.

(** C38: a log message comes out where it should, line by line.  With the logger set, a message up to the
    maximum level goes to the serial port, with a carriage return before each newline, and from
    [Info] up also to the console, where it continues what the console shows; other messages, and
    all messages before the console is there, go nowhere.  The text ends a line exactly where the
    message does, and each line stands after the level of the message, the first one after its file
    and line too.  It loses nothing of the message but a carriage return right before a newline in one
    of its pieces, so nothing of a message without carriage returns.  Nothing panics, for a font of
    glyphs of 16 lines and a serial port that is ready again after a bounded number of looks. *)
Theorem log_reaches_outputs r o :
  (forall t, o_logger o = true -> rec_level r <= o_max_level o -> output_shows o t ->
   exists o' ds, log_macro FONT fuel r o = Ret o' /\
     sent (o_serial o') = sent (o_serial o) ++ serial_text (Log.decorated ds) /\
     output_shows o' (if rec_level r <=? LevelInfo
                      then Console.term_puts N_WRITEABLE_LINE N_CHAR_PER_LINE t (Log.decorated ds) else t) /\
     Log.unlines ds.*2 [] = concat (Log.drop_returns <$> rec_pieces r) ++ [Log.newline] /\
     (Forall Log.no_return (rec_pieces r) -> Log.unlines ds.*2 [] = concat (rec_pieces r) ++ [Log.newline]) /\
     Forall (fun l => Log.newline ∉ l) ds.*2 /\
     head ds.*1 = Some (Log.line_head (rec_level_text r) (default unknown_file (rec_file r))
                          (default 0 (rec_line r))) /\
     Forall (fun d => d = Log.line_head (rec_level_text r) (default unknown_file (rec_file r))
                            (default 0 (rec_line r)) \/ d = Log.next_line_head (rec_level_text r)) ds.*1) /\
  (o_logger o = false \/ o_max_level o < rec_level r \/ o_writer o = None -> log_macro FONT fuel r o = Ret o).
Proof.
  split.
  - intros t Hlog Hlevel Ht. unfold log_macro. rewrite Hlog, (proj2 (Z.leb_le _ _) Hlevel).
    destruct (logger_log_reaches r o t Ht) as (o' & Hrun & Hsent & Hshow & _).
    destruct (Log.write_decorated (rec_level_text r) (default unknown_file (rec_file r))
      (default 0 (rec_line r)) (rec_pieces r) []) as (ds & Hds & Hmsg & Hl & Hh & Hall).
    unfold decorate in *. rewrite Hds in *. exists o', ds. split_and!; try done.
    intros Hno. by rewrite Hmsg, Log.drop_returns_all.
  - unfold log_macro, logger_log, enabled. intros [->|[Hl|Hw]]; [done| |].
    + rewrite (proj2 (Z.leb_gt _ _) Hl). by rewrite andb_false_r.
    + rewrite Hw. by destruct (_ && _).
Qed.

End properties.

(** * A port to run, and the witness *)

Module GraphicsExamples.

(** A port that is busy for a look after each byte. *)
Record Port := mkPort { port_busy : bool; port_sent : list Z }.

#[global] Instance sim_port : Log.SerialPort Port := {|
  Log.inb_status p := (if port_busy p then 0 else 0x20, mkPort false (port_sent p));
  Log.outb_data b p := mkPort true (port_sent p ++ [b]);
|}.

#[global] Instance sim_port_ready : Log.ReadyPort port_sent (fun p => Nat.b2n (port_busy p)) 1.
Proof.
  split; [|done|by intros [[] ?]; simpl; lia]. intros [[] l]; eexists _, _; (split; [reflexivity|]); split; try done.
  simpl. lia.
Qed.

Definition font : list (list Z) := replicate 128 (replicate 16 0x81).
Definition screen : FrameBuffer := get_writer (mkGraphicsInfo 640 400 640 0x1000 Rgb) ∅.
Definition output : Output (HW := Port) :=
  mkOutput ∅ (Some (Console.writer_new N_WRITEABLE_LINE N_CHAR_PER_LINE screen))
    (Some (Layer.layer_manager_new screen)) (mkPort false []) true LevelTrace.

(** ["a\nb"] at [Info] and at [Debug], in ["m.rs"] at line 7. *)
Definition message (level : Z) : LogRecord :=
  mkRecord level [73; 78; 70; 79] [[97; 10]; [98]] (Some [109; 46; 114; 115]) (Some 7).

Lemma output_fresh : output_shows output Console.term_new.
Proof.
  eexists. split; [done|]. apply Console.writer_new_shows; try done.
  split_and!; try done. intros x y [Hx Hy]. unfold N_CHAR_PER_LINE, N_WRITEABLE_LINE in *. simpl in *.
  repeat split; simpl; lia.
Qed.

End GraphicsExamples.

Lemma log_reaches_outputs_witness :
  (exists o', log_macro GraphicsExamples.font 2 (GraphicsExamples.message LevelInfo) GraphicsExamples.output = Ret o' /\
     exists t, output_shows o' t) /\
  (exists o', log_macro GraphicsExamples.font 2 (GraphicsExamples.message LevelDebug) GraphicsExamples.output = Ret o' /\
     output_shows o' Console.term_new).
Proof.
  assert (Forall (fun glyph => length glyph = 16%nat) GraphicsExamples.font) as Hfont by (by apply Forall_replicate).
  split.
  - destruct (proj1 (log_reaches_outputs GraphicsExamples.font 2 Hfont GraphicsExamples.port_sent
      (fun p => Nat.b2n (GraphicsExamples.port_busy p)) 1 ltac:(lia) (GraphicsExamples.message LevelInfo)
      GraphicsExamples.output) _ eq_refl ltac:(simpl; unfold LevelInfo, LevelTrace; lia)
      GraphicsExamples.output_fresh) as (o' & ds & Hrun & _ & Hshow & _).
    exists o'. split; [exact Hrun|]. by eexists.
  - destruct (proj1 (log_reaches_outputs GraphicsExamples.font 2 Hfont GraphicsExamples.port_sent
      (fun p => Nat.b2n (GraphicsExamples.port_busy p)) 1 ltac:(lia) (GraphicsExamples.message LevelDebug)
      GraphicsExamples.output) _ eq_refl ltac:(simpl; unfold LevelDebug, LevelTrace; lia)
      GraphicsExamples.output_fresh) as (o' & ds & Hrun & _ & Hshow & _).
    exists o'. split; [exact Hrun|exact Hshow].
Defined.
