(* ===== verification/Loader.v ===== *)
(** Loader: the whole of the boot loader ([main] of [bootloader/src/main.rs]) on any firmware: the file of
    the kernel, its image, the graphics mode, the memory map, and the exit from the firmware. *)
From stdpp Require Import strings.
From S2P Require Import Prelude Allocator.
From S2P Require Import Pixels.
From S2P Require Import Boot.

(** * What the firmware and the parser of images give *)

Record FileInfo := mkFileInfo { fi_name : string; fi_size : Z }.

(** The graphics mode: the size, the stride, the frame buffer and the format of the pixels. *)
Inductive GopFormat := GopRgb | GopBgr | GopBitmask | GopBltOnly.
Record GopMode := mkGopMode {
  gm_width : Z; gm_height : Z; gm_stride : Z; gm_base : Z; gm_format : GopFormat;
}.

(** The parsed image: whether its section headers can be read, its segments if they can, and its
    entry point. *)
Record Elf := mkElf { elf_sections : bool; elf_segments : option (list ProgramHeader); e_entry : Z }.

(** The calls of the [uefi] crate; [None] and [false] are errors.  A buffer that the loader allocates
    is an address; the bytes that a file gives are the result. *)
Class Firmware (FW : Type) := {
  fw_find_output : FW -> option Z * FW;
  fw_open_output : Z -> FW -> bool * FW;
  fw_reset_output : bool -> FW -> bool * FW;
  fw_map_size : FW -> Z * FW;
  fw_alloc : Z -> FW -> option Z * FW;
  fw_memory_map : Z -> FW -> option (list MemoryDescriptor) * FW;
  fw_file_system : FW -> bool * FW;
  fw_open_volume : FW -> bool * FW;
  fw_read_entry : Z -> FW -> option (option FileInfo) * FW;
  fw_open_file : string -> FW -> bool * FW;
  fw_read_file : Z -> FW -> option (list Z) * FW;
  fw_allocate_pages : Z -> Z -> memory -> FW -> result Z unit * memory * FW;
  fw_gop_handles : FW -> option (list Z) * FW;
  fw_open_gop : Z -> FW -> option GopMode * FW;
  fw_exit : Z -> FW -> option (list MemoryDescriptor) * FW;
}.

(** [KernelMainArg]. *)
Record KernelMainArg := mkArg { graphics_info : Pixels.GraphicsInfo; memory_map_entry : Z }.

Definition ENTRY_BUF_SIZE : Z := 10000.
Definition kernel_elf : string := "kernel.elf".

(** * The loader *)

Section loader.
Context `{Firmware FW} (parse : list Z -> option Elf) (fuel : nat).

(** A call whose error is a panic. *)
Definition or_panic {A} (f : FW -> option A * FW) (fw : FW) : outcome (A * FW) :=
  let '(o, fw) := f fw in a ← unwrap o; Ret (a, fw).
Definition must (f : FW -> bool * FW) (fw : FW) : outcome FW :=
  let '(ok, fw) := f fw in _ ← assert ok; Ret fw.

Definition reset_text_output (fw : FW) : outcome FW :=
  '(handle, fw) ← or_panic fw_find_output fw;
  fw ← must (fw_open_output handle) fw;
  must (fw_reset_output true) fw.

(** A buffer for the memory map. *)
Definition map_buffer (fw : FW) : outcome (Z * Z * FW) :=
  let '(size, fw) := fw_map_size fw in
  buf_size ← add_w 64 size 1024;
  '(buf, fw) ← or_panic (fw_alloc buf_size) fw;
  Ret (buf_size, buf, fw).

(** [get_memory_map_iter]. *)
Definition get_memory_map (buf_size : Z) (fw : FW) : outcome (list MemoryDescriptor * FW) :=
  or_panic (fw_memory_map buf_size) fw.

(** The loop that reads the entries of the root directory. *)
Fixpoint find_kernel (fuel : nat) (fw : FW) : outcome (FileInfo * FW) :=
  match fuel with
  | O => NoFuel
  | S fuel =>
      let '(entry, fw) := fw_read_entry ENTRY_BUF_SIZE fw in
      match entry with
      | Some (Some info) =>
          if bool_decide (fi_name info = kernel_elf) then Ret (info, fw) else find_kernel fuel fw
      | Some None | None => Panic
      end
  end.

(** The file in a buffer of its size: what is read over the zeros. *)
Definition read_kernel (fw : FW) (m : memory) : outcome (Z * list Z * memory * FW) :=
  fw ← must fw_file_system fw;
  fw ← must fw_open_volume fw;
  '(info, fw) ← find_kernel fuel fw;
  fw ← must (fw_open_file kernel_elf) fw;
  '(buffer, fw) ← or_panic (fw_alloc (fi_size info)) fw;
  '(bytes, fw) ← or_panic (fw_read_file (fi_size info)) fw;
  let contents := take (Z.to_nat (fi_size info)) bytes ++ replicate (Z.to_nat (fi_size info) - length bytes) 0 in
  Ret (buffer, contents, write_list buffer contents m, fw).

(** [construct_graphics_info]: the second handle. *)
Definition construct_graphics_info (fw : FW) : outcome (Pixels.GraphicsInfo * FW) :=
  '(handles, fw) ← or_panic fw_gop_handles fw;
  handle ← unwrap (handles !! 1%nat);
  '(mode, fw) ← or_panic (fw_open_gop handle) fw;
  format ← match gm_format mode with
           | GopRgb => Ret Pixels.Rgb
           | GopBgr => Ret Pixels.Bgr
           | GopBitmask | GopBltOnly => Panic
           end;
  Ret (Pixels.mkGraphicsInfo (gm_width mode) (gm_height mode) (gm_stride mode) (gm_base mode) format, fw).

(** The pages for the image, the memory map after they were allocated, and the segments. *)
Definition load_image (maps_before : list MemoryDescriptor) (buf_size buffer : Z)
    (segments : list ProgramHeader) (m : memory) (fw : FW) : outcome (memory * FW) :=
  '(load_min_addr, load_max_addr) ← calc_load_address_range segments;
  pages ← n_pages load_min_addr load_max_addr;
  let '(r, m, fw) := fw_allocate_pages load_min_addr pages m fw in
  match r with
  | Ok allocated_pointer =>
      _ ← descriptor_at maps_before allocated_pointer;
      '(maps_after, fw) ← get_memory_map buf_size fw;
      _ ← descriptor_at maps_after allocated_pointer;
      m ← copy_load_segments buffer segments m;
      Ret (m, fw)
  | Err _ => Panic
  end.

(** The exit from the firmware, and the memory map for the kernel; the writes to it are not bounded by
    its buffer. *)
Definition leave_firmware (fw : FW) (m : memory) : outcome (Z * Z * memory * FW) :=
  '(buf_size, _, fw) ← map_buffer fw;
  '(mem_map_buf, fw) ← or_panic (fw_alloc buf_size) fw;
  '(memory_map, fw) ← or_panic (fw_exit buf_size) fw;
  let size := Z.of_nat (length memory_map) in
  Ret (mem_map_buf, buf_size, new_inplace mem_map_buf size memory_map m, fw).

(** [main], once the services of the firmware are initialised and up to the jump: the address it jumps
    to and what the kernel is passed. *)
Definition loader_main (fw : FW) (m : memory) : outcome (Z * KernelMainArg * memory * FW) :=
  fw ← reset_text_output fw;
  '(buf_size, _, fw) ← map_buffer fw;
  '(memory_maps, fw) ← get_memory_map buf_size fw;
  '(buffer, contents, m, fw) ← read_kernel fw m;
  elf ← unwrap (parse contents);
  _ ← assert (elf_sections elf);
  segments ← unwrap (elf_segments elf);
  '(m, fw) ← load_image memory_maps buf_size buffer segments m fw;
  '(graphics_info, fw) ← construct_graphics_info fw;
  '(mem_map_buf, _, m, fw) ← leave_firmware fw m;
  Ret (e_entry elf, mkArg graphics_info mem_map_buf, m, fw).

End loader.

(** * What the firmware promises *)

(** What can be seen of the firmware: the entries of the root directory that are left, the files, the
    open file, the graphics handles with their modes, the regions of memory that are given away, and how
    many more buffers there is room for. *)
Record View := mkView {
  v_root : list FileInfo;
  v_files : gmap string (list Z);
  v_open : option (list Z);
  v_gops : list (Z * GopMode);
  v_claims : list (Z * Z);
  v_room : nat;
}.

Definition with_root (l : list FileInfo) (v : View) : View :=
  mkView l (v_files v) (v_open v) (v_gops v) (v_claims v) (v_room v).
Definition with_open (bytes : list Z) (v : View) : View :=
  mkView (v_root v) (v_files v) (Some bytes) (v_gops v) (v_claims v) (v_room v).
Definition with_claim (r : Z * Z) (v : View) : View :=
  mkView (v_root v) (v_files v) (v_open v) (v_gops v) (r :: v_claims v) (v_room v).
Definition with_buffer (r : Z * Z) (v : View) : View :=
  mkView (v_root v) (v_files v) (v_open v) (v_gops v) (r :: v_claims v) (pred (v_room v)).

Definition in_region (r : Z * Z) (a : Z) : Prop := r.1 <= a < r.1 + r.2.
Definition unclaimed (v : View) (a : Z) : Prop := forall r, r ∈ v_claims v -> ~ in_region r a.

(** The documented behaviour of the calls while the firmware runs.  [ram] is the memory that its maps
    describe, [heap] the part of it that buffers come from, [desc_size] the size of a descriptor in its
    maps, and [map_bytes] the most that a map takes, at most 1024 more than it is said to take. *)
Class FirmwareLaws (FW : Type) `{Firmware FW} (view : FW -> View) (ram heap : Z -> Prop)
    (desc_size map_bytes : Z) := {
  law_output fw : exists h fw', fw_find_output fw = (Some h, fw') /\ view fw' = view fw;
  law_open_output h fw : exists fw', fw_open_output h fw = (true, fw') /\ view fw' = view fw;
  law_reset_output b fw : exists fw', fw_reset_output b fw = (true, fw') /\ view fw' = view fw;
  law_map_size fw : exists n fw', fw_map_size fw = (n, fw') /\ 0 <= n < 2 ^ 32 /\
    map_bytes <= n + 1024 /\ view fw' = view fw;
  law_alloc n fw : 0 <= n < 2 ^ 33 -> (0 < v_room (view fw))%nat ->
    exists a fw', fw_alloc n fw = (Some a, fw') /\ view fw' = with_buffer (a, n) (view fw) /\
      0 <= a /\ a + n < 2 ^ 64 /\ forall x, in_region (a, n) x -> heap x /\ unclaimed (view fw) x;
  law_memory_map n fw : map_bytes <= n ->
    exists l fw', fw_memory_map n fw = (Some l, fw') /\ view fw' = view fw /\
      forall a, ram a -> exists d, descriptor_at l a = Ret d;
  law_file_system fw : exists fw', fw_file_system fw = (true, fw') /\ view fw' = view fw;
  law_open_volume fw : exists fw', fw_open_volume fw = (true, fw') /\ view fw' = view fw;
  law_read_entry n fw info l : v_root (view fw) = info :: l ->
    exists fw', fw_read_entry n fw = (Some (Some info), fw') /\ view fw' = with_root l (view fw);
  law_open_file name bytes fw : v_files (view fw) !! name = Some bytes ->
    exists fw', fw_open_file name fw = (true, fw') /\ view fw' = with_open bytes (view fw);
  law_read_file n bytes fw : v_open (view fw) = Some bytes -> Z.of_nat (length bytes) <= n ->
    exists fw', fw_read_file n fw = (Some bytes, fw') /\ view fw' = view fw;
  law_allocate_pages lo pages m fw : 0 < pages ->
    (forall x, in_region (lo, pages * 0x1000) x -> ram x /\ unclaimed (view fw) x) ->
    exists m' fw', fw_allocate_pages lo pages m fw = (Ok lo, m', fw') /\
      view fw' = with_claim (lo, pages * 0x1000) (view fw) /\
      forall x, ~ in_region (lo, pages * 0x1000) x -> m' x = m x;
  law_gop_handles fw : exists fw', fw_gop_handles fw = (Some (v_gops (view fw)).*1, fw') /\ view fw' = view fw;
  law_open_gop h mode fw : (h, mode) ∈ v_gops (view fw) ->
    exists fw', fw_open_gop h fw = (Some mode, fw') /\ view fw' = view fw;
  law_desc_size : DESCRIPTOR_SIZE <= desc_size;
  law_exit n fw : map_bytes <= n ->
    exists l fw', fw_exit n fw = (Some l, fw') /\ Forall descriptor_ok l /\ regions_fit l /\
      desc_size * Z.of_nat (length l) <= n /\
      forall d r a, d ∈ l -> usable d = true -> r ∈ v_claims (view fw) -> in_region r a ->
        ~ in_region (md_phys_start d, md_page_count d * 4096) a;
}.

Section loading.
Context `{FL : FirmwareLaws FW view ram heap desc_size map_bytes} (parse : list Z -> option Elf).

Lemma reset_text_output_Ret fw : exists fw', reset_text_output fw = Ret fw' /\ view fw' = view fw.
Proof.
  unfold reset_text_output, or_panic, must. destruct (law_output fw) as (h & fw1 & -> & H1). simpl.
  destruct (law_open_output h fw1) as (fw2 & -> & H2). simpl.
  destruct (law_reset_output true fw2) as (fw3 & -> & H3). simpl. exists fw3. split; [done|congruence].
Qed.

Lemma map_buffer_Ret fw : (0 < v_room (view fw))%nat ->
  exists n a fw', map_buffer fw = Ret (n, a, fw') /\ (1024 <= n < 2 ^ 33 /\ map_bytes <= n) /\
  view fw' = with_buffer (a, n) (view fw) /\ forall x, in_region (a, n) x -> heap x.
Proof.
  intros Hroom. unfold map_buffer, or_panic. destruct (law_map_size fw) as (n & fw1 & -> & Hn & Hmap & H1). simpl.
  rewrite add_w_Ret by lia. cbn [mbind outcome_bind].
  destruct (law_alloc (n + 1024) fw1) as (a & fw2 & -> & H2 & _ & _ & Hx); [lia|by rewrite H1|]. simpl.
  exists (n + 1024), a, fw2. split; [done|]. split; [lia|]. split; [congruence|]. intros x Hin. by apply Hx.
Qed.

Lemma get_memory_map_Ret n fw : map_bytes <= n -> exists l fw', get_memory_map n fw = Ret (l, fw') /\ view fw' = view fw /\
  forall a, ram a -> exists d, descriptor_at l a = Ret d.
Proof.
  intros Hn. unfold get_memory_map, or_panic. destruct (law_memory_map n fw Hn) as (l & fw' & -> & Hv & Hd).
  exists l, fw'. by split_and!.
Qed.

Lemma find_kernel_Ret pre info post fuel : forall fw,
  v_root (view fw) = pre ++ info :: post -> Forall (fun e => fi_name e <> kernel_elf) pre ->
  fi_name info = kernel_elf -> (length pre < fuel)%nat ->
  exists fw', find_kernel fuel fw = Ret (info, fw') /\ view fw' = with_root post (view fw).
Proof.
  revert fuel. induction pre as [|e pre IH]; intros [|fuel] fw Hroot Hpre Hname Hf; simpl in Hf; try lia;
    cbn [find_kernel].
  - destruct (law_read_entry ENTRY_BUF_SIZE fw info post Hroot) as (fw' & -> & Hv).
    rewrite bool_decide_eq_true_2 by done. by exists fw'.
  - apply Forall_cons in Hpre as [He Hpre].
    destruct (law_read_entry ENTRY_BUF_SIZE fw e (pre ++ info :: post) Hroot) as (fw1 & -> & Hv1).
    rewrite bool_decide_eq_false_2 by done.
    destruct (IH fuel fw1) as (fw' & -> & Hv'); [by rewrite Hv1|done..|lia|].
    exists fw'. split; [done|]. by rewrite Hv', Hv1.
Qed.

(** The directory and the file that the loader looks for. *)
Record kernel_there (v : View) (pre : list FileInfo) (info : FileInfo) (contents : list Z) : Prop := {
  kt_root : exists post, v_root v = pre ++ info :: post;
  kt_pre : Forall (fun e => fi_name e <> kernel_elf) pre;
  kt_name : fi_name info = kernel_elf;
  kt_file : v_files v !! kernel_elf = Some contents;
  kt_size : fi_size info = Z.of_nat (length contents);
  kt_bound : Z.of_nat (length contents) < 2 ^ 33;
}.

Lemma read_kernel_Ret fuel fw m pre info contents : kernel_there (view fw) pre info contents ->
  (length pre < fuel)%nat -> (0 < v_room (view fw))%nat ->
  exists buffer fw', read_kernel fuel fw m = Ret (buffer, contents, write_list buffer contents m, fw') /\
    0 <= buffer /\ buffer + Z.of_nat (length contents) < 2 ^ 64 /\
    (forall a, in_file buffer (Z.of_nat (length contents)) a -> heap a /\ unclaimed (view fw) a) /\
    v_gops (view fw') = v_gops (view fw) /\
    v_claims (view fw') = (buffer, Z.of_nat (length contents)) :: v_claims (view fw) /\
    v_room (view fw') = pred (v_room (view fw)).
Proof.
  intros [[post Hroot] Hpre Hname Hfile Hsize Hb] Hf Hroom. unfold read_kernel, must, or_panic.
  destruct (law_file_system fw) as (fw1 & -> & H1). simpl.
  destruct (law_open_volume fw1) as (fw2 & -> & H2). simpl.
  destruct (find_kernel_Ret pre info post fuel fw2) as (fw3 & -> & H3); [congruence|done..|].
  cbn [mbind outcome_bind].
  destruct (law_open_file kernel_elf contents fw3) as (fw4 & -> & H4); [by rewrite H3, H2, H1|]. simpl.
  rewrite Hsize. destruct (law_alloc (Z.of_nat (length contents)) fw4) as (a & fw5 & -> & H5 & Ha & Hlen & Hx);
    [lia|by rewrite H4, H3, H2, H1|]. simpl.
  destruct (law_read_file (Z.of_nat (length contents)) contents fw5) as (fw6 & -> & H6);
    [by rewrite H5, H4|done|]. simpl.
  rewrite Nat2Z.id, take_ge, Nat.sub_diag by done. simpl. rewrite app_nil_r.
  exists a, fw6. split; [done|]. split; [done|]. split; [done|].
  rewrite H6, H5. simpl. rewrite H4, H3. simpl. split; [|by rewrite H2, H1].
  intros x Hin. destruct (Hx x Hin) as [Hh Hun]. split; [done|]. rewrite H4, H3 in Hun. by rewrite <- H1, <- H2.
Qed.

Definition format_of (f : GopFormat) : option Pixels.PixcelFormat :=
  match f with GopRgb => Some Pixels.Rgb | GopBgr => Some Pixels.Bgr | GopBitmask | GopBltOnly => None end.

Lemma graphics_info_Ret fw h mode f : v_gops (view fw) !! 1%nat = Some (h, mode) ->
  format_of (gm_format mode) = Some f ->
  exists fw', construct_graphics_info fw =
      Ret (Pixels.mkGraphicsInfo (gm_width mode) (gm_height mode) (gm_stride mode) (gm_base mode) f, fw') /\
    view fw' = view fw.
Proof.
  intros Hh Hf. unfold construct_graphics_info, or_panic.
  destruct (law_gop_handles fw) as (fw1 & -> & H1). simpl. rewrite list_lookup_fmap, Hh. simpl.
  destruct (law_open_gop h mode fw1) as (fw2 & -> & H2).
  { rewrite H1. by eapply list_elem_of_lookup_2. }
  simpl. exists fw2. split; [|congruence]. destruct (gm_format mode); simpl in *; by simplify_eq.
Qed.

(** The pages of an image: where its segments go is memory that nobody has. *)
Definition image_pages (segments : list ProgramHeader) (lo pages : Z) : Prop :=
  exists hi, calc_load_address_range segments = Ret (lo, hi) /\ n_pages lo hi = Ret pages.

Definition image_free (v : View) (segments : list ProgramHeader) : Prop :=
  forall lo pages x, image_pages segments lo pages -> in_region (lo, pages * 0x1000) x ->
    ram x /\ ~ heap x /\ unclaimed v x.

(** Buffers of the firmware's heap do not take that memory. *)
Lemma image_free_claims v v' segments : image_free v segments ->
  (forall r, r ∈ v_claims v' -> r ∈ v_claims v \/ forall x, in_region r x -> heap x) ->
  image_free v' segments.
Proof.
  intros Hfree Hr lo pages x Hp Hx. destruct (Hfree lo pages x Hp Hx) as (Hram & Hheap & Hun).
  split_and!; [done..|]. intros r Hin Hrx. destruct (Hr r Hin) as [Hold|Hnew]; [by apply (Hun r)|].
  by apply Hheap, Hnew.
Qed.

(** An image that can be loaded from a file of [len] bytes. *)
Record image_ok (len : Z) (segments : list ProgramHeader) : Prop := {
  io_segments : Forall (segment_ok len) segments;
  io_load : exists h, h ∈ segments /\ is_load h = true /\ 0 < p_memsz h;
  io_disjoint : segments_disjoint segments;
}.

(** The pages hold every segment. *)
Lemma image_pages_cover len segments : image_ok len segments ->
  exists lo hi pages, calc_load_address_range segments = Ret (lo, hi) /\ n_pages lo hi = Ret pages /\
    pages_cover segments lo pages.
Proof.
  intros [Hok (h0 & Hh0 & Hl0 & _) _].
  destruct (load_range_from_spec len segments Hok (2 ^ 64 - 1) 0) as (lo & hi & Hr & _ & _ & Hhi & Hall); [lia|].
  fold (calc_load_address_range segments) in Hr. pose proof (Hall h0 Hh0 Hl0) as Hb0.
  pose proof (proj1 (Forall_forall _ _) Hok h0 Hh0) as [Hs0 Ha0 _].
  assert (0 <= lo) as Hlo by (by eapply load_range_from_nonneg in Hr; [|done|lia]).
  destruct (n_pages_cover lo hi) as (pages & Hp & Hcov); [lia|lia|done|].
  exists lo, hi, pages. split_and!; [done..|]. intros h Hh Hl. pose proof (Hall h Hh Hl). lia.
Qed.

(** The byte that the image has at an address. *)
Definition image_byte (contents : list Z) (h : ProgramHeader) (i : Z) : Z :=
  if decide (i < p_filesz h) then contents !!! Z.to_nat (p_offset h + i) else 0.

Lemma load_image_Ret maps_before n buffer contents segments m fw : map_bytes <= n ->
  image_ok (Z.of_nat (length contents)) segments -> image_free (view fw) segments ->
  (forall a, ram a -> exists d, descriptor_at maps_before a = Ret d) ->
  0 <= buffer -> buffer + Z.of_nat (length contents) < 2 ^ 64 ->
  (forall a, in_file buffer (Z.of_nat (length contents)) a -> heap a) ->
  read_list m buffer (length contents) = contents ->
  exists lo pages m' fw', load_image maps_before n buffer segments m fw = Ret (m', fw') /\
    image_pages segments lo pages /\ pages_cover segments lo pages /\
    view fw' = with_claim (lo, pages * 0x1000) (view fw) /\
    (forall h i, h ∈ segments -> is_load h = true -> 0 <= i < p_memsz h ->
       m' (p_vaddr h + i) = image_byte contents h i).
Proof.
  intros Hn Hok Hfree Hbefore Hb Hlen Hheap Hfile. destruct (image_pages_cover _ _ Hok) as (lo & hi & pages & Hr & Hp & Hpc).
  assert (image_pages segments lo pages) as Hpages by (by exists hi).
  assert (forall h a, h ∈ segments -> is_load h = true -> in_segment h a -> in_region (lo, pages * 0x1000) a) as Hin.
  { intros h a Hh Hl Ha. pose proof (Hpc h Hh Hl). unfold in_segment, in_region in *. simpl. lia. }
  destruct (law_allocate_pages lo pages m fw) as (m1 & fw1 & Halloc & Hv1 & Hm1).
  { destruct (io_load _ _ Hok) as (h0 & Hh0 & Hl0 & Hm0). pose proof (Hpc h0 Hh0 Hl0). lia. }
  { intros x Hx. destruct (Hfree lo pages x Hpages Hx) as (? & _ & ?). done. }
  destruct (get_memory_map_Ret n fw1 Hn) as (after & fw2 & Hafter & Hv2 & Hda).
  destruct Hok as [Hsegs (h0 & Hh0 & Hl0 & Hm0) Hdis].
  assert (ram lo) as Hlo.
  { apply (Hfree lo pages lo Hpages). pose proof (Hpc h0 Hh0 Hl0). unfold in_region. simpl. lia. }
  destruct (Hbefore lo Hlo) as [d Hd]. destruct (Hda lo Hlo) as [d' Hd'].
  destruct (copy_load_segments_spec buffer (Z.of_nat (length contents)) segments Hb Hlen Hsegs) with (m := m1)
    as (m' & Hm' & Hbytes & _); [|done|].
  { intros h a Hh Hl Ha Hs. by apply (Hfree lo pages a Hpages (Hin h a Hh Hl Hs)), Hheap. }
  exists lo, pages, m', fw2. unfold load_image. rewrite Hr. cbn [mbind outcome_bind]. rewrite Hp.
  cbn [mbind outcome_bind]. rewrite Halloc, Hd. cbn [mbind outcome_bind]. rewrite Hafter.
  cbn [mbind outcome_bind]. rewrite Hd'. cbn [mbind outcome_bind]. rewrite Hm'.
  split_and!; [done..|by rewrite Hv2|].
  intros h i Hh Hl Hi. rewrite (Hbytes h) by (done || (unfold in_segment; lia)). unfold segment_byte, image_byte.
  destruct (proj1 (Forall_forall _ _) Hsegs h Hh) as [Hs Ha Ho].
  destruct (decide (i < p_filesz h)); [rewrite decide_True by lia|by rewrite decide_False by lia].
  replace (buffer + p_offset h + (p_vaddr h + i - p_vaddr h))
    with (buffer + Z.of_nat (Z.to_nat (p_offset h + i))) by lia.
  rewrite Hm1; [|intros Hx; apply (Hfree lo pages _ Hpages Hx), Hheap; unfold in_file; lia].
  symmetry. apply list_lookup_total_correct. rewrite <- Hfile. apply read_list_lookup. lia.
Qed.

(** The map that the kernel gets fits into its buffer. *)
Lemma leave_firmware_Ret fw m : 48 <= desc_size -> (1 < v_room (view fw))%nat ->
  exists buf n l fw', leave_firmware fw m = Ret (buf, n, new_inplace buf (Z.of_nat (length l)) l m, fw') /\
    HEADER_SIZE + DESCRIPTOR_SIZE * Z.of_nat (length l) <= n < 2 ^ 33 /\
    (forall a, in_region (buf, n) a -> unclaimed (view fw) a) /\
    Forall descriptor_ok l /\ regions_fit l /\
    (forall d r a, d ∈ l -> usable d = true -> r ∈ (buf, n) :: v_claims (view fw) -> in_region r a ->
       ~ in_region (md_phys_start d, md_page_count d * 4096) a).
Proof.
  intros Hsize Hroom. unfold leave_firmware, or_panic.
  destruct (map_buffer_Ret fw) as (n & a & fw1 & -> & [Hn Hmap] & H1 & _); [lia|]. cbn [mbind outcome_bind].
  destruct (law_alloc n fw1) as (buf & fw2 & -> & H2 & _ & _ & Hx); [lia|rewrite H1; simpl; lia|]. simpl.
  destruct (law_exit n fw2 Hmap) as (l & fw3 & -> & Hok & Hfit & Hl & Hout). simpl.
  exists buf, n, l, fw3. split; [done|]. unfold HEADER_SIZE, DESCRIPTOR_SIZE. split; [nia|].
  split_and!; [|done|done|].
  - intros x Hin r Hr. destruct (Hx x Hin) as [_ Hun]. apply Hun. rewrite H1. by right.
  - intros d r x Hd Hu Hr. apply Hout; [done..|]. rewrite H2, H1. simpl.
    apply elem_of_cons in Hr as [->|Hr]; [by left|by do 2 right].
Qed.

(** What the kernel starts with. *)
Record kernel_started (contents : list Z) (segments : list ProgramHeader) (arg : KernelMainArg) (m : memory)
    (l : list MemoryDescriptor) : Prop := {
  ks_image : forall h i, h ∈ segments -> is_load h = true -> 0 <= i < p_memsz h ->
    m (p_vaddr h + i) = image_byte contents h i;
  ks_map : forall fuel, (length l < fuel)%nat ->
    mem_map_collect fuel m (into_iter m (memory_map_entry arg)) = Ret l;
  ks_heap : forall fuel allocator, (length l < fuel)%nat -> (exists d, d ∈ l /\ usable d = true) ->
    exists d, d ∈ l /\ usable d = true /\
      (forall d', d' ∈ l -> usable d' = true -> md_page_count d' <= md_page_count d) /\
      let heap := (md_phys_start d, md_page_count d * 4096) in
      init_heap fuel m (memory_map_entry arg) allocator = Ret (l, Bump.init allocator heap.1 (heap.1 + heap.2)) /\
      (forall h a, h ∈ segments -> is_load h = true -> in_segment h a -> ~ in_region heap a) /\
      (forall a, memory_map_entry arg <= a < memory_map_entry arg + HEADER_SIZE + DESCRIPTOR_SIZE * Z.of_nat (length l) ->
         ~ in_region heap a);
}.

Lemma new_inplace_other entry size l m a :
  a < entry \/ entry + HEADER_SIZE + DESCRIPTOR_SIZE * Z.of_nat (length l) <= a ->
  new_inplace entry size l m a = m a.
Proof.
  unfold HEADER_SIZE, DESCRIPTOR_SIZE. intros Ha. unfold new_inplace.
  rewrite write_descriptors_other by (unfold HEADER_SIZE, DESCRIPTOR_SIZE; lia). apply write_le_other. lia.
Qed.

(** The map is written where nothing of the image is, and the heap is elsewhere. *)
Lemma start_kernel contents segments gi (m : memory) lo pages claims buf n l :
  pages_cover segments lo pages -> (lo, pages * 0x1000) ∈ claims ->
  (forall h i, h ∈ segments -> is_load h = true -> 0 <= i < p_memsz h ->
     m (p_vaddr h + i) = image_byte contents h i) ->
  HEADER_SIZE + DESCRIPTOR_SIZE * Z.of_nat (length l) <= n < 2 ^ 33 ->
  (forall a r, in_region (buf, n) a -> r ∈ claims -> ~ in_region r a) ->
  Forall descriptor_ok l -> regions_fit l ->
  (forall d r a, d ∈ l -> usable d = true -> r ∈ (buf, n) :: claims -> in_region r a ->
     ~ in_region (md_phys_start d, md_page_count d * 4096) a) ->
  kernel_started contents segments (mkArg gi buf) (new_inplace buf (Z.of_nat (length l)) l m) l.
Proof.
  intros Hcov Hclaim Hbytes Hn Hbuf Hok Hfit Hout. unfold HEADER_SIZE, DESCRIPTOR_SIZE in Hn.
  assert (forall h a, h ∈ segments -> is_load h = true -> in_segment h a -> in_region (lo, pages * 0x1000) a) as Hin.
  { intros h a Hh Hl Ha. pose proof (Hcov h Hh Hl). unfold in_segment, in_region in *. simpl. lia. }
  assert (forall fuel, (length l < fuel)%nat -> mem_map_collect fuel (new_inplace buf (Z.of_nat (length l)) l m)
    (into_iter (new_inplace buf (Z.of_nat (length l)) l m) buf) = Ret l) as Hcollect.
  { intros fuel Hf. apply collect_written; [done|lia|done]. }
  split; [|done|].
  - intros h i Hh Hl Hi. rewrite new_inplace_other; [by apply Hbytes|]. unfold HEADER_SIZE, DESCRIPTOR_SIZE.
    assert (in_segment h (p_vaddr h + i)) as Hs by (unfold in_segment; lia).
    destruct (decide (buf <= p_vaddr h + i < buf + n)); [|lia].
    exfalso. by apply (Hbuf (p_vaddr h + i) (lo, pages * 0x1000)), Hin with h.
  - intros fuel allocator Hf (d0 & Hd0 & Hu0). unfold init_heap. simpl memory_map_entry. rewrite Hcollect by done.
    cbn [mbind outcome_bind]. destruct (choose_heap_spec l Hfit) as [[Hno _]|(d & Hd & Hu & Hr & Hmax)].
    { rewrite Forall_forall in Hno. by rewrite (Hno d0 Hd0) in Hu0. }
    exists d. rewrite Hr. cbn [mbind outcome_bind]. split_and!; [done..| |].
    + intros h a Hh Hl Ha. apply (Hout d (lo, pages * 0x1000)); [done..|by right|by eapply Hin].
    + unfold HEADER_SIZE, DESCRIPTOR_SIZE. intros a Ha. apply (Hout d (buf, n)); [done..|by left|].
      unfold in_region. simpl. lia.
Qed.

(** C11: the loader starts the kernel as its image says.  On a firmware that behaves as documented
    ([FirmwareLaws]), and that moreover has what this loader relies on: descriptors of 48 bytes at least
    in its memory map, a map that grows by 1024 bytes at most after its size was asked ([law_map_size]),
    room for four buffers, [kernel.elf] in its root directory, a second graphics handle, whose mode is RGB
    or BGR (with one handle only the loader panics, [one_graphics_panics]), and an image that parses and
    whose pages are free memory outside of the firmware's heap ([image_ok], [image_free]): the loader
    comes to its jump to the entry point.  Then every byte of every segment is the byte of the file, or zero
    beyond it; the kernel is told the graphics mode; it reads back exactly the memory map that the
    firmware had at the exit; and the heap it takes, the largest usable region, has no byte of the
    image nor of the map. *)
Theorem loader_starts_kernel fuel fw m pre info contents elf segments h mode f :
  48 <= desc_size -> (4 <= v_room (view fw))%nat -> kernel_there (view fw) pre info contents -> (length pre < fuel)%nat ->
  parse contents = Some elf -> elf_sections elf = true -> elf_segments elf = Some segments ->
  image_ok (Z.of_nat (length contents)) segments -> image_free (view fw) segments ->
  v_gops (view fw) !! 1%nat = Some (h, mode) -> format_of (gm_format mode) = Some f ->
  exists arg m' fw' l, loader_main parse fuel fw m = Ret (e_entry elf, arg, m', fw') /\
    graphics_info arg =
      Pixels.mkGraphicsInfo (gm_width mode) (gm_height mode) (gm_stride mode) (gm_base mode) f /\
    kernel_started contents segments arg m' l.
Proof.
  intros Hsize Hroom Hthere Hfuel Hparse Hsect Hsegs Hok Hfree Hgop Hf. unfold loader_main.
  destruct (reset_text_output_Ret fw) as (fw1 & -> & H1). cbn [mbind outcome_bind].
  destruct (map_buffer_Ret fw1) as (n & a & fw2 & -> & [Hn Hmap] & H2 & Hheap2); [rewrite H1; lia|]. cbn [mbind outcome_bind].
  destruct (get_memory_map_Ret n fw2 Hmap) as (before & fw3 & -> & H3 & Hbefore). cbn [mbind outcome_bind].
  destruct (read_kernel_Ret fuel fw3 m pre info contents) as (buffer & fw4 & -> & Hb & Hlen & Hfile & Hg4 & Hc4 & Hr4);
    [|done|rewrite H3, H2, H1; simpl; lia|].
  { rewrite H3, H2, H1. by destruct Hthere. }
  cbn [mbind outcome_bind]. rewrite Hparse. cbn [mbind outcome_bind unwrap]. rewrite Hsect, Hsegs.
  cbn [mbind outcome_bind unwrap assert].
  destruct (load_image_Ret before n buffer contents segments (write_list buffer contents m) fw4)
    as (lo & pages & m' & fw5 & -> & _ & Hcov & H5 & Hbytes); [done|done| |done..| |by apply read_list_write|].
  { apply (image_free_claims (view fw)); [done|]. rewrite Hc4, H3, H2, H1. simpl. intros r Hr.
    apply elem_of_cons in Hr as [->|Hr]; [right; intros x Hx; by apply Hfile|].
    apply elem_of_cons in Hr as [->|Hr]; [by right|by left]. }
  { intros x Hx. by apply Hfile. }
  cbn [mbind outcome_bind]. destruct (graphics_info_Ret fw5 h mode f) as (fw6 & -> & H6); [|done|].
  { rewrite H5. simpl. by rewrite Hg4, H3, H2, H1. }
  cbn [mbind outcome_bind].
  destruct (leave_firmware_Ret fw6 m' Hsize) as (buf & n' & l & fw7 & -> & Hn' & Hbuf & Hmok & Hfit & Hout).
  { rewrite H6, H5. simpl. rewrite Hr4, H3, H2, H1. simpl. lia. }
  cbn [mbind outcome_bind]. eexists _, _, fw7, l. split; [done|]. split; [done|].
  eapply (start_kernel _ _ _ m' lo pages (v_claims (view fw6))); try done.
  - rewrite H6, H5. by left.
  - intros x r Hx Hr. by apply (Hbuf x Hx r).
Qed.

End loading.

(** * Errors *)

(** With one graphics handle, which is what most machines have, the loader panics. *)
Lemma one_graphics_panics `{FL : FirmwareLaws FW view ram heap desc_size map_bytes} fw :
  (length (v_gops (view fw)) <= 1)%nat -> construct_graphics_info fw = Panic.
Proof.
  intros Hlen. unfold construct_graphics_info, or_panic. destruct (law_gop_handles fw) as (fw1 & -> & _). simpl.
  by rewrite (proj2 (lookup_ge_None (v_gops (view fw)).*1 1)) by (by rewrite length_fmap).
Qed.

(** A directory without the file panics, once it is read to its end. *)
Lemma no_kernel_panics `{FL : FirmwareLaws FW view ram heap desc_size map_bytes} l
  (Hend : forall n fw, v_root (view fw) = [] -> exists fw', fw_read_entry n fw = (Some None, fw')) fuel :
  forall fw, v_root (view fw) = l -> Forall (fun e => fi_name e <> kernel_elf) l -> (length l < fuel)%nat ->
  find_kernel fuel fw = Panic.
Proof.
  revert fuel. induction l as [|e l IH]; intros [|fuel] fw Hroot Hl Hf; simpl in Hf; try lia; cbn [find_kernel].
  - by destruct (Hend ENTRY_BUF_SIZE fw Hroot) as (fw' & ->).
  - apply Forall_cons in Hl as [He Hl].
    destruct (law_read_entry ENTRY_BUF_SIZE fw e l Hroot) as (fw1 & -> & Hv1).
    rewrite bool_decide_eq_false_2 by done. apply IH; [by rewrite Hv1|done|lia].
Qed.

(** The buffer of the kernel's map has room for descriptors of their own size only: a map that fills the
    firmware's buffer with such descriptors is written eight bytes too far. *)
Lemma map_overruns buf n l d m : DESCRIPTOR_SIZE * Z.of_nat (length l + 1) = n -> 2 ^ 56 <= md_att d < 2 ^ 64 ->
  m (buf + n + 7) = 0 ->
  new_inplace buf (Z.of_nat (length l + 1)) (l ++ [d]) m (buf + n + 7) <> m (buf + n + 7).
Proof.
  intros Hn Hatt H0. rewrite H0. unfold new_inplace. generalize (write_le buf 8 (Z.of_nat (length l + 1)) m).
  assert (forall (l0 : list MemoryDescriptor) a m0, write_descriptors a (l0 ++ [d]) m0 =
    write_descriptor (a + DESCRIPTOR_SIZE * Z.of_nat (length l0)) d (write_descriptors a l0 m0)) as Happ.
  { induction l0 as [|d0 l0 IH]; intros a m0; simpl; [f_equal; unfold DESCRIPTOR_SIZE; lia|].
    rewrite IH. f_equal. unfold DESCRIPTOR_SIZE. lia. }
  intros m0. rewrite Happ. unfold write_descriptor at 1, write_le at 1.
  replace (buf + n + 7) with (buf + HEADER_SIZE + DESCRIPTOR_SIZE * Z.of_nat (length l) + 32 + Z.of_nat 7)
    by (unfold HEADER_SIZE, DESCRIPTOR_SIZE in *; lia).
  rewrite (write_list_at _ _ 7 (md_att d / 2 ^ 56 mod 256)).
  - rewrite Z.mod_small; [|split; [apply Z.div_pos; lia|apply Z.div_lt_upper_bound; lia]].
    pose proof (Z.div_le_mono (2 ^ 56) (md_att d) (2 ^ 56)). rewrite Z.div_same in * by lia. lia.
  - cbn [le_bytes lookup list_lookup]. rewrite !Z.div_div by lia. reflexivity.
Qed.

(** * A firmware to run, and the witness *)

Module LoaderExamples.

(** The directory, the open file, and what was given away, the last first: buffers, each of which has a
    slot of its own, and pages in the low memory. *)
Inductive given := GivenBuffer (n : Z) | GivenPages (lo n : Z).
Record Fw := mkFw { f_root : list FileInfo; f_open : option (list Z); f_given : list given }.

Definition LOW : Z := 0x200000.
Definition HEAP : Z := 2 ^ 40.
Definition SLOT : Z := 2 ^ 33.
Definition ram (x : Z) : Prop := 0x1000 <= x < LOW.
Definition heap (x : Z) : Prop := HEAP <= x.

(** ["kernel.elf"]: its first four bytes are a segment of six, its last two one of two. *)
Definition file : list Z := [11; 12; 13; 14; 15; 16; 17; 18].
Definition gops : list (Z * GopMode) :=
  [(5, mkGopMode 800 600 800 0 GopBltOnly); (6, mkGopMode 800 600 832 0x80000000 GopBgr)].

Fixpoint buffers (l : list given) : nat :=
  match l with [] => 0 | GivenBuffer _ :: l => S (buffers l) | GivenPages _ _ :: l => buffers l end.
Definition slot (k : nat) : Z := HEAP + SLOT * Z.of_nat k.
Definition page_claim (lo n : Z) : Z * Z := if lo + n <=? LOW then (lo, n) else (0, 0).

Fixpoint claims (l : list given) : list (Z * Z) :=
  match l with
  | [] => []
  | GivenBuffer n :: l => (slot (buffers l), n mod SLOT) :: claims l
  | GivenPages lo n :: l => page_claim lo n :: claims l
  end.

Definition fw_view (fw : Fw) : View :=
  mkView (f_root fw) {[kernel_elf := file]} (f_open fw) gops (claims (f_given fw)) (100 - buffers (f_given fw)).

Definition give (g : given) (fw : Fw) : Fw := mkFw (f_root fw) (f_open fw) (g :: f_given fw).

(** All memory before the exit; the low memory belongs to the loader after it. *)
Definition before_exit : list MemoryDescriptor := [mkDescriptor 7 0 0 0x100000 15].
Definition at_exit : list MemoryDescriptor := [mkDescriptor 2 0 0 0x200 15; mkDescriptor 7 LOW 0 0x1000 15].

#[global] Instance sim_firmware : Firmware Fw := {|
  fw_find_output fw := (Some 1, fw);
  fw_open_output _ fw := (true, fw);
  fw_reset_output _ fw := (true, fw);
  fw_map_size fw := (48, fw);
  fw_alloc n fw := (Some (slot (buffers (f_given fw))), give (GivenBuffer n) fw);
  fw_memory_map _ fw := (Some before_exit, fw);
  fw_file_system fw := (true, fw);
  fw_open_volume fw := (true, fw);
  fw_read_entry _ fw := (Some (head (f_root fw)), mkFw (tail (f_root fw)) (f_open fw) (f_given fw));
  fw_open_file name fw :=
    if decide (name = kernel_elf) then (true, mkFw (f_root fw) (Some file) (f_given fw)) else (false, fw);
  fw_read_file _ fw := (f_open fw, fw);
  fw_allocate_pages lo pages m fw := (Ok lo, m, give (GivenPages lo (pages * 0x1000)) fw);
  fw_gop_handles fw := (Some gops.*1, fw);
  fw_open_gop h fw := (snd <$> List.find (fun g => g.1 =? h) gops, fw);
  fw_exit _ fw := (Some at_exit, fw);
|}.

(** Where the claims are: below [LOW], or in the slots that are taken. *)
Lemma claims_where l r a : r ∈ claims l -> in_region r a -> a < LOW \/ HEAP <= a < slot (buffers l).
Proof.
  unfold in_region. induction l as [|[n|lo n] l IH]; simpl; intros Hr Ha; [by apply elem_of_nil in Hr| |];
    apply elem_of_cons in Hr as [->|Hr].
  - right. simpl in Ha. unfold slot, SLOT in *. pose proof (Z.mod_pos_bound n (2 ^ 33)). lia.
  - destruct (IH Hr Ha); [by left|right]. unfold slot, SLOT in *. lia.
  - left. unfold page_claim in Ha. destruct (Z.leb_spec (lo + n) LOW); simpl in Ha; unfold LOW in *; lia.
  - by apply IH.
Qed.

#[global] Instance sim_firmware_laws : FirmwareLaws Fw fw_view ram heap 48 1024.
Proof.
  split; simpl; try by eauto.
  - intros fw. exists 48, fw. split_and!; lia || done.
  - intros n fw Hn Hroom. eexists _, _. split; [done|]. unfold fw_view, with_buffer. simpl.
    rewrite Z.mod_small by (unfold SLOT; lia). split; [f_equal; lia|].
    unfold slot, SLOT, HEAP. split; [lia|]. split; [lia|]. intros x Hx. unfold in_region in Hx. simpl in Hx.
    split; [unfold heap, HEAP; lia|]. intros r Hr Hrx. destruct (claims_where _ r x Hr Hrx) as [?|?];
      unfold LOW, slot, SLOT, HEAP in *; lia.
  - intros n fw _. eexists _, _. split; [done|]. split; [done|]. intros a Ha. unfold ram, LOW in Ha.
    exists (mkDescriptor 7 0 0 0x100000 15). unfold before_exit, descriptor_at. simpl.
    rewrite (proj2 (Z.leb_le 0 a)) by lia. simpl. by rewrite (proj2 (Z.ltb_lt a _)) by lia.
  - intros n fw info l Hroot. rewrite Hroot. eexists. split; [done|]. unfold fw_view. simpl. by rewrite ?Hroot.
  - intros name bytes fw Hf. apply lookup_singleton_Some in Hf as [<- <-]. rewrite decide_True by done.
    by eexists.
  - intros n bytes fw Ho _. rewrite Ho. by eexists.
  - intros lo pages m fw Hp Hx. eexists _, _. split; [done|]. split; [|done]. unfold fw_view, with_claim. simpl.
    f_equal. f_equal. unfold page_claim. rewrite (proj2 (Z.leb_le _ _)); [done|].
    destruct (Hx (lo + pages * 0x1000 - 1)) as [Hr _]; [unfold in_region; simpl; lia|]. unfold ram in Hr. lia.
  - intros h mode fw Hh. unfold gops in Hh.
    repeat (apply elem_of_cons in Hh as [[= -> ->]|Hh]; [by eexists|]). by apply elem_of_nil in Hh.
  - intros n fw Hn. eexists _, _. split; [done|]. split; [|split; [|split; [simpl; lia|]]].
    + repeat constructor; unfold in_u32, in_usize, LOW; simpl; lia.
    + repeat constructor; unfold usable, LOW; simpl; lia.
    + intros d r a Hd Hu Hr Ha Hin. destruct (claims_where _ r a Hr Ha) as [Hl|Hl];
        repeat (apply elem_of_cons in Hd as [->|Hd]; [try done; unfold in_region, LOW, HEAP in *; simpl in *; lia|]);
        by apply elem_of_nil in Hd.
Qed.

Definition start_fw : Fw := mkFw [mkFileInfo "EFI" 0; mkFileInfo kernel_elf 8; mkFileInfo "x" 1] None [].
Definition parse_file (bytes : list Z) : option Elf :=
  if bool_decide (bytes = file) then Some (mkElf true (Some BootExamples.segments) 0x1002) else None.

Lemma file_there : kernel_there (fw_view start_fw) [mkFileInfo "EFI" 0] (mkFileInfo kernel_elf 8) file.
Proof. split; try done. - by eexists. - by repeat constructor. Qed.

Lemma image_loads : image_ok 8 BootExamples.segments.
Proof.
  split; [exact BootExamples.segments_ok| |exact BootExamples.segments_apart].
  eexists. split; [by left|]. split; [done|]. simpl. lia.
Qed.

Lemma image_is_free : image_free (ram := ram) (heap := heap) (fw_view start_fw) BootExamples.segments.
Proof.
  intros lo pages x (hi & Hr & Hp) Hx. vm_compute in Hr. injection Hr as <- <-. vm_compute in Hp. injection Hp as <-.
  unfold in_region in Hx. simpl in Hx. unfold ram, heap, LOW, HEAP, unclaimed. split; [lia|]. split; [lia|].
  simpl. intros r Hin. by apply elem_of_nil in Hin.
Qed.

End LoaderExamples.

Lemma loader_starts_kernel_witness :
  exists arg m' fw' l, loader_main LoaderExamples.parse_file 2 LoaderExamples.start_fw (fun _ => 255) =
      Ret (0x1002, arg, m', fw') /\
    m' 0x1003 = 14 /\ m' 0x1004 = 0 /\ m' 0x2fff = 18 /\
    mem_map_collect (S (length l)) m' (into_iter m' (memory_map_entry arg)) = Ret l.
Proof.
  destruct (loader_starts_kernel LoaderExamples.parse_file 2 LoaderExamples.start_fw (fun _ => 255)
    [mkFileInfo "EFI" 0] (mkFileInfo kernel_elf 8) LoaderExamples.file
    (mkElf true (Some BootExamples.segments) 0x1002) BootExamples.segments 6
    (mkGopMode 800 600 832 0x80000000 GopBgr) Pixels.Bgr) as (arg & m' & fw' & l & Hrun & _ & [Hi Hm _]).
  - lia.
  - simpl. lia.
  - exact LoaderExamples.file_there.
  - simpl. lia.
  - reflexivity.
  - reflexivity.
  - reflexivity.
  - exact LoaderExamples.image_loads.
  - exact LoaderExamples.image_is_free.
  - reflexivity.
  - reflexivity.
  - exists arg, m', fw', l. split; [exact Hrun|]. split; [|split; [|split]].
    + etransitivity; [apply (Hi (mkProgramHeader 1 0 0x1000 4 6) 3); [by left|done|simpl; lia]|reflexivity].
    + etransitivity; [apply (Hi (mkProgramHeader 1 0 0x1000 4 6) 4); [by left|done|simpl; lia]|reflexivity].
    + etransitivity; [apply (Hi (mkProgramHeader 1 6 0x2ffe 2 2) 1);
        [by do 2 right; left|done|simpl; lia]|reflexivity].
    + apply Hm. lia.
Defined.
