(* ===== verification/Lifegame.v ===== *)
(** Lifegame: the game of life of [kernel/src/lifegame.rs], its rule, the clicks and the
    drawing on its layer. *)
From S2P Require Import Prelude.
From S2P Require Import Pixels.
From S2P Require Import Layer.

Abbreviation Board := (list (list bool)).

Definition SIZE : Z := 20.
Definition PIXCEL_SIZE : Z := 30.
Definition BOARD_POS : Vector2D := mkVec 0 0.

Definition sub_isize (x y : Z) : outcome Z :=
  if decide (- 2 ^ 63 <= x - y < 2 ^ 63) then Ret (x - y) else Panic.

Definition frame_buffer_position_to_board_position (p : Vector2D) : outcome (option (Z * Z)) :=
  x ← sub_isize (as_isize (vx p)) (as_isize (vx BOARD_POS));
  y ← sub_isize (as_isize (vy p)) (as_isize (vy BOARD_POS));
  if (x <? 0) || (y <? 0) then Ret None
  else
    let x := x / PIXCEL_SIZE in let y := y / PIXCEL_SIZE in
    if (SIZE <=? x) || (SIZE <=? y) then Ret None else Ret (Some (x, y)).

(** [board[i][j] = b]. *)
Definition set_cell (board : Board) (i j : Z) (b : bool) : outcome Board :=
  row ← unwrap (board !! Z.to_nat i);
  _ ← unwrap (row !! Z.to_nat j);
  Ret (<[Z.to_nat i := <[Z.to_nat j := b]> row]> board).

Section process.
Context (size : Z).

Definition count_one (board : Board) (i j x y count : Z) : outcome Z :=
  if (x =? 0) && (y =? 0) then Ret count
  else
    let x := i + x in let y := j + y in
    if (x <? 0) || (size <=? x) || (y <? 0) || (size <=? y) then Ret count
    else alive ← board_cell board x y; Ret (if alive : bool then count + 1 else count).

Definition count_neighbours (board : Board) (i j : Z) : outcome Z :=
  for_range (-1) 2 (fun x count => for_range (-1) 2 (fun y count =>
    count_one board i j x y count) count) 0.

Definition process_cell (board : Board) (i j : Z) (next_board : Board) : outcome Board :=
  count ← count_neighbours board i j;
  alive ← board_cell board i j;
  if alive : bool then
    if (count =? 2) || (count =? 3) then set_cell next_board i j true else Ret next_board
  else if count =? 3 then set_cell next_board i j true else Ret next_board.

Definition empty_board : Board :=
  replicate (Z.to_nat size) (replicate (Z.to_nat size) false).

Definition process (board : Board) : outcome Board :=
  next_board ← for_range 0 size (fun i next_board => for_range 0 size (fun j next_board =>
    process_cell board i j next_board) next_board) empty_board;
  for_range 0 size (fun i board => for_range 0 size (fun j board =>
    b ← board_cell next_board i j; set_cell board i j b) board) board.

End process.

(** The clicks that are waiting are put on the board: [(x, y)] is column and row. *)
Fixpoint apply_clicks (board : Board) (queue : list (Z * Z)) : outcome Board :=
  match queue with
  | [] => Ret board
  | (x, y) :: queue => board ← set_cell board y x true; apply_clicks board queue
  end.

(** [layer_mut(id).unwrap().render_board(..)]. *)
Definition draw_board (lm : LayerManager) (id : Z) (board : Board) : outcome LayerManager :=
  w ← unwrap (layers lm !! id);
  w ← render_board board BOARD_POS PIXCEL_SIZE green w;
  Ret (set_layers lm (<[id := w]> (layers lm))).

(** What the task works on: its board, the queue of clicks and the layers, which it shares
    with the other tasks. *)
Record LifeState := mkLife {
  life_board : Board;
  click_queue : list (Z * Z);
  life_layers : LayerManager;
}.

(** One of the rounds that wait for clicks, up to the yield. *)
Definition click_round (id : Z) (s : LifeState) : outcome LifeState :=
  board ← apply_clicks (life_board s) (click_queue s);
  lm ← (match click_queue s with
        | [] => Ret (life_layers s)
        | _ => draw_board (life_layers s) id board
        end);
  Ret (mkLife board [] lm).

(** The flush after the rounds, up to its yield. *)
Definition flush_round (s : LifeState) : outcome LifeState :=
  lm ← lm_flush (life_layers s); Ret (mkLife (life_board s) (click_queue s) lm).

(** The next generation, when the game runs, and its drawing. *)
Definition process_round (id : Z) (running : bool) (s : LifeState) : outcome LifeState :=
  board ← (if running then process SIZE (life_board s) else Ret (life_board s));
  lm ← draw_board (life_layers s) id board;
  Ret (mkLife board (click_queue s) lm).

(** The start of [do_lifegame]: its window is a new layer. *)
Definition start_life (lm : LayerManager) (format : PixcelFormat) : outcome (LayerManager * Z) :=
  n ← mul_w 64 SIZE PIXCEL_SIZE;
  w ← window_new n n format None (mkPosition 0 0);
  new_layer lm w.

Definition live_cells : list (Z * Z) :=
  [(6, 13); (6, 14); (6, 15); (7, 13); (8, 14);
   (11, 11); (11, 12); (12, 10); (12, 13); (13, 11); (13, 12);
   (16, 10); (16, 11); (17, 9); (18, 12); (19, 10); (19, 11)].

Definition start_board : Board :=
  foldl (fun b p => match set_cell b p.1 p.2 true with Ret b => b | _ => b end)
    (empty_board SIZE) live_cells.

(** * The rule *)

(** A cell lives; outside of the board none does. *)
Definition live (board : Board) (i j : Z) : bool :=
  if decide (0 <= i /\ 0 <= j) then
    default false (row ← board !! Z.to_nat i; row !! Z.to_nat j)
  else false.

Definition count_live (board : Board) (cells : list (Z * Z)) : Z :=
  Z.of_nat (length (filter (fun p => live board p.1 p.2 = true) cells)).

(** The eight neighbours. *)
Definition neighbours (i j : Z) : list (Z * Z) :=
  [(i - 1, j - 1); (i - 1, j); (i - 1, j + 1); (i, j - 1); (i, j + 1);
   (i + 1, j - 1); (i + 1, j); (i + 1, j + 1)].

(** Conway's rule. *)
Definition lives_next (board : Board) (i j : Z) : bool :=
  let n := count_live board (neighbours i j) in
  if live board i j then (n =? 2) || (n =? 3) else n =? 3.

Definition board_wf (size : Z) (board : Board) : Prop :=
  Z.of_nat (length board) = size /\ square_board board.

(** * Lemmas on boards *)

Section boards.
Context (size : Z).

Definition in_board (i j : Z) : Prop := 0 <= i < size /\ 0 <= j < size.

Lemma board_cell_live board i j : board_wf size board -> in_board i j ->
  board_cell board i j = Ret (live board i j).
Proof.
  intros [Hl Hsq] [Hi Hj]. unfold board_cell, live. rewrite decide_True by lia.
  destruct (lookup_lt_is_Some_2 board (Z.to_nat i)) as [row Hrow]; [lia|]. rewrite Hrow. simpl.
  eapply Forall_lookup in Hsq; [|done]. simpl in Hsq.
  destruct (lookup_lt_is_Some_2 row (Z.to_nat j)) as [b Hb]; [lia|]. by rewrite Hb.
Qed.

Lemma live_outside board i j : board_wf size board -> ~ in_board i j -> live board i j = false.
Proof.
  intros [Hl Hsq] Hout. unfold live. case_decide as Hpos; [|done].
  destruct (board !! Z.to_nat i) as [row|] eqn:Hrow; simpl; [|done].
  apply lookup_lt_Some in Hrow as Hi. eapply Forall_lookup in Hsq; [|done]. simpl in Hsq.
  rewrite lookup_ge_None_2; [done|]. unfold in_board in Hout. lia.
Qed.

Lemma set_cell_live board i j b : board_wf size board -> in_board i j ->
  exists board', set_cell board i j b = Ret board' /\ board_wf size board' /\
    forall i' j', live board' i' j' = if decide (i' = i /\ j' = j) then b else live board i' j'.
Proof.
  intros [Hl Hsq] [Hi Hj]. unfold set_cell.
  destruct (lookup_lt_is_Some_2 board (Z.to_nat i)) as [row Hrow]; [lia|]. rewrite Hrow. simpl.
  assert (Hrl : length row = length board) by exact (proj1 (Forall_lookup _ _) Hsq _ _ Hrow).
  destruct (lookup_lt_is_Some_2 row (Z.to_nat j)) as [b0 Hb]; [lia|]. rewrite Hb. simpl.
  eexists. split; [done|]. split.
  - split; [by rewrite length_insert|]. unfold square_board. rewrite length_insert.
    apply Forall_insert; [done|]. by rewrite length_insert.
  - intros i' j'. unfold live. destruct (decide (i' = i /\ j' = j)) as [[-> ->]|Hne].
    + rewrite decide_True, list_lookup_insert_eq by lia. simpl.
      by rewrite list_lookup_insert_eq by lia.
    + case_decide as Hpos; [|done]. destruct (decide (i' = i)) as [->|Hni].
      * rewrite list_lookup_insert_eq by lia. simpl. rewrite Hrow. simpl.
        by rewrite list_lookup_insert_ne by lia.
      * by rewrite list_lookup_insert_ne by lia.
Qed.

Lemma empty_board_wf : 0 <= size ->
  board_wf size (empty_board size) /\ forall i j, live (empty_board size) i j = false.
Proof.
  intros Hs. unfold empty_board. split.
  - split; [rewrite length_replicate; lia|]. apply Forall_replicate. by rewrite !length_replicate.
  - intros i j. unfold live. case_decide; [|done].
    destruct (replicate _ _ !! Z.to_nat i) as [row|] eqn:Hrow; simpl; [|done].
    apply lookup_replicate in Hrow as [-> _].
    destruct (replicate _ _ !! Z.to_nat j) as [b|] eqn:Hb; simpl; [|done].
    by apply lookup_replicate in Hb as [-> _].
Qed.

(** ** Two nested loops that treat every cell once *)

Definition before (i j i' j' : Z) : Prop := i' < i \/ (i' = i /\ j' < j).

#[export] Instance before_dec i j i' j' : Decision (before i j i' j').
Proof. unfold before. apply _. Defined.

Definition visited (start : Board) (g : Z -> Z -> bool) (i j : Z) (s : Board) : Prop :=
  board_wf size s /\
  forall i' j', in_board i' j' ->
    live s i' j' = if decide (before i j i' j') then g i' j' else live start i' j'.

Lemma visit_all start g (f : Z -> Z -> Board -> outcome Board) :
  0 <= size -> board_wf size start ->
  (forall i j s, in_board i j -> board_wf size s -> live s i j = live start i j ->
     exists s', f i j s = Ret s' /\ board_wf size s' /\
       forall i' j', in_board i' j' ->
         live s' i' j' = if decide (i' = i /\ j' = j) then g i j else live s i' j') ->
  exists s', for_range 0 size (fun i s => for_range 0 size (fun j s => f i j s) s) start = Ret s' /\
    board_wf size s' /\ forall i j, in_board i j -> live s' i j = g i j.
Proof.
  intros Hs Hstart Hf.
  destruct (for_range_inv (fun i s => visited start g i 0 s) 0 size
    (fun i s => for_range 0 size (fun j s => f i j s) s) start) as (s' & Hr & Hwf & Hlive); [done| | |].
  - split; [done|]. intros i' j' [Hi Hj]. rewrite decide_False; [done|]. unfold before. lia.
  - intros i s Hi Hv.
    destruct (for_range_inv (fun j s => visited start g i j s) 0 size (fun j s => f i j s) s)
      as (s' & Hr & Hwf & Hlive); [done|done| |].
    + intros j s0 Hj [Hwf Hlive]. destruct (Hf i j s0) as (s1 & Hs1 & Hwf1 & Hl1); [by split|done| |].
      { rewrite Hlive by by split. rewrite decide_False; [done|]. unfold before. lia. }
      exists s1. split; [done|]. split; [done|]. intros i' j' Hin. rewrite Hl1, Hlive by done.
      destruct Hin. unfold before. repeat case_decide; try done; try (exfalso; lia).
      destruct_and!. by subst.
    + exists s'. split; [done|]. split; [done|]. intros i' j' Hin. rewrite Hlive by done.
      destruct Hin. unfold before. repeat case_decide; try done; exfalso; lia.
  - exists s'. split; [done|]. split; [done|]. intros i j Hin. rewrite Hlive by done.
    rewrite decide_True; [done|]. unfold before. destruct Hin. lia.
Qed.

(** ** Counting *)

Lemma count_live_cons board p l :
  count_live board (p :: l) = Z.b2z (live board p.1 p.2) + count_live board l.
Proof.
  unfold count_live. rewrite filter_cons. destruct (live board p.1 p.2); simpl; lia.
Qed.

Lemma count_one_live board i j x y c : board_wf size board -> in_board i j ->
  count_one size board i j x y c =
    Ret (c + if (x =? 0) && (y =? 0) then 0 else Z.b2z (live board (i + x) (j + y))).
Proof.
  intros Hwf [Hi Hj]. unfold count_one. destruct ((x =? 0) && (y =? 0)); [f_equal; lia|].
  cbn zeta.
  destruct (Z.ltb_spec (i + x) 0), (Z.leb_spec size (i + x)), (Z.ltb_spec (j + y) 0),
    (Z.leb_spec size (j + y)); cbn [orb];
    try (rewrite live_outside by (done || unfold in_board; lia); simpl; f_equal; lia).
  rewrite board_cell_live by (done || split; lia). cbn [mbind outcome_bind].
  destruct (live board _ _); simpl; f_equal; lia.
Qed.

Lemma count_neighbours_live board i j : board_wf size board -> in_board i j ->
  count_neighbours size board i j = Ret (count_live board (neighbours i j)).
Proof.
  intros Hwf Hin. unfold count_neighbours, for_range.
  change (Z.to_nat (2 - -1)) with 3%nat. cbn [for_loop].
  change (-1 + 1 + 1) with 1. change (-1 + 1) with 0.
  repeat (rewrite (count_one_live board i j) by done; cbn [mbind outcome_bind]).
  unfold neighbours. rewrite !count_live_cons. change (count_live board []) with 0.
  cbn [Z.add Z.eqb andb fst snd Z.pos_sub Pos.add Pos.succ].
  rewrite !Z.add_0_r. replace (i + -1) with (i - 1) by lia. replace (j + -1) with (j - 1) by lia.
  f_equal. lia.
Qed.

Lemma process_cell_live board i j s :
  board_wf size board -> in_board i j -> board_wf size s -> live s i j = false ->
  exists s', process_cell size board i j s = Ret s' /\ board_wf size s' /\
    forall i' j', in_board i' j' ->
      live s' i' j' = if decide (i' = i /\ j' = j) then lives_next board i j else live s i' j'.
Proof.
  intros Hwf Hin Hs Hfalse. unfold process_cell. rewrite count_neighbours_live by done.
  cbn [mbind outcome_bind]. rewrite board_cell_live by done. cbn [mbind outcome_bind].
  assert (Hcase : (if live board i j then
      (if (count_live board (neighbours i j) =? 2) || (count_live board (neighbours i j) =? 3)
       then set_cell s i j true else Ret s)
    else if count_live board (neighbours i j) =? 3 then set_cell s i j true else Ret s)
    = if lives_next board i j then set_cell s i j true else Ret s)
    by (unfold lives_next; by destruct (live board i j)).
  rewrite Hcase. destruct (lives_next board i j).
  - destruct (set_cell_live s i j true) as (s' & Hr & Hwf' & Hl); [done..|]. eauto.
  - exists s. split; [done|]. split; [done|]. intros i' j' _.
    destruct (decide (i' = i /\ j' = j)) as [[-> ->]|]; done.
Qed.

Lemma process_live board : 0 <= size -> board_wf size board ->
  exists board', process size board = Ret board' /\ board_wf size board' /\
    forall i j, in_board i j -> live board' i j = lives_next board i j.
Proof.
  intros Hs Hwf. destruct (empty_board_wf Hs) as [Hewf He]. unfold process.
  destruct (visit_all (empty_board size) (lives_next board) (process_cell size board))
    as (next & -> & Hnwf & Hnext); [done|done| |].
  - intros i j s Hin Hs' Hl. rewrite He in Hl. by apply process_cell_live.
  - cbn [mbind outcome_bind].
    destruct (visit_all board (live next) (fun i j s => b ← board_cell next i j; set_cell s i j b))
      as (board' & Hr & Hwf' & Hl); [done|done| |].
    + intros i j s Hin Hs' _. rewrite board_cell_live by done. cbn [mbind outcome_bind].
      destruct (set_cell_live s i j (live next i j)) as (s' & Hr & Hwf' & Hl); [done..|]. eauto.
    + exists board'. split; [exact Hr|]. split; [done|]. intros i j Hin. by rewrite Hl, Hnext.
Qed.

Lemma board_ext b1 b2 : board_wf size b1 -> board_wf size b2 ->
  (forall i j, in_board i j -> live b1 i j = live b2 i j) -> b1 = b2.
Proof.
  intros [Hl1 Hsq1] [Hl2 Hsq2] Hlive. apply list_eq_same_length with (length b1); [lia|done|].
  intros i r1 r2 Hi H1 H2. eapply Forall_lookup in Hsq1; [|done]. eapply Forall_lookup in Hsq2; [|done].
  simpl in *. apply list_eq_same_length with (length r1); [lia|done|].
  intros j c1 c2 Hj Hc1 Hc2. specialize (Hlive (Z.of_nat i) (Z.of_nat j)).
  unfold live, in_board in Hlive. rewrite !decide_True, !Nat2Z.id, H1, H2 in Hlive by lia.
  simpl in Hlive. rewrite Hc1, Hc2 in Hlive. apply Hlive. lia.
Qed.

End boards.

(** * Clicks *)

(** The cell under a point of the screen. *)
Definition cell_under (p : Vector2D) : option (Z * Z) :=
  if decide (vx p < SIZE * PIXCEL_SIZE /\ vy p < SIZE * PIXCEL_SIZE)
  then Some (vx p / PIXCEL_SIZE, vy p / PIXCEL_SIZE) else None.

Lemma board_position p : in_usize (vx p) -> in_usize (vy p) ->
  frame_buffer_position_to_board_position p = Ret (cell_under p).
Proof.
  intros [Hx0 Hx] [Hy0 Hy]. unfold frame_buffer_position_to_board_position, cell_under, BOARD_POS.
  simpl vx. simpl vy. change (as_isize 0) with 0. unfold sub_isize, as_isize, SIZE, PIXCEL_SIZE.
  repeat (case_decide; try (exfalso; lia); cbn [mbind outcome_bind]);
    repeat match goal with
    | |- context [?a <? ?b] => destruct (Z.ltb_spec a b); cbn [orb]
    end; try done; try (exfalso; lia);
    rewrite ?Z.sub_0_r;
    repeat match goal with
    | |- context [?a <=? ?b] => destruct (Z.leb_spec a b); cbn [orb]
    end; try done; exfalso; Z.to_euclidean_division_equations; lia.
Qed.

Lemma cell_under_in p x y : in_usize (vx p) -> in_usize (vy p) -> cell_under p = Some (x, y) ->
  in_board SIZE y x.
Proof.
  intros [? _] [? _]. unfold cell_under. case_decide as Hin; [|done]. intros [= <- <-].
  unfold in_board, SIZE, PIXCEL_SIZE in *. split; Z.to_euclidean_division_equations; lia.
Qed.

Lemma apply_clicks_live queue : forall board, board_wf SIZE board ->
  Forall (fun c => in_board SIZE c.2 c.1) queue ->
  exists board', apply_clicks board queue = Ret board' /\ board_wf SIZE board' /\
    forall i j, live board' i j = true <-> live board i j = true \/ (j, i) ∈ queue.
Proof.
  induction queue as [|[x y] queue IH]; intros board Hwf Hq; simpl.
  - exists board. split_and!; [done|done|]. intros i j. rewrite elem_of_nil. tauto.
  - apply Forall_cons in Hq as [Hxy Hq]. simpl in Hxy.
    destruct (set_cell_live SIZE board y x true) as (b1 & -> & Hwf1 & Hl1); [done..|].
    cbn [mbind outcome_bind]. destruct (IH b1 Hwf1 Hq) as (b2 & -> & Hwf2 & Hl2).
    exists b2. split_and!; [done|done|]. intros i j. rewrite Hl2, Hl1, elem_of_cons.
    destruct (decide (i = y /\ j = x)) as [[-> ->]|Hne]; [tauto|].
    split; [tauto|]. intros [H|[[= -> ->]|H]]; tauto.
Qed.

(** The window of the game: the board and nothing else. *)
Definition life_window (w : Window) : Prop :=
  window_wf w /\ width w = SIZE * PIXCEL_SIZE /\ Z.of_nat (win_height w) = SIZE * PIXCEL_SIZE.

Definition shows_board (board : Board) (w : Window) : Prop :=
  forall x y, 0 <= x < SIZE * PIXCEL_SIZE -> 0 <= y < SIZE * PIXCEL_SIZE ->
    window_pixel w x y = board_pixel board BOARD_POS PIXCEL_SIZE green x y.

Lemma same_area_window w w' : life_window w -> same_area w w' -> life_window w'.
Proof.
  intros (Hwf & Hwd & Hht) Ha. unfold SIZE, PIXCEL_SIZE in *.
  assert (Hin : forall x y, window_area w' x y <-> 0 <= x < 600 /\ 0 <= y < 600).
  { intros x y. etransitivity; [apply Ha|]. unfold area. simpl. unfold window_area. rewrite Hwd, Hht.
    simpl. tauto. }
  destruct (proj2 (Hin 599 599)) as (Hwf' & Hx & Hy); [lia|].
  split_and!; [done| |]; unfold SIZE, PIXCEL_SIZE.
  - destruct (decide (width w' = 600)); [done|]. exfalso.
    assert (window_area w' 600 599) as Hb%Hin by (split_and!; (done || lia)). lia.
  - destruct (decide (Z.of_nat (win_height w') = 600)); [done|]. exfalso.
    assert (window_area w' 599 600) as Hb%Hin by (split_and!; (done || lia)). lia.
Qed.

Lemma draw_board_shows lm id board w :
  layers lm !! id = Some w -> life_window w -> board_wf SIZE board ->
  exists w', draw_board lm id board = Ret (set_layers lm (<[id := w']> (layers lm))) /\
    life_window w' /\ shows_board board w'.
Proof.
  intros Hw (Hwf & Hwd & Hht) [Hlen Hsq]. unfold draw_board. rewrite Hw. cbn [unwrap mbind outcome_bind].
  destruct (render_board_paints board BOARD_POS PIXCEL_SIZE green w) as (w' & Hr & Harea & Hp);
    [done|done| |done..|].
  - rewrite Hlen. unfold on_device, in_rect. simpl. unfold SIZE, PIXCEL_SIZE in *.
    split_and!; try lia. intros x y [??]. split_and!; (done || lia).
  - exists w'. rewrite Hr. split; [done|]. assert (Hin : forall x y, 0 <= x < SIZE * PIXCEL_SIZE ->
      0 <= y < SIZE * PIXCEL_SIZE -> window_area w x y) by (intros x y ??; split_and!; (done || lia)).
    split.
    + by apply (same_area_window w).
    + intros x y Hx Hy. etransitivity; [by apply Hp, Hin|]. unfold fill_with.
      rewrite decide_True; [done|]. rewrite Hlen. split; simpl; lia.
Qed.

(** What the task keeps: a square board, a window for it, clicks on the board. *)
Record life_inv (id : Z) (s : LifeState) : Prop := {
  li_board : board_wf SIZE (life_board s);
  li_window : exists w, layers (life_layers s) !! id = Some w /\ life_window w;
  li_queue : Forall (fun c => in_board SIZE c.2 c.1) (click_queue s);
}.

Lemma life_inv_draw id board lm w q :
  board_wf SIZE board -> life_window w -> Forall (fun c => in_board SIZE c.2 c.1) q ->
  life_inv id (mkLife board q (set_layers lm (<[id := w]> (layers lm)))).
Proof. intros. split; simpl; try done. exists w. by rewrite lookup_insert_eq. Qed.

(** * Properties *)

(** C16: a round of the game never panics: when the game runs, exactly the cells live
    that have two or three living neighbours and lived, or have three, and the window shows
    the new board; when it does not run, the board stays; the invariant is kept. *)
Theorem process_round_conway id running s :
  life_inv id s ->
  exists s' w, process_round id running s = Ret s' /\ life_inv id s' /\
    click_queue s' = click_queue s /\
    (forall i j, in_board SIZE i j -> live (life_board s') i j =
       if running : bool then lives_next (life_board s) i j else live (life_board s) i j) /\
    layers (life_layers s') !! id = Some w /\ shows_board (life_board s') w.
Proof.
  intros [Hb (w & Hw & Hlw) Hq]. unfold process_round.
  assert (exists b, (if running then process SIZE (life_board s) else Ret (life_board s)) = Ret b /\
    board_wf SIZE b /\ forall i j, in_board SIZE i j -> live b i j =
      if running then lives_next (life_board s) i j else live (life_board s) i j)
    as (b & -> & Hbw & Hlive).
  { destruct running; [by apply process_live|by exists (life_board s)]. }
  cbn [mbind outcome_bind].
  destruct (draw_board_shows (life_layers s) id b w Hw Hlw Hbw) as (w' & -> & Hlw' & Hs).
  cbn [mbind outcome_bind]. eexists _, w'. split; [done|]. split; [by apply life_inv_draw|].
  split_and!; [done|exact Hlive| |done]. simpl. by rewrite lookup_insert_eq.
Qed.

(** The clicks at any points of the screen are turned into the cells under them, and a
    round with them empties the queue, brings exactly those cells to life, and leaves the
    window showing the board if it did before. *)
Theorem clicks_come_to_life id s clicks w :
  Forall (fun p => in_usize (vx p) /\ in_usize (vy p)) clicks ->
  board_wf SIZE (life_board s) ->
  layers (life_layers s) !! id = Some w -> life_window w -> shows_board (life_board s) w ->
  click_queue s = omap cell_under clicks ->
  (forall p, p ∈ clicks -> frame_buffer_position_to_board_position p = Ret (cell_under p)) /\
  exists s' w', click_round id s = Ret s' /\ click_queue s' = [] /\ life_inv id s' /\
    (forall i j, live (life_board s') i j = true <->
       live (life_board s) i j = true \/ exists p, p ∈ clicks /\ cell_under p = Some (j, i)) /\
    layers (life_layers s') !! id = Some w' /\ shows_board (life_board s') w'.
Proof.
  intros Hc Hb Hw Hlw Hsb Hq. rewrite Forall_forall in Hc. split.
  { intros p Hp. destruct (Hc p Hp). by apply board_position. }
  assert (Hqb : Forall (fun c => in_board SIZE c.2 c.1) (click_queue s)).
  { rewrite Hq. apply Forall_forall. intros [x y] (p & Hp & Hu)%list_elem_of_omap.
    destruct (Hc p Hp). by eapply cell_under_in. }
  destruct (apply_clicks_live _ _ Hb Hqb) as (b & Hr & Hbw & Hlive).
  assert (Hlive' : forall i j, live b i j = true <-> live (life_board s) i j = true \/
    exists p, p ∈ clicks /\ cell_under p = Some (j, i)).
  { intros i j. by rewrite Hlive, Hq, list_elem_of_omap. }
  unfold click_round. rewrite Hr. cbn [mbind outcome_bind].
  destruct (click_queue s) as [|c q] eqn:Hcq.
  - cbn [mbind outcome_bind]. eexists _, w. split; [done|]. split; [done|].
    injection Hr as Hr. split_and!; [|done|done|by subst b].
    split; simpl; [done|by exists w|constructor].
  - destruct (draw_board_shows (life_layers s) id b w Hw Hlw Hbw) as (w' & -> & Hlw' & Hs).
    cbn [mbind outcome_bind]. eexists _, w'. split; [done|]. split; [done|].
    split; [by apply life_inv_draw|]. split_and!; [done| |done]. simpl. by rewrite lookup_insert_eq.
Qed.

(** * Witnesses *)

Definition life_start_window : Window :=
  mkWindow None Rgb (replicate (Z.to_nat 1440000) 0)
    (replicate (Z.to_nat 600) (replicate (Z.to_nat 600) black)) (mkPosition 0 0).

Lemma life_start_window_ok : life_window life_start_window.
Proof.
  split.
  - apply (window_new_wf 600 600 Rgb None (mkPosition 0 0)); [done|done|].
    unfold window_new. rewrite !mul_w_Ret by done. cbn [mbind outcome_bind]. rewrite mul_w_Ret by done.
    done.
  - unfold width, life_start_window. cbn [pixels]. rewrite length_replicate, win_height_replicate by done.
    done.
Qed.

Definition life_layers_with (w : Window) : LayerManager :=
  mkLayerManager (mkFrameBuffer 0 8 8 8 Rgb ∅) [0] {[0 := w]} 1.

Lemma start_board_wf : board_wf SIZE start_board.
Proof. split; [reflexivity|]. unfold square_board. vm_compute. repeat constructor. Qed.

Lemma process_round_conway_witness :
  exists s' w, process_round 0 true (mkLife start_board [] (life_layers_with life_start_window)) = Ret s' /\
    life_inv 0 s' /\ click_queue s' = [] /\
    (forall i j, in_board SIZE i j -> live (life_board s') i j = lives_next start_board i j) /\
    layers (life_layers s') !! 0 = Some w /\ shows_board (life_board s') w.
Proof.
  refine (process_round_conway 0 true (mkLife start_board [] (life_layers_with life_start_window)) _).
  split; [exact start_board_wf| |constructor].
  exists life_start_window. split; [reflexivity|exact life_start_window_ok].
Defined.

Lemma clicks_come_to_life_witness :
  exists w0,
  (forall p, p ∈ [mkVec 45 599; mkVec 600 0] ->
     frame_buffer_position_to_board_position p = Ret (cell_under p)) /\
  exists s' w', click_round 0 (mkLife start_board [(1, 19)] (life_layers_with w0)) = Ret s' /\
    click_queue s' = [] /\ life_inv 0 s' /\
    (forall i j, live (life_board s') i j = true <->
       live start_board i j = true \/
       exists p, p ∈ [mkVec 45 599; mkVec 600 0] /\ cell_under p = Some (j, i)) /\
    layers (life_layers s') !! 0 = Some w' /\ shows_board (life_board s') w'.
Proof.
  destruct (draw_board_shows (life_layers_with life_start_window) 0 start_board life_start_window
    eq_refl life_start_window_ok start_board_wf) as (w0 & _ & Hw0 & Hs0).
  exists w0.
  refine (clicks_come_to_life 0 (mkLife start_board [(1, 19)] (life_layers_with w0))
    [mkVec 45 599; mkVec 600 0] w0 _ start_board_wf eq_refl Hw0 Hs0 eq_refl).
  repeat constructor; done.
Defined.

(** A glider of the start board after four rounds is one row and one column further up. *)
Example glider_flies :
  let board := foldl (fun b p => match set_cell b p.1 p.2 true with Ret b => b | _ => b end)
    (empty_board 8) [(3, 3); (3, 4); (3, 5); (4, 3); (5, 4)] in
  let moved := foldl (fun b p => match set_cell b p.1 p.2 true with Ret b => b | _ => b end)
    (empty_board 8) [(2, 2); (2, 3); (2, 4); (3, 2); (4, 3)] in
  (b ← process 8 board; b ← process 8 b; b ← process 8 b; process 8 b) = Ret moved.
Proof. vm_compute. reflexivity. Qed.
