(* ===== verification/Pci.v ===== *)
(** Pci: the configuration space and the bus scan of [kernel/src/pci/register.rs], and
    the choice of the controller in [kernel/src/xhci.rs]. *)
From S2P Require Import Prelude.

(** [PciConfigAddress::new]: the address word; bus, device, function and register are
    bytes. *)
Definition config_address (bus device function register : Z) : Z :=
  let address := Z.lor 0 (Z.shiftl 1 31) in
  let address := Z.lor address (Z.shiftl bus 16) in
  let address := Z.lor address (Z.shiftl device 11) in
  let address := Z.lor address (Z.shiftl function 8) in
  Z.lor address (Z.land register 0xfc).

Definition new_from_bar_index (bus device function bar_index : Z) : outcome (option Z) :=
  if 6 <=? bar_index then Ret None
  else
    o ← mul_w 8 bar_index 4; reg ← add_w 8 0x10 o;
    Ret (Some (config_address bus device function reg)).

(** * The two ports *)

(** The hardware: the address that was written last, the configuration space behind the
    data port, and what a write to the space does to it, [on_write conf address data]. *)
Record Io := mkIo { latch : Z; conf : Z -> Z; on_write : (Z -> Z) -> Z -> Z -> Z -> Z }.

Definition CONFIG_ADDRESS : Z := 0xcf8.
Definition CONFIG_DATA : Z := 0xcfc.

Definition io_out_32 (port data : Z) (io : Io) : Io :=
  if port =? CONFIG_ADDRESS then mkIo data (conf io) (on_write io)
  else if port =? CONFIG_DATA then mkIo (latch io) (on_write io (conf io) (latch io) data) (on_write io)
  else io.

Definition io_in_32 (port : Z) (io : Io) : Z :=
  if port =? CONFIG_DATA then conf io (latch io) else 0xffffffff.

Definition write_address (address : Z) (io : Io) : Io := io_out_32 CONFIG_ADDRESS address io.
Definition read_data_raw (io : Io) : Z := io_in_32 CONFIG_DATA io.
Definition write_data_raw (data : Z) (io : Io) : Io := io_out_32 CONFIG_DATA data io.

Definition read_data (address : Z) (io : Io) : Z * Io :=
  let io := write_address address io in (read_data_raw io, io).

(** * Devices *)

Record ClassCode := mkClass { base : Z; sub : Z; interface : Z }.

Definition class_from_raw (raw_data : Z) : ClassCode :=
  mkClass (cast 8 (Z.land (Z.shiftr raw_data 24) 0xff)) (cast 8 (Z.land (Z.shiftr raw_data 16) 0xff))
    (cast 8 (Z.land (Z.shiftr raw_data 8) 0xff)).

Definition matches (self : ClassCode) (b s i : Z) : bool :=
  (base self =? b) && (sub self =? s) && (interface self =? i).

Definition is_xhci_controller (self : ClassCode) : bool := matches self 0x0c 0x03 0x30.

(** [HeaderType], [DeviceId] and [VendorId] are their numbers. *)
Definition header_from_raw (raw_data : Z) : Z := cast 8 (Z.land (Z.shiftr raw_data 16) 0xff).
Definition is_generic_device (header : Z) : bool := header =? 0.
Definition is_pci_to_pci_bridge (header : Z) : bool := header =? 1.
Definition is_multi_function (header : Z) : bool := negb (Z.land header 0x80 =? 0).
Definition device_id_from_raw (raw_data : Z) : Z := cast 16 (Z.shiftr raw_data 16).
Definition vendor_from_raw (raw_data : Z) : Z := cast 16 raw_data.
Definition vendor_is_valid (vendor : Z) : bool := negb (vendor =? 0xffff).
Definition is_intel (vendor : Z) : bool := vendor =? 0x8086.
Definition secondary_from_raw (raw_data : Z) : Z := cast 8 (Z.shiftr raw_data 8).

Record PciDevice := mkDevice {
  vendor_id : Z;
  device_id : Z;
  class_code : ClassCode;
  header_type : Z;
  pci_bus : Z;
  pci_device : Z;
  pci_function : Z;
}.

(** The value that a read returns; the next access writes the latch again. *)
Definition read_config (c : Io) (bus device function register : Z) : Z :=
  fst (read_data (config_address bus device function register) c).

Definition vendor_new (c : Io) (b d f : Z) : Z := vendor_from_raw (read_config c b d f 0).
Definition header_new (c : Io) (b d f : Z) : Z := header_from_raw (read_config c b d f 0x0c).
Definition class_new (c : Io) (b d f : Z) : ClassCode := class_from_raw (read_config c b d f 0x08).
Definition secondary_bus_number (c : Io) (b d f : Z) : Z :=
  secondary_from_raw (read_config c b d f 0x18).

Definition pci_device_new (c : Io) (bus device function : Z) : PciDevice :=
  let raw_data := read_config c bus device function 0 in
  mkDevice (vendor_from_raw raw_data) (device_id_from_raw raw_data) (class_new c bus device function)
    (header_new c bus device function) bus device function.

Definition is_standard_pci_pci_bridge (self : PciDevice) : bool :=
  (base (class_code self) =? 0x06) && (sub (class_code self) =? 0x04).

Definition read_configuration_space (self : PciDevice) (addr : Z) (io : Io) : Z * Io :=
  read_data (config_address (pci_bus self) (pci_device self) (pci_function self) addr) io.

Definition write_conf_reg (self : PciDevice) (reg_addr value : Z) (io : Io) : Io :=
  write_data_raw value
    (write_address (config_address (pci_bus self) (pci_device self) (pci_function self) reg_addr) io).

Definition read_bar (self : PciDevice) (bar_index : Z) (io : Io) : outcome (option Z * Io) :=
  address ← new_from_bar_index (pci_bus self) (pci_device self) (pci_function self) bar_index;
  match address with
  | None => Ret (None, io)
  | Some address =>
      let '(bar, io) := read_data address io in
      if Z.land (Z.shiftr bar 1) 3 =? 0 then Ret (Some bar, io)
      else
        next ← add_w 8 bar_index 1;
        address ← new_from_bar_index (pci_bus self) (pci_device self) (pci_function self) next;
        match address with
        | None => Ret (None, io)
        | Some address =>
            let '(bar_upper, io) := read_data address io in
            Ret (Some (Z.lor bar (Z.shiftl bar_upper 32)), io)
        end
  end.

Definition read_capabilities_pointer (self : PciDevice) (io : Io) : outcome (Z * Io) :=
  _ ← assert (is_generic_device (header_type self) || is_pci_to_pci_bridge (header_type self));
  let '(raw_data, io) := read_configuration_space self 0x34 io in
  Ret (Z.land raw_data 0xff, io).

(** * The scan *)

(** [devices] is the vector that is filled.  A bridge makes the scan recursive:
    [scan n] allows [n] nested buses. *)
Section scan.
Context (c : Io).

Definition scan_function (scan : Z -> list PciDevice -> outcome (list PciDevice))
    (bus device function : Z) (devices : list PciDevice) : outcome (list PciDevice) :=
  let p := pci_device_new c bus device function in
  devices ← (if is_standard_pci_pci_bridge p
             then scan (secondary_bus_number c bus device function) devices
             else Ret devices);
  Ret (if vendor_is_valid (vendor_id p) then devices ++ [p] else devices).

Definition scan_device (scan : Z -> list PciDevice -> outcome (list PciDevice))
    (bus device : Z) (devices : list PciDevice) : outcome (list PciDevice) :=
  if is_multi_function (header_new c bus device 0) then
    for_range 0 8 (fun function devices => scan_function scan bus device function devices) devices
  else scan_function scan bus device 0 devices.

Fixpoint scan_bus (fuel : nat) (bus : Z) (devices : list PciDevice) : outcome (list PciDevice) :=
  match fuel with
  | O => NoFuel
  | S fuel =>
      for_range 0 32 (fun device devices =>
        if vendor_is_valid (vendor_new c bus device 0)
        then scan_device (scan_bus fuel) bus device devices else Ret devices) devices
  end.

Definition scan_all_bus (fuel : nat) : outcome (list PciDevice) :=
  if negb (is_multi_function (header_new c 0 0 0)) then scan_bus fuel 0 []
  else
    for_range 1 8 (fun function devices =>
      if vendor_is_valid (vendor_new c 0 0 function) then scan_bus fuel function devices
      else Ret devices) [].

End scan.

(** The choice of [init_xhci_controller]. *)
Definition find_xhci (devices : list PciDevice) : option PciDevice :=
  match List.find (fun p => is_xhci_controller (class_code p) && is_intel (vendor_id p)) devices with
  | Some p => Some p
  | None => List.find (fun p => is_xhci_controller (class_code p)) devices
  end.

(** The base address: the low four bits of the register are flags. *)
Definition xhc_mmio_base (xhc_bar : Z) : Z := Z.land xhc_bar 0xfffffffffffffff0.

(** * What there is to find *)

Section found.
Context (c : Io).

(** The functions of a bus that the scan looks at. *)
Definition looked_at (b d f : Z) : Prop :=
  0 <= d < 32 /\ vendor_is_valid (vendor_new c b d 0) = true /\
  (f = 0 \/ is_multi_function (header_new c b d 0) = true /\ 0 <= f < 8).

Definition is_bridge (b d f : Z) : Prop :=
  looked_at b d f /\ is_standard_pci_pci_bridge (pci_device_new c b d f) = true.

(** The buses behind a bus. *)
Inductive behind (root : Z) : Z -> Prop :=
  | behind_root : behind root root
  | behind_bridge b d f : behind root b -> is_bridge b d f ->
      behind root (secondary_bus_number c b d f).

(** The devices of the buses behind [root]. *)
Definition found_from (root : Z) (p : PciDevice) : Prop :=
  exists b d f, behind root b /\ looked_at b d f /\ p = pci_device_new c b d f /\
    vendor_is_valid (vendor_id p) = true.

(** The buses where [scan_all_bus] starts. *)
Definition scan_root (root : Z) : Prop :=
  if is_multi_function (header_new c 0 0 0) then
    1 <= root < 8 /\ vendor_is_valid (vendor_new c 0 0 root) = true
  else root = 0.

(** The numbering that the firmware gives the bridges: a bus behind a bridge has a greater
    number. *)
Definition numbered : Prop :=
  forall b d f, in_u8 b -> is_bridge b d f -> b < secondary_bus_number c b d f.

End found.

(** * Lemmas *)

Lemma read_config_conf c b d f r : read_config c b d f r = conf c (config_address b d f r).
Proof. done. Qed.

Lemma secondary_bound c b d f : 0 <= secondary_bus_number c b d f < 256.
Proof. unfold secondary_bus_number, secondary_from_raw, cast. apply Z.mod_pos_bound. lia. Qed.

(** A loop that puts more devices into the vector: each turn adds those with [Q i]. *)
Definition adds (Q : PciDevice -> Prop) (ds ds' : list PciDevice) : Prop :=
  forall p, p ∈ ds' <-> p ∈ ds \/ Q p.

Lemma adds_none ds : adds (fun _ => False) ds ds.
Proof. intros p. tauto. Qed.

Lemma adds_ext Q Q' ds ds' : (forall p, Q p <-> Q' p) -> adds Q ds ds' -> adds Q' ds ds'.
Proof. intros HQ Ha p. by rewrite (Ha p), HQ. Qed.

Lemma adds_trans Q1 Q2 ds1 ds2 ds3 :
  adds Q1 ds1 ds2 -> adds Q2 ds2 ds3 -> adds (fun p => Q1 p \/ Q2 p) ds1 ds3.
Proof. intros H1 H2 p. rewrite (H2 p), (H1 p). tauto. Qed.

Lemma for_range_adds lo hi f (Q : Z -> PciDevice -> Prop) ds :
  lo <= hi ->
  (forall i ds, lo <= i < hi -> exists ds', f i ds = Ret ds' /\ adds (Q i) ds ds') ->
  exists ds', for_range lo hi f ds = Ret ds' /\ adds (fun p => exists i, lo <= i < hi /\ Q i p) ds ds'.
Proof.
  intros Hle Hf.
  apply (for_range_inv (fun k s => adds (fun p => exists i, lo <= i < k /\ Q i p) ds s)); [done| |].
  - eapply adds_ext; [|apply adds_none]. intros p. split; [done|]. intros (i & Hi & _). lia.
  - intros i s Hi Hs. destruct (Hf i s Hi) as (s' & Hs' & Ha). exists s'. split; [done|].
    eapply adds_ext; [|by eapply adds_trans]. intros p. cbn beta. split.
    + intros [(j & Hj & HQ)|HQ]; [exists j; split; [lia|done]|exists i; split; [lia|done]].
    + intros (j & Hj & HQ). destruct (decide (j = i)) as [->|Hne]; [by right|].
      left. exists j. split; [lia|done].
Qed.

Section scanning.
Context (c : Io) (Hnum : numbered c).

Lemma behind_trans r b b' : behind c r b -> behind c b b' -> behind c r b'.
Proof. intros H1 H2. induction H2; [done|]. by econstructor. Qed.

(** What one function adds, when the scan of a bus adds what is behind it. *)
Lemma scan_function_adds scan b d f ds :
  in_u8 b -> looked_at c b d f ->
  (is_bridge c b d f -> forall ds, exists ds',
     scan (secondary_bus_number c b d f) ds = Ret ds' /\
     adds (found_from c (secondary_bus_number c b d f)) ds ds') ->
  exists ds', scan_function c scan b d f ds = Ret ds' /\
    adds (fun p => is_bridge c b d f /\ found_from c (secondary_bus_number c b d f) p \/
                   p = pci_device_new c b d f /\ vendor_is_valid (vendor_id p) = true) ds ds'.
Proof.
  intros Hb Hl Hscan. unfold scan_function. set (p := pci_device_new c b d f).
  assert (exists ds1, (if is_standard_pci_pci_bridge p then scan (secondary_bus_number c b d f) ds
                       else Ret ds) = Ret ds1 /\
    adds (fun q => is_bridge c b d f /\ found_from c (secondary_bus_number c b d f) q) ds ds1)
    as (ds1 & Hs & Ha).
  { destruct (is_standard_pci_pci_bridge p) eqn:Hbr.
    - assert (Hib : is_bridge c b d f) by (by split).
      destruct (Hscan Hib ds) as (ds1 & Hs & Ha). exists ds1. split; [done|].
      eapply adds_ext; [|exact Ha]. tauto.
    - exists ds. split; [done|]. eapply adds_ext; [|apply adds_none].
      intros q. split; [done|]. intros [[_ Hbr'] _]. subst p. congruence. }
  rewrite Hs. cbn [mbind outcome_bind]. eexists. split; [done|].
  eapply adds_trans; [exact Ha|]. intros q. destruct (vendor_is_valid (vendor_id p)) eqn:Hv.
  - rewrite elem_of_app, list_elem_of_singleton. split; [|tauto].
    intros [?| ->]; [by left|]. right. by split.
  - split; [by left|]. intros [?|[-> Hv']]; [done|]. subst p. congruence.
Qed.

(** What is behind a bus, by its functions. *)
Lemma found_from_unfold r p :
  found_from c r p <->
  exists d f, looked_at c r d f /\
    (is_bridge c r d f /\ found_from c (secondary_bus_number c r d f) p \/
     p = pci_device_new c r d f /\ vendor_is_valid (vendor_id p) = true).
Proof.
  split.
  - intros (b & d & f & Hb & Hl & -> & Hv). revert d f Hl Hv. induction Hb as [|b d f Hb IH Hbr];
      intros d' f' Hl Hv.
    + exists d', f'. split; [done|]. right. by split.
    + assert (Hroot : exists d0 f0, is_bridge c r d0 f0 /\
        behind c (secondary_bus_number c r d0 f0) (secondary_bus_number c b d f)).
      { clear -Hb Hbr. revert d f Hbr. induction Hb as [|b d0 f0 Hb IH Hbr0]; intros d f Hbr.
        - exists d, f. split; [done|constructor].
        - destruct (IH d0 f0 Hbr0) as (d1 & f1 & Hbr1 & Hbh). exists d1, f1. split; [done|].
          by econstructor. }
      destruct Hroot as (d0 & f0 & Hbr0 & Hbh). exists d0, f0. split; [apply Hbr0|]. left.
      split; [done|]. by exists (secondary_bus_number c b d f), d', f'.
  - intros (d & f & Hl & [[Hbr (b & d' & f' & Hb & Hl' & -> & Hv)]|[-> Hv]]).
    + exists b, d', f'. split_and!; try done. eapply behind_trans; [|exact Hb].
      econstructor; [constructor|done].
    + exists r, d, f. split_and!; try done. constructor.
Qed.

Lemma scan_bus_adds fuel : forall b ds, 0 <= b < 256 -> (Z.to_nat (256 - b) <= fuel)%nat ->
  exists ds', scan_bus c fuel b ds = Ret ds' /\ adds (found_from c b) ds ds'.
Proof.
  induction fuel as [|fuel IH]; intros b ds Hb Hfuel; [lia|]. cbn [scan_bus].
  set (Q := fun d f p => is_bridge c b d f /\ found_from c (secondary_bus_number c b d f) p \/
    p = pci_device_new c b d f /\ vendor_is_valid (vendor_id p) = true).
  assert (Hfun : forall d f ds, looked_at c b d f ->
    exists ds', scan_function c (scan_bus c fuel) b d f ds = Ret ds' /\ adds (Q d f) ds ds').
  { intros d f ds0 Hl. apply scan_function_adds; [done|done|]. intros Hbr ds1.
    pose proof (secondary_bound c b d f). pose proof (Hnum b d f Hb Hbr). apply IH; lia. }
  destruct (for_range_adds 0 32 (fun device devices =>
      if vendor_is_valid (vendor_new c b device 0)
      then scan_device c (scan_bus c fuel) b device devices else Ret devices)
    (fun d p => exists f, looked_at c b d f /\ Q d f p) ds) as (ds' & Hs & Ha); [lia| |].
  - intros d ds0 Hd. destruct (vendor_is_valid (vendor_new c b d 0)) eqn:Hv.
    2:{ exists ds0. split; [done|]. eapply adds_ext; [|apply adds_none]. intros p. split; [done|].
        intros (f & (_ & Hv' & _) & _). congruence. }
    unfold scan_device. destruct (is_multi_function (header_new c b d 0)) eqn:Hm.
    + destruct (for_range_adds 0 8 (fun function devices =>
          scan_function c (scan_bus c fuel) b d function devices) (fun f p => Q d f p) ds0)
        as (ds1 & Hs1 & Ha1); [lia| |].
      { intros f ds1 Hf. apply Hfun. split_and!; [lia|lia|done|]. by right. }
      exists ds1. split; [exact Hs1|]. eapply adds_ext; [|exact Ha1]. intros p. cbn beta. split.
      * intros (f & Hf & HQ). exists f. split; [|done]. split_and!; [lia|lia|done|]. by right.
      * intros (f & (_ & _ & [->|[_ Hf]]) & HQ); [by exists 0|by exists f].
    + destruct (Hfun d 0 ds0) as (ds1 & Hs1 & Ha1); [split_and!; [lia|lia|done|by left]|].
      exists ds1. split; [done|]. eapply adds_ext; [|exact Ha1]. intros p. cbn beta. split.
      * intros HQ. exists 0. split; [|done]. split_and!; [lia|lia|done|by left].
      * intros (f & (_ & _ & [->|[Hm' _]]) & HQ); [done|congruence].
  - exists ds'. split; [exact Hs|]. eapply adds_ext; [|exact Ha]. intros p. cbn beta.
    rewrite found_from_unfold. split.
    + intros (d & Hd & f & Hl & HQ). by exists d, f.
    + intros (d & f & Hl & HQ). exists d. split; [apply Hl|]. by exists f.
Qed.

Lemma scan_all_bus_adds : exists ds, scan_all_bus c 256 = Ret ds /\
  forall p, p ∈ ds <-> exists root, scan_root c root /\ found_from c root p.
Proof.
  unfold scan_all_bus, scan_root. destruct (is_multi_function (header_new c 0 0 0)); cbn [negb].
  - destruct (for_range_adds 1 8 (fun function devices =>
        if vendor_is_valid (vendor_new c 0 0 function) then scan_bus c 256 function devices
        else Ret devices)
      (fun root p => vendor_is_valid (vendor_new c 0 0 root) = true /\ found_from c root p) [])
      as (ds & Hs & Ha); [lia| |].
    + intros i ds Hi. destruct (vendor_is_valid (vendor_new c 0 0 i)).
      * destruct (scan_bus_adds 256 i ds) as (ds' & Hs' & Ha'); [lia|lia|]. exists ds'.
        split; [done|]. eapply adds_ext; [|exact Ha']. tauto.
      * exists ds. split; [done|]. eapply adds_ext; [|apply adds_none]. intros p. by split; [|intros [? _]].
    + exists ds. split; [exact Hs|]. intros p. rewrite (Ha p), elem_of_nil. split.
      * intros [[]|(i & Hi & Hv & Hf)]. by exists i.
      * intros (i & [Hi Hv] & Hf). right. by exists i.
  - destruct (scan_bus_adds 256 0 []) as (ds & -> & Ha); [lia|lia|]. exists ds. split; [done|].
    intros p. rewrite (Ha p), elem_of_nil. split; [intros [[]|?]; by exists 0|].
    intros (root & -> & Hf). by right.
Qed.

End scanning.

(** ** Address words *)

Lemma lor_add a b k : 0 <= k -> 0 <= b < 2 ^ k -> Z.lor (Z.shiftl a k) b = a * 2 ^ k + b.
Proof.
  intros Hk Hb. rewrite <- Z.shiftl_mul_pow2 by done.
  assert (Hland : Z.land (Z.shiftl a k) b = 0).
  { apply Z.bits_inj'. intros i Hi. rewrite Z.land_spec, Z.bits_0, Z.shiftl_spec by done.
    destruct (decide (i < k)); [by rewrite Z.testbit_neg_r by lia|].
    rewrite <- (Z.mod_small b (2 ^ k)) by done. rewrite Z.mod_pow2_bits_high by lia.
    apply andb_false_r. }
  rewrite Z.add_nocarry_lxor by done. symmetry. by apply Z.lxor_lor.
Qed.

Lemma land_fc r : in_u8 r -> Z.land r 0xfc = 4 * (r / 4).
Proof.
  intros [H0 H]. assert (Hall : forallb (fun n => Z.land (Z.of_nat n) 0xfc =? 4 * (Z.of_nat n / 4))
    (seq 0 256) = true) by (vm_compute; reflexivity).
  rewrite forallb_forall in Hall. specialize (Hall (Z.to_nat r)).
  rewrite Z2Nat.id in Hall by done. apply Z.eqb_eq, Hall, in_seq. lia.
Qed.

Lemma config_address_sum b d f r :
  in_u8 b -> 0 <= d < 32 -> 0 <= f < 8 -> in_u8 r ->
  config_address b d f r = 2 ^ 31 + b * 2 ^ 16 + d * 2 ^ 11 + f * 2 ^ 8 + 4 * (r / 4).
Proof.
  intros Hb Hd Hf Hr. unfold in_u8 in *. unfold config_address. rewrite land_fc by done.
  assert (Hr4 : 0 <= 4 * (r / 4) < 2 ^ 8) by (Z.to_euclidean_division_equations; lia).
  rewrite Z.lor_0_l, <- !Z.lor_assoc.
  rewrite (lor_add f) by lia.
  rewrite (lor_add d) by lia.
  rewrite (lor_add b) by lia.
  rewrite (lor_add 1) by lia. lia.
Qed.

(** Different functions and registers have different addresses. *)
Lemma config_address_inj b d f r b' d' f' r' :
  in_u8 b -> 0 <= d < 32 -> 0 <= f < 8 -> in_u8 r ->
  in_u8 b' -> 0 <= d' < 32 -> 0 <= f' < 8 -> in_u8 r' ->
  config_address b d f r = config_address b' d' f' r' -> b = b' /\ d = d' /\ f = f' /\ r / 4 = r' / 4.
Proof.
  intros. rewrite !config_address_sum in * by done. unfold in_u8 in *.
  assert (0 <= r / 4 < 64) by (Z.to_euclidean_division_equations; lia).
  assert (0 <= r' / 4 < 64) by (Z.to_euclidean_division_equations; lia). lia.
Qed.

(** * Properties *)

(** C28: when the bridges are numbered as the firmware does it, the scan comes back after
    at most 256 nested buses and finds exactly the devices of the buses behind its roots.
    With a host bridge of several functions the roots are the buses 1 to 7, and bus 0 is
    not one of them. *)
Theorem scan_all_bus_exact c :
  numbered c ->
  exists ds, scan_all_bus c 256 = Ret ds /\
    (forall p, p ∈ ds <-> exists root, scan_root c root /\ found_from c root p) /\
    (is_multi_function (header_new c 0 0 0) = true -> ~ scan_root c 0).
Proof.
  intros Hnum. destruct (scan_all_bus_adds c Hnum) as (ds & Hs & Hds).
  exists ds. split_and!; [done|done|]. unfold scan_root. intros -> [H _]. lia.
Qed.

(** A register of base addresses. *)
Definition bar_register (io : Io) (p : PciDevice) (i : Z) : Z :=
  conf io (config_address (pci_bus p) (pci_device p) (pci_function p) (0x10 + 4 * i)).

Lemma new_from_bar_index_Ret b d f i : 0 <= i ->
  new_from_bar_index b d f i =
    Ret (if decide (6 <= i) then None else Some (config_address b d f (0x10 + 4 * i))).
Proof.
  intros Hi. unfold new_from_bar_index. destruct (Z.leb_spec 6 i).
  - by rewrite decide_True.
  - rewrite decide_False, mul_w_Ret by lia. cbn [mbind outcome_bind]. rewrite add_w_Ret by lia.
    cbn [mbind outcome_bind]. by rewrite (Z.mul_comm i 4).
Qed.

(** For every index [read_bar] returns: nothing for an index above 5 and for a 64-bit
    register in the last place, the register itself when it is a 32-bit one, and otherwise
    the two registers as one number; the configuration space is not changed. *)
Theorem read_bar_exact p i io :
  in_u8 i -> (forall j, in_u32 (bar_register io p j)) ->
  exists io', read_bar p i io = Ret
    (if decide (6 <= i) then None
     else if decide ((bar_register io p i / 2) mod 4 = 0) then Some (bar_register io p i)
     else if decide (i = 5) then None
     else Some (bar_register io p i + 2 ^ 32 * bar_register io p (i + 1)), io') /\
    conf io' = conf io.
Proof.
  intros Hi Hbar. unfold in_u8 in Hi. unfold read_bar. rewrite new_from_bar_index_Ret by lia.
  cbn [mbind outcome_bind]. destruct (decide (6 <= i)) as [Hge|Hlt]; [by exists io|].
  cbn [read_data]. change (read_data_raw (write_address ?a io)) with (conf io a).
  fold (bar_register io p i).
  assert (Hland : Z.land (Z.shiftr (bar_register io p i) 1) 3 = (bar_register io p i / 2) mod 4).
  { change 3 with (Z.ones 2). by rewrite Z.land_ones, Z.shiftr_div_pow2. }
  rewrite Hland. destruct (Z.eqb_spec ((bar_register io p i / 2) mod 4) 0) as [Hz|Hnz].
  { rewrite decide_True by done. eexists. by split. }
  rewrite (decide_False (P := _ mod 4 = 0)) by done. rewrite add_w_Ret by lia.
  cbn [mbind outcome_bind]. rewrite new_from_bar_index_Ret by lia. cbn [mbind outcome_bind].
  destruct (decide (6 <= i + 1)) as [Hge|Hlt'].
  { rewrite decide_True by lia. eexists. by split. }
  rewrite (decide_False (P := i = 5)) by lia. cbn [read_data].
  change (read_data_raw (write_address ?a (write_address ?b io))) with (conf io a).
  fold (bar_register io p (i + 1)).
  rewrite (Z.lor_comm (bar_register io p i)), lor_add by (lia || apply Hbar).
  rewrite (Z.add_comm (_ * _)), (Z.mul_comm (bar_register io p (i + 1))). eexists. by split.
Qed.

(** * Witnesses *)

(** Bus 0 has a host bridge and, as device 2, a bridge to bus 1, which has an xHCI
    controller. *)
Definition demo_conf (address : Z) : Z :=
  if decide (address = config_address 0 0 0 0) then 0x12378086
  else if decide (address = config_address 0 0 0 0x08) then 0x06000000
  else if decide (address = config_address 0 0 0 0x0c) then 0
  else if decide (address = config_address 0 2 0 0) then 0x12348086
  else if decide (address = config_address 0 2 0 0x08) then 0x06040000
  else if decide (address = config_address 0 2 0 0x0c) then 0x00010000
  else if decide (address = config_address 0 2 0 0x18) then 0x00010100
  else if decide (address = config_address 1 3 0 0) then 0x000d1b36
  else if decide (address = config_address 1 3 0 0x08) then 0x0c033000
  else if decide (address = config_address 1 3 0 0x0c) then 0
  else if decide (address = config_address 1 3 0 0x10) then 0xfe800004
  else if decide (address = config_address 1 3 0 0x14) then 8
  else 0xffffffff.

Definition demo_io : Io := mkIo 0 demo_conf (fun c a v => fun b => if decide (b = a) then v else c b).

Example demo_scan :
  (ds ← scan_all_bus demo_io 2; Ret ((fun p => (pci_bus p, pci_device p)) <$> find_xhci ds, length ds))
    = Ret (Some (1, 3), 3%nat).
Proof. vm_compute. reflexivity. Qed.


Lemma demo_numbered : numbered demo_io.
Proof.
  intros b d f Hb [(Hd & _ & Hf) Hbr].
  assert (Hf' : 0 <= f < 8) by (destruct Hf as [->|[_ Hf]]; lia).
  assert (Haddr : config_address b d f 0x08 = config_address 0 2 0 0x08).
  { unfold is_standard_pci_pci_bridge, pci_device_new, class_new in Hbr.
    rewrite !read_config_conf in Hbr. cbn [class_code] in Hbr. change (conf demo_io) with demo_conf in Hbr. revert Hbr.
    generalize (config_address b d f 0x08). intros a. unfold demo_conf.
    repeat (case_decide; [intros Hbr; first [assumption | exfalso; clear -Hbr; vm_compute in Hbr; discriminate Hbr] |]).
    intros Hbr. exfalso. clear -Hbr. vm_compute in Hbr. discriminate Hbr. }
  destruct (config_address_inj b d f 8 0 2 0 8) as (-> & -> & -> & _);
    [exact Hb|done|done|done|done|done|done|done|exact Haddr|]. by vm_compute.
Qed.

Lemma scan_all_bus_exact_witness :
  exists ds, scan_all_bus demo_io 256 = Ret ds /\
    (forall p, p ∈ ds <-> exists root, scan_root demo_io root /\ found_from demo_io root p) /\
    (is_multi_function (header_new demo_io 0 0 0) = true -> ~ scan_root demo_io 0).
Proof. exact (scan_all_bus_exact demo_io demo_numbered). Defined.

Lemma demo_conf_u32 a : in_u32 (demo_conf a).
Proof. unfold in_u32, demo_conf. repeat case_decide; lia. Qed.

Lemma read_bar_exact_witness :
  exists io', read_bar (pci_device_new demo_io 1 3 0) 0 demo_io = Ret
    (if decide (6 <= 0) then None
     else if decide ((bar_register demo_io (pci_device_new demo_io 1 3 0) 0 / 2) mod 4 = 0)
       then Some (bar_register demo_io (pci_device_new demo_io 1 3 0) 0)
     else if decide (0 = 5) then None
     else Some (bar_register demo_io (pci_device_new demo_io 1 3 0) 0 +
                2 ^ 32 * bar_register demo_io (pci_device_new demo_io 1 3 0) (0 + 1)), io') /\
    conf io' = conf demo_io.
Proof.
  refine (read_bar_exact (pci_device_new demo_io 1 3 0) 0 demo_io _ _).
  - unfold in_u8. lia.
  - intros j. apply demo_conf_u32.
Defined.
