(* ===== verification/Msi.v ===== *)
(** Msi: the message signalled interrupts of a PCI device ([kernel/src/pci.rs]): the walk of its
    list of capabilities and the programming of those for MSI. *)
From S2P Require Import Prelude BitField Pci.

Section msi.
Context `{BitFieldLib}.

(** * [MessageControl], a 16-bit word *)

Definition per_vector_masking (mc : Z) : bool := get_bit mc 8.
Definition multiple_message_enable (mc : Z) : Z := get_bits mc 4 7.
Definition set_multiple_message_enable (mc value : Z) : outcome Z := set_bits mc 4 7 value.
Definition address_64_bit_capable (mc : Z) : bool := get_bit mc 7.
Definition multiple_message_capable (mc : Z) : Z := get_bits mc 1 4.
Definition enable (mc : Z) : bool := get_bit mc 0.
Definition set_enable (mc : Z) (value : bool) : Z := set_bit mc 0 value.

(** * [MsiCapability], six 32-bit words *)

Record MsiCapability := mkMsi {
  msi_0 : Z; msi_1 : Z; msi_2 : Z; msi_3 : Z; msi_4 : Z; msi_5 : Z;
}.

Definition header (cap : MsiCapability) : Z := msi_0 cap.
Definition message_control (cap : MsiCapability) : Z := cast 16 (get_bits (msi_0 cap) 16 32).
Definition next_pointer (cap : MsiCapability) : Z := cast 8 (get_bits (msi_0 cap) 8 16).
Definition capability_id (cap : MsiCapability) : Z := cast 8 (get_bits (msi_0 cap) 0 8).
Definition message_address (cap : MsiCapability) : Z :=
  Z.lor (Z.shiftl (msi_2 cap) 32) (msi_1 cap).
Definition message_data (cap : MsiCapability) : Z := cast 16 (get_bits (msi_3 cap) 0 16).
Definition mask_bits (cap : MsiCapability) : Z := msi_4 cap.
Definition pending_bits (cap : MsiCapability) : Z := msi_5 cap.

Definition set_msi_0 (lo hi value : Z) (cap : MsiCapability) : outcome MsiCapability :=
  w ← set_bits (msi_0 cap) lo hi value;
  Ret (mkMsi w (msi_1 cap) (msi_2 cap) (msi_3 cap) (msi_4 cap) (msi_5 cap)).

Definition set_message_control (control : Z) := set_msi_0 16 32 control.
Definition set_next_pointer (value : Z) := set_msi_0 8 16 value.
Definition set_capability_id (value : Z) := set_msi_0 0 8 value.

Definition set_message_address (address : Z) (cap : MsiCapability) : MsiCapability :=
  mkMsi (msi_0 cap) (cast 32 address) (cast 32 (Z.shiftr address 32)) (msi_3 cap) (msi_4 cap) (msi_5 cap).

Definition set_message_data (data : Z) (cap : MsiCapability) : outcome MsiCapability :=
  w ← set_bits (msi_3 cap) 0 16 data;
  Ret (mkMsi (msi_0 cap) (msi_1 cap) (msi_2 cap) w (msi_4 cap) (msi_5 cap)).

Definition set_mask_bits (mask : Z) (cap : MsiCapability) : MsiCapability :=
  mkMsi (msi_0 cap) (msi_1 cap) (msi_2 cap) (msi_3 cap) mask (msi_5 cap).

Definition set_pending_bits (pending : Z) (cap : MsiCapability) : MsiCapability :=
  mkMsi (msi_0 cap) (msi_1 cap) (msi_2 cap) (msi_3 cap) (msi_4 cap) pending.

(** * Reading and writing a capability *)

Section device.
Context (device : PciDevice).

(** [MsiCapability::new]; the addresses are bytes, whose sums may overflow. *)
Definition msi_new (cap_addr : Z) (io : Io) : outcome (MsiCapability * Io) :=
  let cap := mkMsi 0 0 0 0 0 0 in
  let '(header, io) := read_configuration_space device cap_addr io in
  cap ← set_message_control (cast 16 (get_bits header 16 32)) cap;
  cap ← set_next_pointer (cast 8 (get_bits header 8 16)) cap;
  cap ← set_capability_id (cast 8 (get_bits header 0 8)) cap;
  address ← add_w 8 cap_addr 4;
  let '(message_address_lower, io) := read_configuration_space device address io in
  msg_data_addr ← add_w 8 cap_addr 8;
  '(message_address, msg_data_addr, io) ← (
    if address_64_bit_capable (message_control cap) then
      address ← add_w 8 cap_addr 8;
      let '(message_address_upper, io) := read_configuration_space device address io in
      msg_data_addr ← add_w 8 cap_addr 12;
      Ret (Z.lor (Z.shiftl message_address_upper 32) message_address_lower, msg_data_addr, io)
    else Ret (message_address_lower, msg_data_addr, io));
  let cap := set_message_address message_address cap in
  let '(message_data, io) := read_configuration_space device msg_data_addr io in
  cap ← set_message_data (cast 16 (get_bits message_data 0 16)) cap;
  if per_vector_masking (message_control cap) then
    address ← add_w 8 msg_data_addr 4;
    let '(mask, io) := read_configuration_space device address io in
    address ← add_w 8 msg_data_addr 8;
    let '(pending, io) := read_configuration_space device address io in
    Ret (set_pending_bits pending (set_mask_bits mask cap), io)
  else Ret (cap, io).

Definition write_msi_capability (cap_addr : Z) (msi_cap : MsiCapability) (io : Io) : outcome Io :=
  let io := write_conf_reg device cap_addr (header msi_cap) io in
  address ← add_w 8 cap_addr 4;
  let io := write_conf_reg device address (cast 32 (message_address msi_cap)) io in
  msg_data_addr ← add_w 8 cap_addr 8;
  '(msg_data_addr, io) ← (
    if address_64_bit_capable (message_control msi_cap) then
      address ← add_w 8 cap_addr 8;
      let io := write_conf_reg device address (cast 32 (get_bits (message_address msi_cap) 32 64)) io in
      msg_data_addr ← add_w 8 cap_addr 12;
      Ret (msg_data_addr, io)
    else Ret (msg_data_addr, io));
  let io := write_conf_reg device msg_data_addr (message_data msi_cap) io in
  if per_vector_masking (message_control msi_cap) then
    address ← add_w 8 msg_data_addr 4;
    let io := write_conf_reg device address (mask_bits msi_cap) io in
    address ← add_w 8 msg_data_addr 8;
    Ret (write_conf_reg device address (pending_bits msi_cap) io)
  else Ret io.

(** * The capabilities for MSI *)

(** The [while] loop of [next]: the first capability for MSI from [cap], which is at
    [current_cap_addr], with the address of the one after it. *)
Fixpoint first_msi (fuel : nat) (current_cap_addr : Z) (cap : MsiCapability) (io : Io) :
    outcome (option (Z * MsiCapability) * Z * Io) :=
  match fuel with
  | O => NoFuel
  | S fuel =>
      if capability_id cap =? 0x05 then
        Ret (Some (current_cap_addr, cap), next_pointer cap, io)
      else
        let current_cap_addr := next_pointer cap in
        if current_cap_addr =? 0 then Ret (None, current_cap_addr, io)
        else
          '(cap, io) ← msi_new current_cap_addr io;
          first_msi fuel current_cap_addr cap io
  end.

Definition msi_next (fuel : nat) (current_cap_addr : Z) (io : Io) :
    outcome (option (Z * MsiCapability) * Z * Io) :=
  if current_cap_addr =? 0 then Ret (None, current_cap_addr, io)
  else
    '(cap, io) ← msi_new current_cap_addr io;
    first_msi fuel current_cap_addr cap io.

(** What [configure_msi] makes of a capability. *)
Definition program_capability (msg_addr msg_data num_vector_exponent : Z) (msi_cap : MsiCapability) :
    outcome MsiCapability :=
  let control := message_control msi_cap in
  control ← (
    if multiple_message_capable control <=? cast 16 num_vector_exponent then
      set_multiple_message_enable control (multiple_message_capable control)
    else set_multiple_message_enable control (cast 16 num_vector_exponent));
  let control := set_enable control true in
  msi_cap ← set_message_control control msi_cap;
  let msi_cap := set_message_address msg_addr msi_cap in
  set_message_data (cast 16 msg_data) msi_cap.

Fixpoint msi_loop (fuel : nat) (msg_addr msg_data num_vector_exponent : Z) (current_cap_addr : Z)
    (written : bool) (io : Io) : outcome (bool * Io) :=
  match fuel with
  | O => NoFuel
  | S fuel =>
      '(found, current_cap_addr, io) ← msi_next (S fuel) current_cap_addr io;
      match found with
      | None => Ret (written, io)
      | Some (cap_addr, msi_cap) =>
          msi_cap ← program_capability msg_addr msg_data num_vector_exponent msi_cap;
          io ← write_msi_capability cap_addr msi_cap io;
          msi_loop fuel msg_addr msg_data num_vector_exponent current_cap_addr true io
      end
  end.

Definition configure_msi (fuel : nat) (msg_addr msg_data num_vector_exponent : Z) (io : Io) :
    outcome Io :=
  '(cap_addr, io) ← read_capabilities_pointer device io;
  '(written, io) ← msi_loop fuel msg_addr msg_data num_vector_exponent cap_addr false io;
  _ ← assert written;
  Ret io.

(** Modes of triggering and of delivery, with their numbers. *)
Inductive MSITriggerMode := Edge | Level.
Inductive MSIDeliveryMode := Fixed | LowestPriority | SMI | NMI | INIT | ExtINT.
Definition delivery_number (mode : MSIDeliveryMode) : Z :=
  match mode with
  | Fixed => 0 | LowestPriority => 1 | SMI => 2 | NMI => 4 | INIT => 5 | ExtINT => 7
  end.

Definition fixed_msg_addr (apic_id : Z) : Z := Z.lor 0xfee00000 (Z.shiftl apic_id 12).
Definition fixed_msg_data (trigger_mode : MSITriggerMode) (delivery_mode : MSIDeliveryMode)
    (interrupt_vector : Z) : Z :=
  let msg_data := Z.lor (Z.shiftl (delivery_number delivery_mode) 8) interrupt_vector in
  match trigger_mode with Level => Z.lor msg_data 0xc000 | Edge => msg_data end.

Definition configure_msi_fixed_destination (fuel : nat) (apic_id : Z) (trigger_mode : MSITriggerMode)
    (delivery_mode : MSIDeliveryMode) (interrupt_vector num_vector_exponent : Z) (io : Io) : outcome Io :=
  configure_msi fuel (fixed_msg_addr apic_id) (fixed_msg_data trigger_mode delivery_mode interrupt_vector)
    num_vector_exponent io.

End device.
End msi.

(** * Lemmas *)

Section facts.
Context `{BitFieldLaws} (device : PciDevice).
Context (Hdevice : in_u8 (pci_bus device) /\ 0 <= pci_device device < 32 /\ 0 <= pci_function device < 8).

(** A register of the device. *)
Definition cap_reg (c : Z -> Z) (a : Z) : Z :=
  c (config_address (pci_bus device) (pci_device device) (pci_function device) a).

(** Reads leave the space as it is. *)
Definition same_space (io io' : Io) : Prop := conf io' = conf io /\ on_write io' = on_write io.

#[local] Instance same_space_preorder : PreOrder same_space.
Proof.
  split; [done|]. intros x y z [Hc Hw] [Hc' Hw']. split; congruence.
Qed.

Lemma read_reg a io : exists io',
  read_configuration_space device a io = (cap_reg (conf io) a, io') /\ same_space io io'.
Proof. eexists. split; [reflexivity|]. by split. Qed.

(** A device whose registers keep what is written to them. *)
Definition plain (io : Io) : Prop :=
  (forall c a v b, on_write io c a v b = if decide (b = a) then v else c b) /\
  forall a, in_u32 (conf io a).

Lemma same_plain io io' : same_space io io' -> plain io -> plain io'.
Proof. intros [Hc Hw] [Hp Hu]. split; [by rewrite Hw|by rewrite Hc]. Qed.

Lemma write_reg a v io : plain io -> in_u8 a -> in_u32 v ->
  plain (write_conf_reg device a v io) /\
  forall r, in_u8 r -> cap_reg (conf (write_conf_reg device a v io)) r =
    if decide (r / 4 = a / 4) then v else cap_reg (conf io) r.
Proof.
  intros [Hp Hu] Ha Hv. split.
  - split; [exact Hp|]. intros b. cbn. rewrite Hp. case_decide; [done|apply Hu].
  - intros r Hr. unfold cap_reg. cbn. rewrite Hp. destruct Hdevice as (Hb & Hd & Hf).
    destruct (decide (r / 4 = a / 4)) as [Heq|Hne].
    + rewrite decide_True; [done|]. rewrite !config_address_sum by done. by rewrite Heq.
    + rewrite decide_False; [done|]. intros Heq.
      apply config_address_inj in Heq as (_ & _ & _ & Heq); done.
Qed.

(** ** A capability *)

Definition wide (h : Z) : bool := Z.testbit h 23.
Definition masked (h : Z) : bool := Z.testbit h 24.
Definition data_at (c : Z -> Z) (a : Z) : Z := if wide (cap_reg c a) then a + 12 else a + 8.
Definition cap_end (c : Z -> Z) (a : Z) : Z := data_at c a + if masked (cap_reg c a) then 12 else 4.

Definition read_cap (c : Z -> Z) (a : Z) : MsiCapability :=
  let h := cap_reg c a in
  mkMsi h (cap_reg c (a + 4)) (if wide h then cap_reg c (a + 8) else 0) (cap_reg c (data_at c a) mod 2 ^ 16)
    (if masked h then cap_reg c (data_at c a + 4) else 0)
    (if masked h then cap_reg c (data_at c a + 8) else 0).

Lemma control_bit h i : in_u32 h -> 0 <= i < 16 ->
  get_bit (cast 16 (get_bits h 16 32)) i = Z.testbit h (16 + i).
Proof.
  intros Hh Hi. rewrite get_bit_spec by lia. unfold cast. rewrite Z.mod_pow2_bits_low by lia.
  rewrite testbit_get_bits by lia. by replace (i <? 32 - 16) with true by (symmetry; apply Z.ltb_lt; lia).
Qed.

(** The three fields make the header. *)
Lemma header_parts h cap : in_u32 h -> msi_0 cap = 0 ->
  (cap ← set_message_control (cast 16 (get_bits h 16 32)) cap;
   cap ← set_next_pointer (cast 8 (get_bits h 8 16)) cap;
   set_capability_id (cast 8 (get_bits h 0 8)) cap) =
  Ret (mkMsi h (msi_1 cap) (msi_2 cap) (msi_3 cap) (msi_4 cap) (msi_5 cap)).
Proof.
  unfold in_u32. intros Hh Hzero. rewrite !get_bits_spec by lia. unfold cast.
  rewrite !Z.mod_mod by lia. change (2 ^ 16) with 65536. change (2 ^ 8) with 256.
  change (2 ^ (32 - 16)) with 65536. change (2 ^ (16 - 8)) with 256. change (2 ^ (8 - 0)) with 256.
  change (2 ^ 0) with 1. rewrite Z.div_1_r.
  unfold set_message_control, set_next_pointer, set_capability_id, set_msi_0. rewrite Hzero.
  pose proof (Z.mod_pos_bound (h / 65536) 65536). pose proof (Z.mod_pos_bound (h / 256) 256).
  pose proof (Z.mod_pos_bound h 256).
  set (mc := (h / 65536) mod 65536) in *. set (np := (h / 256) mod 256) in *. set (ci := h mod 256) in *.
  assert (h = mc * 65536 + np * 256 + ci) as Hparts
    by (subst mc np ci; Z.to_euclidean_division_equations; lia).
  assert (set_bits 0 16 32 mc = Ret (mc * 65536)) as ->
    by (rewrite set_bits_spec by lia; f_equal; Z.to_euclidean_division_equations; lia).
  cbn [mbind outcome_bind msi_0 msi_1 msi_2 msi_3 msi_4 msi_5].
  assert (set_bits (mc * 65536) 8 16 np = Ret (mc * 65536 + np * 256)) as ->
    by (rewrite set_bits_spec by lia; f_equal; Z.to_euclidean_division_equations; lia).
  cbn [mbind outcome_bind msi_0 msi_1 msi_2 msi_3 msi_4 msi_5].
  assert (set_bits (mc * 65536 + np * 256) 0 8 ci = Ret h) as ->
    by (rewrite set_bits_spec by lia; f_equal; Z.to_euclidean_division_equations; lia).
  done.
Qed.

Lemma read_cap_header c a : msi_0 (read_cap c a) = cap_reg c a.
Proof. done. Qed.

(** The two words of an address. *)
Lemma address_words low up : in_u32 low -> in_u32 up ->
  cast 32 (Z.lor (Z.shiftl up 32) low) = low /\
  cast 32 (Z.shiftr (Z.lor (Z.shiftl up 32) low) 32) = up.
Proof.
  unfold in_u32, cast. intros Hl Hu. rewrite lor_add, Z.shiftr_div_pow2 by lia.
  split; Z.to_euclidean_division_equations; lia.
Qed.

Lemma address_low low : in_u32 low -> cast 32 low = low /\ cast 32 (Z.shiftr low 32) = 0.
Proof.
  intros Hl. destruct (address_words low 0 Hl) as [H1 H2]; [done|]. by rewrite Z.shiftl_0_l, Z.lor_0_l in H1, H2.
Qed.

Lemma set_data_Ret d cap : msi_3 cap = 0 -> 0 <= d ->
  set_message_data (cast 16 (get_bits d 0 16)) cap =
  Ret (mkMsi (msi_0 cap) (msi_1 cap) (msi_2 cap) (d mod 2 ^ 16) (msi_4 cap) (msi_5 cap)).
Proof.
  intros Hz Hd. unfold set_message_data, cast. rewrite get_bits_spec by lia. rewrite Hz.
  change (2 ^ 0) with 1. change (2 ^ (16 - 0)) with 65536. change (2 ^ 16) with 65536.
  rewrite Z.div_1_r, Z.mod_mod by lia. pose proof (Z.mod_pos_bound d 65536).
  rewrite set_bits_spec by lia. cbn [mbind outcome_bind]. do 2 f_equal.
  change (2 ^ 0) with 1. change (2 ^ 16) with 65536. rewrite Z.mod_1_r, Z.div_0_l by lia. lia.
Qed.

Lemma control_wide h w1 w2 w3 w4 w5 : in_u32 h ->
  address_64_bit_capable (message_control (mkMsi h w1 w2 w3 w4 w5)) = wide h /\
  per_vector_masking (message_control (mkMsi h w1 w2 w3 w4 w5)) = masked h.
Proof. intros Hh. split; by apply control_bit. Qed.

(** [MsiCapability::new] reads the capability. *)
Lemma msi_new_Ret a io : (forall r, in_u32 (conf io r)) -> 0 <= a <= 0xe8 ->
  exists io', msi_new device a io = Ret (read_cap (conf io) a, io') /\ same_space io io'.
Proof.
  intros Hu Ha. unfold msi_new.
  destruct (read_reg a io) as (io1 & -> & [Hc1 Hw1]).
  set (h := cap_reg (conf io) a). assert (in_u32 h) as Hh by apply Hu.
  pose proof (header_parts h (mkMsi 0 0 0 0 0 0) Hh eq_refl) as Hparts.
  apply bind_Ret_inv in Hparts as (cap1 & -> & Hparts). cbn [mbind outcome_bind].
  apply bind_Ret_inv in Hparts as (cap2 & -> & Hparts). cbn [mbind outcome_bind].
  rewrite Hparts. cbn [mbind outcome_bind]. rewrite (add_w_Ret 8 a 4) by lia. cbn [mbind outcome_bind].
  destruct (read_reg (a + 4) io1) as (io2 & -> & [Hc2 Hw2]). rewrite Hc1 in *.
  rewrite (add_w_Ret 8 a 8) by lia. cbn [mbind outcome_bind msi_0 msi_1 msi_2 msi_3 msi_4 msi_5].
  rewrite (proj1 (control_wide h _ _ _ _ _ Hh)).
  set (up := if wide h then cap_reg (conf io) (a + 8) else 0).
  match goal with |- context [mbind ?k ?o] => assert (exists io3,
    o = Ret (Z.lor (Z.shiftl up 32) (cap_reg (conf io) (a + 4)), data_at (conf io) a, io3) /\
    conf io3 = conf io /\ on_write io3 = on_write io) as (io3 & -> & Hc3 & Hw3) end.
  { unfold data_at, up. fold h. destruct (wide h).
    - destruct (read_reg (a + 8) io2) as (io3 & -> & [Hc3 Hw3]). rewrite add_w_Ret by lia.
      cbn [mbind outcome_bind]. exists io3. split; [by rewrite Hc2|]. split; congruence.
    - exists io2. split; [by rewrite Z.shiftl_0_l|]. split; congruence. }
  cbn [mbind outcome_bind]. assert (0 <= data_at (conf io) a <= a + 12) as Hat
    by (unfold data_at; destruct (wide _); lia).
  assert (in_u32 up) as Hup by (unfold up; destruct (wide h); [apply Hu|done]).
  destruct (address_words (cap_reg (conf io) (a + 4)) up) as [Hlow Hhigh]; [apply Hu|done|].
  unfold set_message_address. rewrite Hlow, Hhigh.
  destruct (read_reg (data_at (conf io) a) io3) as (io4 & -> & [Hc4 Hw4]). rewrite Hc3 in *.
  rewrite set_data_Ret by (done || apply Hu). cbn [mbind outcome_bind msi_0 msi_1 msi_2 msi_3 msi_4 msi_5].
  rewrite (proj2 (control_wide h _ _ _ _ _ Hh)). unfold read_cap. fold h up.
  destruct (masked h).
  - rewrite (add_w_Ret 8 _ 4) by lia. cbn [mbind outcome_bind].
    destruct (read_reg (data_at (conf io) a + 4) io4) as (io5 & -> & [Hc5 Hw5]). rewrite Hc4 in *.
    rewrite add_w_Ret by lia. cbn [mbind outcome_bind].
    destruct (read_reg (data_at (conf io) a + 8) io5) as (io6 & -> & [Hc6 Hw6]). rewrite Hc5 in *.
    exists io6. split; [done|]. split; congruence.
  - exists io4. split; [done|]. split; congruence.
Qed.
(** ** What is programmed *)

(** The fields of a capability. *)
Record fields := mkFields {
  f_id : Z; f_next : Z; f_enable : bool; f_multiple_enable : Z; f_multiple_capable : Z;
  f_64_bit : bool; f_masking : bool; f_address : Z; f_data : Z; f_mask : Z; f_pending : Z;
}.

Definition fields_of (cap : MsiCapability) : fields :=
  let control := message_control cap in
  mkFields (capability_id cap) (next_pointer cap) (enable control) (multiple_message_enable control)
    (multiple_message_capable control) (address_64_bit_capable control) (per_vector_masking control)
    (message_address cap) (message_data cap) (mask_bits cap) (pending_bits cap).

(** Enabled, with the address, the data and as many vectors as asked for and possible. *)
Definition programmed (addr data e : Z) (f : fields) : fields :=
  mkFields (f_id f) (f_next f) true (Z.min (f_multiple_capable f) e) (f_multiple_capable f)
    (f_64_bit f) (f_masking f) addr (data mod 2 ^ 16) (f_mask f) (f_pending f).

Lemma bits_below x k : 0 <= k -> 0 <= x -> (forall j, k <= j -> Z.testbit x j = false) -> x < 2 ^ k.
Proof. intros Hk Hx Hb. by apply Z.bounded_iff_bits_nonneg. Qed.

Lemma bits_above x k j : 0 <= x < 2 ^ k -> 0 <= k <= j -> Z.testbit x j = false.
Proof. intros Hx Hj. apply (proj1 (Z.bounded_iff_bits_nonneg k x (proj1 Hj) (proj1 Hx)) (proj2 Hx)). lia. Qed.

Lemma testbit_control h w1 w2 w3 w4 w5 j : 0 <= j ->
  Z.testbit (message_control (mkMsi h w1 w2 w3 w4 w5)) j = (j <? 16) && Z.testbit h (16 + j).
Proof.
  intros Hj. unfold message_control, cast. simpl msi_0. destruct (Z.ltb_spec j 16).
  - rewrite Z.mod_pow2_bits_low, testbit_get_bits by lia.
    by replace (j <? 32 - 16) with true by (symmetry; apply Z.ltb_lt; lia).
  - by rewrite Z.mod_pow2_bits_high by lia.
Qed.

(** The control word that is written. *)
Lemma program_control mc e : 0 <= mc < 2 ^ 16 -> 0 <= e < 2 ^ 16 ->
  exists mc1, (if multiple_message_capable mc <=? cast 16 e
               then set_multiple_message_enable mc (multiple_message_capable mc)
               else set_multiple_message_enable mc (cast 16 e)) = Ret mc1 /\
    0 <= set_enable mc1 true < 2 ^ 16 /\
    multiple_message_enable (set_enable mc1 true) = Z.min (multiple_message_capable mc) e /\
    forall j, 0 < j -> ~ 4 <= j < 7 -> Z.testbit (set_enable mc1 true) j = Z.testbit mc j.
Proof.
  intros Hmc He. unfold cast. rewrite (Z.mod_small e) by done.
  assert (0 <= multiple_message_capable mc < 2 ^ 3) as Hcap
    by (unfold multiple_message_capable; rewrite get_bits_spec by lia; apply Z.mod_pos_bound; lia).
  set (m := Z.min (multiple_message_capable mc) e).
  assert (0 <= m < 2 ^ (7 - 4)) as Hm by (simpl; lia).
  destruct (set_bits_Ret mc 4 7 m) as (mc1 & Hmc1 & Hpos); [lia|lia|done|]. exists mc1.
  assert (forall j, 0 <= j -> Z.testbit (set_enable mc1 true) j =
    if decide (j = 0) then true else if decide (4 <= j < 7) then Z.testbit m (j - 4) else Z.testbit mc j)
    as Hbits.
  { intros j Hj. unfold set_enable. rewrite set_bit_spec by lia. case_decide; [done|].
    apply (testbit_set_bits mc 4 7 m); done || lia. }
  split; [|split; [|split]].
  - unfold m in Hmc1. destruct (Z.leb_spec (multiple_message_capable mc) e);
      [rewrite Z.min_l in Hmc1 by lia|rewrite Z.min_r in Hmc1 by lia]; exact Hmc1.
  - assert (0 <= set_enable mc1 true) by (unfold set_enable; apply set_bit_nonneg; lia).
    split; [done|]. apply bits_below; [lia|done|]. intros j Hj. rewrite Hbits by lia.
    rewrite !decide_False by lia. by apply (bits_above mc 16).
  - apply Z.bits_inj'. intros j Hj. unfold multiple_message_enable.
    rewrite testbit_get_bits, Hbits by lia. rewrite decide_False by lia.
    destruct (Z.ltb_spec j (7 - 4)).
    + rewrite decide_True by lia. simpl. f_equal. lia.
    + symmetry. apply (bits_above m 3); [done|lia].
  - intros j Hj Hout. rewrite Hbits by lia. by rewrite !decide_False by lia.
Qed.

(** A header with another control word. *)
Lemma set_control_Ret mc h w1 w2 w3 w4 w5 : in_u32 h -> 0 <= mc < 2 ^ 16 ->
  exists h', set_message_control mc (mkMsi h w1 w2 w3 w4 w5) = Ret (mkMsi h' w1 w2 w3 w4 w5) /\ in_u32 h' /\
    forall j, 0 <= j -> Z.testbit h' j = if decide (16 <= j < 32) then Z.testbit mc (j - 16) else Z.testbit h j.
Proof.
  intros Hh Hmc. unfold in_u32 in *.
  destruct (set_bits_Ret h 16 32 mc) as (h' & Hh' & Hpos); [lia|lia|simpl; lia|]. exists h'.
  assert (forall j, 0 <= j -> Z.testbit h' j =
    if decide (16 <= j < 32) then Z.testbit mc (j - 16) else Z.testbit h j) as Hbits
    by (intros j Hj; apply (testbit_set_bits h 16 32 mc); first [done|simpl; lia]).
  split; [|split; [|done]].
  - unfold set_message_control, set_msi_0. simpl msi_0. by rewrite Hh'.
  - split; [done|]. apply bits_below; [lia|done|]. intros j Hj. rewrite Hbits, decide_False by lia.
    by apply (bits_above h 32).
Qed.

Lemma control_bounds h w1 w2 w3 w4 w5 : 0 <= message_control (mkMsi h w1 w2 w3 w4 w5) < 2 ^ 16.
Proof. apply Z.mod_pos_bound. lia. Qed.

Lemma header_field h h' lo hi : 0 <= lo < hi -> hi <= 16 ->
  (forall j, 0 <= j < 16 -> Z.testbit h' j = Z.testbit h j) -> get_bits h' lo hi = get_bits h lo hi.
Proof.
  intros Hr Hhi Hb. apply Z.bits_inj'. intros j Hj. rewrite !testbit_get_bits by done.
  destruct (Z.ltb_spec j (hi - lo)); [|done]. simpl. apply Hb. lia.
Qed.

Lemma program_capability_Ret addr data e cap : in_u32 addr -> 0 <= e < 2 ^ 16 ->
  in_u32 (msi_0 cap) -> 0 <= msi_3 cap < 2 ^ 16 ->
  exists cap', program_capability addr data e cap = Ret cap' /\ in_u32 (msi_0 cap') /\
    fields_of cap' = programmed addr data e (fields_of cap) /\
    wide (msi_0 cap') = wide (msi_0 cap) /\ masked (msi_0 cap') = masked (msi_0 cap) /\
    msi_1 cap' = addr /\ msi_2 cap' = 0 /\ msi_3 cap' = data mod 2 ^ 16 /\
    msi_4 cap' = msi_4 cap /\ msi_5 cap' = msi_5 cap.
Proof.
  intros Haddr He Hh H3. destruct cap as [h w1 w2 w3 w4 w5]. cbn [msi_0 msi_3] in *.
  unfold program_capability.
  set (mc := message_control (mkMsi h w1 w2 w3 w4 w5)).
  destruct (program_control mc e) as (mc1 & Hmc1 & Hb & Hmulti & Hbits); [apply control_bounds|done|].
  rewrite Hmc1. cbn [mbind outcome_bind]. set (mc2 := set_enable mc1 true) in *.
  destruct (set_control_Ret mc2 h w1 w2 w3 w4 w5 Hh Hb) as (h' & -> & Hh' & Hbits').
  cbn [mbind outcome_bind]. unfold set_message_address. destruct (address_low addr Haddr) as [-> ->].
  unfold set_message_data. cbn [msi_0 msi_1 msi_2 msi_3 msi_4 msi_5]. unfold cast.
  pose proof (Z.mod_pos_bound data (2 ^ 16)). rewrite set_bits_spec by (simpl; lia).
  cbn [mbind outcome_bind]. eexists. split; [reflexivity|]. cbn [msi_0 msi_1 msi_2 msi_3 msi_4 msi_5].
  assert (forall a1 a2 a3 a4 a5, message_control (mkMsi h' a1 a2 a3 a4 a5) = mc2) as Hcontrol.
  { intros. apply Z.bits_inj'. intros j Hj. rewrite testbit_control by done.
    destruct (Z.ltb_spec j 16); [|symmetry; by apply (bits_above mc2 16)].
    rewrite Hbits', decide_True by lia. simpl. f_equal. lia. }
  assert (forall j, 0 <= j < 16 -> Z.testbit h' j = Z.testbit h j) as Hlow
    by (intros j Hj; rewrite Hbits', decide_False by lia; done).
  assert (forall j, 6 < j < 16 -> Z.testbit h' (16 + j) = Z.testbit h (16 + j)) as Hhigh.
  { intros j Hj. rewrite Hbits', decide_True by lia. replace (16 + j - 16) with j by lia.
    rewrite Hbits by lia. subst mc. rewrite testbit_control by lia.
    by replace (j <? 16) with true by (symmetry; apply Z.ltb_lt; lia). }
  replace (w3 / 2 ^ 16 * 2 ^ 16 + data mod 2 ^ 16 * 2 ^ 0 + w3 mod 2 ^ 0) with (data mod 2 ^ 16)
    by (rewrite Z.div_small by done; change (2 ^ 0) with 1; rewrite Z.mod_1_r; lia).
  split_and!; try done; [|apply (Hhigh 7); lia|apply (Hhigh 8); lia].
  unfold fields_of, programmed. rewrite Hcontrol. fold mc.
  unfold capability_id, next_pointer, message_address, message_data.
  cbn [msi_0 msi_1 msi_2 msi_3 msi_4 msi_5 f_id f_next f_multiple_capable f_64_bit f_masking f_mask f_pending].
  rewrite Hmulti, Z.shiftl_0_l, Z.lor_0_l. rewrite !(header_field h h') by (done || lia).
  unfold enable, address_64_bit_capable, per_vector_masking. rewrite !get_bit_spec by lia.
  rewrite (Hbits 7), (Hbits 8) by lia. f_equal.
  - unfold mc2, set_enable. by rewrite set_bit_spec, decide_True.
  - apply Z.bits_inj'. intros j Hj. unfold multiple_message_capable. rewrite !testbit_get_bits by lia.
    destruct (Z.ltb_spec j (4 - 1)); [|done]. simpl. apply Hbits; lia.
  - unfold cast. rewrite get_bits_spec by lia. change (2 ^ 0) with 1. change (2 ^ (16 - 0)) with 65536.
    change (2 ^ 16) with 65536. by rewrite Z.div_1_r, !Z.mod_mod.
Qed.

(** ** Writing a capability *)

(** A capability that is programmed. *)
Record cap_wf (cap : MsiCapability) : Prop := {
  wf_header : in_u32 (msi_0 cap);
  wf_address : in_u32 (msi_1 cap) /\ msi_2 cap = 0;
  wf_data : 0 <= msi_3 cap < 2 ^ 16;
  wf_masks : if masked (msi_0 cap) then in_u32 (msi_4 cap) /\ in_u32 (msi_5 cap)
             else msi_4 cap = 0 /\ msi_5 cap = 0;
}.

(** A sequence of writes to different registers. *)
Definition write_all (l : list (Z * Z)) (io : Io) : Io :=
  foldl (fun io w => write_conf_reg device w.1 w.2 io) io l.

Lemma write_all_spec l : forall io, plain io ->
  Forall (fun w => in_u8 w.1 /\ in_u32 w.2) l -> NoDup ((fun w => w.1 / 4) <$> l) ->
  plain (write_all l io) /\
  (forall w, w ∈ l -> cap_reg (conf (write_all l io)) w.1 = w.2) /\
  (forall r, in_u8 r -> r / 4 ∉ (fun w => w.1 / 4) <$> l ->
     cap_reg (conf (write_all l io)) r = cap_reg (conf io) r).
Proof.
  induction l as [|[a v] l IH]; intros io Hp Hl Hnd.
  { split; [done|]. split; [intros w Hw; by apply elem_of_nil in Hw|done]. }
  apply Forall_cons in Hl as [[Ha Hv] Hl]. rewrite fmap_cons, NoDup_cons in Hnd. destruct Hnd as [Hnew Hnd].
  cbn [fst snd] in *. destruct (write_reg a v io Hp Ha Hv) as [Hp' Hr].
  destruct (IH _ Hp' Hl Hnd) as (Hp'' & Hin & Hout). cbn [write_all foldl fst snd].
  fold (write_all l (write_conf_reg device a v io)). split; [done|]. split.
  - intros w Hw. apply elem_of_cons in Hw as [->|Hw]; [|by apply Hin]. cbn [fst snd].
    by rewrite Hout, Hr, decide_True.
  - intros r Hr8 Hout'. rewrite fmap_cons, not_elem_of_cons in Hout'. destruct Hout' as [Hne Hout'].
    by rewrite Hout, Hr, decide_False.
Qed.

(** The writes for a capability, and the place after it. *)
Definition msi_writes (a : Z) (cap : MsiCapability) : list (Z * Z) :=
  let d := if wide (msi_0 cap) then a + 12 else a + 8 in
  [(a, msi_0 cap); (a + 4, msi_1 cap)] ++ (if wide (msi_0 cap) then [(a + 8, 0)] else []) ++
  (d, msi_3 cap) :: (if masked (msi_0 cap) then [(d + 4, msi_4 cap); (d + 8, msi_5 cap)] else []).

Lemma write_msi_eq a cap io : cap_wf cap -> 0 <= a <= 0xe8 ->
  write_msi_capability device a cap io = Ret (write_all (msi_writes a cap) io).
Proof.
  intros [Hh [H1 H2] H3 Hm] Ha. unfold write_msi_capability, in_u32 in *.
  destruct cap as [h w1 w2 w3 w4 w5]. cbn [msi_0 msi_1 msi_2 msi_3 msi_4 msi_5] in *. subst w2.
  destruct (control_wide h w1 0 w3 w4 w5 Hh) as [Hwide Hmask]. rewrite Hwide, Hmask.
  unfold header, message_address, message_data, mask_bits, pending_bits, msi_writes.
  cbn [msi_0 msi_1 msi_2 msi_3 msi_4 msi_5].
  rewrite Z.shiftl_0_l, Z.lor_0_l. destruct (address_low w1 H1) as [-> _].
  assert (cast 32 (get_bits w1 32 64) = 0) as ->
    by (rewrite get_bits_spec by lia; unfold cast; rewrite Z.div_small by lia; done).
  assert (cast 16 (get_bits w3 0 16) = w3) as ->
    by (rewrite get_bits_spec by lia; unfold cast; change (2 ^ 0) with 1; change (2 ^ (16 - 0)) with (2 ^ 16);
        rewrite Z.div_1_r, Z.mod_mod by lia; by apply Z.mod_small).
  destruct (wide h), (masked h); repeat (rewrite add_w_Ret by lia; cbn [mbind outcome_bind]); reflexivity.
Qed.

Lemma msi_writes_ok a cap : cap_wf cap -> 0 <= a <= 0xe8 ->
  Forall (fun w => in_u8 w.1 /\ in_u32 w.2) (msi_writes a cap) /\
  NoDup ((fun w => w.1 / 4) <$> msi_writes a cap) /\
  forall w, w ∈ msi_writes a cap ->
    w.1 mod 4 = a mod 4 /\
    a <= w.1 < (if wide (msi_0 cap) then a + 12 else a + 8) + (if masked (msi_0 cap) then 12 else 4).
Proof.
  intros [Hh [H1 _] H3 Hm] Ha. unfold msi_writes, in_u8, in_u32 in *.
  destruct (wide (msi_0 cap)), (masked (msi_0 cap)); cbn [app fmap list_fmap fst snd].
  all: split; [repeat constructor; cbn [fst snd]; lia|].
  all: split; [repeat (apply NoDup_cons; split; [rewrite ?not_elem_of_cons; split_and?;
         try (by intros ?%elem_of_nil); Z.to_euclidean_division_equations; lia|]); by apply NoDup_nil|].
  all: intros w Hw; repeat (apply elem_of_cons in Hw as [->|Hw];
         [cbn [fst snd]; Z.to_euclidean_division_equations; lia|]); by apply elem_of_nil in Hw.
Qed.

#[local] Ltac in_list := by repeat first [left; reflexivity | right].

(** What is written is read back, and nothing else has changed. *)
Lemma write_msi_Ret a cap io : plain io -> cap_wf cap -> 0 <= a <= 0xe8 -> a mod 4 = 0 ->
  exists io', write_msi_capability device a cap io = Ret io' /\ plain io' /\
    read_cap (conf io') a = cap /\
    (forall r, in_u8 r -> r < a \/ cap_end (conf io') a <= r -> cap_reg (conf io') r = cap_reg (conf io) r).
Proof.
  intros Hp Hwf Ha Hmod. rewrite write_msi_eq by done. eexists. split; [done|].
  destruct (msi_writes_ok a cap Hwf Ha) as (Hok & Hnd & Hrange).
  destruct (write_all_spec _ io Hp Hok Hnd) as (Hp' & Hin & Hout). split; [done|].
  set (io' := write_all _ io) in *.
  assert (cap_reg (conf io') a = msi_0 cap) as Hheader by (apply (Hin (a, msi_0 cap)); by left). split.
  - unfold read_cap, data_at. rewrite Hheader. destruct Hwf as [_ [_ H2] H3 Hm]. unfold msi_writes in Hin.
    destruct cap as [h w1 w2 w3 w4 w5]. cbn [msi_0 msi_1 msi_2 msi_3 msi_4 msi_5] in *. subst w2.
    assert (forall r v, (r, v) ∈ msi_writes a (mkMsi h w1 0 w3 w4 w5) -> cap_reg (conf io') r = v) as Hreg
      by (intros r v; apply (Hin (r, v))).
    unfold msi_writes in Hreg. cbn [msi_0 msi_1 msi_2 msi_3 msi_4 msi_5] in Hreg.
    destruct (wide h), (masked h); cbn [app] in Hreg;
      rewrite (Hreg (a + 4) w1) by in_list; rewrite ?(Hreg (a + 8) 0) by in_list;
      rewrite ?(Hreg (a + 12 + 4) w4), ?(Hreg (a + 12 + 8) w5), ?(Hreg (a + 12) w3) by in_list;
      rewrite ?(Hreg (a + 8 + 4) w4), ?(Hreg (a + 8 + 8) w5), ?(Hreg (a + 8) w3) by in_list;
      rewrite (Z.mod_small w3) by done; try done; by destruct Hm as [-> ->].
  - intros r Hr Hfar. apply Hout; [done|]. intros (w & Hw & Hw')%list_elem_of_fmap.
    destruct (Hrange w Hw') as [Hm4 Hlt]. unfold cap_end, data_at in Hfar. rewrite Hheader in Hfar.
    destruct (wide (msi_0 cap)), (masked (msi_0 cap)); Z.to_euclidean_division_equations; lia.
Qed.

(** ** The list of capabilities *)

Definition is_msi (c : Z -> Z) (a : Z) : Prop := cap_reg c a mod 256 = 5.
Definition next_cap (c : Z -> Z) (a : Z) : Z := (cap_reg c a / 256) mod 256.

(** The capabilities are linked from [a] on. *)
Fixpoint linked (c : Z -> Z) (a : Z) (chain : list Z) : Prop :=
  match chain with
  | [] => a = 0
  | b :: chain => a = b /\ linked c (next_cap c b) chain
  end.

(** They are where capabilities can be, and those for MSI keep clear of the others. *)
Definition placed (chain : list Z) : Prop :=
  NoDup chain /\ Forall (fun a => 0x40 <= a <= 0xe8 /\ a mod 4 = 0) chain.
Definition clear (c : Z -> Z) (chain : list Z) : Prop :=
  forall a b, a ∈ chain -> b ∈ chain -> a <> b -> is_msi c a -> b < a \/ cap_end c a <= b.

Lemma cap_fields c a : in_u32 (cap_reg c a) ->
  capability_id (read_cap c a) = cap_reg c a mod 256 /\ next_pointer (read_cap c a) = next_cap c a.
Proof.
  intros Hu. unfold capability_id, next_pointer, next_cap, cast. rewrite !get_bits_spec by lia.
  rewrite read_cap_header. change (2 ^ (8 - 0)) with 256. change (2 ^ (16 - 8)) with 256. change (2 ^ 8) with 256.
  change (2 ^ 0) with 1. by rewrite Z.div_1_r, !Z.mod_mod by lia.
Qed.

Lemma linked_ext c c' chain : forall a, linked c a chain ->
  (forall b, b ∈ chain -> cap_reg c' b = cap_reg c b) -> linked c' a chain.
Proof.
  induction chain as [|b chain IH]; intros a Hl Heq; [done|]. destruct Hl as [-> Hl]. split; [done|].
  unfold next_cap. rewrite Heq by (by left). apply IH; [done|]. intros b' Hb'. apply Heq. by right.
Qed.

Lemma plain_u32 io a : plain io -> in_u32 (cap_reg (conf io) a).
Proof. intros [_ Hu]. apply Hu. Qed.

Lemma msi_dec c a : {is_msi c a} + {~ is_msi c a}.
Proof. apply Z.eq_dec. Qed.

(** What [next] finds in a chain. *)
Definition found_in (c : Z -> Z) (chain : list Z) (found : option (Z * MsiCapability)) (a' : Z) : Prop :=
  match found with
  | None => Forall (fun b => ~ is_msi c b) chain
  | Some (b, cap) => exists pre post, chain = pre ++ b :: post /\ cap = read_cap c b /\
      Forall (fun b => ~ is_msi c b) pre /\ is_msi c b /\ linked c a' post
  end.

Lemma found_in_cons c b chain found a' : ~ is_msi c b -> found_in c chain found a' ->
  found_in c (b :: chain) found a'.
Proof.
  intros Hb. destruct found as [[b' cap]|]; simpl; [|by constructor].
  intros (pre & post & -> & ? & ? & ? & ?). exists (b :: pre), post. by repeat constructor.
Qed.

Lemma first_msi_spec chain : forall fuel b io, plain io -> linked (conf io) (next_cap (conf io) b) chain ->
  Forall (fun a => 0x40 <= a <= 0xe8 /\ a mod 4 = 0) chain -> (length chain < fuel)%nat ->
  exists found a' io', first_msi device fuel b (read_cap (conf io) b) io = Ret (found, a', io') /\
    same_space io io' /\ found_in (conf io) (b :: chain) found a'.
Proof.
  induction chain as [|b' chain IH]; intros fuel b io Hp Hl Hplace Hfuel;
    (destruct fuel as [|fuel]; [simpl in Hfuel; lia|]); cbn [first_msi];
    destruct (cap_fields (conf io) b (plain_u32 io b Hp)) as [-> ->];
    destruct (Z.eqb_spec (cap_reg (conf io) b mod 256) 5) as [Hb|Hb].
  - eexists _, _, io. split; [done|]. split; [done|]. by exists [], [].
  - simpl in Hl. rewrite Hl, Z.eqb_refl. eexists _, _, io. split; [done|]. split; [done|].
    simpl. by repeat constructor.
  - eexists _, _, io. split; [done|]. split; [done|]. by exists [], (b' :: chain).
  - destruct Hl as [Hn Hl]. rewrite Hn. apply Forall_cons in Hplace as [[Hb' Hm'] Hplace].
    destruct (Z.eqb_spec b' 0); [lia|].
    destruct (msi_new_Ret b' io) as (io1 & -> & [Hc Hw]); [apply Hp|lia|]. cbn [mbind outcome_bind].
    assert (plain io1) as Hp1 by (by apply (same_plain io)). rewrite <- Hc in Hl |- *.
    destruct (IH fuel b' io1 Hp1 Hl Hplace) as (found & a' & io' & Hrun & [Hc' Hw'] & Hin);
      [simpl in Hfuel; lia|]. exists found, a', io'. split; [done|]. split; [split; congruence|].
    apply found_in_cons; [|done]. unfold is_msi. by rewrite Hc.
Qed.

Lemma msi_next_spec fuel io chain a : plain io -> linked (conf io) a chain ->
  Forall (fun a => 0x40 <= a <= 0xe8 /\ a mod 4 = 0) chain -> (length chain <= fuel)%nat ->
  exists found a' io', msi_next device fuel a io = Ret (found, a', io') /\ same_space io io' /\
    found_in (conf io) chain found a'.
Proof.
  intros Hp Hl Hplace Hfuel. unfold msi_next. destruct chain as [|b chain].
  - simpl in Hl. rewrite Hl, Z.eqb_refl. eexists _, _, io. split; [done|]. split; [done|]. constructor.
  - destruct Hl as [-> Hl]. apply Forall_cons in Hplace as [[Hb Hm] Hplace]. destruct (Z.eqb_spec b 0); [lia|].
    destruct (msi_new_Ret b io) as (io1 & -> & [Hc Hw]); [apply Hp|lia|]. cbn [mbind outcome_bind].
    assert (plain io1) as Hp1 by (by apply (same_plain io)). rewrite <- Hc in Hl |- *.
    destruct (first_msi_spec chain fuel b io1 Hp1 Hl Hplace) as (found & a' & io' & Hrun & [Hc' Hw'] & Hin);
      [simpl in Hfuel; lia|]. exists found, a', io'. split; [done|]. split; [split; congruence|done].
Qed.

(** ** Programming all of them *)

Lemma cap_end_bound c a : cap_end c a <= a + 24.
Proof. unfold cap_end, data_at. destruct (wide _), (masked _); lia. Qed.

Lemma cap_end_header c c' a : wide (cap_reg c' a) = wide (cap_reg c a) ->
  masked (cap_reg c' a) = masked (cap_reg c a) -> cap_end c' a = cap_end c a.
Proof. intros Hw Hm. unfold cap_end, data_at. by rewrite Hw, Hm. Qed.

(** A capability only depends on its own registers. *)
Lemma read_cap_ext c c' a : 0 <= a <= 0xe8 ->
  (forall r, in_u8 r -> a <= r < cap_end c a -> cap_reg c' r = cap_reg c r) -> read_cap c' a = read_cap c a.
Proof.
  intros Ha Heq. unfold cap_end, data_at, in_u8 in Heq.
  assert (cap_reg c' a = cap_reg c a) as Hh by (apply Heq; [lia|]; destruct (wide _), (masked _); lia).
  unfold read_cap, data_at. rewrite Hh.
  destruct (wide (cap_reg c a)), (masked (cap_reg c a)); rewrite !Heq by lia; reflexivity.
Qed.

(** Two capabilities for MSI do not overlap. *)
Lemma clear_apart c chain a b r : clear c chain -> a ∈ chain -> b ∈ chain -> a <> b ->
  is_msi c a -> is_msi c b -> a <= r < cap_end c a -> r < b \/ cap_end c b <= r.
Proof.
  intros Hc Ha Hb Hne Hma Hmb Hr. pose proof (Hc a b Ha Hb Hne Hma). pose proof (Hc b a Hb Ha (not_eq_sym Hne) Hmb).
  lia.
Qed.

Lemma program_one addr data e b io : plain io -> in_u32 addr -> 0 <= e < 2 ^ 16 ->
  0x40 <= b <= 0xe8 -> b mod 4 = 0 ->
  exists cap' io', program_capability addr data e (read_cap (conf io) b) = Ret cap' /\
    write_msi_capability device b cap' io = Ret io' /\ plain io' /\
    fields_of (read_cap (conf io') b) = programmed addr data e (fields_of (read_cap (conf io) b)) /\
    cap_end (conf io') b = cap_end (conf io) b /\
    (forall r, in_u8 r -> r < b \/ cap_end (conf io) b <= r -> cap_reg (conf io') r = cap_reg (conf io) r).
Proof.
  intros Hp Haddr He Hb Hm. pose proof (fun a => plain_u32 io a Hp) as Hu.
  destruct (program_capability_Ret addr data e (read_cap (conf io) b)) as
    (cap' & Hprog & Hh & Hf & Hwide & Hmask & H1 & H2 & H3 & H4 & H5);
    [done|done|apply Hu|apply Z.mod_pos_bound; lia|].
  assert (cap_wf cap') as Hwf.
  { split; [done|by rewrite H1|rewrite H3; apply Z.mod_pos_bound; lia|]. rewrite Hmask, H4, H5.
    unfold read_cap. cbn [msi_0 msi_4 msi_5]. destruct (masked (cap_reg (conf io) b)); [split; apply Hu|done]. }
  destruct (write_msi_Ret b cap' io Hp Hwf) as (io' & Hrun & Hp' & Hread & Hout); [lia|done|].
  assert (cap_reg (conf io') b = msi_0 cap') as Hheader by (by rewrite <- Hread).
  assert (cap_end (conf io') b = cap_end (conf io) b) as Hend by (apply cap_end_header; rewrite Hheader; done).
  exists cap', io'. rewrite Hread. rewrite Hend in Hout. done.
Qed.

(** The chain after a programmed capability. *)
Lemma chain_after c c' pre b post a' : let chain := pre ++ b :: post in
  placed chain -> clear c chain -> is_msi c b -> linked c a' post -> cap_end c' b = cap_end c b ->
  (forall r, in_u8 r -> r < b \/ cap_end c b <= r -> cap_reg c' r = cap_reg c r) ->
  linked c' a' post /\ clear c' post /\
  (forall p, p ∈ post -> (is_msi c' p <-> is_msi c p) /\ cap_end c' p = cap_end c p) /\
  (forall p, p ∈ post -> is_msi c p -> read_cap c' p = read_cap c p).
Proof.
  intros chain [Hnd Hplace] Hclear Hb Hl Hend Hout.
  assert (b ∈ chain) as Hbin by (apply elem_of_app; right; by left).
  assert (forall p, p ∈ post -> p ∈ chain /\ p <> b) as Hpost.
  { intros p Hp. split; [apply elem_of_app; right; by right|]. intros ->.
    apply NoDup_app in Hnd as (_ & _ & Hnd). by apply NoDup_cons in Hnd as [Hnd _]. }
  rewrite Forall_forall in Hplace. unfold in_u8 in Hout.
  assert (forall p, p ∈ post -> cap_reg c' p = cap_reg c p) as Hheader.
  { intros p Hp. destruct (Hpost p Hp) as [Hin Hne]. pose proof (Hplace p Hin).
    apply Hout; [lia|]. by apply (Hclear b p). }
  assert (forall p, p ∈ post -> (is_msi c' p <-> is_msi c p) /\ cap_end c' p = cap_end c p) as Hsame.
  { intros p Hp. unfold is_msi. rewrite Hheader by done. split; [done|].
    apply cap_end_header; by rewrite Hheader. }
  split; [by apply (linked_ext c)|]. split; [|split; [done|]].
  - intros p q Hp Hq Hne Hmp. destruct (Hsame p Hp) as [Hm ->]. apply Hclear; [by apply Hpost..|done|by apply Hm].
  - intros p Hp Hmp. destruct (Hpost p Hp) as [Hin Hne]. pose proof (Hplace p Hin).
    apply read_cap_ext; [lia|]. intros r Hr Hrange. apply Hout; [done|].
    by apply (clear_apart c chain p b).
Qed.

Definition has_msi (c : Z -> Z) (chain : list Z) : bool :=
  existsb (fun b => cap_reg c b mod 256 =? 5) chain.

Lemma has_msi_false c chain : Forall (fun b => ~ is_msi c b) chain -> has_msi c chain = false.
Proof.
  induction 1 as [|b chain Hb _ IH]; [done|]. unfold has_msi in *. cbn [existsb]. rewrite IH.
  unfold is_msi in Hb. by destruct (Z.eqb_spec (cap_reg c b mod 256) 5).
Qed.

Lemma has_msi_true c pre b post : is_msi c b -> has_msi c (pre ++ b :: post) = true.
Proof.
  unfold has_msi, is_msi. intros Hb. rewrite existsb_app. simpl. rewrite Hb. simpl. apply orb_true_r.
Qed.

(** The loop programs every capability for MSI in the chain and changes nothing else. *)
Definition loop_done (addr data e : Z) (chain : list Z) (c c' : Z -> Z) : Prop :=
  (forall b, b ∈ chain -> is_msi c b ->
     fields_of (read_cap c' b) = programmed addr data e (fields_of (read_cap c b))) /\
  (forall r, in_u8 r -> (forall b, b ∈ chain -> is_msi c b -> r < b \/ cap_end c b <= r) ->
     cap_reg c' r = cap_reg c r).

Lemma loop_done_none addr data e chain c : Forall (fun b => ~ is_msi c b) chain ->
  loop_done addr data e chain c c.
Proof. intros Hno. rewrite Forall_forall in Hno. split; [|done]. intros b Hb Hm. by apply Hno in Hb. Qed.

Lemma loop_done_step addr data e c c1 c2 pre b post a' : let chain := pre ++ b :: post in
  placed chain -> clear c chain -> Forall (fun b => ~ is_msi c b) pre -> is_msi c b -> linked c a' post ->
  cap_end c1 b = cap_end c b ->
  (forall r, in_u8 r -> r < b \/ cap_end c b <= r -> cap_reg c1 r = cap_reg c r) ->
  fields_of (read_cap c1 b) = programmed addr data e (fields_of (read_cap c b)) ->
  loop_done addr data e post c1 c2 -> loop_done addr data e chain c c2.
Proof.
  intros chain Hplaced Hclear Hpre Hb Hl Hend Hout Hf [Hdone Hrest].
  destruct (chain_after c c1 pre b post a' Hplaced Hclear Hb Hl Hend Hout) as (_ & _ & Hsame & Hread).
  destruct Hplaced as [Hnd Hplace]. rewrite Forall_forall in Hplace, Hpre.
  assert (b ∈ chain) as Hbin by (apply elem_of_app; right; by left).
  assert (forall p, p ∈ post -> p ∈ chain /\ p <> b) as Hpost.
  { intros p Hp. split; [apply elem_of_app; right; by right|]. intros ->.
    apply NoDup_app in Hnd as (_ & _ & Hnd). by apply NoDup_cons in Hnd as [Hnd _]. }
  split.
  - intros q Hq Hm. apply elem_of_app in Hq as [Hq|Hq]; [by apply Hpre in Hq|].
    apply elem_of_cons in Hq as [->|Hq]; [|rewrite Hdone by (done || by apply Hsame); by rewrite Hread].
    rewrite <- Hf. f_equal. pose proof (Hplace b Hbin). apply read_cap_ext; [lia|]. intros r Hr Hrange.
    apply Hrest; [done|]. intros p Hp Hmp. destruct (Hsame p Hp) as [Hiff ->]. rewrite Hend in Hrange.
    destruct (Hpost p Hp). apply (clear_apart c chain b p); done || by apply Hiff.
  - intros r Hr Hfar. rewrite Hrest; [apply Hout; [done|by apply Hfar]|done|].
    intros p Hp Hmp. destruct (Hsame p Hp) as [Hiff ->]. apply Hfar; [by apply Hpost|by apply Hiff].
Qed.

Lemma msi_loop_spec addr data e chain : in_u32 addr -> 0 <= e < 2 ^ 16 ->
  forall fuel a written io, plain io -> linked (conf io) a chain ->
  placed chain -> clear (conf io) chain -> (length chain < fuel)%nat ->
  exists io', msi_loop device fuel addr data e a written io = Ret (written || has_msi (conf io) chain, io') /\
    loop_done addr data e chain (conf io) (conf io').
Proof.
  intros Haddr He. induction chain as [chain IH] using (Wf_nat.induction_ltof1 _ length).
  intros fuel a written io Hp Hl Hplaced Hclear Hfuel. destruct fuel as [|fuel]; [lia|]. cbn [msi_loop].
  destruct (msi_next_spec (S fuel) io chain a Hp Hl (proj2 Hplaced)) as (found & a' & io1 & -> & [Hc Hw] & Hin);
    [lia|]. cbn [mbind outcome_bind]. destruct found as [[b cap]|]; simpl in Hin.
  - destruct Hin as (pre & post & -> & -> & Hpre & Hb & Hl').
    assert (plain io1) as Hp1 by (by apply (same_plain io)).
    assert (0x40 <= b <= 0xe8 /\ b mod 4 = 0) as [Hb1 Hb2].
    { destruct Hplaced as [_ Hplace]. rewrite Forall_forall in Hplace. apply Hplace, elem_of_app. right. by left. }
    destruct (program_one addr data e b io1 Hp1 Haddr He Hb1 Hb2) as
      (cap' & io2 & Hprog & Hwrite & Hp2 & Hf & Hend & Hout). rewrite Hc in *.
    rewrite Hprog. cbn [mbind outcome_bind]. rewrite Hwrite. cbn [mbind outcome_bind].
    destruct (chain_after (conf io) (conf io2) pre b post a') as (Hl2 & Hclear2 & _ & _); try done.
    rewrite length_app in Hfuel. simpl in Hfuel.
    destruct (IH post) with (fuel := fuel) (a := a') (written := true) (io := io2) as (io' & Hrun & Hdone); try done.
    { unfold Wf_nat.ltof. rewrite length_app. simpl. lia. }
    { destruct Hplaced as [Hnd Hplace]. apply Forall_app in Hplace as [_ Hplace].
      apply Forall_cons in Hplace as [_ Hplace]. apply NoDup_app in Hnd as (_ & _ & Hnd).
      by apply NoDup_cons in Hnd as [_ Hnd]. }
    { lia. }
    exists io'. rewrite Hrun, has_msi_true, orb_true_r by done. split; [done|].
    by apply (loop_done_step addr data e (conf io) (conf io2) (conf io') pre b post a').
  - exists io1. rewrite has_msi_false, orb_false_r by done. split; [done|]. rewrite Hc. by apply loop_done_none.
Qed.

(** A capability at the end of the space cannot be read, whatever it is: the address of the data
    overflows. *)
Lemma high_capability_panics a io : (forall r, in_u32 (conf io r)) -> 0xf8 <= a -> in_u8 a ->
  msi_new device a io = Panic.
Proof.
  unfold in_u8. intros Hu Ha Ha8. unfold msi_new. destruct (read_reg a io) as (io1 & -> & _).
  pose proof (header_parts (cap_reg (conf io) a) (mkMsi 0 0 0 0 0 0) (Hu _) eq_refl) as Hparts.
  apply bind_Ret_inv in Hparts as (cap1 & -> & Hparts). cbn [mbind outcome_bind].
  apply bind_Ret_inv in Hparts as (cap2 & -> & Hparts). cbn [mbind outcome_bind].
  rewrite Hparts. cbn [mbind outcome_bind].
  assert (add_w 8 a 8 = Panic) as Hover by (unfold add_w; by rewrite decide_False by lia).
  destruct (add_w 8 a 4) as [a4| |] eqn:Ha4; cbn [mbind outcome_bind];
    [|done|unfold add_w in Ha4; by case_decide].
  destruct (read_reg a4 io1) as (io2 & -> & _). by rewrite Hover.
Qed.

(** * Properties *)

(** C29: every capability of the device for message signalled interrupts is programmed.  When the
    list of capabilities ends and those for MSI keep clear of the others, [configure_msi] returns
    exactly when one is for MSI, and panics otherwise.  Each of them then reads as enabled, with
    the address and the data of the message and the number of vectors asked for, at most those it
    is capable of, all its other fields as before; every other register has kept its value. *)
Theorem configure_msi_programs fuel addr data e chain io :
  is_generic_device (header_type device) || is_pci_to_pci_bridge (header_type device) = true ->
  in_u32 addr -> 0 <= e < 2 ^ 16 -> plain io ->
  linked (conf io) (cap_reg (conf io) 0x34 mod 256) chain -> placed chain -> clear (conf io) chain ->
  (length chain < fuel)%nat ->
  if has_msi (conf io) chain then
    exists io', configure_msi device fuel addr data e io = Ret io' /\
      (forall b, b ∈ chain -> is_msi (conf io) b ->
         fields_of (read_cap (conf io') b) = programmed addr data e (fields_of (read_cap (conf io) b))) /\
      (forall r, in_u8 r -> (forall b, b ∈ chain -> is_msi (conf io) b -> r < b \/ cap_end (conf io) b <= r) ->
         cap_reg (conf io') r = cap_reg (conf io) r)
  else configure_msi device fuel addr data e io = Panic.
Proof.
  intros Htype Haddr He Hp Hl Hplaced Hclear Hfuel. unfold configure_msi, read_capabilities_pointer.
  rewrite Htype. cbn [assert mbind outcome_bind].
  destruct (read_reg 0x34 io) as (io1 & -> & [Hc Hw]). cbn [mbind outcome_bind].
  assert (Z.land (cap_reg (conf io) 0x34) 0xff = cap_reg (conf io) 0x34 mod 256) as ->
    by (change 0xff with (Z.ones 8); by rewrite Z.land_ones).
  assert (plain io1) as Hp1 by (by apply (same_plain io)). rewrite <- Hc in *.
  destruct (msi_loop_spec addr data e chain Haddr He fuel _ false io1 Hp1 Hl Hplaced Hclear Hfuel)
    as (io' & -> & Hdone). cbn [mbind outcome_bind orb].
  destruct (has_msi (conf io1) chain); [|done]. by exists io'.
Qed.

End facts.

(** * Witness *)

Module MsiExamples.

(** Power management at 0x50, MSI with 64-bit addresses at 0x60 and MSI-X at 0x80. *)
Definition device : PciDevice := mkDevice 0x1b36 0xd (mkClass 0x0c 0x03 0x30) 0 1 3 0.

Definition registers (a : Z) : Z :=
  if decide (a = config_address 1 3 0 0x34) then 0x50
  else if decide (a = config_address 1 3 0 0x50) then 0x00036001
  else if decide (a = config_address 1 3 0 0x60) then 0x00848005
  else if decide (a = config_address 1 3 0 0x80) then 0x000f0011
  else 0.

Definition io : Io := mkIo 0 registers (fun c a v => fun b => if decide (b = a) then v else c b).

Lemma io_plain : plain io.
Proof.
  split; [done|]. intros a. unfold in_u32. cbn [conf io]. unfold registers. repeat case_decide; lia.
Qed.

Lemma chain_placed : placed [0x50; 0x60; 0x80].
Proof. split; [repeat constructor; rewrite ?not_elem_of_cons; split_and?; (done || by intros ?%elem_of_nil)|]. repeat constructor; lia. Qed.

Lemma chain_clear : clear device registers [0x50; 0x60; 0x80].
Proof.
  intros a b Ha Hb Hne Hm.
  repeat (apply elem_of_cons in Ha as [->|Ha]; [try (exfalso; vm_compute in Hm; discriminate Hm)|]);
    [|by apply elem_of_nil in Ha].
  repeat (apply elem_of_cons in Hb as [->|Hb]; [vm_compute; (by left) || (by right) || done|]).
  by apply elem_of_nil in Hb.
Qed.

End MsiExamples.

Lemma configure_msi_programs_witness :
  exists io', configure_msi (H := bit_field_ref) MsiExamples.device 4 0xfee01000 0xc040 0 MsiExamples.io = Ret io' /\
    fields_of (H := bit_field_ref) (read_cap MsiExamples.device (conf io') 0x60)
      = mkFields 5 0x80 true 0 2 true false 0xfee01000 0xc040 0 0.
Proof.
  destruct (configure_msi_programs (H := bit_field_ref) MsiExamples.device
    ltac:(unfold in_u8; simpl; lia) 4 0xfee01000 0xc040 0 [0x50; 0x60; 0x80] MsiExamples.io)
    as (io' & Hrun & Hf & _).
  - reflexivity.
  - unfold in_u32. lia.
  - lia.
  - exact MsiExamples.io_plain.
  - vm_compute. auto.
  - exact MsiExamples.chain_placed.
  - exact MsiExamples.chain_clear.
  - simpl. lia.
  - exists io'. split; [exact Hrun|]. rewrite Hf; [vm_compute; reflexivity|right; left|vm_compute; reflexivity].
Defined.
