(* ===== verification/Executor.v ===== *)
(** Executor: the futures of [kernel-lib/src/futures.rs], the tasks and the executor of
    [kernel/src/multitasking]. *)
From S2P Require Import Prelude.

Inductive Poll (A : Type) : Type := Ready (a : A) | Pending.
Arguments Ready {A} a.
Arguments Pending {A}.

(** A future with its states [F]: a call of [poll] runs to the next point where it waits,
    on the world [W] that it shares with the others. *)
Class Future (F W A : Type) := poll : F -> W -> outcome (F * W * Poll A).

(** [PendingOnceFuture]: what [yield_pending] gives. *)
Record PendingOnceFuture := mkPendingOnce { polled : bool }.

Definition pending_once_new : PendingOnceFuture := mkPendingOnce false.

#[global] Instance pending_once_future {W} : Future PendingOnceFuture W unit := fun self w =>
  if polled self then Ret (self, w, Ready tt) else Ret (mkPendingOnce true, w, Pending).

Definition yield_pending : PendingOnceFuture := pending_once_new.

Section futures.
Context {F W A : Type} `{FU : Future F W A}.

(** [await_sync!]: polls until the future is ready. *)
Fixpoint await_sync (fuel : nat) (f : F) (w : W) : outcome (A * W) :=
  match fuel with
  | O => NoFuel
  | S fuel =>
      '(f, w, r) ← poll f w;
      match r with Ready value => Ret (value, w) | Pending => await_sync fuel f w end
  end.

(** [await_once_noblocking!]. *)
Definition await_once_noblocking (f : F) (w : W) : outcome (option A * W) :=
  '(f, w, r) ← poll f w;
  Ret (match r with Ready value => Some value | Pending => None end, w).

End futures.

(** * Tasks *)

Inductive Priority := High | Default.

Definition priority_number (p : Priority) : Z := match p with High => 0 | Default => 10 end.

Record Task (F : Type) := mkTask { priority : Priority; future : F }.
Arguments mkTask {F}.
Arguments priority {F}.
Arguments future {F}.

(** [Ord for Task]: the comparison is reversed. *)
Definition task_cmp {F} (self other : Task F) : comparison :=
  (priority_number (priority other) ?= priority_number (priority self))%Z.

Section executor.
Context {F W : Type} `{FU : Future F W unit}.

Definition task_poll (self : Task F) (w : W) : outcome (Task F * W * Poll unit) :=
  '(f, w, r) ← poll (future self) w; Ret (mkTask (priority self) f, w, r).

(** [Executor]. *)
Record Executor := mkExecutor { task_queue : list (Task F) }.

Definition executor_new : Executor := mkExecutor [].

Definition spawn (self : Executor) (task : Task F) : Executor :=
  mkExecutor (task_queue self ++ [task]).

(** One turn of the loop of [run]. *)
Definition run_turn (self : Executor) (w : W) : outcome (Executor * W) :=
  match task_queue self with
  | [] => Ret (self, w)
  | task :: queue =>
      '(task, w, r) ← task_poll task w;
      match r with
      | Ready _ => Ret (mkExecutor queue, w)
      | Pending => Ret (mkExecutor (queue ++ [task]), w)
      end
  end.

(** The first [n] turns. *)
Fixpoint run_turns (n : nat) (self : Executor) (w : W) : outcome (Executor * W) :=
  match n with
  | O => Ret (self, w)
  | S n => '(self, w) ← run_turn self w; run_turns n self w
  end.

(** * Rounds *)

(** A round: every task of the queue once, in its order; those that wait stay, in order. *)
Fixpoint round (queue : list (Task F)) (w : W) : outcome (list (Task F) * W) :=
  match queue with
  | [] => Ret ([], w)
  | task :: queue =>
      '(task, w, r) ← task_poll task w;
      '(rest, w) ← round queue w;
      Ret (match r with Ready _ => rest | Pending => task :: rest end, w)
  end.

Lemma run_turns_add n m self w :
  run_turns (n + m) self w = ('(self, w) ← run_turns n self w; run_turns m self w).
Proof.
  revert self w. induction n as [|n IH]; intros self w; simpl; [done|].
  destruct (run_turn self w) as [[self' w']| |]; simpl; [apply IH|done..].
Qed.

(** The tasks behind the ones of the round wait. *)
Lemma run_turns_round queue : forall later w,
  run_turns (length queue) (mkExecutor (queue ++ later)) w =
    ('(rest, w) ← round queue w; Ret (mkExecutor (later ++ rest), w)).
Proof.
  induction queue as [|task queue IH]; intros later w; simpl.
  - by rewrite app_nil_r.
  - unfold run_turn. simpl. destruct (task_poll task w) as [[[task' w'] r]| |]; simpl; [|done..].
    destruct r; simpl.
    + rewrite IH. by destruct (round queue w') as [[rest w'']| |].
    + rewrite <- app_assoc, IH. destruct (round queue w') as [[rest w'']| |]; simpl; [|done..].
      by rewrite <- app_assoc.
Qed.

(** * Tasks that end *)

(** [rank f]: how often the future still waits, whatever the others do. *)
Class Ends (rank : F -> nat) : Prop := {
  poll_ends f w : exists f' w' r, poll f w = Ret (f', w', r) /\
    match r with Ready _ => rank f = 0%nat | Pending => rank f = S (rank f') end;
}.

Fixpoint turns_left (rank : F -> nat) (queue : list (Task F)) : nat :=
  match queue with
  | [] => 0
  | task :: queue => S (rank (future task)) + turns_left rank queue
  end.

Lemma turns_left_app rank q1 q2 :
  turns_left rank (q1 ++ q2) = (turns_left rank q1 + turns_left rank q2)%nat.
Proof. induction q1; simpl; lia. Qed.

Lemma run_turn_ends rank `{!Ends rank} self w n : turns_left rank (task_queue self) = S n ->
  exists self' w', run_turn self w = Ret (self', w') /\ turns_left rank (task_queue self') = n.
Proof.
  destruct self as [[|task queue]]; simpl; [done|]. intros Hn. unfold run_turn, task_poll. simpl.
  destruct (poll_ends (rank := rank) (future task) w) as (f' & w' & r & -> & Hr). simpl.
  destruct r; simpl; eexists _, _; (split; [done|]); simpl; [lia|].
  rewrite turns_left_app. simpl. lia.
Qed.

Lemma run_turns_end rank `{!Ends rank} n : forall self w, turns_left rank (task_queue self) = n ->
  exists w', run_turns n self w = Ret (executor_new, w').
Proof.
  induction n as [|n IH]; intros self w Hn.
  - exists w. destruct self as [[|task queue]]; [done|]. simpl in Hn. lia.
  - destruct (run_turn_ends rank self w n Hn) as (self' & w' & Hr & Hn'). simpl. rewrite Hr. simpl.
    by apply IH.
Qed.

Lemma run_turns_before rank `{!Ends rank} n : forall self w,
  (n < turns_left rank (task_queue self))%nat ->
  exists self' w', run_turns n self w = Ret (self', w') /\ task_queue self' <> [].
Proof.
  induction n as [|n IH]; intros self w Hn.
  - exists self, w. split; [done|]. intros Hq. rewrite Hq in Hn. simpl in Hn. lia.
  - destruct (turns_left rank (task_queue self)) as [|m] eqn:Hm; [lia|].
    destruct (run_turn_ends rank self w m Hm) as (self' & w' & Hr & Hm'). simpl. rewrite Hr. simpl.
    apply IH. lia.
Qed.

(** * Tasks that keep to a protocol *)

(** A future that is fit for the world [w], [ok f w], stays so while the others change the
    world along [le]; when polled in a good world it returns, leaves a good world, and is
    fit for it if it waits. *)
Class Safe (inv : W -> Prop) (le : W -> W -> Prop) (ok : F -> W -> Prop) : Prop := {
  ok_stable f w w' : ok f w -> le w w' -> ok f w';
  poll_safe f w : inv w -> ok f w ->
    exists f' w' r, poll f w = Ret (f', w', r) /\ inv w' /\ le w w' /\ (r = Pending -> ok f' w');
}.

Lemma run_turns_safe inv le ok `{!Safe inv le ok} n : forall self w,
  inv w -> Forall (fun t => ok (future t) w) (task_queue self) ->
  exists self' w', run_turns n self w = Ret (self', w') /\ inv w' /\
    Forall (fun t => ok (future t) w') (task_queue self').
Proof.
  induction n as [|n IH]; intros [queue] w Hw Hq; simpl; [by exists (mkExecutor queue), w|].
  unfold run_turn. simpl in *. destruct Hq as [|task queue Ht Hq]; simpl; [by apply IH|].
  unfold task_poll. destruct (poll_safe (inv := inv) (future task) w Hw Ht)
    as (f' & w' & r & -> & Hw' & Hle & Hok). simpl.
  assert (Hq' : Forall (fun t => ok (future t) w') queue).
  { eapply Forall_impl; [exact Hq|]. intros t Hok'. cbn beta in *. by eapply ok_stable. }
  destruct r; simpl; apply IH; try done; simpl.
  apply Forall_app_2; [done|]. constructor; [by apply Hok|constructor].
Qed.

Lemma run_turns_idle n w : run_turns n executor_new w = Ret (executor_new, w).
Proof. induction n; [done|]. done. Qed.

End executor.
Arguments Executor F : clear implicits.

(** * Properties *)

(** C17: the executor is a round robin: with [later] spawned behind the tasks of [queue],
    the next [length queue] turns poll each task of [queue] exactly once, in order, each on
    the world that the one before left; afterwards the tasks of [later] are in front and
    those that still wait are behind them in their order.  A panic of a poll is the only
    way not to get there. *)
Theorem executor_round_robin {F W} `{FU : Future F W unit} (queue later : list (Task F)) (w : W) :
  run_turns (length queue) (foldl spawn executor_new (queue ++ later)) w =
    ('(rest, w) ← round queue w; Ret (mkExecutor (later ++ rest), w)).
Proof.
  assert (Hspawn : forall ts q, foldl spawn (mkExecutor (F := F) q) ts = mkExecutor (q ++ ts)).
  { induction ts as [|t ts IH]; intros q; simpl; [by rewrite app_nil_r|].
    unfold spawn at 2. simpl. by rewrite IH, <- app_assoc. }
  unfold executor_new. rewrite Hspawn. rewrite app_nil_l. apply run_turns_round.
Qed.

(** C30: tasks that wait only a bounded number of times, whatever the others do to the world,
    all end: after exactly one turn for each wait and one for each end the queue is empty,
    it is not empty before, and from then on the loop idles. *)
Theorem executor_completes {F W} `{FU : Future F W unit} (rank : F -> nat) `{!Ends rank}
    (self : Executor F) (w : W) :
  let total := turns_left rank (task_queue self) in
  (forall n, (n < total)%nat -> exists self' w', run_turns n self w = Ret (self', w') /\
     task_queue self' <> []) /\
  exists w', forall n, run_turns (total + n) self w = Ret (executor_new, w').
Proof.
  intros total. split; [intros n; by apply run_turns_before|].
  destruct (run_turns_end rank total self w eq_refl) as [w' Hr]. exists w'. intros n.
  rewrite run_turns_add, Hr. simpl. apply run_turns_idle.
Qed.

(** Waiting for [yield_pending] costs exactly one poll that waits. *)
Lemma await_yield_pending {W} (w : W) n :
  await_sync (A := unit) (S (S n)) yield_pending w = Ret (tt, w) /\
  await_once_noblocking (A := unit) yield_pending w = Ret (None, w).
Proof. done. Qed.

(** * Witnesses *)

#[global] Instance pending_once_ends {W} :
  Ends (F := PendingOnceFuture) (W := W) (fun f => if polled f then 0%nat else 1%nat).
Proof.
  split. intros [[]] w; simpl; (eexists _, _, _; split; [done|]); done.
Qed.

Definition yields : Executor PendingOnceFuture :=
  mkExecutor [mkTask Default yield_pending; mkTask Default (mkPendingOnce true);
              mkTask High yield_pending].

Lemma executor_completes_witness :
  (forall n, (n < 5)%nat -> exists self' w', run_turns n yields 7 = Ret (self', w') /\
     task_queue self' <> []) /\
  exists w', forall n, run_turns (5 + n) yields 7 = Ret (executor_new, w').
Proof.
  exact (executor_completes (W := Z) (fun f => if polled f then 0%nat else 1%nat) yields 7).
Defined.
