(* ===== verification/FutureTests.v ===== *)
(** FutureTests: the unit tests of [kernel-lib/src/futures.rs], whatever the random numbers: the two
    ways to wait for a future, on futures that are random, that count, and that await others. *)
From S2P Require Import Prelude Executor.

(** [RandomFuture]: the world is what [gen_bool] gives; where the given draws end, the model does not
    know how it goes on. *)
Record RandomFuture := mkRandom { random_value : Z }.

#[global] Instance random_future : Future RandomFuture (list bool) Z := fun self draws =>
  match draws with
  | [] => NoFuel
  | true :: draws => Ret (self, draws, Pending)
  | false :: draws => Ret (self, draws, Ready (random_value self))
  end.

(** [TimesPendingFuture]. *)
Record TimesPendingFuture := mkTimesPending { tp_value : Z; tp_count : Z }.

#[global] Instance times_pending_future {W} : Future TimesPendingFuture W Z := fun self w =>
  if 0 <? tp_count self then Ret (mkTimesPending (tp_value self) (tp_count self - 1), w, Pending)
  else Ret (self, w, Ready (tp_value self)).

(** The asynchronous functions [return_1], which waits nowhere, and [just_await], which awaits it. *)
Inductive Return1Future := return_1.
Inductive JustAwaitFuture := just_await (inner : Return1Future).

#[global] Instance return_1_future {W} : Future Return1Future W Z := fun self w => Ret (self, w, Ready 1).
#[global] Instance just_await_future {W} : Future JustAwaitFuture W Z := fun self w =>
  let '(just_await inner) := self in
  '(inner, w, r) ← poll inner w; Ret (just_await inner, w, r).

(** [summation(until)], in the turns [i] of its loop that are [left]; an even [until] has none. *)
Record Summation := mkSummation { left : nat; turn_i : Z; sum : Z }.

Definition summation (until : Z) : Summation :=
  if until mod 2 =? 0 then mkSummation 0 0 0 else mkSummation (Z.to_nat until) 0 0.

Fixpoint poll_summation (left : nat) (i sum : Z) (w : list bool) : outcome (Summation * list bool * Poll Z) :=
  match left with
  | O => Ret (mkSummation O i sum, w, Ready sum)
  | S n =>
      '(_, w, r) ← poll (mkRandom i) w;
      match r with
      | Ready v => poll_summation n (i + 1) (sum + v) w
      | Pending => Ret (mkSummation left i sum, w, Pending)
      end
  end.

#[global] Instance summation_future : Future Summation (list bool) Z := fun self w =>
  poll_summation (left self) (turn_i self) (sum self) w.

(** [summation2()]: it waits in [inner], the call for [i]; so many are to come after it. *)
Record Summation2 := mkSummation2 { to_come : nat; call_i : Z; sum2 : Z; inner : Summation }.

Definition summation2 : Summation2 := mkSummation2 9 0 0 (summation 0).

Fixpoint poll_summation2 (to_come : nat) (i sum : Z) (inner : Summation) (w : list bool) :
    outcome (Summation2 * list bool * Poll Z) :=
  '(inner, w, r) ← poll inner w;
  match r with
  | Pending => Ret (mkSummation2 to_come i sum inner, w, Pending)
  | Ready v =>
      match to_come with
      | O => Ret (mkSummation2 O i (sum + v) inner, w, Ready (sum + v))
      | S n => poll_summation2 n (i + 1) (sum + v) (summation (i + 1)) w
      end
  end.

#[global] Instance summation2_future : Future Summation2 (list bool) Z := fun self w =>
  poll_summation2 (to_come self) (call_i self) (sum2 self) (inner self) w.

(** * The tests *)

(** [await_sync!] in a test: the result and the draws that are left. *)
Definition just_await_test (fuel : nat) : outcome unit :=
  '(x, _) ← await_sync fuel return_1 tt; assert (x =? 1).

Definition randomly_await (fuel : nat) (draws : list bool) : outcome unit :=
  '(x, draws) ← await_sync fuel (summation 11) draws; _ ← assert (x =? 55);
  '(x, draws) ← await_sync fuel (summation 10) draws; _ ← assert (x =? 0);
  '(x, draws) ← await_sync fuel summation2 draws; assert (x =? 70).

Definition test_await_once_noblocking (fuel : nat) : outcome unit :=
  '(o, _) ← await_once_noblocking (mkTimesPending 1 3) tt; _ ← assert (bool_decide (o = None));
  '(x, _) ← await_sync fuel (mkTimesPending 1 3) tt; _ ← assert (x =? 1);
  '(o, _) ← await_once_noblocking (mkTimesPending 1 0) tt; _ ← assert (bool_decide (o = Some 1));
  '(o, _) ← await_once_noblocking return_1 tt; _ ← assert (bool_decide (o = Some 1));
  '(o, _) ← await_once_noblocking (just_await return_1) tt; assert (bool_decide (o = Some 1)).

(** * What they show *)

(** The polls that go on. *)
Definition goes_on (draws : list bool) : nat := length (filter (fun b => b = false) draws).

(** The sum of the turns that are left. *)
Fixpoint rest_of (left : nat) (i : Z) : Z := match left with O => 0 | S n => i + rest_of n (i + 1) end.

Lemma await_summation_go n i s d fuel : await_sync (S fuel) (mkSummation (S n) i s) (false :: d) =
  await_sync (S fuel) (mkSummation n (i + 1) (s + i)) d.
Proof. reflexivity. Qed.

Lemma await_summation_wait n i s d fuel : await_sync (S fuel) (mkSummation (S n) i s) (true :: d) =
  await_sync fuel (mkSummation (S n) i s) d.
Proof. reflexivity. Qed.

(** What is left of the draws after so many polls went on: enough for others. *)
Lemma await_summation draws : forall n i s fuel more, (n + more <= goes_on draws)%nat -> (length draws < fuel)%nat ->
  exists rest, await_sync fuel (mkSummation n i s) draws = Ret (s + rest_of n i, rest) /\
    (more <= goes_on rest)%nat /\ (length rest <= length draws)%nat.
Proof.
  induction draws as [|b draws IH]; intros n i s fuel more Hgo Hfuel; (destruct fuel as [|fuel]; [simpl in Hfuel; lia|]).
  - simpl in Hgo. destruct n; [|unfold goes_on in Hgo; simpl in Hgo; lia]. exists []. simpl. by rewrite Z.add_0_r.
  - destruct n as [|n]; [exists (b :: draws); simpl; by rewrite Z.add_0_r|]. destruct b.
    + rewrite await_summation_wait. unfold goes_on in Hgo. simpl in Hgo, Hfuel.
      destruct (IH (S n) i s fuel more) as (rest & -> & ? & ?); [exact Hgo|lia|].
      exists rest. simpl. split_and!; [done|done|lia].
    + rewrite await_summation_go. unfold goes_on in Hgo. simpl in Hgo, Hfuel.
      destruct (IH n (i + 1) (s + i) (S fuel) more) as (rest & -> & ? & ?); [unfold goes_on; lia|lia|].
      exists rest. simpl. rewrite Z.add_assoc. split_and!; [done|done|lia].
Qed.

(** The sum of the calls that are to come after the one for [i], and their polls. *)
Fixpoint rest_of2 (to_come : nat) (i : Z) : Z :=
  match to_come with
  | O => 0
  | S n => rest_of (left (summation (i + 1))) 0 + rest_of2 n (i + 1)
  end.
Fixpoint polls2 (to_come : nat) (i : Z) : nat :=
  match to_come with O => O | S n => left (summation (i + 1)) + polls2 n (i + 1) end.

Lemma await_summation2_next m i s2 j s d fuel :
  await_sync (S fuel) (mkSummation2 (S m) i s2 (mkSummation 0 j s)) d =
  await_sync (S fuel) (mkSummation2 m (i + 1) (s2 + s) (summation (i + 1))) d.
Proof. reflexivity. Qed.

Lemma await_summation2_go m i s2 n j s d fuel :
  await_sync (S fuel) (mkSummation2 m i s2 (mkSummation (S n) j s)) (false :: d) =
  await_sync (S fuel) (mkSummation2 m i s2 (mkSummation n (j + 1) (s + j))) d.
Proof. destruct m; reflexivity. Qed.

Lemma await_summation2_wait m i s2 n j s d fuel :
  await_sync (S fuel) (mkSummation2 m i s2 (mkSummation (S n) j s)) (true :: d) =
  await_sync fuel (mkSummation2 m i s2 (mkSummation (S n) j s)) d.
Proof. destruct m; reflexivity. Qed.

Lemma summation_start u : summation u = mkSummation (left (summation u)) 0 0.
Proof. unfold summation. by case_match. Qed.

Lemma await_summation2 draws : forall m i s2 n j s fuel, (n + polls2 m i <= goes_on draws)%nat ->
  (length draws < fuel)%nat ->
  exists rest, await_sync fuel (mkSummation2 m i s2 (mkSummation n j s)) draws =
    Ret (s2 + (s + rest_of n j) + rest_of2 m i, rest).
Proof.
  induction draws as [|b draws IHd]; intros m; induction m as [|m IHm]; intros i s2 n j s fuel Hgo Hfuel;
    (destruct fuel as [|fuel]; [simpl in Hfuel; lia|]); destruct n as [|n].
  all: try (unfold goes_on in Hgo; simpl in Hgo; lia).
  (* a call has ended: the next *)
  2, 5: rewrite await_summation2_next, summation_start; cbn [polls2] in Hgo;
    destruct (IHm (i + 1) (s2 + s) (left (summation (i + 1))) 0 0 (S fuel)) as (rest & ->); [lia|done|];
    exists rest; cbn [rest_of rest_of2]; do 2 f_equal; lia.
  1, 2: eexists; cbn; do 2 f_equal; lia.
  (* a draw *)
  all: cbn [length] in Hfuel; destruct b;
    [change (goes_on (true :: draws)) with (goes_on draws) in Hgo
    |change (goes_on (false :: draws)) with (S (goes_on draws)) in Hgo].
  all: rewrite ?await_summation2_wait, ?await_summation2_go.
  1, 3: match goal with |- context [mkSummation2 ?m _ _ _] =>
    destruct (IHd m i s2 (S n) j s fuel) as (rest & ->); [lia|lia|by exists rest] end.
  all: match goal with |- context [mkSummation2 ?m _ _ _] =>
    destruct (IHd m i s2 n (j + 1) (s + j) (S fuel)) as (rest & ->); [lia|cbn; lia|] end;
    exists rest; cbn [rest_of]; do 2 f_equal; lia.
Qed.

(** The tests pass: the random one whatever is drawn, as soon as 36 polls have gone on (11 for the
    first sum, 25 for the last), with a fuel above the number of draws. *)
Theorem future_tests_pass fuel draws :
  (36 <= goes_on draws)%nat -> (length draws < fuel)%nat -> randomly_await fuel draws = Ret tt.
Proof.
  intros Hgo Hfuel. unfold randomly_await.
  change (summation 11) with (mkSummation 11 0 0). change (summation 10) with (mkSummation 0 0 0).
  change summation2 with (mkSummation2 9 0 0 (mkSummation 0 0 0)).
  destruct (await_summation draws 11 0 0 fuel 25) as (rest & -> & Hgo1 & Hl1); [lia|done|].
  cbn [mbind outcome_bind]. change (0 + rest_of 11 0 =? 55) with true. cbn [assert mbind outcome_bind].
  destruct (await_summation rest 0 0 0 fuel 25) as (rest2 & Hr2 & Hgo2 & Hl2); [lia|lia|].
  rewrite Hr2. cbn [mbind outcome_bind rest_of]. change (0 + 0 =? 0) with true. cbn [assert mbind outcome_bind].
  destruct (await_summation2 rest2 9 0 0 0 0 0 fuel) as (rest3 & ->); [change (polls2 9 0) with 25%nat; lia|lia|].
  reflexivity.
Qed.

Lemma noblocking_tests_pass : just_await_test 1 = Ret tt /\ test_await_once_noblocking 4 = Ret tt.
Proof. by split. Qed.

Lemma future_tests_pass_witness : randomly_await 100 (concat (replicate 36 [true; false])) = Ret tt.
Proof. apply (future_tests_pass 100 (concat (replicate 36 [true; false]))); vm_compute; lia. Defined.
