(* ===== verification/LifeTask.v ===== *)
(** LifeTask: the task of the game of life, [do_lifegame] of [kernel/src/lifegame.rs], as a
    future that the executor runs among the others. *)
From S2P Require Import Prelude Pixels.
From S2P Require Import Layer.
From S2P Require Import Lifegame.
From S2P Require Import Executor.

(** What the tasks share. *)
Record World := mkWorld { w_layers : LayerManager; w_clicks : list (Z * Z); w_running : bool }.

(** Where the task waits: at the yield after so many rounds of clicks, after the flush,
    after the drawing; or it has not been polled. *)
Inductive LifePoint := NotPolled | Clicking (rounds : Z) | Flushed | Drawn.

Record LifeFuture := mkLifeFuture { point : LifePoint; life_id : Z; board : Board }.

(** [for _ in 0..100000]. *)
Definition CLICK_ROUNDS : Z := 100000.

(** A round of clicks, up to its yield. *)
Definition poll_click (id : Z) (b : Board) (rounds : Z) (w : World) :
    outcome (LifeFuture * World * Poll unit) :=
  s ← click_round id (mkLife b (w_clicks w) (w_layers w));
  Ret (mkLifeFuture (Clicking rounds) id (life_board s),
       mkWorld (life_layers s) (click_queue s) (w_running w), Pending).

Section life.
Context (format : PixcelFormat).

#[local] Instance life_future : Future LifeFuture World unit := fun self w =>
  match point self with
  | NotPolled =>
      '(lm, id) ← start_life (w_layers w) format;
      poll_click id start_board 1 (mkWorld lm (w_clicks w) (w_running w))
  | Clicking rounds =>
      if rounds <? CLICK_ROUNDS then poll_click (life_id self) (board self) (rounds + 1) w
      else
        s ← flush_round (mkLife (board self) (w_clicks w) (w_layers w));
        Ret (mkLifeFuture Flushed (life_id self) (life_board s),
             mkWorld (life_layers s) (click_queue s) (w_running w), Pending)
  | Flushed =>
      s ← process_round (life_id self) (w_running w) (mkLife (board self) (w_clicks w) (w_layers w));
      Ret (mkLifeFuture Drawn (life_id self) (life_board s),
           mkWorld (life_layers s) (click_queue s) (w_running w), Pending)
  | Drawn => poll_click (life_id self) (board self) 1 w
  end.
End life.

(** * The protocol of the tasks *)

(** A good world: a layer manager whose windows all fit on the screen, and clicks on the
    board. *)
Record world_ok (w : World) : Prop := {
  wk_layers : lm_wf (w_layers w);
  wk_screen : screen_wf (lm_writer (w_layers w));
  wk_fits : map_Forall (fun _ win => fits (lm_writer (w_layers w)) win) (layers (w_layers w));
  wk_clicks : Forall (fun c => in_board SIZE c.2 c.1) (w_clicks w);
}.

(** What no task does: resize the screen, or take away a window of a game. *)
Definition world_le (w w' : World) : Prop :=
  same_screen (lm_writer (w_layers w)) (lm_writer (w_layers w')) /\
  forall id win, layers (w_layers w) !! id = Some win -> life_window win ->
    exists win', layers (w_layers w') !! id = Some win' /\ life_window win'.

Definition life_ok (f : LifeFuture) (w : World) : Prop :=
  point f <> NotPolled /\ board_wf SIZE (board f) /\
  exists win, layers (w_layers w) !! life_id f = Some win /\ life_window win.

(** * Lemmas *)

Lemma same_screen_refl fb : same_screen fb fb.
Proof. exists (memory fb). by destruct fb. Qed.

Lemma fits_same_screen fb fb' w : same_screen fb fb' -> fits fb w -> fits fb' w.
Proof. intros [m ->] [? ? ? ? ? ?]. by split. Qed.

Lemma screen_wf_same fb fb' : same_screen fb fb' -> screen_wf fb -> screen_wf fb'.
Proof. intros [m ->] [? ? ?]. by split. Qed.

Lemma window_write_frame self x y c self' : window_write self x y c = Ret self' ->
  win_position self' = win_position self /\ rendering_handler self' = rendering_handler self.
Proof. intros H. unfold window_write in H. inv_ret. by subst. Qed.

(** Drawing the board keeps everything but the pixels of the window. *)
Lemma draw_board_ok lm id b win :
  lm_wf lm -> map_Forall (fun _ win => fits (lm_writer lm) win) (layers lm) ->
  layers lm !! id = Some win -> life_window win -> board_wf SIZE b ->
  exists win', draw_board lm id b = Ret (set_layers lm (<[id := win']> (layers lm))) /\
    life_window win' /\ lm_wf (set_layers lm (<[id := win']> (layers lm))) /\
    map_Forall (fun _ win => fits (lm_writer lm) win) (<[id := win']> (layers lm)).
Proof.
  intros Hlm Hfits Hid Hwin Hb.
  destruct (draw_board_shows lm id b win Hid Hwin Hb) as (win' & Hd & Hwin' & _).
  exists win'. split; [done|]. split; [done|]. split.
  - eapply lm_wf_update; [done..|]. intros _. apply Hwin'.
  - apply map_Forall_insert_2; [|done]. destruct (Hfits _ _ Hid) as [? ? ? ? ? ?].
    assert (Hkeep : win_position win' = win_position win /\
                    rendering_handler win' = rendering_handler win).
    { unfold draw_board in Hd. rewrite Hid in Hd. cbn [unwrap mbind outcome_bind] in Hd.
      apply bind_Ret_inv in Hd as (win1 & Hr & Hd). injection Hd as Hd.
      assert (win1 = win') as ->.
      { assert (Hl : <[id := win1]> (layers lm) !! id = <[id := win']> (layers lm) !! id)
          by (by rewrite Hd). rewrite !lookup_insert_eq in Hl. congruence. }
      eapply (render_board_keeps (fun v => win_position v = win_position win /\
        rendering_handler v = rendering_handler win)); [|done|exact Hr].
      intros v x y c v' [Hp Hh] Hv. apply window_write_frame in Hv as [-> ->]. done. }
    destruct Hkeep as [Hp Hh]. destruct Hwin as (_ & Hw & Hht). destruct Hwin' as (_ & Hw' & Hht').
    split; rewrite ?Hp, ?Hh, ?Hw', ?Hht'; rewrite ?Hw, ?Hht in *; done.
Qed.

Lemma poll_click_safe id b rounds w :
  world_ok w -> life_ok (mkLifeFuture (Clicking rounds) id b) w ->
  exists f' w', poll_click id b rounds w = Ret (f', w', Pending) /\
    world_ok w' /\ world_le w w' /\ life_ok f' w'.
Proof.
  intros [Hlm Hsc Hfits Hcl] (_ & Hb & win & Hwin & Hlife). simpl in *.
  unfold poll_click, click_round. simpl.
  destruct (apply_clicks_live _ _ Hb Hcl) as (b' & -> & Hb' & _). cbn [mbind outcome_bind].
  destruct (w_clicks w) as [|c cs].
  - cbn [mbind outcome_bind]. eexists _, _. split; [done|]. simpl. split; [by split; simpl|].
    split; [split; [apply same_screen_refl|simpl; eauto]|]. split; [done|]. eauto.
  - destruct (draw_board_ok (w_layers w) id b' win) as (win' & -> & Hlife' & Hlm' & Hfits'); [done..|].
    cbn [mbind outcome_bind]. eexists _, _. split; [done|]. simpl.
    split; [split; simpl; try done; constructor|]. split.
    + split; [apply same_screen_refl|]. simpl. intros i wi Hi Hwi.
      destruct (decide (i = id)) as [->|Hne]; simplify_map_eq; eauto.
    + split; [done|]. split; [done|]. exists win'. simpl. by rewrite lookup_insert_eq.
Qed.

Lemma flush_round_safe b w : world_ok w ->
  exists lm, flush_round (mkLife b (w_clicks w) (w_layers w)) = Ret (mkLife b (w_clicks w) lm) /\
    layers lm = layers (w_layers w) /\ lm_wf lm /\
    same_screen (lm_writer (w_layers w)) (lm_writer lm).
Proof.
  intros [Hlm Hsc Hfits Hcl].
  destruct (flush_stack_paints (layers (w_layers w)) (layer_stack (w_layers w)) (lm_writer (w_layers w)) Hsc)
    as (fb & Hf & Hsame & _).
  - intros i Hi. destruct (lmw_known _ Hlm i Hi) as [wi Hwi]. exists wi. split; [done|].
    split; [by eapply Hfits|]. apply (lmw_windows _ Hlm i wi Hwi).
  - unfold flush_round, lm_flush. simpl. rewrite Hf. cbn [mbind outcome_bind].
    eexists. split; [done|]. split; [done|]. split; [by destruct Hlm|done].
Qed.

Lemma world_le_trans w1 w2 w3 : world_le w1 w2 -> world_le w2 w3 -> world_le w1 w3.
Proof.
  intros [[m1 H1] Hw1] [[m2 H2] Hw2]. split.
  - exists m2. by rewrite H2, H1.
  - intros id win Hid Hl. destruct (Hw1 id win Hid Hl) as (win' & Hid' & Hl'). eauto.
Qed.

Lemma life_ok_stable f w w' : life_ok f w -> world_le w w' -> life_ok f w'.
Proof.
  intros (Hp & Hb & win & Hwin & Hlife) [_ Hle]. split; [done|]. split; [done|]. eauto.
Qed.

Lemma life_safe format : Safe (FU := life_future format) world_ok world_le life_ok.
Proof.
  split; [apply life_ok_stable|]. intros f w Hw Hok. pose proof Hok as (Hp & Hb & win & Hwin & Hlife).
  unfold poll, life_future. destruct f as [[|rounds| |] id b]; simpl in *; [done| | |].
  - destruct (rounds <? CLICK_ROUNDS).
    + destruct (poll_click_safe id b (rounds + 1) w Hw) as (f' & w' & Hr & Hw' & Hle & Hok'); [by split; eauto|].
      exists f', w', Pending. by split_and!.
    + destruct (flush_round_safe b w Hw) as (lm & -> & Hl & Hlm & Hsame). cbn [mbind outcome_bind].
      eexists _, _, _. split; [done|]. destruct Hw as [_ Hsc Hfits Hcl]. simpl. split_and!.
      * split; simpl; try done; [by eapply screen_wf_same|]. rewrite Hl.
        intros i wi Hi. eapply fits_same_screen; [done|]. by eapply Hfits.
      * split; simpl; [done|]. rewrite Hl. eauto.
      * intros _. split; [done|]. split; [done|]. exists win. simpl. by rewrite Hl.
  - unfold process_round. simpl.
    assert (exists b', (if w_running w then process SIZE b else Ret b) = Ret b' /\ board_wf SIZE b')
      as (b' & -> & Hb').
    { destruct (w_running w); [|by exists b].
      destruct (process_live SIZE b) as (b' & ? & ? & _); [done|done|]. by exists b'. }
    cbn [mbind outcome_bind]. destruct Hw as [Hlm Hsc Hfits Hcl].
    destruct (draw_board_ok (w_layers w) id b' win) as (win' & -> & Hlife' & Hlm' & Hfits'); [done..|].
    cbn [mbind outcome_bind]. eexists _, _, _. split; [done|]. simpl. split_and!.
    + by split; simpl.
    + split; [apply same_screen_refl|]. simpl. intros i wi Hi Hwi.
      destruct (decide (i = id)) as [->|Hne]; simplify_map_eq; eauto.
    + intros _. split; [done|]. split; [done|]. exists win'. simpl. by rewrite lookup_insert_eq.
  - destruct (poll_click_safe id b 1 w Hw) as (f' & w' & Hr & Hw' & Hle & Hok'); [by split; eauto|].
    exists f', w', Pending. by split_and!.
Qed.

(** The window of the game. *)
Lemma game_window format : exists n win, mul_w 64 SIZE PIXCEL_SIZE = Ret n /\
  window_new n n format None (mkPosition 0 0) = Ret win /\ life_window win /\
  rendering_handler win = format /\ win_position win = mkPosition 0 0.
Proof.
  exists (20 * 30). unfold SIZE, PIXCEL_SIZE. rewrite mul_w_Ret by lia. unfold window_new.
  rewrite mul_w_Ret by lia. cbn [mbind outcome_bind]. rewrite mul_w_Ret by lia. cbn [mbind outcome_bind].
  eexists. split; [reflexivity|]. split; [reflexivity|]. split; [|by split]. split; [|split].
  - apply (window_new_wf (20 * 30) (20 * 30) format None (mkPosition 0 0)); [lia|lia|].
    unfold window_new. rewrite mul_w_Ret by lia. cbn [mbind outcome_bind].
    rewrite mul_w_Ret by lia. done.
  - unfold width. cbn [pixels]. rewrite length_replicate. done.
  - rewrite win_height_replicate by lia. done.
Qed.

(** The first poll makes the window, when there is an id left and the window fits. *)
Lemma life_starts format w :
  world_ok w -> latest_unused_id (w_layers w) < uninitialized_id ->
  Z.min (SIZE * PIXCEL_SIZE) (horizontal_resolution (lm_writer (w_layers w)))
    <= vertical_resolution (lm_writer (w_layers w)) ->
  format = pixcel_format (lm_writer (w_layers w)) ->
  exists f' w', poll (Future := life_future format) (mkLifeFuture NotPolled 0 []) w = Ret (f', w', Pending) /\
    world_ok w' /\ world_le w w' /\ life_ok f' w'.
Proof.
  intros Hw Hid Hrows Hfmt. pose proof Hw as [Hlm Hsc Hfits Hcl].
  unfold poll, life_future. simpl. unfold start_life.
  destruct (game_window format) as (n & win & -> & Hnew & Hlife & Hhandler & Hpos).
  cbn [mbind outcome_bind]. rewrite Hnew. cbn [mbind outcome_bind].
  assert (Hfit : fits (lm_writer (w_layers w)) win).
  { destruct Hlife as (_ & Hwd & Hht). destruct Hsc as [? ? ?]. unfold SIZE, PIXCEL_SIZE in *.
    split; rewrite ?Hpos, ?Hwd, ?Hht; simpl; first [lia|by rewrite Hhandler]. }
  unfold new_layer. unfold assert at 1. rewrite (proj2 (Z.ltb_lt _ _) Hid).
  cbn [mbind outcome_bind].
  destruct (lm_wf_new_layer (w_layers w) win (mkLayerManager (lm_writer (w_layers w))
    (latest_unused_id (w_layers w) :: layer_stack (w_layers w))
    (<[latest_unused_id (w_layers w) := win]> (layers (w_layers w)))
    ((latest_unused_id (w_layers w) + 1) mod 2 ^ 64)) (latest_unused_id (w_layers w)))
    as (Hlm' & _ & Hnone & _); [apply Hlife|done| |].
  { unfold new_layer. by rewrite (proj2 (Z.ltb_lt _ _) Hid). }
  match goal with |- context [poll_click ?id ?b ?k ?w1] =>
    destruct (poll_click_safe id b k w1) as (f' & w' & Hr & Hw' & Hle & Hok) end.
  - split; simpl; [done|done| |done]. by apply map_Forall_insert_2.
  - split; [done|]. split; [exact start_board_wf|]. exists win. simpl. by rewrite lookup_insert_eq.
  - exists f', w'. split; [exact Hr|]. split; [done|]. split; [|done].
    eapply world_le_trans; [|exact Hle]. split; [apply same_screen_refl|]. simpl.
    intros i wi Hi Hwi. destruct (decide (i = latest_unused_id (w_layers w))) as [->|Hne];
      simplify_map_eq. eauto.
Qed.

(** ** Two kinds of tasks in one executor *)

#[global] Instance sum_future {F G W A} `{FF : Future F W A} `{FG : Future G W A} :
  Future (F + G) W A := fun self w =>
  match self with
  | inl f => '(f, w, r) ← poll f w; Ret (inl f, w, r)
  | inr g => '(g, w, r) ← poll g w; Ret (inr g, w, r)
  end.

Lemma sum_safe {F G W} `{FF : Future F W unit} `{FG : Future G W unit} inv le
    (okF : F -> W -> Prop) (okG : G -> W -> Prop) :
  Safe (FU := FF) inv le okF -> Safe (FU := FG) inv le okG ->
  Safe (F := F + G) inv le (fun s w => match s with inl f => okF f w | inr g => okG g w end).
Proof.
  intros HF HG. split.
  - intros [f|g] w w' Hok Hle; by eapply ok_stable.
  - intros [f|g] w Hw Hok; unfold poll, sum_future; simpl.
    + destruct (poll_safe (inv := inv) (Safe := HF) f w Hw Hok) as (f' & w' & r & -> & H).
      cbn [mbind outcome_bind]. by exists (inl f'), w', r.
    + destruct (poll_safe (inv := inv) (Safe := HG) g w Hw Hok) as (g' & w' & r & -> & H).
      cbn [mbind outcome_bind]. by exists (inr g'), w', r.
Qed.

(** * Property *)

(** C24: the game spawned in front of any tasks that keep to the protocol (they return from
    every poll, keep the windows fitting and the clicks on the board, and take no window of
    a game away) runs for any number of turns of the executor without a panic, and the
    world stays good. *)
Theorem life_task_safe {G} `{FG : Future G World unit} (okG : G -> World -> Prop) format
    (others : list (Task G)) w n :
  Safe (FU := FG) world_ok world_le okG ->
  world_ok w -> latest_unused_id (w_layers w) < uninitialized_id ->
  Z.min (SIZE * PIXCEL_SIZE) (horizontal_resolution (lm_writer (w_layers w)))
    <= vertical_resolution (lm_writer (w_layers w)) ->
  format = pixcel_format (lm_writer (w_layers w)) ->
  Forall (fun t => okG (future t) w) others ->
  exists self' w',
    run_turns (FU := sum_future (FF := life_future format)) (S n)
      (mkExecutor (mkTask Default (inl (mkLifeFuture NotPolled 0 [])) ::
         ((fun t => mkTask (priority t) (inr (future t))) <$> others))) w = Ret (self', w') /\
    world_ok w'.
Proof.
  intros HG Hw Hid Hrows Hfmt Hothers. pose proof HG as [Hstable _].
  destruct (life_starts format w Hw Hid Hrows Hfmt) as (f' & w1 & Hstart & Hw1 & Hle & Hok).
  pose proof (sum_safe world_ok world_le life_ok okG (life_safe format) HG) as Hsafe.
  cbn [run_turns]. unfold run_turn, task_poll. cbn [task_queue future priority].
  unfold poll in Hstart. unfold poll at 1.
  match goal with |- context [sum_future (inl ?f) w] =>
    assert (sum_future (FF := life_future format) (FG := FG) (inl f) w = Ret (inl f', w1, Pending))
      as -> by (unfold sum_future, poll; by rewrite Hstart) end.
  cbn [mbind outcome_bind].
  edestruct (run_turns_safe (FU := sum_future (FF := life_future format)) world_ok world_le _
    (Safe0 := Hsafe) n) as (self' & w' & Hr & Hw' & _); [exact Hw1| |by exists self', w'].
  cbn [task_queue]. apply Forall_app_2; [|constructor; [exact Hok|constructor]].
  apply Forall_fmap. eapply Forall_impl; [exact Hothers|]. intros t Ht. exact (Hstable _ _ _ Ht Hle).
Qed.

(** * Witness *)

(** The other task only yields. *)
Definition demo_world : World :=
  mkWorld (mkLayerManager (get_writer (mkGraphicsInfo 800 600 800 0x1000 Rgb) ∅) [] ∅ 0) [] true.

Lemma yield_safe : Safe (FU := pending_once_future) world_ok world_le (fun _ _ => True).
Proof.
  split; [done|]. intros [p] w Hw _. unfold poll, pending_once_future. simpl.
  destruct p; (eexists _, _, _; split; [done|]); split_and!; try done;
    (split; [apply same_screen_refl|eauto]).
Qed.

Lemma life_task_safe_witness :
  exists self' w',
    run_turns (FU := sum_future (FF := life_future Rgb) (FG := pending_once_future)) (S 1000)
      (mkExecutor (mkTask Default (inl (mkLifeFuture NotPolled 0 [])) ::
         ((fun t => mkTask (priority t) (inr (future t))) <$> [mkTask High yield_pending])))
      demo_world = Ret (self', w') /\
    world_ok w'.
Proof.
  refine (life_task_safe (FG := pending_once_future) (fun _ _ => True) Rgb
    [mkTask High yield_pending] demo_world 1000 yield_safe _ _ _ _ _).
  - split; simpl; [|split; simpl; lia|apply map_Forall_empty|constructor].
    apply (lm_wf_new (get_writer (mkGraphicsInfo 800 600 800 0x1000 Rgb) ∅)).
  - reflexivity.
  - unfold SIZE, PIXCEL_SIZE. simpl. lia.
  - reflexivity.
  - repeat constructor.
Defined.
