(* ===== verification/Callbacks.v ===== *)
(** Callbacks: what the keyboard and the mouse do ([usb/class_driver/callbacks.rs]): the keys are
    typed on the console and a space stops or resumes the game; the mouse moves its cursor, a
    layer of its own, and its left button clicks on the board. *)
From Stdlib Require Import Ascii.
From stdpp Require Import strings.
From S2P Require Import Prelude Pixels.
From S2P Require Import Console.
From S2P Require Import Layer.
From S2P Require Import Lifegame.
From S2P Require Import Executor.
From S2P Require Import LifeTask.

#[local] Open Scope Z_scope.

(** * The cursor *)

Inductive MouseCursorPixel := BackGround | Frame | Cursor.

Definition color_of_cursor_pixel (p : MouseCursorPixel) : Color :=
  match p with
  | BackGround => mkColor 173 216 230
  | Frame => mkColor 0 0 0
  | Cursor => mkColor 255 255 255
  end.

(** [to]; the other characters panic. *)
Definition cursor_pixel_of (c : Ascii.ascii) : outcome MouseCursorPixel :=
  if Ascii.eqb c " "%char then Ret BackGround
  else if Ascii.eqb c "@"%char then Ret Frame
  else if Ascii.eqb c "."%char then Ret Cursor
  else Panic.

Fixpoint decode (s : string) : outcome (list MouseCursorPixel) :=
  match s with
  | EmptyString => Ret []
  | String c s => p ← cursor_pixel_of c; ps ← decode s; Ret (p :: ps)
  end.

Definition MOUSE_CURSOR_WIDTH : Z := 15.
Definition MOUSE_CURSOR_HEIGHT : Z := 24.

Definition MOUSE_CURSOR_STRINGS : list string :=
  ["@              ";
   "@@             ";
   "@.@            ";
   "@..@           ";
   "@...@          ";
   "@....@         ";
   "@.....@        ";
   "@......@       ";
   "@.......@      ";
   "@........@     ";
   "@.........@    ";
   "@..........@   ";
   "@...........@  ";
   "@............@ ";
   "@......@@@@@@@@";
   "@......@       ";
   "@....@@.@      ";
   "@...@ @.@      ";
   "@..@   @.@     ";
   "@.@    @.@     ";
   "@@      @.@    ";
   "@       @.@    ";
   "         @.@   ";
   "         @@@   "]%string.

(** [arraify!], evaluated at compile time. *)
Fixpoint arraify (rows : list string) : outcome (list (list MouseCursorPixel)) :=
  match rows with
  | [] => Ret []
  | s :: rows => r ← decode s; rs ← arraify rows; Ret (r :: rs)
  end.

Definition MOUSE_CURSOR_ROWS : list (list MouseCursorPixel) :=
  Eval vm_compute in match arraify MOUSE_CURSOR_STRINGS with Ret rows => rows | _ => [] end.

Definition MOUSE_CURSOR_SHAPE : Shape :=
  array_shape color_of_cursor_pixel MOUSE_CURSOR_WIDTH MOUSE_CURSOR_ROWS.

(** [init_mouse_cursor_layer]; the id also becomes [MOUSE_LAYER_ID]. *)
Definition init_mouse_cursor_layer (lm : LayerManager) (format : PixcelFormat) :
    outcome (LayerManager * Z) :=
  window ← window_new (get_width MOUSE_CURSOR_SHAPE) (get_height MOUSE_CURSOR_SHAPE) format
    (Some (color_of_cursor_pixel BackGround)) (mkPosition 0 0);
  '(lm, id) ← new_layer lm window;
  lm ← move_relative lm id 0 0;
  layer ← unwrap (layers lm !! id);
  layer ← fill_shape (mkVec 0 0) MOUSE_CURSOR_SHAPE layer;
  Ret (set_layers lm (<[id := layer]> (layers lm)), id).

(** * The key maps *)

Definition L_SHIFT_BITMASK : Z := 2.
Definition R_SHIFT_BITMASK : Z := 32.

(** The characters by their code points; [NULL] is 0 and [BS] is 8. *)
Definition KEYCODE_MAP : list Z :=
  [0; 0; 0; 0; 97; 98; 99; 100;
   101; 102; 103; 104; 105; 106; 107; 108;
   109; 110; 111; 112; 113; 114; 115; 116;
   117; 118; 119; 120; 121; 122; 49; 50;
   51; 52; 53; 54; 55; 56; 57; 48;
   10; 8; 8; 9; 32; 45; 61; 91;
   93; 92; 35; 59; 39; 96; 44; 46;
   47; 0; 0; 0; 0; 0; 0; 0;
   0; 0; 0; 0; 0; 0; 0; 0;
   0; 0; 0; 0; 0; 0; 0; 0;
   0; 0; 0; 0; 47; 42; 45; 43;
   10; 49; 50; 51; 52; 53; 54; 55;
   56; 57; 48; 46; 92; 0; 0; 61;
   0; 0; 0; 0; 0; 0; 0; 0;
   0; 0; 0; 0; 0; 0; 0; 0;
   0; 0; 0; 0; 0; 0; 0; 0;
   0; 0; 0; 0; 0; 0; 0; 0;
   0; 92; 0; 0; 0; 0; 0; 0].

Definition KEYCODE_MAP_SHIFTED : list Z :=
  [0; 0; 0; 0; 65; 66; 67; 68;
   69; 70; 71; 72; 73; 74; 75; 76;
   77; 78; 79; 80; 81; 82; 83; 84;
   85; 86; 87; 88; 89; 90; 33; 64;
   35; 36; 37; 94; 38; 42; 40; 41;
   10; 8; 8; 9; 32; 95; 43; 123;
   125; 124; 126; 58; 34; 126; 60; 62;
   63; 0; 0; 0; 0; 0; 0; 0;
   0; 0; 0; 0; 0; 0; 0; 0;
   0; 0; 0; 0; 0; 0; 0; 0;
   0; 0; 0; 0; 47; 42; 45; 43;
   10; 49; 50; 51; 52; 53; 54; 55;
   56; 57; 48; 46; 92; 0; 0; 61;
   0; 0; 0; 0; 0; 0; 0; 0;
   0; 0; 0; 0; 0; 0; 0; 0;
   0; 0; 0; 0; 0; 0; 0; 0;
   0; 0; 0; 0; 0; 0; 0; 0;
   0; 124; 0; 0; 0; 0; 0; 0].

(** * The callbacks *)

(** What the callbacks work on: the layers, the clicks and the flag of the game, the console, and
    [MOUSE_LAYER_ID]. *)
Record Desktop := mkDesktop {
  desk_world : World;
  desk_console : Writer FrameBuffer;
  mouse_layer_id : Z;
}.

(** [x as i8]. *)
Definition as_i8 (x : Z) : Z := if x <? 128 then x else x - 256.

(** The click of the left button: where the cursor is. *)
Definition record_click (left_click : bool) (id : Z) (w : World) : outcome (list (Z * Z)) :=
  if left_click then
    layer ← unwrap (layers (w_layers w) !! id);
    let pos := win_position layer in
    cell ← frame_buffer_position_to_board_position (mkVec (pos_x pos) (pos_y pos));
    Ret (match cell with Some pos => w_clicks w ++ [pos] | None => w_clicks w end)
  else Ret (w_clicks w).

(** [_mouse]. *)
Definition mouse_callback (d : Desktop) (_address : Z) (buf : list Z) : outcome Desktop :=
  b1 ← unwrap (buf !! 1%nat);
  b2 ← unwrap (buf !! 2%nat);
  b0 ← unwrap (buf !! 0%nat);
  let left_click := negb (Z.land b0 1 =? 0) in
  let w := desk_world d in
  clicks ← record_click left_click (mouse_layer_id d) w;
  lm ← move_relative (w_layers w) (mouse_layer_id d) (as_i8 b1) (as_i8 b2);
  Ret (mkDesktop (mkWorld lm clicks (w_running w)) (desk_console d) (mouse_layer_id d)).

(** The character of a key. *)
Definition key_char (shifted : bool) (keycode : Z) : outcome (option Z) :=
  if keycode =? 0 then Ret None
  else c ← unwrap ((if shifted then KEYCODE_MAP_SHIFTED else KEYCODE_MAP) !! Z.to_nat keycode);
       Ret (Some c).

Section callbacks.
Context (FONT : list (list Z)) (N_ROW N_COLUMN : Z).

(** [print_and_flush!]. *)
Definition print_and_flush (self : Writer FrameBuffer) (s : list Z) : outcome (Writer FrameBuffer) :=
  self ← put_string FONT N_ROW N_COLUMN self s;
  flush FONT N_ROW N_COLUMN self.

(** The chain of iterators: key by key, so that what comes before a panic is typed. *)
Fixpoint type_keys (shifted : bool) (keys : list Z) (running : bool) (console : Writer FrameBuffer) :
    outcome (bool * Writer FrameBuffer) :=
  match keys with
  | [] => Ret (running, console)
  | keycode :: keys =>
      c ← key_char shifted keycode;
      match c with
      | None => type_keys shifted keys running console
      | Some c =>
          let running := if c =? space then negb running else running in
          console ← print_and_flush console [c];
          type_keys shifted keys running console
      end
  end.

(** [_keyboard]. *)
Definition keyboard_callback (d : Desktop) (_address : Z) (buf : list Z) : outcome Desktop :=
  b0 ← unwrap (buf !! 0%nat);
  let shifted := negb (Z.land b0 (Z.lor L_SHIFT_BITMASK R_SHIFT_BITMASK) =? 0) in
  let w := desk_world d in
  '(running, console) ← type_keys shifted (drop 1 buf) (w_running w) (desk_console d);
  Ret (mkDesktop (mkWorld (w_layers w) (w_clicks w) running) console (mouse_layer_id d)).

(** * Lemmas *)

(** What the keys type, and the number of spaces among it. *)
Definition typed (shifted : bool) (keys : list Z) : list Z :=
  omap (fun keycode => if keycode =? 0 then None else
    (if shifted then KEYCODE_MAP_SHIFTED else KEYCODE_MAP) !! Z.to_nat keycode) keys.

Definition spaces (s : list Z) : nat := length (filter (fun c => c = space) s).

Lemma spaces_cons (c : Z) (s : list Z) : spaces (c :: s) = if decide (c = space) then S (spaces s) else spaces s.
Proof. unfold spaces. rewrite filter_cons. by case_decide. Qed.

Lemma typed_cons (shifted : bool) k keys c : k <> 0 ->
  (if shifted then KEYCODE_MAP_SHIFTED else KEYCODE_MAP) !! Z.to_nat k = Some c ->
  typed shifted (k :: keys) = c :: typed shifted keys.
Proof. intros Hk Hc. unfold typed. cbn. by rewrite (proj2 (Z.eqb_neq _ _) Hk), Hc. Qed.

Context (Hfont : Forall (fun glyph => length glyph = 16%nat) FONT)
  (Hrow : 0 < N_ROW) (Hcol : 0 < N_COLUMN)
  (Hrows : 16 * N_ROW < 2 ^ 64) (Hcols : 8 * N_COLUMN < 2 ^ 64).

Lemma print_and_flush_shows self t s : shows N_ROW N_COLUMN self t ->
  exists self', print_and_flush self s = Ret self' /\
    shows N_ROW N_COLUMN self' (term_puts N_ROW N_COLUMN t s).
Proof.
  intros Hs. unfold print_and_flush.
  destruct (put_string_shows FONT N_ROW N_COLUMN Hfont Hrow Hcol Hrows Hcols s self t Hs)
    as (s1 & -> & Hs1). cbn [mbind outcome_bind].
  by apply flush_shows_term.
Qed.

Lemma key_tables shifted :
  length (if shifted : bool then KEYCODE_MAP_SHIFTED else KEYCODE_MAP) = 144%nat.
Proof. by destruct shifted. Qed.

Lemma type_keys_shows shifted keys : forall running console t,
  Forall (fun k => 0 <= k < 144) keys -> shows N_ROW N_COLUMN console t ->
  exists console', type_keys shifted keys running console =
      Ret (xorb running (Nat.odd (spaces (typed shifted keys))), console') /\
    shows N_ROW N_COLUMN console' (term_puts N_ROW N_COLUMN t (typed shifted keys)).
Proof.
  induction keys as [|k keys IH]; intros running console t Hkeys Hs.
  - exists console. simpl. by rewrite xorb_false_r.
  - inversion Hkeys as [|? ? Hk Hkeys']; subst. cbn [type_keys]. unfold key_char.
    destruct (Z.eqb_spec k 0) as [->|Hne]; [by apply IH|].
    destruct (lookup_lt_is_Some_2 (if shifted then KEYCODE_MAP_SHIFTED else KEYCODE_MAP) (Z.to_nat k))
      as [c Hc]; [rewrite key_tables; lia|].
    rewrite (typed_cons _ _ _ _ Hne Hc), spaces_cons, Hc. cbn [unwrap mbind outcome_bind].
    destruct (print_and_flush_shows console t [c] Hs) as (c1 & -> & Hs1). cbn [mbind outcome_bind].
    destruct (IH (if c =? space then negb running else running) c1 _ Hkeys' Hs1) as (c2 & -> & Hs2).
    exists c2. split; [|exact Hs2]. do 2 f_equal.
    destruct (decide (c = space)) as [->|Hc'].
    + rewrite Z.eqb_refl, Nat.odd_succ, <- Nat.negb_odd. by destruct running, (Nat.odd _).
    + by rewrite (proj2 (Z.eqb_neq _ _) Hc').
Qed.

End callbacks.

(** The cell of the board under a position. *)
Definition cell_at (p : Position) : option (Z * Z) :=
  let x := pos_x p / PIXCEL_SIZE in let y := pos_y p / PIXCEL_SIZE in
  if decide (x < SIZE /\ y < SIZE) then Some (x, y) else None.

Lemma as_isize_id x : x < 2 ^ 63 -> as_isize x = x.
Proof. intros Hx. unfold as_isize. by rewrite decide_True. Qed.

Lemma sub_isize_Ret x y : - 2 ^ 63 <= x - y < 2 ^ 63 -> sub_isize x y = Ret (x - y).
Proof. intros H. unfold sub_isize. by rewrite decide_True. Qed.

Lemma add_isize_Ret x y : - 2 ^ 63 <= x + y < 2 ^ 63 -> add_isize x y = Ret (x + y).
Proof. intros H. unfold add_isize. by rewrite decide_True. Qed.

Lemma board_position_at p : 0 <= pos_x p < 2 ^ 63 -> 0 <= pos_y p < 2 ^ 63 ->
  frame_buffer_position_to_board_position (mkVec (pos_x p) (pos_y p)) = Ret (cell_at p).
Proof.
  intros Hx Hy. unfold frame_buffer_position_to_board_position. cbn [vx vy BOARD_POS].
  rewrite !as_isize_id by lia. rewrite sub_isize_Ret by lia. cbn [mbind outcome_bind].
  rewrite sub_isize_Ret by lia. cbn [mbind outcome_bind]. rewrite !Z.sub_0_r.
  rewrite (proj2 (Z.ltb_ge (pos_x p) 0)), (proj2 (Z.ltb_ge (pos_y p) 0)) by lia. cbn [orb].
  unfold cell_at. cbv zeta. destruct (Z.leb_spec SIZE (pos_x p / PIXCEL_SIZE)), (Z.leb_spec SIZE (pos_y p / PIXCEL_SIZE));
    cbn [orb]; case_decide; first [done | lia].
Qed.

Lemma as_i8_range x : 0 <= x < 256 -> -128 <= as_i8 x < 128.
Proof. intros Hx. unfold as_i8. destruct (Z.ltb_spec x 128); lia. Qed.

Lemma shift_mask m :
  negb (Z.land m (Z.lor L_SHIFT_BITMASK R_SHIFT_BITMASK) =? 0) = Z.testbit m 1 || Z.testbit m 5.
Proof.
  change (Z.lor L_SHIFT_BITMASK R_SHIFT_BITMASK) with 34.
  destruct (Z.eqb_spec (Z.land m 34) 0) as [H0|Hne]; cbn [negb].
  - pose proof (f_equal (fun z => Z.testbit z 1) H0) as H1.
    pose proof (f_equal (fun z => Z.testbit z 5) H0) as H5. cbn beta in H1, H5.
    rewrite Z.land_spec, Z.bits_0 in H1, H5. change (Z.testbit 34 1) with true in H1.
    change (Z.testbit 34 5) with true in H5. rewrite andb_true_r in H1, H5. by rewrite H1, H5.
  - destruct (Z.testbit m 1) eqn:H1, (Z.testbit m 5) eqn:H5; try done.
    destruct Hne. apply Z.bits_inj'. intros i Hi. rewrite Z.land_spec, Z.bits_0.
    destruct (decide (i = 1)) as [->|H1']; [by rewrite H1|].
    destruct (decide (i = 5)) as [->|H5']; [by rewrite H5|].
    change 34 with (Z.lor (2 ^ 1) (2 ^ 5)). rewrite Z.lor_spec, !Z.pow2_bits_eqb by done.
    rewrite (proj2 (Z.eqb_neq 1 i)), (proj2 (Z.eqb_neq 5 i)) by done. apply andb_false_r.
Qed.

(** The tables end at key code 143: a report with a higher one panics. *)
Lemma high_key_panics shifted k : 144 <= k -> key_char shifted k = Panic.
Proof.
  intros Hk. unfold key_char. rewrite (proj2 (Z.eqb_neq k 0)) by lia.
  rewrite lookup_ge_None_2; [done|]. rewrite key_tables. lia.
Qed.

(** * Properties *)

(** A keyboard report types the characters of its keys, shifted or not, in order, and what
    was on the console stays on the terminal; each space flips the flag of the game; nothing
    else changes.  Key codes below 144 do not panic. *)
Theorem keyboard_types FONT N_ROW N_COLUMN d t address modifiers keys :
  Forall (fun glyph => length glyph = 16%nat) FONT -> 0 < N_ROW -> 0 < N_COLUMN ->
  16 * N_ROW < 2 ^ 64 -> 8 * N_COLUMN < 2 ^ 64 ->
  shows N_ROW N_COLUMN (desk_console d) t -> Forall (fun k => 0 <= k < 144) keys ->
  let shifted := Z.testbit modifiers 1 || Z.testbit modifiers 5 in
  let w := desk_world d in
  exists console',
    keyboard_callback FONT N_ROW N_COLUMN d address (modifiers :: keys) =
      Ret (mkDesktop (mkWorld (w_layers w) (w_clicks w)
             (xorb (w_running w) (Nat.odd (spaces (typed shifted keys))))) console' (mouse_layer_id d)) /\
    shows N_ROW N_COLUMN console' (term_puts N_ROW N_COLUMN t (typed shifted keys)).
Proof.
  intros Hfont Hrow Hcol Hrows Hcols Hs Hkeys shifted w. unfold keyboard_callback.
  cbn [lookup list_lookup unwrap mbind outcome_bind]. fold w.
  rewrite shift_mask. fold shifted.
  destruct (type_keys_shows FONT N_ROW N_COLUMN Hfont Hrow Hcol Hrows Hcols shifted keys
    (w_running w) (desk_console d) t Hkeys Hs) as (console' & Ht & Hs').
  exists console'. split; [|exact Hs'].
  change (drop 1 (modifiers :: keys)) with keys. by rewrite Ht.
Qed.

(** A mouse report moves the cursor by its two signed bytes, not beyond the upper left corner, and
    the left button clicks on the cell of the board where the cursor was; nothing else changes. *)
Lemma mouse_moves d address buttons dx dy win :
  layers (w_layers (desk_world d)) !! mouse_layer_id d = Some win ->
  0 <= pos_x (win_position win) < 2 ^ 62 -> 0 <= pos_y (win_position win) < 2 ^ 62 ->
  0 <= dx < 256 -> 0 <= dy < 256 ->
  let w := desk_world d in let p := win_position win in
  mouse_callback d address [buttons; dx; dy] =
    Ret (mkDesktop (mkWorld
      (set_layers (w_layers w) (<[mouse_layer_id d := set_win_position win
         (mkPosition (Z.max 0 (pos_x p + as_i8 dx)) (Z.max 0 (pos_y p + as_i8 dy)))]> (layers (w_layers w))))
      (w_clicks w ++ (if Z.land buttons 1 =? 0 then [] else option_list (cell_at p)))
      (w_running w)) (desk_console d) (mouse_layer_id d)).
Proof.
  intros Hwin Hx Hy Hdx Hdy w p. pose proof (as_i8_range dx Hdx). pose proof (as_i8_range dy Hdy).
  unfold mouse_callback. cbn [lookup list_lookup unwrap mbind outcome_bind]. fold w.
  assert (Hclick : record_click (negb (Z.land buttons 1 =? 0)) (mouse_layer_id d) w =
    Ret (w_clicks w ++ (if Z.land buttons 1 =? 0 then [] else option_list (cell_at p)))).
  { unfold record_click. destruct (Z.land buttons 1 =? 0); cbn [negb]; [by rewrite app_nil_r|].
    unfold w. rewrite Hwin. cbn [unwrap mbind outcome_bind]. rewrite board_position_at by lia.
    cbn [mbind outcome_bind]. fold p. destruct (cell_at p); simpl; [done|by rewrite app_nil_r]. }
  rewrite Hclick. cbn [mbind outcome_bind]. unfold move_relative, win_move_relative. fold w in Hwin.
  rewrite Hwin. fold p. rewrite !as_isize_id by (unfold p; lia).
  rewrite add_isize_Ret by (unfold p; lia). cbn [mbind outcome_bind].
  rewrite add_isize_Ret by (unfold p; lia). cbn [mbind outcome_bind].
  assert (Hmax : forall x, to_usize_or_0 x = Z.max 0 x) by (intros x; unfold to_usize_or_0; case_decide; lia).
  by rewrite !Hmax.
Qed.

(** * Witness *)

Definition demo_desktop : Desktop :=
  mkDesktop (mkWorld (layer_manager_new demo_device) [] true) (writer_new 2 4 demo_device) 0.

Lemma demo_desktop_shows : shows 2 4 (desk_console demo_desktop) term_new.
Proof. destruct demo_setup. by apply writer_new_shows. Qed.

(** Shift with h, i and the space bar. *)
Lemma keyboard_types_witness :
  exists console', keyboard_callback demo_font 2 4 demo_desktop 1 [2; 0; 11; 12; 44; 0; 0; 0] =
      Ret (mkDesktop (mkWorld (layer_manager_new demo_device) [] false) console' 0) /\
    shows 2 4 console' (term_puts 2 4 term_new [72; 73; 32]).
Proof.
  destruct demo_setup as [Hf Hr Hc _ _ _].
  exact (keyboard_types demo_font 2 4 demo_desktop term_new 1 2 [0; 11; 12; 44; 0; 0; 0]
    Hf Hr Hc ltac:(lia) ltac:(lia) demo_desktop_shows ltac:(repeat constructor; lia)).
Defined.

(** On a screen of 64 by 32 points the mouse moves its cursor 40 points down, below the last line, and
    the flush draws it behind the frame buffer. *)
Module CallbackExamples.

Definition screen : FrameBuffer := get_writer (mkGraphicsInfo 64 32 64 0x1000 Rgb) ∅.

Definition moved_down : outcome (gmap Z Z) :=
  '(lm, id) ← init_mouse_cursor_layer (layer_manager_new screen) Rgb;
  d ← mouse_callback (mkDesktop (mkWorld lm [] true) (writer_new 2 4 screen) id) 1 [0; 0; 40];
  lm ← lm_flush (w_layers (desk_world d));
  Ret (memory (lm_writer lm)).

Lemma cursor_below_screen : exists m, moved_down = Ret m /\
  m !! (0x1000 + 4 * (40 * 64)) = Some 0 /\ 0x1000 + 4 * (32 * 64) <= 0x1000 + 4 * (40 * 64).
Proof.
  assert (match moved_down with Ret m => m !! (0x1000 + 4 * (40 * 64)) | _ => None end = Some 0) as H
    by (vm_compute; reflexivity).
  destruct moved_down as [m| |]; [|done..]. exists m. split; [done|]. split; [exact H|lia].
Qed.

End CallbackExamples.
