(* ===== verification/Port.v ===== *)
(** Port: the root hub ports: the phases of their configuration ([xhci/port.rs]), the
    register PORTSC as the controller drives it, and the reset of a port
    ([XhciController::reset_port_at] of [xhci/controller.rs]). *)
From stdpp Require Import functions.
From S2P Require Import Prelude.

(** * The phases *)

Inductive PortConfigPhase :=
  | NotConnected
  | WaitingAddressed
  | ResettingPort
  | EnablingSlot
  | AddressingDevice
  | InitializingDevice
  | ConfiguringEndpoints
  | Configured.

#[global] Instance phase_eq_dec : EqDecision PortConfigPhase.
Proof. solve_decision. Defined.

Record PortConfigureState := mkPortState {
  port_config_phase : list PortConfigPhase;
  addressing_port_index : option Z;
}.

Definition port_state_new : PortConfigureState := mkPortState (replicate 256 NotConnected) None.

Definition port_state_len (self : PortConfigureState) : Z :=
  Z.of_nat (length (port_config_phase self)).

Definition port_state_is_empty (self : PortConfigureState) : bool := port_state_len self =? 0.

Definition set_addressing (self : PortConfigureState) (index : option Z) : PortConfigureState :=
  mkPortState (port_config_phase self) index.

Definition clear_addressing_port_index (self : PortConfigureState) : PortConfigureState :=
  set_addressing self None.

Definition port_phase_at (self : PortConfigureState) (port_idx : Z) : outcome PortConfigPhase :=
  unwrap (port_config_phase self !! Z.to_nat port_idx).

Definition is_connected (self : PortConfigureState) (port_idx : Z) : outcome bool :=
  phase ← port_phase_at self port_idx; Ret (negb (bool_decide (phase = NotConnected))).

Definition set_port_phase_at (self : PortConfigureState) (port_idx : Z)
    (phase : PortConfigPhase) : outcome PortConfigureState :=
  _ ← port_phase_at self port_idx;
  Ret (mkPortState (<[Z.to_nat port_idx := phase]> (port_config_phase self))
         (addressing_port_index self)).

Definition addressing_port (self : PortConfigureState) : option Z := addressing_port_index self.

Definition addressing_port_phase (self : PortConfigureState) : outcome (option PortConfigPhase) :=
  match addressing_port_index self with
  | Some idx => phase ← port_phase_at self idx; Ret (Some phase)
  | None => Ret None
  end.

Definition set_addressing_port_phase (self : PortConfigureState) (phase : PortConfigPhase) :
    outcome PortConfigureState :=
  match addressing_port_index self with
  | Some idx => set_port_phase_at self idx phase
  | None => Ret self
  end.

Definition start_configuration_at (self : PortConfigureState) (port_idx : Z) :
    outcome PortConfigureState :=
  set_port_phase_at (set_addressing self (Some port_idx)) port_idx ResettingPort.

(** * PORTSC *)

(** The accessors of the [xhci] crate that the kernel uses. *)
Class PortscLib := {
  Portsc : Type;
  current_connect_status : Portsc -> bool;
  port_enabled_disabled : Portsc -> bool;
  port_reset : Portsc -> bool;
  port_power : Portsc -> bool;
  port_speed : Portsc -> Z;
  connect_status_change : Portsc -> bool;
  port_enabled_disabled_change : Portsc -> bool;
  warm_port_reset_change : Portsc -> bool;
  over_current_change : Portsc -> bool;
  port_reset_change : Portsc -> bool;
  port_link_state_change : Portsc -> bool;
  port_config_error_change : Portsc -> bool;
  set_0_port_enabled_disabled : Portsc -> Portsc;
  set_0_connect_status_change : Portsc -> Portsc;
  set_0_port_enabled_disabled_change : Portsc -> Portsc;
  set_0_warm_port_reset_change : Portsc -> Portsc;
  set_0_over_current_change : Portsc -> Portsc;
  set_0_port_reset_change : Portsc -> Portsc;
  set_0_port_link_state_change : Portsc -> Portsc;
  set_0_port_config_error_change : Portsc -> Portsc;
  set_port_power : Portsc -> Portsc;
  set_port_reset : Portsc -> Portsc;
  clear_connect_status_change : Portsc -> Portsc;
  clear_port_reset_change : Portsc -> Portsc;
}.

(** The ports as hardware [HW]: a read may let time pass. *)
Class PortRegisters (HW : Type) `{PortscLib} := {
  port_read : Z -> HW -> outcome (Portsc * HW);
  port_write : Z -> Portsc -> HW -> outcome HW;
}.

Section port.
Context `{PL : PortscLib} {HW : Type} `{!PortRegisters HW}.

(** [port_register_set.update_volatile_at]. *)
Definition port_update (port_idx : Z) (f : Portsc -> Portsc) (hw : HW) : outcome HW :=
  '(portsc, hw) ← port_read port_idx hw; port_write port_idx (f portsc) hw.

(** "prevent clearing rw1c bits". *)
Definition keep_changes (portsc : Portsc) : Portsc :=
  let portsc := set_0_port_enabled_disabled portsc in
  let portsc := set_0_connect_status_change portsc in
  let portsc := set_0_port_enabled_disabled_change portsc in
  let portsc := set_0_warm_port_reset_change portsc in
  let portsc := set_0_over_current_change portsc in
  let portsc := set_0_port_reset_change portsc in
  let portsc := set_0_port_link_state_change portsc in
  set_0_port_config_error_change portsc.

(** [while cond(portsc) {}]. *)
Fixpoint wait_while (fuel : nat) (cond : Portsc -> bool) (port_idx : Z) (hw : HW) : outcome HW :=
  match fuel with
  | O => NoFuel
  | S fuel =>
      '(portsc, hw) ← port_read port_idx hw;
      if cond portsc then wait_while fuel cond port_idx hw else Ret hw
  end.

Definition is_port_connected_at (port_index : Z) (hw : HW) : outcome (bool * HW) :=
  '(portsc, hw) ← port_read port_index hw; Ret (current_connect_status portsc, hw).

(** The flags of an enabled port, xHCI 4.19.1. *)
Definition port_flags_enabled (portsc : Portsc) : bool :=
  port_power portsc && current_connect_status portsc && port_enabled_disabled portsc
  && negb (port_reset portsc).

(** Whether the port may be configured now; a port that may not waits. *)
Definition claim_addressing (s : PortConfigureState) (port_idx : Z) :
    outcome (bool * PortConfigureState) :=
  match addressing_port_index s with
  | Some idx =>
      if idx =? port_idx then Ret (true, s)
      else s ← set_port_phase_at s port_idx WaitingAddressed; Ret (false, s)
  | None => Ret (true, set_addressing s (Some port_idx))
  end.

(** The registers of the reset itself: power, reset, acknowledge the change. *)
Definition reset_sequence (fuel : nat) (port_idx : Z) (hw : HW) : outcome HW :=
  hw ← port_update port_idx (fun portsc => set_port_power (keep_changes portsc)) hw;
  hw ← wait_while fuel (fun portsc => negb (port_power portsc)) port_idx hw;
  hw ← port_update port_idx (fun portsc => set_port_reset (keep_changes portsc)) hw;
  hw ← wait_while fuel port_reset port_idx hw;
  hw ← port_update port_idx (fun portsc => clear_connect_status_change (keep_changes portsc)) hw;
  hw ← wait_while fuel connect_status_change port_idx hw;
  '(_, hw) ← port_read port_idx hw;
  '(portsc, hw) ← port_read port_idx hw;
  _ ← assert (port_flags_enabled portsc);
  Ret hw.

(** [reset_port_at]; the third read of the register tells the speed class for the log. *)
Definition reset_port_at (fuel : nat) (port_idx : Z) (s : PortConfigureState) (hw : HW) :
    outcome (PortConfigureState * HW) :=
  '(connected, hw) ← is_port_connected_at port_idx hw;
  '(portsc, hw) ← port_read port_idx hw;
  let connect_status_change := connect_status_change portsc in
  if negb connected then Ret (s, hw)
  else if negb connect_status_change then Ret (s, hw)
  else
    '(_, hw) ← port_read port_idx hw;
    '(can_process, s) ← claim_addressing s port_idx;
    if negb can_process then Ret (s, hw)
    else
      port_phase ← port_phase_at s port_idx;
      match port_phase with
      | NotConnected | WaitingAddressed =>
          hw ← reset_sequence fuel port_idx hw; Ret (s, hw)
      | _ => Panic
      end.

(** [configure_port_at]. *)
Definition configure_port_at (fuel : nat) (port_idx : Z) (s : PortConfigureState) (hw : HW) :
    outcome (PortConfigureState * HW) :=
  connected ← is_connected s port_idx;
  if negb connected then reset_port_at fuel port_idx s hw else Ret (s, hw).

(** The loop of [init_xhci_controller] over the ports. *)
Definition configure_ports (fuel : nat) (number_of_ports : Z) (s : PortConfigureState) (hw : HW) :
    outcome (PortConfigureState * HW) :=
  for_range 0 number_of_ports (fun port_idx '(s, hw) =>
    '(portsc, hw) ← port_read port_idx hw;
    if current_connect_status portsc then configure_port_at fuel port_idx s hw
    else Ret (s, hw)) (s, hw).

End port.

(** * The ports of the xHCI specification *)

(** The flags of PORTSC (xHCI 5.4.8). *)
Inductive PortBit := CCS | PED | PR | PP | CSC | PEC | WRC | OCC | PRC | PLC | CEC.

#[global] Instance port_bit_eq_dec : EqDecision PortBit.
Proof. solve_decision. Defined.

Definition portsc_bit `{PortscLib} (portsc : Portsc) (b : PortBit) : bool :=
  match b with
  | CCS => current_connect_status portsc
  | PED => port_enabled_disabled portsc
  | PR => port_reset portsc
  | PP => port_power portsc
  | CSC => connect_status_change portsc
  | PEC => port_enabled_disabled_change portsc
  | WRC => warm_port_reset_change portsc
  | OCC => over_current_change portsc
  | PRC => port_reset_change portsc
  | PLC => port_link_state_change portsc
  | CEC => port_config_error_change portsc
  end.

(** The flags that a 1 written to them clears. *)
Definition rw1c (b : PortBit) : bool :=
  match b with PED | CSC | PEC | WRC | OCC | PRC | PLC | CEC => true | _ => false end.

(** Flags with one of them changed. *)
Definition with_bit (b : PortBit) (v : bool) (s : PortBit -> bool) : PortBit -> bool :=
  fun b' => if decide (b' = b) then v else s b'.

(** The setters of the [xhci] crate: [set_0] writes 0, [clear] of a change flag writes the
    1 that clears it. *)
Class PortscLaws `{PortscLib} : Prop := {
  set_0_ped v b : portsc_bit (set_0_port_enabled_disabled v) b = with_bit PED false (portsc_bit v) b;
  set_0_csc v b : portsc_bit (set_0_connect_status_change v) b = with_bit CSC false (portsc_bit v) b;
  set_0_pec v b :
    portsc_bit (set_0_port_enabled_disabled_change v) b = with_bit PEC false (portsc_bit v) b;
  set_0_wrc v b : portsc_bit (set_0_warm_port_reset_change v) b = with_bit WRC false (portsc_bit v) b;
  set_0_occ v b : portsc_bit (set_0_over_current_change v) b = with_bit OCC false (portsc_bit v) b;
  set_0_prc v b : portsc_bit (set_0_port_reset_change v) b = with_bit PRC false (portsc_bit v) b;
  set_0_plc v b : portsc_bit (set_0_port_link_state_change v) b = with_bit PLC false (portsc_bit v) b;
  set_0_cec v b : portsc_bit (set_0_port_config_error_change v) b = with_bit CEC false (portsc_bit v) b;
  set_pp v b : portsc_bit (set_port_power v) b = with_bit PP true (portsc_bit v) b;
  set_pr v b : portsc_bit (set_port_reset v) b = with_bit PR true (portsc_bit v) b;
  clear_csc v b : portsc_bit (clear_connect_status_change v) b = with_bit CSC true (portsc_bit v) b;
  clear_prc v b : portsc_bit (clear_port_reset_change v) b = with_bit PRC true (portsc_bit v) b;
}.

(** What a write does to the flags of a port that stays powered. *)
Definition after_write (s w : PortBit -> bool) (b : PortBit) : bool :=
  if rw1c b then s b && negb (w b)
  else match b with PP => w PP | PR => s PR || w PR | _ => s b end.

(** The end of a reset: the port is enabled. *)
Definition after_reset (s : PortBit -> bool) : PortBit -> bool :=
  with_bit PR false (with_bit PED true (with_bit PRC true s)).

(** Ports [0 .. ports) whose reset takes at most [reset_reads] reads ([remaining] counts
    down), and where nothing is plugged or unplugged meanwhile. *)
Class CompliantPorts (HW : Type) `{HWP : PortRegisters HW} (ports : Z) (reset_reads : nat)
    (status : HW -> Z -> PortBit -> bool) (remaining : HW -> Z -> nat) : Prop := {
  compliant_read p hw : 0 <= p < ports -> exists v hw', port_read p hw = Ret (v, hw') /\
    (forall b, portsc_bit v b = status hw p b) /\
    (forall q b, q <> p -> status hw' q b = status hw q b) /\
    ((forall b, status hw' p b = status hw p b) /\
     (status hw p PR = true -> (remaining hw' p < remaining hw p)%nat) \/
     (status hw p PR = true /\ forall b, status hw' p b = after_reset (status hw p) b));
  compliant_write p w hw : 0 <= p < ports -> port_power w = true ->
    exists hw', port_write p w hw = Ret hw' /\
    (forall q b, q <> p -> status hw' q b = status hw q b) /\
    (forall b, status hw' p b = after_write (status hw p) (portsc_bit w) b);
  compliant_bound p hw : (remaining hw p <= reset_reads)%nat;
}.

(** * Lemmas *)

Lemma lookup_phases_Ret s p phase :
  port_phase_at s p = Ret phase <-> port_config_phase s !! Z.to_nat p = Some phase.
Proof. unfold port_phase_at. destruct (port_config_phase s !! Z.to_nat p); naive_solver. Qed.

Lemma set_port_phase_at_Ret s p phase s' : set_port_phase_at s p phase = Ret s' ->
  s' = mkPortState (<[Z.to_nat p := phase]> (port_config_phase s)) (addressing_port_index s) /\
  exists old, port_config_phase s !! Z.to_nat p = Some old.
Proof.
  unfold set_port_phase_at. intros H. inv_ret. apply lookup_phases_Ret in H0. eauto.
Qed.

Section port_lemmas.
Context `{PL : PortscLib} `{!PortscLaws}.

(** What the helper keeps: a write of it changes nothing. *)
Lemma keep_changes_bit v b :
  portsc_bit (keep_changes v) b = if rw1c b then false else portsc_bit v b.
Proof.
  unfold keep_changes.
  rewrite set_0_cec; unfold with_bit; destruct (decide _) as [->|]; [done|].
  rewrite set_0_plc; unfold with_bit; destruct (decide _) as [->|]; [done|].
  rewrite set_0_prc; unfold with_bit; destruct (decide _) as [->|]; [done|].
  rewrite set_0_occ; unfold with_bit; destruct (decide _) as [->|]; [done|].
  rewrite set_0_wrc; unfold with_bit; destruct (decide _) as [->|]; [done|].
  rewrite set_0_pec; unfold with_bit; destruct (decide _) as [->|]; [done|].
  rewrite set_0_csc; unfold with_bit; destruct (decide _) as [->|]; [done|].
  rewrite set_0_ped; unfold with_bit; destruct (decide _) as [->|]; [done|].
  by destruct b.
Qed.

Context {HW : Type} `{HWP : !PortRegisters HW} (ports : Z) (reset_reads : nat)
  (status : HW -> Z -> PortBit -> bool) (remaining : HW -> Z -> nat)
  `{!CompliantPorts HW ports reset_reads status remaining}.

(** [hw'] has the flags [s] at [p], and those of [hw] at the other ports. *)
Definition port_is (hw : HW) (p : Z) (s : PortBit -> bool) (hw' : HW) : Prop :=
  (forall b, status hw' p b = s b) /\ (forall q b, q <> p -> status hw' q b = status hw q b).

Lemma port_is_trans hw p s hw1 s' hw2 :
  port_is hw p s hw1 -> port_is hw1 p s' hw2 -> port_is hw p s' hw2.
Proof. intros [_ H1] [H2 H3]. split; [done|]. intros q b Hq. by rewrite H3, H1. Qed.

Lemma port_is_ext hw p s s' hw' : (forall b, s b = s' b) -> port_is hw p s hw' -> port_is hw p s' hw'.
Proof. intros Hs [H1 H2]. split; [|done]. intros b. by rewrite H1. Qed.

(** A read while no reset runs. *)
Lemma port_read_quiet p hw : 0 <= p < ports -> status hw p PR = false ->
  exists v hw', port_read p hw = Ret (v, hw') /\ (forall b, portsc_bit v b = status hw p b) /\
    port_is hw p (status hw p) hw'.
Proof.
  intros Hp Hpr. destruct (compliant_read (remaining := remaining) p hw Hp)
    as (v & hw' & Hr & Hv & Hq & [[Hs _]|[Ht _]]); [|congruence].
  exists v, hw'. by split_and!.
Qed.

(** The flags that an update writes which sets the flag [x] besides the kept ones. *)
Definition written (x : PortBit) (s : PortBit -> bool) : PortBit -> bool :=
  with_bit x true (fun b => if rw1c b then false else s b).

(** An update that keeps the change flags but for the flag [x] it writes. *)
Lemma port_update_keep hw0 p s hw (f : Portsc -> Portsc) x :
  0 <= p < ports -> port_is hw0 p s hw -> s PR = false ->
  (forall v b, portsc_bit (f v) b = with_bit x true (portsc_bit v) b) ->
  written x s PP = true ->
  exists hw', port_update p (fun v => f (keep_changes v)) hw = Ret hw' /\
    port_is hw0 p (after_write s (written x s)) hw'.
Proof.
  intros Hp [Hs Hq] Hpr Hf Hpp. unfold port_update.
  destruct (port_read_quiet p hw Hp) as (v & hw1 & -> & Hv & [Hs1 Hq1]); [by rewrite Hs|].
  cbn [mbind outcome_bind].
  assert (Hw : forall b, portsc_bit (f (keep_changes v)) b = written x s b).
  { intros b. rewrite Hf. unfold written, with_bit. destruct (decide _); [done|].
    rewrite keep_changes_bit, Hv, Hs. done. }
  destruct (compliant_write (remaining := remaining) p (f (keep_changes v)) hw1 Hp)
    as (hw2 & -> & Hq2 & Hs2); [exact (eq_trans (Hw PP) Hpp)|].
  exists hw2. split; [done|]. split.
  - intros b. rewrite Hs2. unfold after_write. by rewrite !Hs1, !Hs, !Hw.
  - intros q b Hne. by rewrite Hq2, Hq1, Hq.
Qed.

(** A wait for a flag that is as wanted. *)
Lemma wait_while_done fuel (cond : Portsc -> bool) hw0 p s hw :
  0 <= p < ports -> port_is hw0 p s hw -> s PR = false -> (0 < fuel)%nat ->
  (forall v, (forall b, portsc_bit v b = s b) -> cond v = false) ->
  exists hw', wait_while fuel cond p hw = Ret hw' /\ port_is hw0 p s hw'.
Proof.
  intros Hp [Hs Hq] Hpr Hfuel Hcond. destruct fuel as [|fuel]; [lia|]. simpl.
  destruct (port_read_quiet p hw Hp) as (v & hw' & -> & Hv & [Hs' Hq']); [by rewrite Hs|]. simpl.
  rewrite Hcond by (intros b; by rewrite Hv). exists hw'. split; [done|].
  split; [intros b; by rewrite Hs'|]. intros q b Hne. by rewrite Hq', Hq.
Qed.

(** The wait for the end of a reset. *)
Lemma wait_reset fuel hw0 p s : forall hw,
  0 <= p < ports -> port_is hw0 p s hw -> s PR = true -> (S (remaining hw p) < fuel)%nat ->
  exists hw', wait_while fuel port_reset p hw = Ret hw' /\ port_is hw0 p (after_reset s) hw'.
Proof.
  induction fuel as [|fuel IH]; intros hw Hp [Hs Hq] Hpr Hfuel; [lia|]. simpl.
  destruct (compliant_read (remaining := remaining) p hw Hp)
    as (v & hw1 & -> & Hv & Hq1 & [[Hs1 Ht]|[_ Hs1]]); cbn [mbind outcome_bind];
    rewrite (Hv PR : port_reset v = _), Hs, Hpr.
  - rewrite Hs in Ht. specialize (Ht Hpr). apply IH; [done| |done|lia].
    split; [intros b; by rewrite Hs1|]. intros q b Hne. by rewrite Hq1, Hq.
  - apply wait_while_done; [done| |done|lia|intros v' Hv'; by rewrite (Hv' PR : port_reset v' = _)].
    split; [|intros q b Hne; by rewrite Hq1, Hq].
    intros b. rewrite Hs1. unfold after_reset, with_bit. by repeat destruct (decide _); rewrite ?Hs.
Qed.

(** The flags of the port at the end: enabled, and no change acknowledged but the
    connection. *)
Definition after_reset_sequence (s : PortBit -> bool) : PortBit -> bool :=
  with_bit CSC false (after_reset (with_bit PP true s)).

(** The end of the sequence. *)
Lemma acknowledged fuel hw0 p hw s :
  0 <= p < ports -> (0 < fuel)%nat -> port_is hw0 p (after_reset_sequence s) hw -> s CCS = true ->
  exists hw', (hw ← wait_while fuel connect_status_change p hw;
    '(_, hw) ← port_read p hw; '(portsc, hw) ← port_read p hw;
    _ ← assert (port_flags_enabled portsc); Ret hw) = Ret hw' /\
    port_is hw0 p (after_reset_sequence s) hw'.
Proof.
  intros Hp Hfuel His Hccs.
  destruct (wait_while_done fuel connect_status_change hw0 p _ hw Hp His) as (hw3 & -> & [Hs3 Hq3]);
    [done|done|intros v Hv; by rewrite (Hv CSC : connect_status_change v = _)|].
  cbn [mbind outcome_bind].
  destruct (port_read_quiet p hw3 Hp) as (v' & hw1 & -> & _ & His1); [by rewrite Hs3|].
  destruct (port_is_trans _ _ _ _ _ _ (conj Hs3 Hq3) His1) as [Hs1' Hq1].
  assert (forall b, status hw1 p b = after_reset_sequence s b) as Hs1 by (intros b; by rewrite Hs1', Hs3).
  cbn [mbind outcome_bind].
  destruct (port_read_quiet p hw1 Hp) as (v & hw2 & -> & Hv & [Hs2 Hq2]); [by rewrite Hs1|].
  cbn [mbind outcome_bind]. unfold port_flags_enabled.
  rewrite (Hv PP : port_power v = _), (Hv CCS : current_connect_status v = _),
    (Hv PED : port_enabled_disabled v = _), (Hv PR : port_reset v = _), !Hs1.
  unfold after_reset_sequence, after_reset, with_bit. simpl. rewrite Hccs. simpl.
  exists hw2. split; [done|]. split; [intros b; by rewrite Hs2, Hs1|].
  intros q b Hne. by rewrite Hq2, Hq1.
Qed.

#[local] Ltac bits := intros b; unfold after_reset_sequence, after_write, written, after_reset, with_bit;
  destruct b; simpl; rewrite ?andb_true_r, ?andb_false_r, ?orb_diag, ?orb_true_r; done.

Lemma port_is_refl hw p : port_is hw p (status hw p) hw.
Proof. done. Qed.

Lemma reset_sequence_resets fuel p hw :
  0 <= p < ports -> (S reset_reads < fuel)%nat ->
  status hw p CCS = true -> status hw p PR = false ->
  exists hw', reset_sequence fuel p hw = Ret hw' /\
    port_is hw p (after_reset_sequence (status hw p)) hw'.
Proof.
  intros Hp Hfuel Hccs Hpr. unfold reset_sequence.
  destruct (port_update_keep hw p _ hw _ PP Hp (port_is_refl hw p) Hpr set_pp eq_refl)
    as (hw1 & -> & H1). cbn [mbind outcome_bind].
  apply (port_is_ext _ _ _ (with_bit PP true (status hw p))) in H1; [|bits].
  destruct (wait_while_done fuel (fun v => negb (port_power v)) hw p _ hw1 Hp H1) as (hw2 & -> & H2);
    [done|lia|intros v Hv; by rewrite (Hv PP : port_power v = _)|]. cbn [mbind outcome_bind].
  destruct (port_update_keep hw p _ hw2 _ PR Hp H2 Hpr set_pr eq_refl)
    as (hw3 & -> & H3). cbn [mbind outcome_bind].
  apply (port_is_ext _ _ _ (with_bit PR true (with_bit PP true (status hw p)))) in H3; [|bits].
  destruct (wait_reset fuel hw p _ hw3 Hp H3) as (hw4 & -> & H4); [done| |].
  { pose proof (compliant_bound (HW := HW) p hw3). lia. }
  cbn [mbind outcome_bind].
  destruct (port_update_keep hw p _ hw4 _ CSC Hp H4 eq_refl clear_csc eq_refl)
    as (hw5 & -> & H5). cbn [mbind outcome_bind].
  apply (port_is_ext _ _ _ (after_reset_sequence (status hw p))) in H5; [|bits].
  apply (acknowledged fuel hw p hw5 (status hw p)); [done|lia|done|done].
Qed.

(** A free turn is taken by a reset of a port with a new connection. *)
Lemma reset_port_at_claims fuel p s hw s' hw' :
  0 <= p < ports -> status hw p CCS = true -> status hw p CSC = true -> status hw p PR = false ->
  addressing_port_index s = None -> reset_port_at fuel p s hw = Ret (s', hw') ->
  addressing_port_index s' = Some p.
Proof.
  intros Hp Hccs Hcsc Hpr Ha. unfold reset_port_at, is_port_connected_at.
  destruct (port_read_quiet p hw Hp Hpr) as (v & hw1 & -> & Hv & [Hs1 _]). cbn [mbind outcome_bind].
  destruct (port_read_quiet p hw1 Hp) as (v' & hw2 & -> & Hv' & _); [by rewrite Hs1|].
  cbn [mbind outcome_bind]. rewrite (Hv CCS : current_connect_status v = _), Hccs,
    (Hv' CSC : connect_status_change v' = _), Hs1, Hcsc. cbn [negb]. intros Hrun.
  apply bind_Ret_inv in Hrun as ([v3 hw3] & _ & Hrun). unfold claim_addressing in Hrun. rewrite Ha in Hrun.
  cbn [mbind outcome_bind negb] in Hrun. apply bind_Ret_inv in Hrun as (phase & _ & Hrun).
  destruct phase; try discriminate Hrun; apply bind_Ret_inv in Hrun as (hw4 & _ & Hrun); by injection Hrun as <- _.
Qed.

End port_lemmas.

(** * A concrete instance: registers of 32 bits that a reset keeps busy for a few reads *)

Module XhciPorts.

Definition position (b : PortBit) : Z :=
  match b with
  | CCS => 0 | PED => 1 | PR => 4 | PP => 9 | CSC => 17 | PEC => 18 | WRC => 19 | OCC => 20
  | PRC => 21 | PLC => 22 | CEC => 23
  end.

Definition flag (v : Z) (b : PortBit) : bool := Z.testbit v (position b).
Definition put (b : PortBit) (x : bool) (v : Z) : Z :=
  if x then Z.setbit v (position b) else Z.clearbit v (position b).

#[global] Instance xhci_portsc_lib : PortscLib := {|
  Portsc := Z;
  current_connect_status v := flag v CCS;
  port_enabled_disabled v := flag v PED;
  port_reset v := flag v PR;
  port_power v := flag v PP;
  port_speed v := v / 2 ^ 10 mod 2 ^ 4;
  connect_status_change v := flag v CSC;
  port_enabled_disabled_change v := flag v PEC;
  warm_port_reset_change v := flag v WRC;
  over_current_change v := flag v OCC;
  port_reset_change v := flag v PRC;
  port_link_state_change v := flag v PLC;
  port_config_error_change v := flag v CEC;
  set_0_port_enabled_disabled := put PED false;
  set_0_connect_status_change := put CSC false;
  set_0_port_enabled_disabled_change := put PEC false;
  set_0_warm_port_reset_change := put WRC false;
  set_0_over_current_change := put OCC false;
  set_0_port_reset_change := put PRC false;
  set_0_port_link_state_change := put PLC false;
  set_0_port_config_error_change := put CEC false;
  set_port_power := put PP true;
  set_port_reset := put PR true;
  clear_connect_status_change := put CSC true;
  clear_port_reset_change := put PRC true;
|}.

Lemma portsc_bit_flag v b : portsc_bit v b = flag v b.
Proof. by destruct b. Qed.

Lemma position_nonneg b : 0 <= position b.
Proof. by destruct b. Qed.

Lemma position_inj b b' : position b = position b' -> b = b'.
Proof. by destruct b, b'. Qed.

Lemma flag_put b x v b' : flag (put b x v) b' = with_bit b x (flag v) b'.
Proof.
  pose proof (position_nonneg b). unfold flag, put, with_bit.
  destruct (decide (b' = b)) as [->|Hne].
  - destruct x; [by apply Z.setbit_eq|by apply Z.clearbit_eq].
  - assert (position b <> position b') by (intros Heq; apply Hne; by apply position_inj).
    destruct x; [by apply Z.setbit_neq|by apply Z.clearbit_neq].
Qed.

#[global] Instance xhci_portsc_laws : PortscLaws.
Proof.
  split; intros v b; rewrite portsc_bit_flag; (etransitivity; [apply flag_put|]); unfold with_bit;
    by rewrite portsc_bit_flag.
Qed.

(** A port and the reads its running reset still takes. *)
Record SimPort := mkSimPort { portsc_value : Z; busy : nat }.

(** Setting every flag of [v] to what [s] says. *)
Definition put_all (s : PortBit -> bool) (v : Z) : Z :=
  foldr (fun b v => put b (s b) v) v [CCS; PED; PR; PP; CSC; PEC; WRC; OCC; PRC; PLC; CEC].

Lemma flag_put_all s v b : flag (put_all s v) b = s b.
Proof. unfold put_all. cbn -[put flag]. repeat (rewrite flag_put; unfold with_bit). by destruct b. Qed.

Definition SIM_RESET : nat := 3.

Definition sim_read (port : SimPort) : SimPort :=
  if flag (portsc_value port) PR then
    match Nat.min (busy port) SIM_RESET with
    | O => mkSimPort (put_all (after_reset (flag (portsc_value port))) (portsc_value port)) 0
    | S busy => mkSimPort (portsc_value port) busy
    end
  else port.

Definition sim_write (w : Z) (port : SimPort) : SimPort :=
  mkSimPort (put_all (after_write (flag (portsc_value port)) (flag w)) (portsc_value port)) SIM_RESET.

(** A register file without bounds. *)
#[global] Instance sim_ports : PortRegisters (Z -> SimPort) := {|
  port_read p hw := Ret (portsc_value (hw p), <[p := sim_read (hw p)]> hw);
  port_write p w hw := Ret (<[p := sim_write w (hw p)]> hw);
|}.

#[global] Instance sim_compliant n : CompliantPorts (Z -> SimPort) n SIM_RESET
  (fun hw p => flag (portsc_value (hw p))) (fun hw p => Nat.min (busy (hw p)) SIM_RESET).
Proof.
  split.
  - intros p hw _. eexists _, _. split; [done|]. split; [apply portsc_bit_flag|].
    split; [intros q b Hq; by rewrite fn_lookup_insert_ne|]. rewrite fn_lookup_insert.
    unfold sim_read. destruct (flag (portsc_value (hw p)) PR) eqn:Hpr; [|by left].
    destruct (Nat.min (busy (hw p)) SIM_RESET) as [|k] eqn:Hk.
    + right. split; [done|]. intros b. apply flag_put_all.
    + left. split; [done|]. intros _. simpl. lia.
  - intros p w hw _ _. eexists. split; [done|].
    split; [intros q b Hq; by rewrite fn_lookup_insert_ne|]. intros b.
    rewrite fn_lookup_insert. unfold sim_write. simpl. rewrite flag_put_all.
    unfold after_write. by destruct b.
  - intros p hw. lia.
Qed.

(** Two ports with a new device, one that is in use, and one without a device. *)
Definition plugged : SimPort := mkSimPort 0x20203 0.
Definition in_use : SimPort := mkSimPort 0x203 0.
Definition empty_port : SimPort := mkSimPort 0x2a0 0.
Definition hub : Z -> SimPort := fun p =>
  if p =? 0 then plugged else if p =? 1 then plugged else if p =? 2 then in_use else empty_port.

End XhciPorts.

(** * Property *)

(** C15: a reset of port [idx] returns on compliant ports, with only the effects it should:
    nothing when no device was newly connected; the port waits while another one is being
    configured; otherwise it becomes the one being configured, and the hardware has it
    enabled, with the connection acknowledged and no other change flag lost.  It panics
    exactly when the port is already past its reset. *)
Theorem reset_port_at_exact `{PL : PortscLib} `{!PortscLaws} {HW} `{HWP : !PortRegisters HW}
    (ports : Z) (reset_reads : nat) (status : HW -> Z -> PortBit -> bool)
    (remaining : HW -> Z -> nat) `{!CompliantPorts HW ports reset_reads status remaining}
    (fuel : nat) (idx : Z) (s : PortConfigureState) (hw : HW) (phase : PortConfigPhase) :
  0 <= idx < ports -> port_phase_at s idx = Ret phase -> (S reset_reads < fuel)%nat ->
  status hw idx PR = false ->
  let flags := status hw idx in
  if negb (flags CCS && flags CSC) then
    exists hw', reset_port_at fuel idx s hw = Ret (s, hw') /\ port_is status hw idx flags hw'
  else if decide (addressing_port_index s = None \/ addressing_port_index s = Some idx) then
    if decide (phase = NotConnected \/ phase = WaitingAddressed) then
      exists hw', reset_port_at fuel idx s hw = Ret (set_addressing s (Some idx), hw') /\
        port_is status hw idx (after_reset_sequence flags) hw'
    else reset_port_at fuel idx s hw = Panic
  else
    exists s' hw', reset_port_at fuel idx s hw = Ret (s', hw') /\
      set_port_phase_at s idx WaitingAddressed = Ret s' /\ port_is status hw idx flags hw'.
Proof.
  intros Hp Hphase Hfuel Hpr flags. unfold reset_port_at, is_port_connected_at.
  destruct (port_read_quiet ports reset_reads status remaining idx hw Hp Hpr)
    as (v & hw1 & -> & Hv & His1). cbn [mbind outcome_bind].
  destruct (port_read_quiet ports reset_reads status remaining idx hw1 Hp)
    as (v' & hw2 & -> & Hv' & His2); [by rewrite (proj1 His1)|]. cbn [mbind outcome_bind].
  apply (port_is_trans _ _ _ _ _ _ _ His1) in His2.
  apply (port_is_ext _ _ _ _ flags) in His2; [|apply His1].
  rewrite (Hv CCS : current_connect_status v = _), (Hv' CSC : connect_status_change v' = _),
    (proj1 His1 CSC). fold flags.
  destruct (flags CCS) eqn:Hccs; [|by exists hw2]. destruct (flags CSC); [|by exists hw2]. simpl.
  destruct (port_read_quiet ports reset_reads status remaining idx hw2 Hp)
    as (v3 & hw3 & -> & _ & His3); [by rewrite (proj1 His2)|]. cbn [mbind outcome_bind].
  apply (port_is_trans _ _ _ _ _ _ _ His2) in His3.
  apply (port_is_ext _ _ _ _ flags) in His3; [|apply His2].
  unfold claim_addressing. destruct (decide _) as [Hc|Hc].
  - assert (Hclaim : match addressing_port_index s with
      | Some idx0 => if idx0 =? idx then Ret (true, s)
          else s ← set_port_phase_at s idx WaitingAddressed; Ret (false, s)
      | None => Ret (true, set_addressing s (Some idx)) end = Ret (true, set_addressing s (Some idx))).
    { destruct s as [phases addr]. simpl in *. destruct Hc as [->| ->]; [done|]. by rewrite Z.eqb_refl. }
    rewrite Hclaim. cbn [mbind outcome_bind]. simpl negb. cbn iota.
    assert (port_phase_at (set_addressing s (Some idx)) idx = Ret phase) as -> by exact Hphase.
    cbn [mbind outcome_bind].
    destruct (reset_sequence_resets ports reset_reads status remaining fuel idx hw3)
      as (hw4 & Hr & His4); [done|done|by rewrite (proj1 His3)|by rewrite (proj1 His3)|].
    apply (port_is_trans _ _ _ _ _ _ _ His3) in His4.
    apply (port_is_ext _ _ _ _ (after_reset_sequence flags)) in His4.
    2: { intros b. unfold after_reset_sequence, after_reset, with_bit.
         repeat destruct (decide _); try done. apply (proj1 His3). }
    rewrite Hr. destruct phase; simpl; try (by exists hw4); done.
  - destruct (addressing_port_index s) as [idx0|]; [|naive_solver].
    rewrite (proj2 (Z.eqb_neq idx0 idx)) by naive_solver.
    unfold set_port_phase_at. rewrite Hphase. simpl. by eexists _, hw3.
Qed.

(** * Witness *)

Lemma reset_port_at_exact_witness :
  exists hw', reset_port_at 9 1 (set_addressing port_state_new (Some 1)) XhciPorts.hub =
      Ret (set_addressing port_state_new (Some 1), hw') /\
    port_is (fun hw p => XhciPorts.flag (XhciPorts.portsc_value (hw p))) XhciPorts.hub 1
      (after_reset_sequence (XhciPorts.flag 0x20203)) hw'.
Proof.
  exact (reset_port_at_exact 4 XhciPorts.SIM_RESET _ _ 9 1 (set_addressing port_state_new (Some 1))
    XhciPorts.hub NotConnected ltac:(lia) eq_refl ltac:(unfold XhciPorts.SIM_RESET; lia) eq_refl).
Defined.
