(* ===== verification/EndpointId.v ===== *)
(** EndpointId: the numbers by which the kernel addresses an endpoint of a device
    ([EndpointId] and [DeviceContextIndex] of [usb/device.rs]) and a device behind hubs
    ([next_route] of [xhci.rs]). *)
From S2P Require Import Prelude Descriptor UsbHost.

(** * Device context indices *)

Record EndpointId := mkEndpointId { endpoint_number : Z; direct : Direction }.

(** [DeviceContextIndex(u8)]. *)
Abbreviation DeviceContextIndex := Z (only parsing).

#[global] Instance direction_eq_dec : EqDecision Direction.
Proof. solve_decision. Defined.

(** In [u8], with its overflow check. *)
Definition calc_dci (endpoint_number : Z) (direct : Direction) : outcome Z :=
  twice ← mul_w 8 endpoint_number 2;
  add_w 8 twice
    (if endpoint_number =? 0 then 1 else if decide (direct = DirIn) then 1 else 0).

Definition dci_checked_new (dci : Z) : outcome DeviceContextIndex :=
  _ ← assert (dci <? 32); Ret dci.

Definition dci_new (endpoint_number : Z) (direct : Direction) : outcome DeviceContextIndex :=
  dci ← calc_dci endpoint_number direct; dci_checked_new dci.

Definition from_endpoint_address (endpoint_address : Z) : outcome DeviceContextIndex :=
  twice ← mul_w 8 (Z.land endpoint_address 0xf) 2;
  dci ← add_w 8 twice (Z.shiftr endpoint_address 7);
  dci_checked_new dci.

Definition dci_ep0 : DeviceContextIndex := 1.

(** [From<EndpointId>] and [From<&EndpointDescriptor>]. *)
Definition dci_from_endpoint_id (endpoint_id : EndpointId) : outcome DeviceContextIndex :=
  dci_new (endpoint_number endpoint_id) (direct endpoint_id).

Definition dci_from_descriptor `{UsbHostLib} (value : EndpointDescriptor) :
    outcome DeviceContextIndex :=
  twice ← mul_w 8 (Z.land (b_endpoint_address value) 0xf) 2;
  dci ← add_w 8 twice (Z.shiftr (b_endpoint_address value) 7);
  dci_checked_new dci.

(** * Endpoint ids *)

Definition endpoint_id_new (endpoint_number : Z) (direct_in : Direction) : outcome EndpointId :=
  _ ← assert (endpoint_number <? 16); Ret (mkEndpointId endpoint_number direct_in).

Definition from_endpoint (ep : Endpoint) : outcome EndpointId :=
  endpoint_id_new (ep_endpoint_num ep) (ep_direction ep).

Definition endpoint_id_address (self : EndpointId) : outcome DeviceContextIndex :=
  calc_dci (endpoint_number self) (direct self).

Definition default_control_pipe : EndpointId := mkEndpointId 0 DirOut.

(** * Routes *)

(** The loop of [next_route]: [n] tiers left, the next one at bit [shift]. *)
Fixpoint next_route_loop (n : nat) (routing port shift : Z) : Z :=
  match n with
  | O => 0
  | S n =>
      if Z.land routing (Z.shiftl 0xf shift) =? 0 then Z.lor routing (Z.shiftl port shift)
      else next_route_loop n routing port (shift + 4)
  end.

Definition next_route (routing port : Z) : Z := next_route_loop 4 routing port 0.

(** What a route string says (USB 3.2, 8.9): the port numbers from the root hub down, four bits
    each. *)
Definition route_of (ports : list Z) : Z := foldr (fun p r => p + 16 * r) 0 ports.

Definition port_ok (p : Z) : Prop := 1 <= p <= 15.

(** * Lemmas *)

Lemma calc_dci_Ret n d : 0 <= n < 16 ->
  calc_dci n d = Ret (2 * n + if decide (n = 0 \/ d = DirIn) then 1 else 0).
Proof.
  intros Hn. unfold calc_dci. rewrite mul_w_Ret by lia. cbn [mbind outcome_bind].
  destruct (Z.eqb_spec n 0) as [->|Hne].
  - destruct (decide _) as [|[]]; [done|by left].
  - destruct (decide (d = DirIn)) as [->|Hd].
    + rewrite decide_True by (by right). rewrite add_w_Ret by lia. f_equal. lia.
    + rewrite decide_False by tauto. rewrite add_w_Ret by lia. f_equal. lia.
Qed.

Lemma dci_checked_new_Ret dci : dci < 32 -> dci_checked_new dci = Ret dci.
Proof. intros Hd. unfold dci_checked_new. by rewrite (proj2 (Z.ltb_lt _ _) Hd). Qed.

Lemma from_endpoint_address_Ret a : 0 <= a < 256 ->
  from_endpoint_address a = Ret (2 * (a mod 16) + a / 128).
Proof.
  intros Ha. unfold from_endpoint_address.
  assert (Z.land a 0xf = a mod 16) as -> by exact (Z.land_ones a 4 ltac:(lia)).
  rewrite (Z.shiftr_div_pow2 a 7) by lia. change (2 ^ 7) with 128.
  pose proof (Z.mod_pos_bound a 16 ltac:(lia)).
  assert (0 <= a / 128 < 2) by (split; [apply Z.div_pos; lia|apply Z.div_lt_upper_bound; lia]).
  rewrite mul_w_Ret by lia. cbn [mbind outcome_bind]. rewrite add_w_Ret by lia.
  cbn [mbind outcome_bind]. rewrite dci_checked_new_Ret by lia. f_equal. lia.
Qed.

(** The nibble of a route at tier [k]. *)
Lemma route_of_bound ports : Forall port_ok ports ->
  0 <= route_of ports < 16 ^ Z.of_nat (length ports).
Proof.
  induction 1 as [|p ports Hp _ IH]; [done|]. unfold port_ok in Hp.
  change (route_of (p :: ports)) with (p + 16 * route_of ports). cbn [Datatypes.length].
  rewrite Nat2Z.inj_succ, Z.pow_succ_r by lia. lia.
Qed.

Lemma route_of_app ports q :
  route_of (ports ++ [q]) = route_of ports + q * 16 ^ Z.of_nat (length ports).
Proof.
  induction ports as [|p ports IH]; [simpl; lia|].
  change (route_of ((p :: ports) ++ [q])) with (p + 16 * route_of (ports ++ [q])).
  change (route_of (p :: ports)) with (p + 16 * route_of ports). cbn [Datatypes.length].
  rewrite IH, Nat2Z.inj_succ, Z.pow_succ_r by lia. ring.
Qed.

Lemma land_nibble r k : 0 <= k -> Z.land r (Z.shiftl 0xf k) = Z.shiftl (r / 2 ^ k mod 16) k.
Proof.
  intros Hk. change 0xf with (Z.ones 4). change 16 with (2 ^ 4).
  rewrite <- Z.land_ones, <- Z.shiftr_div_pow2 by lia. apply Z.bits_inj'. intros i Hi.
  rewrite Z.land_spec, !Z.shiftl_spec by done.
  destruct (decide (i < k)).
  - rewrite !(Z.testbit_neg_r _ (i - k)) by lia. by rewrite andb_false_r.
  - rewrite Z.land_spec, Z.shiftr_spec by lia. by replace (i - k + k) with i by lia.
Qed.

Lemma land_nibble_0 r k : 0 <= k -> (Z.land r (Z.shiftl 0xf k) =? 0) = (r / 2 ^ k mod 16 =? 0).
Proof.
  intros Hk. rewrite land_nibble, Z.shiftl_mul_pow2 by done.
  pose proof (Z.pow_pos_nonneg 2 k ltac:(lia) Hk).
  destruct (Z.eqb_spec (r / 2 ^ k mod 16) 0) as [->|Hne]; [done|]. apply Z.eqb_neq. nia.
Qed.

Lemma div_pow_route ports k : Forall port_ok ports -> (k <= length ports)%nat ->
  route_of ports / 2 ^ (4 * Z.of_nat k) = route_of (drop k ports).
Proof.
  intros Hports. revert k. induction Hports as [|p ports Hp Hports IH]; intros [|k] Hk;
    [done|simpl in Hk; lia|by rewrite Z.div_1_r|].
  change (route_of (p :: ports)) with (p + 16 * route_of ports). cbn [drop].
  replace (4 * Z.of_nat (S k)) with (4 + 4 * Z.of_nat k) by lia.
  rewrite Z.pow_add_r by lia. change (2 ^ 4) with 16.
  rewrite <- Z.div_div by (try apply Z.pow_nonzero; lia). unfold port_ok in Hp.
  replace (p + 16 * route_of ports) with (p + route_of ports * 16) by lia.
  rewrite Z.div_add, (Z.div_small p 16) by lia. apply IH. cbn [Datatypes.length] in Hk. lia.
Qed.

Lemma route_mod_16 ports : Forall port_ok ports ->
  (route_of ports mod 16 =? 0) = bool_decide (ports = []).
Proof.
  destruct 1 as [|p ports Hp Hports]; [done|]. unfold port_ok in Hp.
  change (route_of (p :: ports)) with (p + 16 * route_of ports).
  replace (p + 16 * route_of ports) with (p + route_of ports * 16) by lia.
  rewrite Z.mod_add, Z.mod_small by lia. apply Z.eqb_neq. lia.
Qed.

(** The loop looks for the end of the route. *)
Lemma next_route_loop_spec ports port k : forall n, Forall port_ok ports ->
  (k <= length ports)%nat -> 0 <= port ->
  next_route_loop n (route_of ports) port (4 * Z.of_nat k) =
    if decide (length ports < k + n)%nat
    then Z.lor (route_of ports) (Z.shiftl port (4 * Z.of_nat (length ports))) else 0.
Proof.
  intros n Hports. revert k. induction n as [|n IH]; intros k Hk Hport; simpl.
  - by rewrite decide_False by lia.
  - rewrite land_nibble_0, div_pow_route, route_mod_16 by (try apply Forall_drop; done || lia).
    destruct (decide (drop k ports = [])) as [Hd|Hd].
    + rewrite bool_decide_eq_true_2 by done.
      assert (k = length ports) as -> by (apply (f_equal length) in Hd; rewrite length_drop in Hd; simpl in Hd; lia).
      by rewrite decide_True by lia.
    + rewrite bool_decide_eq_false_2 by done.
      assert (k < length ports)%nat.
      { destruct (decide (k < length ports)%nat); [done|]. destruct Hd. apply drop_ge. lia. }
      replace (4 * Z.of_nat k + 4) with (4 * Z.of_nat (S k)) by lia.
      rewrite IH by lia. by rewrite Nat.add_succ_r.
Qed.

Lemma lor_disjoint r port k : 0 <= k -> 0 <= r < 2 ^ k -> 0 <= port ->
  Z.lor r (Z.shiftl port k) = r + port * 2 ^ k.
Proof.
  intros Hk Hr Hp. rewrite <- Z.shiftl_mul_pow2 by done.
  rewrite <- Z.add_nocarry_lor; [done|]. apply Z.bits_inj'. intros i Hi.
  rewrite Z.land_spec, Z.bits_0, Z.shiftl_spec by done. destruct (decide (i < k)).
  - rewrite (Z.testbit_neg_r port) by lia. by rewrite andb_false_r.
  - rewrite <- (Z.mod_small r (2 ^ k)) by done. by rewrite Z.mod_pow2_bits_high by lia.
Qed.

(** * Properties *)

(** C39: the device context index of an endpoint: [EndpointId] numbers the endpoints of a
    device by 1 .. 31 without a clash (the default control pipe alone is one endpoint in both
    directions), and every index 1 .. 31 is used; both computations return for all numbers below 16.
    An address byte with this number and direction, whatever its reserved bits, gives the same index,
    but for number 0, OUT, the default control pipe: there [from_endpoint_address] gives 0, which no
    endpoint has. *)
Theorem dci_numbers_endpoints (n : Z) (d : Direction) :
  0 <= n < 16 ->
  exists dci, dci_new n d = Ret dci /\ endpoint_id_address (mkEndpointId n d) = Ret dci /\
    1 <= dci < 32 /\
    (forall a, 0 <= a < 256 -> a mod 16 = n -> (128 <= a <-> d = DirIn) ->
       from_endpoint_address a = Ret (if decide (n = 0 /\ d = DirOut) then 0 else dci)) /\
    (forall n' d', 0 <= n' < 16 -> dci_new n' d' = Ret dci -> n' = n /\ (n <> 0 -> d' = d)) /\
    (forall i, 1 <= i < 32 -> dci_new (i / 2) (if Z.odd i then DirIn else DirOut) = Ret i).
Proof.
  intros Hn. unfold dci_new, endpoint_id_address. simpl. rewrite calc_dci_Ret by done.
  cbn [mbind outcome_bind]. remember (2 * n + _) as dci eqn:Hdef.
  assert (Hdci : 1 <= dci < 32) by (subst dci; case_decide as Hd; [lia|]; assert (n <> 0) by tauto; lia).
  exists dci. rewrite dci_checked_new_Ret by lia. split_and!; try done; try lia.
  - intros a Ha Hlow Hhigh. rewrite from_endpoint_address_Ret, Hlow by done. f_equal. subst dci.
    assert (a / 128 = if decide (d = DirIn) then 1 else 0) as ->.
    { destruct (decide (d = DirIn)) as [Hd|Hd].
      - apply Hhigh in Hd. symmetry. apply (Z.div_unique _ _ _ (a - 128)); lia.
      - apply Z.div_small. destruct (decide (128 <= a)); [tauto|lia]. }
    repeat match goal with |- context [decide ?P] => destruct (decide P) end;
      destruct d; try lia; exfalso; naive_solver.
  - intros n' d' Hn'. rewrite calc_dci_Ret by done. cbn [mbind outcome_bind]. intros Heq.
    apply bind_Ret_inv in Heq as (u & _ & Heq). injection Heq as Heq. subst dci.
    assert (n' = n) as -> by (repeat case_decide; lia). split; [done|]. intros Hne.
    destruct d, d'; try done; exfalso; revert Heq;
      repeat match goal with |- context [decide ?P] => destruct (decide P) as [[?|?]|?] end;
      try congruence; try tauto; lia.
  - intros i Hi. pose proof (Z.div_mod i 2 ltac:(lia)) as Hdiv. rewrite Zmod_odd in Hdiv.
    assert (0 <= i / 2 < 16) by (split; [apply Z.div_pos; lia|apply Z.div_lt_upper_bound; lia]).
    rewrite calc_dci_Ret by done. cbn [mbind outcome_bind].
    match goal with |- dci_checked_new ?x = _ => assert (x = i) as -> end; [|apply dci_checked_new_Ret; lia].
    destruct (Z.odd i); [rewrite decide_True by tauto; lia|].
    rewrite decide_False by (intros [?|?]; [lia|done]). lia.
Qed.

(** [next_route] appends the port of the next hub to a route of less than four tiers, so the
    controller finds in it the ports from the root hub down, in order; the slot context keeps
    it whole.  A fifth tier gives the route of a device at the root. *)
Theorem next_route_appends (ports : list Z) (port : Z) :
  Forall port_ok ports -> port_ok port ->
  if decide (length ports < 4)%nat then
    next_route (route_of ports) port = route_of (ports ++ [port]) /\
    Z.land (next_route (route_of ports) port) 0x3ffff = next_route (route_of ports) port
  else next_route (route_of ports) port = 0.
Proof.
  intros Hports Hport. unfold next_route.
  assert (Hloop := next_route_loop_spec ports port 0 4 Hports ltac:(lia) ltac:(unfold port_ok in *; lia)).
  change (4 * Z.of_nat 0) with 0 in Hloop. change (0 + 4)%nat with 4%nat in Hloop.
  rewrite Hloop. case_decide as Hlen; [|done].
  pose proof (route_of_bound ports Hports) as Hb.
  assert (Hpow : 2 ^ (4 * Z.of_nat (length ports)) = 16 ^ Z.of_nat (length ports)).
  { rewrite Z.pow_mul_r by lia. done. }
  rewrite lor_disjoint by (unfold port_ok in *; lia). rewrite Hpow, <- route_of_app.
  split; [done|]. change 0x3ffff with (Z.ones 18). rewrite Z.land_ones by lia. apply Z.mod_small.
  pose proof (route_of_bound (ports ++ [port])) as Hb'. rewrite length_app in Hb'. simpl in Hb'.
  assert (0 <= route_of (ports ++ [port]) < 16 ^ Z.of_nat (length ports + 1)).
  { apply Hb'. apply Forall_app_2; [done|]. by constructor. }
  assert (16 ^ Z.of_nat (length ports + 1) <= 16 ^ 4) by (apply Z.pow_le_mono_r; lia). lia.
Qed.

(** * Witnesses *)

Lemma dci_numbers_endpoints_witness :
  0 <= 3 < 16 /\ exists dci, dci_new 3 DirIn = Ret dci /\
    endpoint_id_address (mkEndpointId 3 DirIn) = Ret dci /\ from_endpoint_address 0x83 = Ret dci.
Proof.
  split; [lia|].
  destruct (dci_numbers_endpoints 3 DirIn ltac:(lia)) as (dci & H1 & H2 & _ & H3 & _).
  exists dci. split; [exact H1|]. split; [exact H2|].
  exact (H3 0x83 ltac:(lia) eq_refl ltac:(split; [reflexivity|lia])).
Defined.

Lemma next_route_appends_witness :
  next_route (route_of [2; 5]) 7 = route_of [2; 5; 7] /\
  Z.land (next_route (route_of [2; 5]) 7) 0x3ffff = next_route (route_of [2; 5]) 7.
Proof.
  exact (next_route_appends [2; 5] 7 ltac:(repeat constructor; unfold port_ok; lia)
    ltac:(unfold port_ok; lia)).
Defined.
