(* ===== verification/Xhc.v ===== *)
(** Xhc: what the parts of the xHCI driver share: the registers and the memory that the controller
    reads and writes, the event ring, the command ring, the queue of user events and the
    allocator; the waits for an event; the table of device contexts
    ([xhci/device_manager.rs]). *)
From S2P Require Import Prelude Allocator BitField Trb CycleRing.
From S2P Require Import Rings.
From S2P Require Import EventRing.
From S2P Require Import Port.

(** [SetupPacketRaw] of [usb/setup_packet.rs]. *)
Record SetupPacketRaw := mkSetupPacketRaw {
  raw_request_type : Z; raw_request : Z; raw_value : Z; raw_index : Z; raw_length : Z;
}.

(** The TRBs of [transfer::Allowed] and [command::Allowed] as the kernel reads them back. *)
Inductive TransferTrb :=
  | TNormal (data_buffer_pointer trb_transfer_length : Z) (cycle_bit : bool)
  | TOther.
Inductive CommandTrb :=
  | CEnableSlot | CAddressDevice | CConfigureEndpoint | COther.

(** The constructors and setters of the [xhci] crate, applied as the kernel does: [Cmd] is
    both enumerations. *)
Class XhciTrbs (Cmd : Type) := {
  (** with [TransferType::In], or [TransferType::No] *)
  setup_stage : SetupPacketRaw -> bool -> Cmd;
  (** direction IN, interrupt on completion *)
  data_stage : Z -> Z -> Cmd;
  (** with the direction and the interrupt set, or not *)
  status_stage : bool -> Cmd;
  (** interrupt on completion and on short packet *)
  normal : Z -> Z -> Cmd;
  enable_slot : Cmd;
  disable_slot : Z -> Cmd;
  address_device : Z -> Z -> Cmd;
  evaluate_context : Z -> Z -> Cmd;
  configure_endpoint : Z -> Z -> Cmd;
  transfer_of_raw : TrbRaw -> option TransferTrb;
  command_of_raw : TrbRaw -> option CommandTrb;
}.

(** The numbers of the completion codes (xHCI 6.4.5), and whether a number is one: they go from 0 to 36,
    and 30 is reserved. *)
Definition Success : Z := 1.
Definition ShortPacket : Z := 13.
Definition completion_code_ok (code : Z) : bool := (0 <=? code) && (code <=? 36) && negb (code =? 30).

(** The controller as the driver sees it: the registers of the primary interrupter, TRBs and
    bytes in memory, the buffer of a ring that the driver has written, the doorbells, the
    device address in an output context; [place_buffer] is where a buffer of the caller lies;
    [let_time_pass] is what happens between two polls. *)
Class XhcHw (HW : Type) `{EL : EventLib} := {
  interrupter : HW -> Interrupter;
  set_interrupter : Interrupter -> HW -> HW;
  trb_at : HW -> Z -> TrbRaw;
  store_trbs : Z -> list TrbRaw -> HW -> HW;
  place_buffer : list Z -> HW -> Z * HW;
  bytes_at : HW -> Z -> nat -> list Z;
  ring_doorbell : Z -> Z -> HW -> outcome HW;
  output_device_address : HW -> Z -> Z;
  let_time_pass : HW -> HW;
}.

Section xhc.
Context `{TL : TrbLib Cmd} `{BF : BitFieldLib} `{ET : EventTypes} `{EL : @EventLib ET}
  `{XT : XhciTrbs Cmd} {HW : Type} `{XH : @XhcHw HW ET EL}.

Record Xhc := mkXhc {
  x_hw : HW;
  x_events : EventRing;
  x_commands : CommandRing;
  x_user : UserEvents.UserEventRing;
  x_alloc : KernelAlloc.GlobalAllocator;
}.

Definition set_hw (x : Xhc) (hw : HW) : Xhc :=
  mkXhc hw (x_events x) (x_commands x) (x_user x) (x_alloc x).
Definition set_events (x : Xhc) (r : EventRing) : Xhc :=
  mkXhc (x_hw x) r (x_commands x) (x_user x) (x_alloc x).
Definition set_commands (x : Xhc) (r : CommandRing) : Xhc :=
  mkXhc (x_hw x) (x_events x) r (x_user x) (x_alloc x).
Definition set_user (x : Xhc) (u : UserEvents.UserEventRing) : Xhc :=
  mkXhc (x_hw x) (x_events x) (x_commands x) u (x_alloc x).
Definition set_alloc (x : Xhc) (a : KernelAlloc.GlobalAllocator) : Xhc :=
  mkXhc (x_hw x) (x_events x) (x_commands x) (x_user x) a.

(** A box of [size_of] bytes, [alloc_with_boundary_with_default_else(..).unwrap()]. *)
Definition new_box (size_of alignment boundary : Z) (x : Xhc) : outcome (Z * Xhc) :=
  '(r, allocator, _) ← KernelAlloc.kernel_alloc_with_boundary_with_default_else
    size_of (x_alloc x) ∅ alignment boundary tt;
  match r with Ok ptr => Ret (ptr, set_alloc x allocator) | Err _ => Panic end.

(** [registers.doorbell.update_volatile_at(slot, ..)], with stream id 0. *)
Definition doorbell (slot target : Z) (x : Xhc) : outcome Xhc :=
  hw ← ring_doorbell slot target (x_hw x); Ret (set_hw x hw).

(** A push on the command ring and its doorbell; the pointer to the TRB. *)
Definition issue_command (cmd : Cmd) (x : Xhc) : outcome (Z * Xhc) :=
  '(trb_ptr, ring) ← command_push (x_commands x) cmd;
  let x := set_commands x ring in
  let x := set_hw x (store_trbs (cr_base ring) (cr_buffer ring) (x_hw x)) in
  x ← doorbell 0 0 x;
  Ret (trb_ptr, x).

(** The two futures as the tasks poll them. *)
Definition poll_transfer_once (wait_on : TransferEventWaitKind) (x : Xhc) :
    outcome (Poll TransferEvent * Xhc) :=
  '(p, ring, i) ← poll_transfer (trb_at (x_hw x)) wait_on (x_events x) (interrupter (x_hw x));
  Ret (p, set_hw (set_events x ring) (set_interrupter i (x_hw x))).

Definition poll_command_once (wait_on : Z) (x : Xhc) : outcome (Poll CommandCompletion * Xhc) :=
  '(p, ring, i) ← poll_command (trb_at (x_hw x)) wait_on (x_events x) (interrupter (x_hw x));
  Ret (p, set_hw (set_events x ring) (set_interrupter i (x_hw x))).

(** Waiting for one of them: time passes between the polls. *)
Fixpoint await_transfer (fuel : nat) (wait_on : TransferEventWaitKind) (x : Xhc) :
    outcome (TransferEvent * Xhc) :=
  match fuel with
  | O => NoFuel
  | S fuel =>
      '(p, x) ← poll_transfer_once wait_on x;
      match p with
      | Ready e => Ret (e, x)
      | Pending => await_transfer fuel wait_on (set_hw x (let_time_pass (x_hw x)))
      end
  end.

Fixpoint await_command (fuel : nat) (wait_on : Z) (x : Xhc) : outcome (CommandCompletion * Xhc) :=
  match fuel with
  | O => NoFuel
  | S fuel =>
      '(p, x) ← poll_command_once wait_on x;
      match p with
      | Ready e => Ret (e, x)
      | Pending => await_command fuel wait_on (set_hw x (let_time_pass (x_hw x)))
      end
  end.

(** [get_received_transfer_trb_on_slot], [get_received_command_trb]. *)
Definition get_received_transfer_trb_on_slot (fuel : nat) (slot_id : Z) :=
  await_transfer fuel (SlotId slot_id).
Definition get_received_transfer_trb_on_trb (fuel : nat) (trb_pointer : Z) :=
  await_transfer fuel (TrbPtr trb_pointer).
Definition get_received_command_trb (fuel : nat) (trb_ptr : Z) := await_command fuel trb_ptr.

End xhc.
#[global] Arguments Xhc {ET} HW.
