(* ===== verification/Device.v ===== *)
(** Device: a USB device behind the controller, [DeviceContextInfo] of [usb/device.rs]: its
    contexts and transfer rings, the transfers, the configuration of an endpoint, the requests
    for descriptors, and the host that the class drivers see. *)
From S2P Require Import Prelude Allocator BitField Trb CycleRing.
From S2P Require Import Rings.
From S2P Require Import EventRing.
From S2P Require Import Descriptor UsbHost.
From S2P Require Import Port.
From S2P Require Import EndpointId.
From S2P Require Import Xhc.

(** * Contexts *)

(** The setters of the contexts of the [xhci] crate: [set_slot f v] is the setter of the field
    [f] of the slot context; an endpoint context is found by its index.  A value that does not
    fit panics. *)
Inductive SlotField := RouteString | RootHubPortNumber | ParentHubSlotId | ParentPortNumber
  | ContextEntries | SlotSpeed.
Inductive EndpointField := EndpointTypeField | MaxPacketSize | MaxBurstSize | TrDequeuePointer
  | DequeueCycleState | Interval | MaxPrimaryStreams | Mult | ErrorCount | AverageTrbLength
  | MaxEsitPayloadLow.

Class ContextLib := {
  InputContext : Type;
  input_32byte : InputContext;
  set_add_context_flag : Z -> InputContext -> outcome InputContext;
  clear_add_context_flag : Z -> InputContext -> outcome InputContext;
  clear_drop_context_flag : Z -> InputContext -> outcome InputContext;
  set_slot : SlotField -> Z -> InputContext -> outcome InputContext;
  get_slot : SlotField -> InputContext -> Z;
  set_endpoint_field : Z -> EndpointField -> Z -> InputContext -> outcome InputContext;
}.

(** [EndpointType] by its number in the xHCI specification. *)
Definition EP_CONTROL : Z := 4.
Definition EP_INTERRUPT_IN : Z := 7.

(** The bits of the [usb_host] types that make up a setup packet. *)
Class UsbBits := {
  request_type_bits : RequestDirection * RequestKind * RequestRecipient -> Z;
  request_code_bits : RequestCode -> Z;
}.

(** The sizes of the two contexts (32 bytes each for the input control, the slot and 31 endpoints,
    aligned to 64), and of a [TransferRing]. *)
Definition INPUT_CONTEXT_SIZE : Z := 1088.
Definition DEVICE_CONTEXT_SIZE : Z := 1024.
Definition TRANSFER_RING_SIZE : Z := 48.

(** [u8::reverse_bits]. *)
Definition reverse_bits (x : Z) : Z :=
  foldl (fun acc i => 2 * acc + Z.b2z (Z.testbit x (Z.of_nat i))) 0 (seq 0 8).

Section device.
Context `{TL : TrbLib Cmd} `{BF : BitFieldLib} `{ET : EventTypes} `{EL : @EventLib ET}
  `{XT : XhciTrbs Cmd} `{PL : PortscLib} {HW : Type} `{XH : @XhcHw HW ET EL} `{HWP : !PortRegisters HW}
  `{CX : ContextLib} `{UB : UsbBits} `{UH : UsbHostLib}.

(** The turns given to every wait for an event. *)
Context (fuel : nat).

Record DeviceContextInfo := mkDeviceContext {
  dev_slot_id : Z;
  dev_port_index : Z;
  dev_routing : Z;
  dev_descriptors : option (list Descriptor);
  input_context_ptr : Z;
  input_context : InputContext;
  device_context_ptr : Z;
  transfer_rings : list (option TransferRing);
}.

Definition set_descriptors (l : list Descriptor) (d : DeviceContextInfo) : DeviceContextInfo :=
  mkDeviceContext (dev_slot_id d) (dev_port_index d) (dev_routing d) (Some l)
    (input_context_ptr d) (input_context d) (device_context_ptr d) (transfer_rings d).
Definition set_input_context (ptr : Z) (c : InputContext) (d : DeviceContextInfo) :
    DeviceContextInfo :=
  mkDeviceContext (dev_slot_id d) (dev_port_index d) (dev_routing d) (dev_descriptors d)
    ptr c (device_context_ptr d) (transfer_rings d).
Definition set_transfer_rings (l : list (option TransferRing)) (d : DeviceContextInfo) :
    DeviceContextInfo :=
  mkDeviceContext (dev_slot_id d) (dev_port_index d) (dev_routing d) (dev_descriptors d)
    (input_context_ptr d) (input_context d) (device_context_ptr d) l.

(** [InputContextWrapper::new], [DeviceContextWrapper::new] and [TransferRing::alloc_new]. *)
Definition input_context_new (x : Xhc HW) : outcome (Z * InputContext * Xhc HW) :=
  '(ptr, x) ← new_box INPUT_CONTEXT_SIZE 64 4096 x; Ret (ptr, input_32byte, x).

Definition device_context_new (x : Xhc HW) : outcome (Z * Xhc HW) :=
  new_box DEVICE_CONTEXT_SIZE 64 4096 x.

Definition transfer_ring_alloc_new (buf_size : Z) (x : Xhc HW) : outcome (TransferRing * Xhc HW) :=
  '(_, x) ← new_box TRANSFER_RING_SIZE 64 PAGE_SIZE x;
  '(ring, allocator) ← transfer_ring_new (x_alloc x) buf_size;
  let x := set_alloc x allocator in
  Ret (ring, set_hw x (store_trbs (tr_base ring) (tr_buffer ring) (x_hw x))).

(** [TransferRing::push_with_existing_buf]: [cmd] is the new normal block for a buffer and its length,
    which are those of the block that it replaces. *)
Definition push_with_existing_buf (self : TransferRing) (cmd : Z -> Z -> Cmd) :
    outcome (Z * TransferRing) :=
  trb ← unwrap (tr_buffer self !! tr_write_index self);
  trb ← unwrap (transfer_of_raw trb);
  match trb with
  | TNormal data_buffer_pointer trb_transfer_length _ =>
      transfer_push self (cmd data_buffer_pointer trb_transfer_length)
  | TOther => Panic
  end.

Definition TRANSFER_RING_BUF_SIZE : Z := 32.

(** [DeviceContextInfo::new]. *)
Definition device_context_info_new (port_index routing slot_id : Z) (x : Xhc HW) :
    outcome (DeviceContextInfo * Xhc HW) :=
  '(ring, x) ← transfer_ring_alloc_new TRANSFER_RING_BUF_SIZE x;
  '(input_ptr, input, x) ← input_context_new x;
  '(device_ptr, x) ← device_context_new x;
  Ret (mkDeviceContext slot_id port_index routing None input_ptr input device_ptr
         (Some ring :: replicate 30 None), x).

Definition device_address (d : DeviceContextInfo) (x : Xhc HW) : Z :=
  output_device_address (x_hw x) (device_context_ptr d).

Definition update_input (f : InputContext -> outcome InputContext) (d : DeviceContextInfo) :
    outcome DeviceContextInfo :=
  c ← f (input_context d); Ret (set_input_context (input_context_ptr d) c d).

Definition enable_slot_context (d : DeviceContextInfo) : outcome DeviceContextInfo :=
  update_input (set_add_context_flag 0) d.

Definition enable_endpoint (dci : DeviceContextIndex) (d : DeviceContextInfo) :
    outcome DeviceContextInfo :=
  update_input (set_add_context_flag dci) d.

(** A setter that is only called on [Some]. *)
Definition set_slot_if (f : SlotField) (v : option Z) (c : InputContext) : outcome InputContext :=
  match v with Some v => set_slot f v c | None => Ret c end.

Definition initialize_slot_context (port_id port_speed routing : Z)
    (parent_hub_slot_id parent_port_index : option Z) (d : DeviceContextInfo) :
    outcome DeviceContextInfo :=
  update_input (fun c =>
    c ← set_slot RouteString (Z.land routing 0x3ffff) c;
    c ← set_slot RootHubPortNumber port_id c;
    c ← set_slot_if ParentHubSlotId parent_hub_slot_id c;
    c ← set_slot_if ParentPortNumber parent_port_index c;
    c ← set_slot ContextEntries 1 c;
    set_slot SlotSpeed port_speed c) d.

Definition slot_context (f : SlotField) (d : DeviceContextInfo) : Z := get_slot f (input_context d).

(** [transfer_rings[dci - 1]]. *)
Definition transfer_ring_at (dci : DeviceContextIndex) (d : DeviceContextInfo) :
    outcome (option TransferRing) :=
  index ← sub_w dci 1; unwrap (transfer_rings d !! Z.to_nat index).

Definition set_transfer_ring_at (dci : DeviceContextIndex) (ring : TransferRing)
    (d : DeviceContextInfo) : outcome DeviceContextInfo :=
  index ← sub_w dci 1;
  _ ← unwrap (transfer_rings d !! Z.to_nat index);
  Ret (set_transfer_rings (<[Z.to_nat index := Some ring]> (transfer_rings d)) d).

Definition initialize_endpoint0_context (transfer_ring_dequeue_pointer max_packet_size : Z)
    (d : DeviceContextInfo) : outcome DeviceContextInfo :=
  let ep0 := set_endpoint_field dci_ep0 in
  update_input (fun c =>
    c ← ep0 EndpointTypeField EP_CONTROL c;
    c ← ep0 MaxPacketSize max_packet_size c;
    c ← ep0 MaxBurstSize 0 c;
    c ← ep0 TrDequeuePointer transfer_ring_dequeue_pointer c;
    c ← ep0 DequeueCycleState 1 c;
    c ← ep0 Interval 0 c;
    c ← ep0 MaxPrimaryStreams 0 c;
    c ← ep0 Mult 0 c;
    c ← ep0 ErrorCount 3 c;
    ep0 AverageTrbLength 8 c) d.

(** * Transfers *)

(** A push on the ring of an endpoint: the ring must be there. *)
Definition push_transfer (dci : DeviceContextIndex) (cmd : Cmd) (d : DeviceContextInfo)
    (x : Xhc HW) : outcome (Z * DeviceContextInfo * Xhc HW) :=
  slot ← transfer_ring_at dci d;
  ring ← unwrap slot;
  '(trb_ptr, ring) ← transfer_push ring cmd;
  d ← set_transfer_ring_at dci ring d;
  Ret (trb_ptr, d, set_hw x (store_trbs (tr_base ring) (tr_buffer ring) (x_hw x))).

(** [SetupPacketRaw::from]. *)
Definition setup_packet_raw (s : Setup) (w_length : Z) : SetupPacketRaw :=
  mkSetupPacketRaw (request_type_bits (request_type s)) (request_code_bits (request s))
    ((w_value s).1 + 256 * (w_value s).2) (w_index s) w_length.

(** [push_control_transfer]; a buffer is its address and its length. *)
Definition push_control_transfer (endpoint_id : EndpointId) (setup_data : SetupPacketRaw)
    (buf : option (Z * Z)) (d : DeviceContextInfo) (x : Xhc HW) :
    outcome (TransferEventWaitKind * DeviceContextInfo * Xhc HW) :=
  dci ← endpoint_id_address endpoint_id;
  '(wait_ons, d, x) ←
    match buf with
    | Some (ptr, len) =>
        '(setup_trb_ptr, d, x) ← push_transfer dci (setup_stage setup_data true) d x;
        '(data_trb_ref_in_ring, d, x) ← push_transfer dci (data_stage ptr (cast 32 len)) d x;
        '(status_trb_ptr, d, x) ← push_transfer dci (status_stage false) d x;
        Ret ([setup_trb_ptr; data_trb_ref_in_ring; status_trb_ptr], d, x)
    | None =>
        '(setup_stage_trb_ptr, d, x) ← push_transfer dci (setup_stage setup_data false) d x;
        '(status_trb_ptr, d, x) ← push_transfer dci (status_stage true) d x;
        Ret ([setup_stage_trb_ptr; status_trb_ptr], d, x)
    end;
  x ← doorbell (dev_slot_id d) dci x;
  Ret (TrbPtrs wait_ons, d, x).

(** What the completion of a transfer of [w_length] bytes means. *)
Definition control_transfer_result (w_length : Z) (trb : TransferEvent) :
    outcome (result Z TransferError) :=
  let code := te_completion_code trb in
  if negb (completion_code_ok code) then Ret (Err (Permanent "Unknown completion code"))
  else if code =? ShortPacket then
    len ← sub_w w_length (te_trb_transfer_length trb); Ret (Ok len)
  else if code =? Success then Ret (Ok w_length)
  else Ret (Err (Retry "CompletionCode error")).

(** The buffer of the caller in memory, and what is in it afterwards. *)
Definition place_arg (buf : option (list Z)) (x : Xhc HW) : option (Z * Z) * Xhc HW :=
  match buf with
  | Some b => let '(ptr, hw) := place_buffer b (x_hw x) in
              (Some (ptr, Z.of_nat (length b)), set_hw x hw)
  | None => (None, x)
  end.

Definition read_arg (place : option (Z * Z)) (x : Xhc HW) : list Z :=
  match place with Some (ptr, len) => bytes_at (x_hw x) ptr (Z.to_nat len) | None => [] end.

(** [async_control_transfer] by the endpoint's number and direction. *)
Definition async_control_transfer (ep_num : Z) (ep_dir : Direction) (s : Setup)
    (buf : option (list Z)) (d : DeviceContextInfo) (x : Xhc HW) :
    outcome (result Z TransferError * list Z * DeviceContextInfo * Xhc HW) :=
  let w_length := match buf with Some b => cast 16 (Z.of_nat (length b)) | None => 0 end in
  endpoint_id ← endpoint_id_new ep_num ep_dir;
  let '(place, x) := place_arg buf x in
  '(trb_wait_on, d, x) ←
    push_control_transfer endpoint_id (setup_packet_raw s w_length) place d x;
  '(trb, x) ← await_transfer fuel trb_wait_on x;
  r ← control_transfer_result w_length trb;
  Ret (r, read_arg place x, d, x).

(** [async_register_hub]. *)
Definition XHCI_SLOT_ENTRY_HUB : Z := 26.

Definition hub_input_context (c : InputContext) : outcome InputContext :=
  c ← set_slot ContextEntries XHCI_SLOT_ENTRY_HUB c;
  c ← set_add_context_flag 0 c;
  c ← clear_add_context_flag 1 c;
  for_range 2 32 (fun i c => c ← clear_drop_context_flag i c; clear_add_context_flag i c) c.

Definition async_register_hub (_address : Z) (d : DeviceContextInfo) (x : Xhc HW) :
    outcome (result unit TransferError * DeviceContextInfo * Xhc HW) :=
  d ← update_input hub_input_context d;
  '(trb_ptr, x) ← issue_command
    (evaluate_context (input_context_ptr d) (cast 8 (dev_slot_id d))) x;
  '(received, x) ← await_command fuel trb_ptr x;
  _ ← assert (cc_completion_code received =? Success);
  Ret (Ok tt, d, x).

(** [async_assign_address]: the device behind the hub becomes a user event. *)
Definition async_assign_address (_hub_address port_index : Z) (device_is_low_speed : bool)
    (d : DeviceContextInfo) (x : Xhc HW) :
    outcome (result unit TransferError * DeviceContextInfo * Xhc HW) :=
  port ← add_w 8 port_index 1;
  let event := UserEvents.mkInitPortDevice (cast 8 (dev_port_index d))
    (next_route (dev_routing d) port) (if device_is_low_speed then 1 else 0) None None in
  Ret (Ok tt, d, set_user x (UserEvents.push (x_user x) (UserEvents.UInitPortDevice event))).

(** * Endpoints *)

(** The interval of an interrupt endpoint. *)
Definition endpoint_interval (port_speed b_interval : Z) : outcome (option Z) :=
  if (port_speed =? 1) || (port_speed =? 2) then
    i ← add_w 8 (Z.b2z (get_bit (reverse_bits b_interval) 0)) 3; Ret (Some i)
  else if (port_speed =? 3) || (port_speed =? 4) then i ← sub_w b_interval 1; Ret (Some i)
  else Ret None.

(** The endpoint context of an interrupt endpoint up to its interval. *)
Definition interrupt_endpoint_context (dci : DeviceContextIndex) (ring_ptr max_packet_size : Z)
    (c : InputContext) : outcome InputContext :=
  let ep := set_endpoint_field dci in
  c ← ep EndpointTypeField EP_INTERRUPT_IN c;
  c ← ep TrDequeuePointer ring_ptr c;
  c ← ep DequeueCycleState 1 c;
  c ← ep ErrorCount 3 c;
  c ← ep MaxPacketSize max_packet_size c;
  c ← ep AverageTrbLength 1 c;
  c ← ep MaxBurstSize 0 c;
  c ← ep MaxPrimaryStreams 0 c;
  c ← ep MaxEsitPayloadLow max_packet_size c;
  ep Mult 0 c.

(** The command that makes the controller use the endpoint. *)
Definition issue_configure_endpoint (d : DeviceContextInfo) (x : Xhc HW) :
    outcome (result bool TransferError * DeviceContextInfo * Xhc HW) :=
  '(trb_ptr, x) ← issue_command
    (configure_endpoint (input_context_ptr d) (cast 8 (dev_slot_id d))) x;
  '(trb, x) ← get_received_command_trb fuel trb_ptr x;
  Ret (if cc_completion_code trb =? Success then Ok true
       else Err (Retry "CompletionCode error"), d, x).

(** [init_transfer_ring_for_interrupt_at]. *)
Definition init_transfer_ring_for_interrupt_at (ep : UsbHost.Endpoint)
    (endpoint_descriptor : EndpointDescriptor) (d : DeviceContextInfo) (x : Xhc HW) :
    outcome (result bool TransferError * DeviceContextInfo * Xhc HW) :=
  dci ← dci_from_descriptor endpoint_descriptor;
  '(portsc, hw) ← port_read (dev_port_index d) (x_hw x);
  let x := set_hw x hw in
  slot ← transfer_ring_at dci d;
  match slot with
  | Some _ => Ret (Ok false, d, x)
  | None =>
      '(ptr, c, x) ← input_context_new x;
      let d := set_input_context ptr c d in
      d ← update_input (set_add_context_flag 0) d;
      match ep_transfer_type ep with
      | Interrupt =>
          '(ring, x) ← transfer_ring_alloc_new 32 x;
          d ← update_input (set_add_context_flag dci) d;
          d ← update_input (interrupt_endpoint_context dci (tr_base ring) (ep_max_packet_size ep)) d;
          interval ← endpoint_interval (port_speed portsc) (b_interval endpoint_descriptor);
          match interval with
          | None => Ret (Err (Permanent "Unknown speed"), d, x)
          | Some interval =>
              d ← update_input (set_endpoint_field dci Interval interval) d;
              d ← set_transfer_ring_at dci ring d;
              d ← update_input (set_slot ContextEntries dci) d;
              issue_configure_endpoint d x
          end
      | _ => Panic
      end
  end.

(** * Requests for descriptors *)

(** The loop of [request_descriptor]: 100 retries. *)
Definition RETRIES : nat := 100.

Fixpoint request_loop (retries : nat) (s : Setup) (buf : list Z) (d : DeviceContextInfo)
    (x : Xhc HW) : outcome (Z * list Z * DeviceContextInfo * Xhc HW) :=
  '(r, buf, d, x) ←
    async_control_transfer (endpoint_number default_control_pipe) (direct default_control_pipe)
      s (Some buf) d x;
  match r with
  | Ok length => Ret (length, buf, d, x)
  | Err _ => match retries with
             | O => Panic
             | S retries => request_loop retries s buf d x
             end
  end.

Definition request_descriptor (descriptor_type descriptor_index : Z) (buf : list Z)
    (d : DeviceContextInfo) (x : Xhc HW) : outcome (Z * list Z * DeviceContextInfo * Xhc HW) :=
  request_loop RETRIES
    (mkSetup (DeviceToHost, Standard, RecipientDevice) GetDescriptor
       (descriptor_index, descriptor_type) 0) buf d x.

(** The contents of an uninitialised buffer. *)
Context (uninit : nat -> list Z).

Definition request_device_descriptor (d : DeviceContextInfo) (x : Xhc HW) :
    outcome (list Z * DeviceContextInfo * Xhc HW) :=
  '(length, buf, d, x) ←
    request_descriptor DT_DEVICE 0 (uninit (Z.to_nat size_of_device_descriptor)) d x;
  _ ← assert (length =? size_of_device_descriptor);
  Ret (buf, d, x).

Definition request_config_descriptor_and_rest (d : DeviceContextInfo) (x : Xhc HW) :
    outcome (list Descriptor * DeviceContextInfo * Xhc HW) :=
  '(len, config_buf, d, x) ←
    request_descriptor DT_CONFIGURATION 0 (uninit (Z.to_nat size_of_configuration_descriptor)) d x;
  _ ← assert (len =? size_of_configuration_descriptor);
  let total := w_total_length (read_configuration config_buf) in
  '(len, buf, d, x) ← request_descriptor DT_CONFIGURATION 0 (uninit (Z.to_nat total)) d x;
  _ ← assert (len =? Z.of_nat (length buf));
  l ← descriptors buf;
  Ret (l, set_descriptors l d, x).

(** * Reports *)

(** The descriptor of an endpoint by its number. *)
Definition endpoint_descriptor_of (number : Z) (l : list Descriptor) : option EndpointDescriptor :=
  head (omap (fun desc => match desc with
    | Descriptor.Endpoint e => if Z.land (b_endpoint_address e) 0x7f =? number then Some e else None
    | _ => None
    end) l).

(** What [async_in_transfer] does with the event: the TRB tells where the bytes are. *)
Definition copy_report (trb : TransferEvent) (ptr : Z) (len : nat) (x : Xhc HW) :
    outcome (list Z) :=
  let transferred_length := te_trb_transfer_length trb in
  transfer_trb ← unwrap (transfer_of_raw (trb_at (x_hw x) (te_trb_pointer trb)));
  match transfer_trb with
  | TNormal data_buffer_pointer _ _ =>
      let n := Z.to_nat (Z.min transferred_length (cast 32 (Z.of_nat len))) in
      Ret (bytes_at (x_hw x) data_buffer_pointer n ++ drop n (bytes_at (x_hw x) ptr len))
  | TOther => Panic
  end.

Definition async_in_transfer (ep : UsbHost.Endpoint) (buf : list Z) (d : DeviceContextInfo)
    (x : Xhc HW) : outcome (result Z TransferError * list Z * DeviceContextInfo * Xhc HW) :=
  '(d, x) ← match dev_descriptors d with
             | Some _ => Ret (d, x)
             | None => '(_, d, x) ← request_config_descriptor_and_rest d x; Ret (d, x)
             end;
  l ← unwrap (dev_descriptors d);
  match endpoint_descriptor_of (ep_endpoint_num ep) l with
  | None => Ret (Err (Permanent "Endpoint Descriptor Not Found"), buf, d, x)
  | Some endpoint_descriptor =>
      dci ← dci_from_descriptor endpoint_descriptor;
      _ ← assert (match ep_transfer_type ep with Interrupt => true | _ => false end);
      '(r, d, x) ← init_transfer_ring_for_interrupt_at ep endpoint_descriptor d x;
      match r with
      | Err e => Ret (Err e, buf, d, x)
      | Ok _ =>
          let '(ptr, hw) := place_buffer buf (x_hw x) in
          '(_, d, x) ← push_transfer dci
            (normal ptr (cast 32 (Z.of_nat (length buf)))) d (set_hw x hw);
          x ← doorbell (dev_slot_id d) dci x;
          '(trb, x) ← get_received_transfer_trb_on_slot fuel (cast 8 (dev_slot_id d)) x;
          buf ← copy_report trb ptr (length buf) x;
          Ret (Ok (te_trb_transfer_length trb), buf, d, x)
      end
  end.

(** * The host *)

(** [AsyncUSBHost] and [USBHost] for [DeviceContextInfo]. *)
#[global] Instance device_host : USBHost (DeviceContextInfo * Xhc HW) := {|
  control_transfer h ep s buf :=
    '(r, buf, d, x) ← async_control_transfer (ep_endpoint_num ep) (ep_direction ep) s buf h.1 h.2;
    Ret (r, ep, buf, (d, x));
  in_transfer h ep buf :=
    '(r, buf, d, x) ← async_in_transfer ep buf h.1 h.2; Ret (r, ep, buf, (d, x));
  out_transfer h ep buf := Panic;
  register_hub h address := '(r, d, x) ← async_register_hub address h.1 h.2; Ret (r, (d, x));
  assign_address h hub_address port_index low_speed :=
    '(r, d, x) ← async_assign_address hub_address port_index low_speed h.1 h.2; Ret (r, (d, x));
|}.

#[global] Instance device_host_laws : USBHostLaws (DeviceContextInfo * Xhc HW).
Proof.
  split; simpl; intros.
  - apply bind_Ret_inv in H as ([[[? ?] ?] ?] & _ & H). by injection H as _ <- _ _.
  - apply bind_Ret_inv in H as ([[[? ?] ?] ?] & _ & H). by injection H as _ <- _ _.
Qed.

End device.
