(* ===== verification/DeviceInit.v ===== *)
(** DeviceInit: the initialisation of an addressed device, [start_initialization] of
    [usb/device.rs]: which class driver takes it, and its interrupt endpoint. *)
From S2P Require Import Prelude Allocator BitField Trb CycleRing.
From S2P Require Import Rings.
From S2P Require Import EventRing.
From S2P Require Import Descriptor UsbHost InputDriver Hub ClassDrivers.
From S2P Require Import Port.
From S2P Require Import EndpointId.
From S2P Require Import Xhc.
From S2P Require Import Device.

(** The constants of [usb/class_driver/keyboard.rs] and [mouse.rs]. *)
Definition INPUT_SETTLE_DELAY : Z := 2.
Definition INPUT_CONFIG_BUFFER_LEN : Z := 256.
Definition KEYBOARD_N_IN_TRANSFER_BYTES : nat := 8.
Definition MOUSE_N_IN_TRANSFER_BYTES : nat := 3.

Section classify.
Context `{UH : UsbHostLib}.

(** The variables of the loop over the descriptors. *)
Record Interfaces := mkInterfaces {
  boot_keyboard_interface : option InterfaceDescriptor;
  mouse_interface : option InterfaceDescriptor;
  hub_interface : option InterfaceDescriptor;
  found_endpoint : option EndpointDescriptor;
}.

Definition no_interfaces : Interfaces := mkInterfaces None None None None.

(** One descriptor: the last interface of a kind counts, and the first endpoint behind a boot
    interface. *)
Definition classify_step (f : Interfaces) (desc : Descriptor) : Interfaces :=
  match desc with
  | Interface i =>
      let '(c, s, p) := (b_interface_class i, b_interface_sub_class i, b_interface_protocol i) in
      if (c =? 3) && (s =? 1) && (p =? 1) then
        mkInterfaces (Some i) (mouse_interface f) (hub_interface f) (found_endpoint f)
      else if (c =? 3) && (s =? 1) && (p =? 2) then
        mkInterfaces (boot_keyboard_interface f) (Some i) (hub_interface f) (found_endpoint f)
      else if (c =? 9) && (s =? 0) then
        mkInterfaces (boot_keyboard_interface f) (mouse_interface f) (Some i) (found_endpoint f)
      else f
  | Descriptor.Endpoint e =>
      match boot_keyboard_interface f, mouse_interface f, found_endpoint f with
      | None, None, _ => f
      | _, _, Some _ => f
      | _, _, None =>
          mkInterfaces (boot_keyboard_interface f) (mouse_interface f) (hub_interface f) (Some e)
      end
  | _ => f
  end.

Definition classify (l : list Descriptor) : Interfaces := foldl classify_step no_interfaces l.

End classify.

Section init.
Context `{TL : TrbLib Cmd} `{BF : BitFieldLib} `{ET : EventTypes} `{EL : @EventLib ET}
  `{XT : XhciTrbs Cmd} `{PL : PortscLib} {HW : Type} `{XH : @XhcHw HW ET EL} `{HWP : !PortRegisters HW}
  `{CX : ContextLib} `{UB : UsbBits} `{UH : UsbHostLib}.

(** The turns of every wait and of the loops of the drivers, the contents of an uninitialised
    buffer, the [transfer::Normal] of [fill_with_normal], [DeviceDescriptor::b_max_packet_size],
    and the callbacks on their common state. *)
Context (fuel : nat) (uninit : nat -> list Z) (normal_trb : Z -> Z -> Cmd)
  (b_max_packet_size : list Z -> Z) {C : Type}
  (mouse_callback keyboard_callback : C -> Z -> list Z -> outcome C).

(** [.unwrap()] on a [Result]. *)
Definition unwrap_ok {A E} (r : result A E) : outcome A :=
  match r with Ok a => Ret a | Err _ => Panic end.

(** The requests of the device descriptor that exercise the ring. *)
Definition exercise_ring (d : DeviceContextInfo) (x : Xhc HW) :
    outcome (DeviceContextInfo * Xhc HW) :=
  slot ← transfer_ring_at dci_ep0 d;
  ring ← unwrap slot;
  for_range 0 (Z.of_nat (buffer_len ring)) (fun _ '(d, x) =>
    '(_, d, x) ← request_device_descriptor fuel uninit d x; Ret (d, x)) (d, x).

(** The interrupt endpoint of an input device: its ring, filled with buffers for reports, and the
    first doorbell. *)
Definition start_reports (ep : option UsbHost.Endpoint) (endpoint : EndpointDescriptor) (n : Z)
    (d : DeviceContextInfo) (x : Xhc HW) : outcome (DeviceContextInfo * Xhc HW) :=
  dci ← dci_from_descriptor endpoint;
  ep ← unwrap ep;
  '(r, d, x) ← init_transfer_ring_for_interrupt_at fuel ep endpoint d x;
  _ ← unwrap_ok r;
  slot ← transfer_ring_at dci d;
  ring ← unwrap slot;
  '(ring, allocator) ← fill_with_normal normal_trb (x_alloc x) ring n;
  let x := set_alloc x allocator in
  d ← set_transfer_ring_at dci ring d;
  let x := set_hw x (store_trbs (tr_base ring) (tr_buffer ring) (x_hw x)) in
  x ← doorbell (dev_slot_id d) dci x;
  Ret (d, x).

Definition init_keyboard (endpoint : option EndpointDescriptor) (max_packet_size : Z)
    (cd : ClassDriverManager) (c : C) (d : DeviceContextInfo) (x : Xhc HW) :
    outcome (ClassDriverManager * C * DeviceContextInfo * Xhc HW) :=
  endpoint ← unwrap endpoint;
  _ ← dci_from_descriptor endpoint;
  let address := device_address d x in
  let '(r, cd) := add_keyboard_device cd (dev_slot_id d) max_packet_size address in
  _ ← unwrap_ok r;
  '(r, kd, (d, x, c)) ← tick_until_running_state (HH := device_host fuel uninit)
    INPUT_SETTLE_DELAY INPUT_CONFIG_BUFFER_LEN KEYBOARD_N_IN_TRANSFER_BYTES keyboard_callback uninit
    fuel (driver (keyboard cd)) (d, x, c);
  let cd := mkManager (mouse cd) (mkDriverInfo (slot_id (keyboard cd)) kd) (hub cd) in
  _ ← unwrap_ok r;
  eps ← endpoints_mut kd address;
  ep ← unwrap (eps !! 0%nat);
  '(d, x) ← start_reports ep endpoint (Z.of_nat KEYBOARD_N_IN_TRANSFER_BYTES) d x;
  Ret (cd, c, d, x).

Definition init_mouse (endpoint : option EndpointDescriptor) (max_packet_size : Z)
    (cd : ClassDriverManager) (c : C) (d : DeviceContextInfo) (x : Xhc HW) :
    outcome (ClassDriverManager * C * DeviceContextInfo * Xhc HW) :=
  endpoint ← unwrap endpoint;
  _ ← dci_from_descriptor endpoint;
  let address := device_address d x in
  let '(r, cd) := add_mouse_device cd (dev_slot_id d) max_packet_size address in
  _ ← unwrap_ok r;
  '(r, md, (d, x, c)) ← tick_until_running_state (HH := device_host fuel uninit)
    INPUT_SETTLE_DELAY INPUT_CONFIG_BUFFER_LEN MOUSE_N_IN_TRANSFER_BYTES mouse_callback uninit
    fuel (driver (mouse cd)) (d, x, c);
  let cd := mkManager (mkDriverInfo (slot_id (mouse cd)) md) (keyboard cd) (hub cd) in
  _ ← unwrap_ok r;
  eps ← endpoints_mut md address;
  ep ← unwrap (eps !! 0%nat);
  '(d, x) ← start_reports ep endpoint (Z.of_nat MOUSE_N_IN_TRANSFER_BYTES) d x;
  Ret (cd, c, d, x).

Definition init_hub (max_packet_size : Z) (cd : ClassDriverManager) (d : DeviceContextInfo)
    (x : Xhc HW) : outcome (ClassDriverManager * DeviceContextInfo * Xhc HW) :=
  let '(r, cd) := add_hub_device cd (dev_slot_id d) max_packet_size (device_address d x) in
  _ ← unwrap_ok r;
  '(r, hd, (d, x)) ← HubDriver.hub_tick_until_running_state (HH := device_host fuel uninit) uninit
    fuel (driver (hub cd)) (d, x);
  _ ← unwrap_ok r;
  Ret (mkManager (mouse cd) (keyboard cd) (mkDriverInfo (slot_id (hub cd)) hd), d, x).

(** [start_initialization]. *)
Definition start_initialization (cd : ClassDriverManager) (c : C) (d : DeviceContextInfo)
    (x : Xhc HW) : outcome (ClassDriverManager * C * DeviceContextInfo * Xhc HW) :=
  '(device_descriptor, d, x) ← request_device_descriptor fuel uninit d x;
  '(d, x) ← exercise_ring d x;
  '(l, d, x) ← request_config_descriptor_and_rest fuel uninit d x;
  let f := classify l in
  let max_packet_size := b_max_packet_size device_descriptor in
  '(cd, c, d, x) ← match boot_keyboard_interface f with
    | Some _ => init_keyboard (found_endpoint f) max_packet_size cd c d x
    | None => Ret (cd, c, d, x)
    end;
  '(cd, c, d, x) ← match mouse_interface f with
    | Some _ => init_mouse (found_endpoint f) max_packet_size cd c d x
    | None => Ret (cd, c, d, x)
    end;
  '(cd, d, x) ← match hub_interface f with
    | Some _ => init_hub max_packet_size cd d x
    | None => Ret (cd, d, x)
    end;
  Ret (cd, c, d, x).

End init.
