(* ===== verification/DeviceManager.v ===== *)
(** DeviceManager: the table of devices and the array of pointers to their contexts that the
    controller reads ([xhci/device_manager.rs]). *)
From S2P Require Import Prelude Allocator BitField Trb CycleRing.
From S2P Require Import Rings.
From S2P Require Import EventRing.
From S2P Require Import Descriptor UsbHost.
From S2P Require Import Port.
From S2P Require Import Xhc.
From S2P Require Import Device.

Section device_manager.
Context `{TL : TrbLib Cmd} `{BF : BitFieldLib} `{ET : EventTypes} `{EL : @EventLib ET}
  `{XT : XhciTrbs Cmd} {HW : Type} `{XH : @XhcHw HW ET EL} `{CX : ContextLib} `{UH : UsbHostLib}.

(** [DeviceContextArray]: the address of the array, its entries, and the devices; the slot 0 is
    not a device. *)
Record DeviceManager := mkDeviceManager {
  device_contexts_ptr : Z;
  device_contexts : list Z;
  device_context_infos : list (option DeviceContextInfo);
}.

Definition device_manager_new (max_slots : Z) (x : Xhc HW) : outcome (DeviceManager * Xhc HW) :=
  let device_contexts_len := max_slots + 1 in
  '(r, allocator, _) ← KernelAlloc.kernel_alloc_array_with_boundary_with_default_else
    8 (x_alloc x) ∅ device_contexts_len 64 PAGE_SIZE 0;
  match r with
  | Ok (ptr, len) =>
      Ret (mkDeviceManager ptr (replicate (Z.to_nat len) 0)
             (replicate (Z.to_nat device_contexts_len) None), set_alloc x allocator)
  | Err _ => Panic
  end.

Definition max_slots (self : DeviceManager) : outcome Z :=
  sub_w (Z.of_nat (length (device_contexts self))) 1.

Definition get_device_contexts_head_ptr (self : DeviceManager) : Z := device_contexts_ptr self.

(** [device_contexts[i] = ptr]. *)
Definition set_device_context (self : DeviceManager) (i ptr : Z) : outcome DeviceManager :=
  _ ← unwrap (device_contexts self !! Z.to_nat i);
  Ret (mkDeviceManager (device_contexts_ptr self) (<[Z.to_nat i := ptr]> (device_contexts self))
         (device_context_infos self)).

Definition set_scratchpad_buffer_array (self : DeviceManager) (ptr_head : Z) :
    outcome DeviceManager :=
  set_device_context self 0 ptr_head.

(** [device_context_infos[slot_id]], locked: out of range it panics. *)
Definition device_by_slot_id (self : DeviceManager) (slot_id : Z) :
    outcome (option DeviceContextInfo) :=
  unwrap (device_context_infos self !! Z.to_nat slot_id).

Definition set_device (self : DeviceManager) (slot_id : Z) (d : option DeviceContextInfo) :
    DeviceManager :=
  mkDeviceManager (device_contexts_ptr self) (device_contexts self)
    (<[Z.to_nat slot_id := d]> (device_context_infos self)).

Definition allocate_device (self : DeviceManager) (port_index slot_id routing : Z) (x : Xhc HW) :
    outcome (DeviceManager * Xhc HW) :=
  max ← max_slots self;
  if max <? slot_id then Panic
  else
    info ← device_by_slot_id self slot_id;
    match info with
    | Some _ => Panic
    | None =>
        '(d, x) ← device_context_info_new port_index routing slot_id x;
        Ret (set_device self slot_id (Some d), x)
    end.

Definition deallocate_device (self : DeviceManager) (slot_id : Z) : outcome DeviceManager :=
  info ← device_by_slot_id self slot_id;
  _ ← assert (match info with Some _ => true | None => false end);
  Ret (set_device self slot_id None).

Definition load_device_context (self : DeviceManager) (slot_id : Z) : outcome DeviceManager :=
  max ← max_slots self;
  if max <? slot_id then Panic
  else
    info ← device_by_slot_id self slot_id;
    d ← unwrap info;
    let ptr := device_context_ptr d in
    _ ← assert (6 <=? Erst.trailing_zeros ptr);
    set_device_context self slot_id ptr.

(** * Lemmas *)

(** The slots with a device. *)
Definition allocated (self : DeviceManager) (n : nat) : Prop :=
  exists d, device_context_infos self !! n = Some (Some d).

Lemma device_by_slot_id_Ret self slot_id info : device_by_slot_id self slot_id = Ret info ->
  device_context_infos self !! Z.to_nat slot_id = Some info.
Proof. apply unwrap_Ret_inv. Qed.

Lemma allocated_set_device self slot_id d info n :
  device_context_infos self !! Z.to_nat slot_id = Some info ->
  allocated (set_device self slot_id d) n <->
    (if decide (n = Z.to_nat slot_id) then is_Some d else allocated self n).
Proof.
  intros Hi. unfold allocated, set_device. simpl. destruct (decide (n = Z.to_nat slot_id)) as [->|Hne].
  - rewrite list_lookup_insert_eq by (by eapply lookup_lt_Some). split.
    + intros [d' Hd]. injection Hd as ->. by exists d'.
    + intros [d' ->]. by exists d'.
  - by rewrite list_lookup_insert_ne by done.
Qed.

Lemma allocate_device_inv self port_index slot_id routing x self' x' :
  allocate_device self port_index slot_id routing x = Ret (self', x') ->
  ~ allocated self (Z.to_nat slot_id) /\
  forall n, allocated self' n <-> n = Z.to_nat slot_id \/ allocated self n.
Proof.
  intros H. apply bind_Ret_inv in H as (max & _ & H). destruct (max <? slot_id); [done|].
  apply bind_Ret_inv in H as (info & Hi & H). apply device_by_slot_id_Ret in Hi.
  destruct info; [done|]. apply bind_Ret_inv in H as ([d x1] & _ & H). injection H as <- _.
  split; [intros [d' Hd']; congruence|]. intros n. rewrite allocated_set_device by done.
  destruct (decide _) as [->|Hne]; [|naive_solver]. split; [by left|]. intros _. by eexists.
Qed.

Lemma deallocate_device_inv self slot_id self' : deallocate_device self slot_id = Ret self' ->
  allocated self (Z.to_nat slot_id) /\
  forall n, allocated self' n <-> n <> Z.to_nat slot_id /\ allocated self n.
Proof.
  intros H. apply bind_Ret_inv in H as (info & Hi & H). apply device_by_slot_id_Ret in Hi.
  apply bind_Ret_inv in H as (u & Ha & H). injection H as <-. destruct info as [d|]; [|done].
  split; [by exists d|]. intros n. rewrite allocated_set_device by done.
  destruct (decide _) as [->|Hne]; [|naive_solver]. split; [by intros []|naive_solver].
Qed.

(** A device that is there can be taken away. *)
Lemma deallocate_device_Ret self slot_id : allocated self (Z.to_nat slot_id) ->
  deallocate_device self slot_id = Ret (set_device self slot_id None).
Proof. intros [d Hd]. unfold deallocate_device, device_by_slot_id. by rewrite Hd. Qed.

Lemma load_device_context_inv self slot_id self' : load_device_context self slot_id = Ret self' ->
  device_context_infos self' = device_context_infos self.
Proof.
  intros H. apply bind_Ret_inv in H as (max & _ & H). destruct (max <? slot_id); [done|].
  apply bind_Ret_inv in H as (info & _ & H). apply bind_Ret_inv in H as (d & _ & H).
  apply bind_Ret_inv in H as (u & _ & H). apply bind_Ret_inv in H as (u' & _ & H).
  by injection H as <-.
Qed.

(** Putting a device back changes nothing of that. *)
Lemma allocated_put_back self slot_id d d' n :
  device_context_infos self !! Z.to_nat slot_id = Some (Some d) ->
  allocated (set_device self slot_id (Some d')) n <-> allocated self n.
Proof.
  intros Hd. rewrite allocated_set_device by done.
  destruct (decide _) as [->|]; [|done]. split; [by exists d|by eexists].
Qed.

End device_manager.
