(* ===== verification/Controller.v ===== *)
(** Controller: the handlers of [XhciController] ([xhci/controller.rs]): a port is reset, gets a slot,
    an address, and its device is initialised, one port at a time; the events drive it. *)
From S2P Require Import Prelude Allocator BitField Trb CycleRing.
From S2P Require Import Rings.
From S2P Require Import EventRing.
From S2P Require Import Descriptor UsbHost InputDriver Hub ClassDrivers.
From S2P Require Import Port.
From S2P Require Import EndpointId.
From S2P Require Import Xhc.
From S2P Require Import Device.
From S2P Require Import DeviceInit.
From S2P Require Import DeviceManager.

Section controller.
Context `{TL : TrbLib Cmd} `{BF : BitFieldLib} `{ET : EventTypes} `{EL : @EventLib ET}
  `{XT : XhciTrbs Cmd} `{PL : PortscLib} {HW : Type} `{XH : @XhcHw HW ET EL} `{HWP : !PortRegisters HW}
  `{CX : ContextLib} `{UB : UsbBits} `{UH : UsbHostLib}.
Context (fuel : nat) (uninit : nat -> list Z) (normal_trb : Z -> Z -> Cmd)
  (b_max_packet_size : list Z -> Z) {C : Type}
  (mouse_callback keyboard_callback : C -> Z -> list Z -> outcome C).

(** The registers, the rings and the memory are in [c_x]; [c_callbacks] is what the callbacks
    change. *)
Record XhciController := mkController {
  c_x : Xhc HW;
  c_devices : DeviceManager;
  class_driver_manager : ClassDriverManager;
  c_callbacks : C;
  number_of_ports : Z;
  port_configure_state : PortConfigureState;
  port_slot_id_map : gmap Z (list Z);
}.

Definition set_x (c : XhciController) (x : Xhc HW) : XhciController :=
  mkController x (c_devices c) (class_driver_manager c) (c_callbacks c) (number_of_ports c)
    (port_configure_state c) (port_slot_id_map c).
Definition set_devices (c : XhciController) (dm : DeviceManager) : XhciController :=
  mkController (c_x c) dm (class_driver_manager c) (c_callbacks c) (number_of_ports c)
    (port_configure_state c) (port_slot_id_map c).
Definition set_drivers (c : XhciController) (cd : ClassDriverManager) (cb : C) : XhciController :=
  mkController (c_x c) (c_devices c) cd cb (number_of_ports c) (port_configure_state c)
    (port_slot_id_map c).
Definition set_ports (c : XhciController) (s : PortConfigureState) : XhciController :=
  mkController (c_x c) (c_devices c) (class_driver_manager c) (c_callbacks c) (number_of_ports c)
    s (port_slot_id_map c).
Definition set_slots (c : XhciController) (m : gmap Z (list Z)) : XhciController :=
  mkController (c_x c) (c_devices c) (class_driver_manager c) (c_callbacks c) (number_of_ports c)
    (port_configure_state c) m.

Definition set_phase (port_idx : Z) (phase : PortConfigPhase) (c : XhciController) :
    outcome XhciController :=
  s ← set_port_phase_at (port_configure_state c) port_idx phase; Ret (set_ports c s).

(** An access to the ports. *)
Definition read_portsc (port_idx : Z) (c : XhciController) : outcome (Portsc * XhciController) :=
  '(portsc, hw) ← port_read port_idx (x_hw (c_x c)); Ret (portsc, set_x c (set_hw (c_x c) hw)).

Definition update_portsc (port_idx : Z) (f : Portsc -> Portsc) (c : XhciController) :
    outcome XhciController :=
  hw ← port_update port_idx f (x_hw (c_x c)); Ret (set_x c (set_hw (c_x c) hw)).

(** [reset_port_at] and [configure_port_at] on the controller. *)
Definition reset_port (port_idx : Z) (c : XhciController) : outcome XhciController :=
  '(s, hw) ← reset_port_at fuel port_idx (port_configure_state c) (x_hw (c_x c));
  Ret (set_ports (set_x c (set_hw (c_x c) hw)) s).

Definition configure_port (port_idx : Z) (c : XhciController) : outcome XhciController :=
  '(s, hw) ← configure_port_at fuel port_idx (port_configure_state c) (x_hw (c_x c));
  Ret (set_ports (set_x c (set_hw (c_x c) hw)) s).

(** A command and its doorbell. *)
Definition command (cmd : Cmd) (c : XhciController) : outcome (Z * XhciController) :=
  '(trb_ptr, x) ← issue_command cmd (c_x c); Ret (trb_ptr, set_x c x).

(** [enable_slot_at]: when the port is not enabled, or its connection changed, it would reset the
    port and call itself, but the lock of the registers that [reset_port_at] takes is still held. *)
Definition enable_slot_at (port_idx : Z) (c : XhciController) : outcome (Z * XhciController) :=
  '(portsc, c) ← read_portsc port_idx c;
  let is_enabled := port_enabled_disabled portsc in
  let reset_completed := connect_status_change portsc in
  if is_enabled && negb reset_completed then
    c ← update_portsc port_idx (fun portsc => clear_port_reset_change (keep_changes portsc)) c;
    c ← set_phase port_idx EnablingSlot c;
    command enable_slot c
  else
    _ ← set_phase port_idx NotConnected c;
    deadlock.

Definition max_packet_size_for_control_pipe (slot_speed : Z) : Z :=
  if slot_speed =? 4 then 512 else if slot_speed =? 3 then 64 else 8.

(** [port_slot_id_map.entry(port_index).or_insert_with(Vec::new).push(slot_id)]. *)
Definition record_slot (port_index slot_id : Z) (m : gmap Z (list Z)) : gmap Z (list Z) :=
  <[port_index := default [] (m !! port_index) ++ [slot_id]]> m.

(** The contexts of a device that gets its address. *)
Definition prepare_device (port_index routing speed : Z)
    (parent_hub_slot_id parent_port_index : option Z) (d : DeviceContextInfo) :
    outcome DeviceContextInfo :=
  port_id ← add_w 8 (cast 8 port_index) 1;
  d ← initialize_slot_context port_id speed routing parent_hub_slot_id parent_port_index d;
  slot ← transfer_ring_at dci_ep0 d;
  ring ← unwrap slot;
  initialize_endpoint0_context (tr_base ring)
    (max_packet_size_for_control_pipe (slot_context SlotSpeed d)) d.

(** [address_device_at]; a speed of 5 stands for the speed of the port. *)
Definition address_device_at (port_index slot_id routing speed : Z)
    (parent_hub_slot_id parent_port_index : option Z) (c : XhciController) :
    outcome (Z * XhciController) :=
  let c := set_slots c (record_slot port_index slot_id (port_slot_id_map c)) in
  '(dm, x) ← allocate_device (c_devices c) port_index slot_id routing (c_x c);
  let c := set_x (set_devices c dm) x in
  info ← device_by_slot_id (c_devices c) slot_id;
  d ← unwrap info;
  d ← enable_slot_context d;
  d ← enable_endpoint dci_ep0 d;
  '(portsc, c) ← read_portsc port_index c;
  let speed := if speed =? 5 then port_speed portsc else speed in
  d ← prepare_device port_index routing speed parent_hub_slot_id parent_port_index d;
  let c := set_devices c (set_device (c_devices c) slot_id (Some d)) in
  dm ← load_device_context (c_devices c) slot_id;
  let c := set_devices c dm in
  c ← set_phase port_index AddressingDevice c;
  command (address_device (input_context_ptr d) (cast 8 slot_id)) c.

(** [initialize_device_at]. *)
Definition initialize_device_at (port_idx slot_id : Z) (c : XhciController) :
    outcome XhciController :=
  info ← device_by_slot_id (c_devices c) slot_id;
  d ← unwrap info;
  c ← set_phase port_idx InitializingDevice c;
  '(cd, cb, d, x) ← start_initialization fuel uninit normal_trb b_max_packet_size mouse_callback
    keyboard_callback (class_driver_manager c) (c_callbacks c) d (c_x c);
  let c := set_x (set_drivers c cd cb) x in
  let c := set_devices c (set_device (c_devices c) slot_id (Some d)) in
  c ← set_phase port_idx Configured c;
  Ret (set_ports c (set_addressing (port_configure_state c) None)).

(** * Disconnection *)

(** The loop that disables a slot: ten retries while the completion code is not one. *)
Fixpoint disable_loop (retries : nat) (slot_id : Z) (c : XhciController) : outcome XhciController :=
  '(trb_ptr, c) ← command (disable_slot (cast 8 slot_id)) c;
  '(trb, x) ← get_received_command_trb fuel trb_ptr (c_x c);
  let c := set_x c x in
  if completion_code_ok (cc_completion_code trb) then Ret c
  else match retries with
       | O => Panic
       | S retries => disable_loop retries slot_id c
       end.

Fixpoint disable_slots (slot_ids : list Z) (c : XhciController) : outcome XhciController :=
  match slot_ids with
  | [] => Ret c
  | slot_id :: slot_ids =>
      c ← disable_loop 10 slot_id c;
      dm ← deallocate_device (c_devices c) slot_id;
      disable_slots slot_ids (set_devices c dm)
  end.

(** [reset_connection_at]. *)
Definition reset_connection_at (port_idx : Z) (c : XhciController) : outcome XhciController :=
  let s := port_configure_state c in
  let s := if decide (addressing_port_index s = Some port_idx) then set_addressing s None else s in
  s ← set_port_phase_at s port_idx NotConnected;
  let c := set_ports c s in
  let slot_ids := port_slot_id_map c !! port_idx in
  c ← update_portsc port_idx (fun portsc => clear_connect_status_change (keep_changes portsc)) c;
  hw ← wait_while fuel connect_status_change port_idx (x_hw (c_x c));
  let c := set_x c (set_hw (c_x c) hw) in
  c ← match slot_ids with Some slot_ids => disable_slots slot_ids c | None => Ret c end;
  Ret (set_slots c (delete port_idx (port_slot_id_map c))).

(** * Events *)

(** [process_init_port_device_event]: a device behind a hub. *)
Definition process_init_port_device_event (e : UserEvents.InitPortDevice) (c : XhciController) :
    outcome XhciController :=
  '(trb_ptr, c) ← enable_slot_at (UserEvents.port_index e) c;
  '(completion, x) ← await_command fuel trb_ptr (c_x c);
  let c := set_x c x in
  let slot_id := cc_slot_id completion in
  _ ← assert (cc_completion_code completion =? Success);
  '(trb_ptr, c) ← address_device_at (UserEvents.port_index e) slot_id (UserEvents.routing e)
    (UserEvents.speed e) (UserEvents.parent_hub_slot_id e) (UserEvents.parent_port_index e) c;
  '(completion, x) ← await_command fuel trb_ptr (c_x c);
  let c := set_x c x in
  _ ← assert (cc_completion_code completion =? Success);
  match command_of_raw (trb_at (x_hw (c_x c)) (cc_command_trb_pointer completion)) with
  | Some CAddressDevice => initialize_device_at (UserEvents.port_index e) slot_id c
  | _ => Ret c
  end.

Definition process_user_event (c : XhciController) : outcome XhciController :=
  let '(event, u) := UserEvents.pop (x_user (c_x c)) in
  let c := set_x c (set_user (c_x c) u) in
  match event with
  | None => Ret c
  | Some (UserEvents.UInitPortDevice e) => process_init_port_device_event e c
  end.

(** Whether a port may go on with its configuration: [claim] says whether it also takes the turn
    when nobody has it. *)
Definition may_process (claim : bool) (port_idx : Z) (c : XhciController) :
    outcome (bool * XhciController) :=
  let s := port_configure_state c in
  match addressing_port_index s with
  | Some idx =>
      if idx =? port_idx then Ret (true, c)
      else c ← set_phase port_idx WaitingAddressed c; Ret (false, c)
  | None => Ret (true, if claim then set_ports c (set_addressing s (Some port_idx)) else c)
  end.

(** [process_port_status_change_event]; [event] is kept to be put back. *)
Definition process_port_status_change_event (event : PortStatusChange) (c : XhciController) :
    outcome XhciController :=
  port_idx ← sub_w (psc_port_id event) 1;
  '(portsc, c) ← read_portsc port_idx c;
  let connecting := current_connect_status portsc in
  phase ← port_phase_at (port_configure_state c) port_idx;
  match phase with
  | NotConnected =>
      '(can_process, c) ← may_process false port_idx c;
      if can_process : bool then
        c ← reset_port port_idx c;
        '(_, c) ← enable_slot_at port_idx c; Ret c
      else Ret c
  | ResettingPort =>
      '(can_process, c) ← may_process true port_idx c;
      if can_process : bool then '(_, c) ← enable_slot_at port_idx c; Ret c else Ret c
  | WaitingAddressed =>
      match addressing_port_index (port_configure_state c) with
      | None =>
          let c := set_ports c (set_addressing (port_configure_state c) (Some port_idx)) in
          c ← set_phase port_idx NotConnected c;
          c ← reset_port port_idx c;
          '(_, c) ← enable_slot_at port_idx c; Ret c
      | Some _ =>
          Ret (set_x c (set_events (c_x c) (er_push (x_events (c_x c)) (EvPortStatusChange event))))
      end
  | _ => if negb connecting then reset_connection_at port_idx c else Ret c
  end.

(** The first waiting port gets its turn. *)
Fixpoint first_waiting (phases : list PortConfigPhase) (port_idx : Z) : option Z :=
  match phases with
  | [] => None
  | WaitingAddressed :: _ => Some port_idx
  | _ :: phases => first_waiting phases (port_idx + 1)
  end.

Definition address_device_completed (slot_id : Z) (c : XhciController) : outcome XhciController :=
  info ← device_by_slot_id (c_devices c) slot_id;
  d ← unwrap info;
  port_index ← sub_w (slot_context RootHubPortNumber d) 1;
  let s := port_configure_state c in
  if decide (addressing_port_index s = Some port_index) then
    phase ← addressing_port_phase s;
    if decide (phase = Some AddressingDevice) then
      let s := clear_addressing_port_index s in
      let c := set_ports c s in
      c ← match first_waiting (port_config_phase s) 0 with
          | Some port_idx => reset_port port_idx c
          | None => Ret c
          end;
      initialize_device_at port_index slot_id c
    else Panic
  else Panic.

Definition enable_slot_completed (slot_id : Z) (c : XhciController) : outcome XhciController :=
  phase ← addressing_port_phase (port_configure_state c);
  match phase with
  | None => Panic
  | Some phase =>
      if decide (phase = EnablingSlot) then
        addressing_port_idx ← unwrap (addressing_port_index (port_configure_state c));
        '(_, c) ← address_device_at addressing_port_idx slot_id 0 5 None None c;
        Ret c
      else Panic
  end.

(** [process_command_completion_event]. *)
Definition process_command_completion_event (event : CommandCompletion) (c : XhciController) :
    outcome XhciController :=
  let slot_id := cc_slot_id event in
  let code := cc_completion_code event in
  if negb (completion_code_ok code) then Ret c
  else if negb (code =? Success) then Ret c
  else
    match command_of_raw (trb_at (x_hw (c_x c)) (cc_command_trb_pointer event)) with
    | None => Ret c
    | Some CEnableSlot => enable_slot_completed slot_id c
    | Some CAddressDevice => address_device_completed slot_id c
    | Some CConfigureEndpoint =>
        Ret (set_x c (set_events (c_x c) (er_push (x_events (c_x c)) (EvCommandCompletion event))))
    | Some COther => Panic
    end.

(** What a report is: the callback of the driver of the slot. *)
Definition deliver_report (slot_id data_buffer_pointer trb_transfer_length : Z)
    (d : DeviceContextInfo) (c : XhciController) : outcome (bool * XhciController) :=
  let cd := class_driver_manager c in
  let hw := x_hw (c_x c) in
  match driver_kind cd slot_id with
  | Some Mouse =>
      _ ← assert (trb_transfer_length =? Z.of_nat MOUSE_N_IN_TRANSFER_BYTES);
      cb ← call_callback_at mouse_callback (driver (mouse cd)) (device_address d (c_x c))
             (bytes_at hw data_buffer_pointer MOUSE_N_IN_TRANSFER_BYTES) (c_callbacks c);
      Ret (true, set_drivers c cd cb)
  | Some Keyboard =>
      cb ← call_callback_at keyboard_callback (driver (keyboard cd)) (device_address d (c_x c))
             (bytes_at hw data_buffer_pointer KEYBOARD_N_IN_TRANSFER_BYTES) (c_callbacks c);
      Ret (true, set_drivers c cd cb)
  | Some HubKind => Ret (false, c)
  | None => Panic
  end.

(** [process_transfer_event]. *)
Definition process_transfer_event (event : TransferEvent) (c : XhciController) :
    outcome XhciController :=
  let code := te_completion_code event in
  if negb (completion_code_ok code) then Panic
  else if negb ((code =? ShortPacket) || (code =? Success)) then Ret c
  else
    let slot_id := te_slot_id event in
    dci ← dci_checked_new (te_endpoint_id event);
    info ← device_by_slot_id (c_devices c) slot_id;
    d ← unwrap info;
    slot ← transfer_ring_at dci d;
    ring ← unwrap slot;
    trb ← unwrap (transfer_of_raw (trb_at (x_hw (c_x c)) (te_trb_pointer event)));
    match trb with
    | TNormal data_buffer_pointer trb_transfer_length cycle_bit =>
        ring ← flip_cycle_bit_at ring (te_trb_pointer event) cycle_bit;
        d ← set_transfer_ring_at dci ring d;
        let c := set_devices c (set_device (c_devices c) slot_id (Some d)) in
        let c := set_x c (set_hw (c_x c) (store_trbs (tr_base ring) (tr_buffer ring) (x_hw (c_x c)))) in
        '(again, c) ← deliver_report slot_id data_buffer_pointer trb_transfer_length d c;
        if again : bool then x ← doorbell slot_id dci (c_x c); Ret (set_x c x) else Ret c
    | TOther => Ret c
    end.

(** [process_event_ring_event]. *)
Definition process_event_ring_event (event_trb : Allowed) (c : XhciController) :
    outcome XhciController :=
  match event_trb with
  | EvTransferEvent e => process_transfer_event e c
  | EvCommandCompletion e => process_command_completion_event e c
  | EvPortStatusChange e => process_port_status_change_event e c
  | EvHostController _ => Ret c
  | _ => Panic
  end.

(** [pending_event], [process_event] and [process_once_received]. *)
Definition pending_event (c : XhciController) : bool :=
  has_front (trb_at (x_hw (c_x c))) (x_events (c_x c)) (interrupter (x_hw (c_x c))).

Definition process_event (c : XhciController) : outcome XhciController :=
  if negb (pending_event c) then Ret c
  else
    let hw := x_hw (c_x c) in
    '(popped, ring, i) ← er_pop (trb_at hw) (x_events (c_x c)) (interrupter hw);
    let c := set_x c (set_hw (set_events (c_x c) ring) (set_interrupter i hw)) in
    match popped with
    | Ok event_trb => process_event_ring_event event_trb c
    | Err _ => Panic
    end.

Definition process_once_received (c : XhciController) : outcome XhciController :=
  let '(trb, ring) := pop_already_popped (x_events (c_x c)) in
  let c := set_x c (set_events (c_x c) ring) in
  match trb with Some trb => process_event_ring_event trb c | None => Ret c end.

(** One turn of the loop of [poll_forever] ([xhci.rs]) on the controller; the turn also flushes the
    layers after each event, and yields. *)
Definition poll_turn (c : XhciController) : outcome XhciController :=
  c ← if pending_already_popped_queue (x_events (c_x c)) then process_once_received c else Ret c;
  c ← if pending_event c then process_event c else Ret c;
  process_user_event c.

(** ** The ticks of the input drivers *)

(** [gen_tick!] and [gen_async_tick!]: the driver chosen by [select] ticks on the device of its slot,
    if it has one that is there; [put] is the manager with the driver changed in place. *)
Definition drive (select : ClassDriverManager -> DriverInfo InputOnlyDriver)
    (put : DriverInfo InputOnlyDriver -> ClassDriverManager -> ClassDriverManager)
    (tick : InputOnlyDriver -> DeviceContextInfo * Xhc HW * C ->
      outcome (result unit DriverError * InputOnlyDriver * (DeviceContextInfo * Xhc HW * C)))
    (c : XhciController) : outcome (result unit DriverError * XhciController) :=
  let cd := class_driver_manager c in
  match slot_id (select cd) with
  | None => Ret (Ok tt, c)
  | Some slot =>
      info ← device_by_slot_id (c_devices c) slot;
      match info with
      | None => Ret (Ok tt, c)
      | Some d =>
          '(r, dr, (d, x, cb)) ← tick (driver (select cd)) (d, c_x c, c_callbacks c);
          let c := set_devices (set_x c x) (set_device (c_devices c) slot (Some d)) in
          Ret (r, set_drivers c (put (mkDriverInfo (Some slot) dr) cd) cb)
      end
  end.

Definition put_mouse (i : DriverInfo InputOnlyDriver) (cd : ClassDriverManager) : ClassDriverManager :=
  mkManager i (keyboard cd) (hub cd).
Definition put_keyboard (i : DriverInfo InputOnlyDriver) (cd : ClassDriverManager) : ClassDriverManager :=
  mkManager (mouse cd) i (hub cd).

Definition tick_keyboard (count : Z) : XhciController -> outcome (result unit DriverError * XhciController) :=
  drive keyboard put_keyboard (fun dr => driver_tick (HH := device_host fuel uninit)
    INPUT_SETTLE_DELAY INPUT_CONFIG_BUFFER_LEN KEYBOARD_N_IN_TRANSFER_BYTES keyboard_callback uninit dr count).

Definition tick_mouse (count : Z) : XhciController -> outcome (result unit DriverError * XhciController) :=
  drive mouse put_mouse (fun dr => driver_tick (HH := device_host fuel uninit)
    INPUT_SETTLE_DELAY INPUT_CONFIG_BUFFER_LEN MOUSE_N_IN_TRANSFER_BYTES mouse_callback uninit dr count).

Definition async_tick_keyboard (count : Z) : XhciController -> outcome (result unit DriverError * XhciController) :=
  drive keyboard put_keyboard (fun dr => driver_async_tick (HH := device_host fuel uninit)
    INPUT_SETTLE_DELAY INPUT_CONFIG_BUFFER_LEN KEYBOARD_N_IN_TRANSFER_BYTES keyboard_callback uninit dr count).

Definition async_tick_mouse (count : Z) : XhciController -> outcome (result unit DriverError * XhciController) :=
  drive mouse put_mouse (fun dr => driver_async_tick (HH := device_host fuel uninit)
    INPUT_SETTLE_DELAY INPUT_CONFIG_BUFFER_LEN MOUSE_N_IN_TRANSFER_BYTES mouse_callback uninit dr count).

(** One turn of the loops of [tick_mouse_forever] and [tick_keyboard_forever] ([xhci.rs]), with the
    count for the next one; the keyboard's is never incremented. *)
Definition tick_mouse_turn (count : Z) (c : XhciController) : outcome (Z * XhciController) :=
  '(r, c) ← async_tick_mouse count c;
  _ ← unwrap_ok r;
  count ← add_w 64 count 1;
  Ret (count, c).

Definition tick_keyboard_turn (count : Z) (c : XhciController) : outcome (Z * XhciController) :=
  '(r, c) ← async_tick_keyboard count c;
  _ ← unwrap_ok r;
  Ret (count, c).

End controller.
