(* ===== verification/Ticks.v ===== *)
(** Ticks: the tasks [tick_mouse_forever] and [tick_keyboard_forever] ([xhci.rs]): what their turns do
    to devices that are waiting for their settle time. *)
From S2P Require Import Prelude Allocator BitField Trb CycleRing.
From S2P Require Import Rings.
From S2P Require Import EventRing.
From S2P Require Import Descriptor UsbHost InputDriver Hub ClassDrivers.
From S2P Require Import Port.
From S2P Require Import Xhc.
From S2P Require Import Device.
From S2P Require Import DeviceInit.
From S2P Require Import DeviceManager.
From S2P Require Import Controller.

(** The turns of a task. *)
Fixpoint turns {S} (n : nat) (turn : S -> outcome S) (s : S) : outcome S :=
  match n with O => Ret s | Datatypes.S n => s ← turn s; turns n turn s end.

Section ticks.
Context `{TL : TrbLib Cmd} `{BF : BitFieldLib} `{ET : EventTypes} `{EL : @EventLib ET}
  `{XT : XhciTrbs Cmd} `{PL : PortscLib} {HW : Type} `{XH : @XhcHw HW ET EL} `{HWP : !PortRegisters HW}
  `{CX : ContextLib} `{UB : UsbBits} `{UH : UsbHostLib}.
Context (fuel : nat) (uninit : nat -> list Z) {C : Type} (keyboard_callback : C -> Z -> list Z -> outcome C).

Abbreviation controller := (XhciController (HW := HW) (C := C)).
Implicit Types (c : controller).

(** A device that has asked for nothing yet. *)
Definition waiting (d : InputOnlyDevice) : Prop :=
  state d = Addressed \/ exists until, state d = WaitForSettle until /\ 0 <= until.
Definition all_waiting (ds : list (option InputOnlyDevice)) : Prop := Forall waiting (present ds).

(** At the time 0 no settle time is over: no device asks for anything. *)
Abbreviation keyboard_fsm := (fsm (HH := device_host fuel uninit) INPUT_SETTLE_DELAY
  INPUT_CONFIG_BUFFER_LEN KEYBOARD_N_IN_TRANSFER_BYTES keyboard_callback uninit).

Lemma fsm_at_zero d hc : waiting d -> exists d', keyboard_fsm 0 d hc = Ret (Ok tt, d', hc) /\ waiting d'.
Proof.
  unfold fsm. rewrite driver_get. intros [Hd|(until & Hd & Hu)]; rewrite Hd.
  - eexists. split; [done|]. right. exists 2. split; [done|lia].
  - destruct (Z.ltb_spec until 0); [lia|]. eexists. split; [done|]. right. by exists until.
Qed.

Lemma tick_at_zero ds hc : all_waiting ds ->
  exists ds', tick_devices addr (keyboard_fsm 0) ds hc = Ret (Ok tt, ds', hc) /\ all_waiting ds'.
Proof.
  induction ds as [|[d|] ds IH]; intros Hw; cbn [tick_devices].
  - by exists [].
  - apply Forall_cons in Hw as [Hd Hw]. destruct (IH Hw) as (ds' & Hrun & Hw').
    destruct (fsm_at_zero d hc Hd) as (d' & -> & Hd'). cbn [mbind outcome_bind]. rewrite Hrun.
    eexists. split; [done|]. by constructor.
  - destruct (IH Hw) as (ds' & -> & Hw'). by exists (None :: ds').
Qed.

(** The keyboards that wait and the slot of their driver; [world] is everything else. *)
Definition keyboards_wait c : Prop :=
  all_waiting (devices (driver (keyboard (class_driver_manager c)))).
Definition slot_present c : Prop :=
  forall slot, slot_id (keyboard (class_driver_manager c)) = Some slot ->
    exists info, device_by_slot_id (c_devices c) slot = Ret info.

Lemma keyboard_turn_waits c : keyboards_wait c -> slot_present c ->
  exists c', tick_keyboard_turn fuel uninit keyboard_callback 0 c = Ret (0, c') /\
    keyboards_wait c' /\ slot_present c' /\ c_x c' = c_x c /\ c_callbacks c' = c_callbacks c.
Proof.
  intros Hw Hs. unfold tick_keyboard_turn, async_tick_keyboard, drive. unfold slot_present in Hs.
  destruct (slot_id _) as [slot|] eqn:Hslot.
  2: { exists c. unfold slot_present. rewrite Hslot. by split_and!. }
  destruct (Hs slot eq_refl) as [info Hinfo]. rewrite Hinfo. cbn [mbind outcome_bind].
  destruct info as [d|]; [|exists c; unfold slot_present; rewrite Hslot; by split_and!].
  destruct (tick_at_zero _ (d, c_x c, c_callbacks c) Hw) as (ds' & Hrun & Hw').
  unfold driver_async_tick, async_fsm. rewrite Hrun. cbn. eexists. split; [done|].
  split; [exact Hw'|]. split; [|done]. intros slot' [= <-].
  exists (Some d). apply device_by_slot_id_Ret in Hinfo. unfold device_by_slot_id. simpl.
  rewrite list_lookup_insert_eq; [done|]. by eapply lookup_lt_Some.
Qed.

(** The task of the keyboard passes the same count in every turn: however many turns it takes, a
    keyboard that waits for its settle time goes on waiting, and nothing is asked of it. *)
Lemma keyboards_wait_forever n c : keyboards_wait c -> slot_present c ->
  exists c', turns n (fun '(count, c) => tick_keyboard_turn fuel uninit keyboard_callback count c) (0, c)
      = Ret (0, c') /\
    keyboards_wait c' /\ c_x c' = c_x c /\ c_callbacks c' = c_callbacks c.
Proof.
  revert c. induction n as [|n IH]; intros c Hw Hs; [by exists c|]. cbn [turns].
  destruct (keyboard_turn_waits c Hw Hs) as (c1 & -> & Hw1 & Hs1 & Hx1 & Hc1). cbn [mbind outcome_bind].
  destruct (IH c1 Hw1 Hs1) as (c' & -> & Hw' & Hx' & Hc'). exists c'. split_and!; [done|done|congruence..].
Qed.

End ticks.
