(* ===== verification/CallbackInv.v ===== *)
(** CallbackInv: the handlers of the controller change the state of the callbacks only by calls of the
    callbacks: what both callbacks keep, every handler keeps. *)
From S2P Require Import Prelude Allocator BitField Trb CycleRing.
From S2P Require Import Rings.
From S2P Require Import EventRing.
From S2P Require Import Descriptor UsbHost InputDriver Hub ClassDrivers.
From S2P Require Import Port.
From S2P Require Import EndpointId.
From S2P Require Import Xhc.
From S2P Require Import Device.
From S2P Require Import DeviceInit.
From S2P Require Import DeviceManager.
From S2P Require Import Controller.

(** * The input drivers *)

Section input.
Context `{UH : UsbHostLib} {H C : Type} `{HH : USBHost H}.
Context (SETTLE_DELAY CONFIG_BUFFER_LEN : Z) (N_IN_TRANSFER_BYTES : nat)
  (callback : C -> Z -> list Z -> outcome C) (uninit : nat -> list Z).
Context (P : C -> Prop) (Hcb : forall c a b, P c -> post (callback c a b) P).

(** A computation of a driver that keeps [P] of the state of the callback. *)
Definition driver_keeps {A} (m : UsbHost.driver InputOnlyDevice (H * C) A) : Prop :=
  forall d hc, P hc.2 -> post (m d hc) (fun '(_, _, hc) => P hc.2).

Lemma driver_keeps_ret {A} (a : A) : driver_keeps (mret a).
Proof. intros d hc Hp. by apply post_ret. Qed.

Lemma driver_keeps_bind {A B} (m : UsbHost.driver InputOnlyDevice (H * C) A) (f : A -> UsbHost.driver InputOnlyDevice (H * C) B) :
  driver_keeps m -> (forall a, driver_keeps (f a)) -> driver_keeps (m ≫= f).
Proof.
  intros Hm Hf d hc Hp. eapply post_bind; [by apply Hm|]. intros [[[a|e] d'] hc'] Hp'; [by apply Hf|].
  by apply post_ret.
Qed.

Lemma driver_keeps_get : driver_keeps get.
Proof. intros d hc Hp. by apply post_ret. Qed.

Lemma driver_keeps_modify f : driver_keeps (modify f).
Proof. intros d hc Hp. by apply post_ret. Qed.

Lemma driver_keeps_fail {A} e : driver_keeps (fail (A := A) e).
Proof. intros d hc Hp. by apply post_ret. Qed.

Lemma driver_keeps_lift {A} (o : outcome A) : driver_keeps (lift o).
Proof. intros d hc Hp. eapply post_bind; [apply post_any|]. intros a _. by apply post_ret. Qed.

Lemma driver_keeps_request s b : driver_keeps (request_ep0 s b).
Proof.
  intros d hc Hp. unfold request_ep0, control. simpl.
  eapply (post_bind _ _ (fun '(_, _, _, hc) => P hc.2)).
  - eapply post_bind; [apply post_any|]. intros [[[r e] bu] h] _. by apply post_ret.
  - intros [[[r e] bu] hc'] Hp'. by apply post_ret.
Qed.

Lemma driver_keeps_in_transfer ep b : driver_keeps (in_transfer_ep ep b).
Proof.
  intros d hc Hp. unfold in_transfer_ep. simpl.
  eapply (post_bind _ _ (fun '(_, _, _, hc) => P hc.2)).
  - eapply post_bind; [apply post_any|]. intros [[[r e] bu] h] _. by apply post_ret.
  - intros [[[r e] bu] hc'] Hp'. by apply post_ret.
Qed.

Lemma driver_keeps_call a b : driver_keeps (call_callback callback a b).
Proof.
  intros d hc Hp. unfold call_callback. eapply post_bind; [by apply Hcb|]. intros c Hc. by apply post_ret.
Qed.

#[local] Hint Resolve driver_keeps_ret driver_keeps_get driver_keeps_modify driver_keeps_fail
  driver_keeps_lift driver_keeps_request driver_keeps_in_transfer driver_keeps_call : keeps.

Ltac driver_keep :=
  repeat first [solve [eauto with keeps nocore]|apply driver_keeps_bind; [|intros ?]
    |match goal with |- driver_keeps (match ?x with _ => _ end) => destruct x end
    |progress cbv zeta].

Lemma fsm_keeps millis :
  driver_keeps (fsm SETTLE_DELAY CONFIG_BUFFER_LEN N_IN_TRANSFER_BYTES callback uninit millis).
Proof. unfold fsm, get_config, read_report. driver_keep. Qed.

Abbreviation the_fsm := (fsm SETTLE_DELAY CONFIG_BUFFER_LEN N_IN_TRANSFER_BYTES callback uninit).

Lemma tick_devices_keeps millis ds : forall hc, P hc.2 ->
  post (tick_devices addr (the_fsm millis) ds hc) (fun '(_, _, hc) => P hc.2).
Proof.
  induction ds as [|[d|] ds IH]; intros hc Hp; cbn [tick_devices]; [by apply post_ret| |].
  - eapply post_bind; [by apply fsm_keeps|]. intros [[[u|[m|m]] d'] hc'] Hp'; try by apply post_ret.
    all: eapply post_bind; [by apply IH|]; intros [[? ?] ?] ?; by apply post_ret.
  - eapply post_bind; [by apply IH|]. intros [[? ?] ?] ?. by apply post_ret.
Qed.

Lemma tick_round_keeps ds : forall millis hc, P hc.2 ->
  post (tick_round SETTLE_DELAY CONFIG_BUFFER_LEN N_IN_TRANSFER_BYTES callback uninit ds millis hc)
    (fun '(_, _, _, hc) => P hc.2).
Proof.
  induction ds as [|[d|] ds IH]; intros millis hc Hp; cbn [tick_round]; [by apply post_ret| |].
  - destruct (bool_decide _).
    + eapply post_bind; [by apply IH|]. intros [[[? ?] ?] ?] ?. by apply post_ret.
    + eapply post_bind; [by apply fsm_keeps|]. intros [[[u|[m|m]] d'] hc'] Hp'; try by apply post_ret.
      all: eapply post_bind; [apply post_any|]; intros n _; eapply post_bind; [by apply IH|];
        intros [[[? ?] ?] ?] ?; by apply post_ret.
  - eapply post_bind; [by apply IH|]. intros [[[? ?] ?] ?] ?. by apply post_ret.
Qed.

Lemma tick_until_running_keeps fuel : forall self hc, P hc.2 ->
  post (tick_until_running_state SETTLE_DELAY CONFIG_BUFFER_LEN N_IN_TRANSFER_BYTES callback uninit fuel self hc)
    (fun '(_, _, hc) => P hc.2).
Proof.
  unfold tick_until_running_state. generalize 0 as millis. induction fuel as [|fuel IH]; intros millis self hc Hp;
    cbn [tick_until_running_loop]; [done|]. destruct (all_in _ _); [by apply post_ret|].
  eapply post_bind; [apply post_any|]. intros n _. destruct (negb _); [by apply IH|].
  eapply post_bind; [by apply tick_round_keeps|]. intros [[[[u|e] ds] m] hc'] Hp'; [by apply IH|by apply post_ret].
Qed.

Lemma driver_tick_keeps self millis hc : P hc.2 ->
  post (driver_tick SETTLE_DELAY CONFIG_BUFFER_LEN N_IN_TRANSFER_BYTES callback uninit self millis hc)
    (fun '(_, _, hc) => P hc.2).
Proof.
  intros Hp. unfold driver_tick. eapply post_bind; [by apply tick_devices_keeps|].
  intros [[? ?] ?] ?. by apply post_ret.
Qed.

Lemma driver_async_tick_keeps self millis hc : P hc.2 ->
  post (driver_async_tick SETTLE_DELAY CONFIG_BUFFER_LEN N_IN_TRANSFER_BYTES callback uninit self millis hc)
    (fun '(_, _, hc) => P hc.2).
Proof.
  intros Hp. unfold driver_async_tick, async_fsm. eapply post_bind; [by apply tick_devices_keeps|].
  intros [[? ?] ?] ?. by apply post_ret.
Qed.

Lemma call_callback_at_keeps self a b c : P c -> post (call_callback_at callback self a b c) P.
Proof.
  intros Hp. unfold call_callback_at. do 2 (eapply post_bind; [apply post_any|]; intros ? _). by apply Hcb.
Qed.

End input.

(** * The handlers *)

Section handlers.
Context `{TL : TrbLib Cmd} `{BF : BitFieldLib} `{ET : EventTypes} `{EL : @EventLib ET}
  `{XT : XhciTrbs Cmd} `{PL : PortscLib} {HW : Type} `{XH : @XhcHw HW ET EL} `{HWP : !PortRegisters HW}
  `{CX : ContextLib} `{UB : UsbBits} `{UH : UsbHostLib}.
Context (fuel : nat) (uninit : nat -> list Z) (normal_trb : Z -> Z -> Cmd)
  (b_max_packet_size : list Z -> Z) {C : Type}
  (mouse_callback keyboard_callback : C -> Z -> list Z -> outcome C).
Context (P : C -> Prop) (Hmouse : forall c a b, P c -> post (mouse_callback c a b) P)
  (Hkeyboard : forall c a b, P c -> post (keyboard_callback c a b) P).

Abbreviation controller := (XhciController (HW := HW) (C := C)).
Implicit Types (c : controller).

(** The state of the callbacks is good. *)
Definition cb c : Prop := P (c_callbacks c).

Lemma cb_set_x c x : cb c -> cb (set_x c x).
Proof. done. Qed.
Lemma cb_set_devices c dm : cb c -> cb (set_devices c dm).
Proof. done. Qed.
Lemma cb_set_ports c s : cb c -> cb (set_ports c s).
Proof. done. Qed.
Lemma cb_set_slots c m : cb c -> cb (set_slots c m).
Proof. done. Qed.
Lemma cb_set_drivers c cd s : P s -> cb (set_drivers c cd s).
Proof. done. Qed.
#[local] Hint Resolve cb_set_x cb_set_devices cb_set_ports cb_set_slots cb_set_drivers : keeps.
#[local] Hint Opaque cb : keeps.

(** The operations below the handlers. *)
Lemma init_keyboard_keeps e n cd s d x : P s ->
  post (init_keyboard fuel uninit normal_trb keyboard_callback e n cd s d x) (fun '(_, s, _, _) => P s).
Proof.
  intros Hs. unfold init_keyboard. do 2 (eapply post_bind; [apply post_any|]; intros ? _). cbv zeta.
  destruct (add_keyboard_device _ _ _ _) as [r cd']. eapply post_bind; [apply post_any|]. intros ? _.
  eapply post_bind; [by apply (tick_until_running_keeps _ _ _ _ _ P)|]. intros [[r' kd] [[d' x'] s']] Hs'.
  simpl in Hs'. do 3 (eapply post_bind; [apply post_any|]; intros ? _).
  eapply post_bind; [apply post_any|]. intros [? ?] _. by apply post_ret.
Qed.

Lemma init_mouse_keeps e n cd s d x : P s ->
  post (init_mouse fuel uninit normal_trb mouse_callback e n cd s d x) (fun '(_, s, _, _) => P s).
Proof.
  intros Hs. unfold init_mouse. do 2 (eapply post_bind; [apply post_any|]; intros ? _). cbv zeta.
  destruct (add_mouse_device _ _ _ _) as [r cd']. eapply post_bind; [apply post_any|]. intros ? _.
  eapply post_bind; [by apply (tick_until_running_keeps _ _ _ _ _ P)|]. intros [[r' kd] [[d' x'] s']] Hs'.
  simpl in Hs'. do 3 (eapply post_bind; [apply post_any|]; intros ? _).
  eapply post_bind; [apply post_any|]. intros [? ?] _. by apply post_ret.
Qed.

Lemma start_initialization_keeps cd s d x : P s ->
  post (start_initialization fuel uninit normal_trb b_max_packet_size mouse_callback keyboard_callback cd s d x)
    (fun '(_, s, _, _) => P s).
Proof.
  intros Hs. unfold start_initialization.
  eapply post_bind; [apply post_any|]. intros [[? ?] ?] _.
  eapply post_bind; [apply post_any|]. intros [? ?] _.
  eapply post_bind; [apply post_any|]. intros [[? ?] ?] _. cbv zeta.
  eapply (post_bind _ _ (fun '(_, s, _, _) => P s)).
  { destruct (boot_keyboard_interface _); [by apply init_keyboard_keeps|by apply post_ret]. }
  intros [[[? s1] ?] ?] H1. eapply (post_bind _ _ (fun '(_, s, _, _) => P s)).
  { destruct (mouse_interface _); [by apply init_mouse_keeps|by apply post_ret]. }
  intros [[[? s2] ?] ?] H2. eapply post_bind; [apply post_any|]. intros [[? ?] ?] _. by apply post_ret.
Qed.

Lemma set_phase_keeps p phase c : cb c -> post (set_phase p phase c) cb.
Proof. intros Hc. unfold set_phase. keep. Qed.

Lemma read_portsc_keeps p c : cb c -> post (read_portsc p c) (fun '(_, c) => cb c).
Proof. intros Hc. unfold read_portsc. keep. Qed.

Lemma update_portsc_keeps p f c : cb c -> post (update_portsc p f c) cb.
Proof. intros Hc. unfold update_portsc. keep. Qed.

Lemma reset_port_keeps p c : cb c -> post (reset_port fuel p c) cb.
Proof. intros Hc. unfold reset_port. keep. Qed.

Lemma configure_port_keeps p c : cb c -> post (configure_port fuel p c) cb.
Proof. intros Hc. unfold configure_port. keep. Qed.

Lemma command_keeps cmd c : cb c -> post (command cmd c) (fun '(_, c) => cb c).
Proof. intros Hc. unfold command. keep. Qed.
#[local] Hint Resolve set_phase_keeps read_portsc_keeps update_portsc_keeps reset_port_keeps
  configure_port_keeps command_keeps : keeps.

Lemma enable_slot_at_keeps p c : cb c -> post (enable_slot_at p c) (fun '(_, c) => cb c).
Proof. intros Hc. unfold enable_slot_at, deadlock. keep. Qed.

Lemma address_device_at_keeps p s r sp php ppi c : cb c ->
  post (address_device_at p s r sp php ppi c) (fun '(_, c) => cb c).
Proof. intros Hc. unfold address_device_at. keep. Qed.
#[local] Hint Resolve enable_slot_at_keeps address_device_at_keeps : keeps.

Abbreviation initialize_device := (initialize_device_at fuel uninit normal_trb b_max_packet_size
  mouse_callback keyboard_callback).

Lemma initialize_device_keeps p s c : cb c -> post (initialize_device p s c) cb.
Proof.
  intros Hc. unfold initialize_device_at. do 3 keep_step.
  eapply post_bind; [by apply start_initialization_keeps|]. intros [[[cd s'] d] x] Hs'. keep.
Qed.
#[local] Hint Resolve initialize_device_keeps : keeps.

(** Disconnection. *)
Lemma disable_loop_keeps n slot c : cb c -> post (disable_loop fuel n slot c) cb.
Proof.
  revert c. induction n as [|n IH]; intros c Hc; cbn [disable_loop]; repeat keep_step; eauto with keeps nocore.
Qed.

Lemma disable_slots_keeps slots c : cb c -> post (disable_slots fuel slots c) cb.
Proof.
  revert c. induction slots as [|slot slots IH]; intros c Hc; cbn [disable_slots]; [by apply post_ret|].
  eapply post_bind; [by apply disable_loop_keeps|]. intros c1 H1. keep_step. by apply IH.
Qed.
#[local] Hint Resolve disable_slots_keeps : keeps.

Lemma reset_connection_keeps p c : cb c -> post (reset_connection_at fuel p c) cb.
Proof.
  intros Hc. unfold reset_connection_at. do 3 keep_step. cbv zeta.
  eapply (post_bind _ _ cb); [destruct (_ !! p); keep|]. intros c' Hc'. keep.
Qed.
#[local] Hint Resolve reset_connection_keeps : keeps.

(** Events. *)
Lemma init_port_device_keeps e c : cb c -> post (process_init_port_device_event fuel uninit normal_trb
  b_max_packet_size mouse_callback keyboard_callback e c) cb.
Proof. intros Hc. unfold process_init_port_device_event. keep. Qed.
#[local] Hint Resolve init_port_device_keeps : keeps.

Lemma user_event_keeps c : cb c -> post (process_user_event fuel uninit normal_trb
  b_max_packet_size mouse_callback keyboard_callback c) cb.
Proof. intros Hc. unfold process_user_event. keep. Qed.

Lemma may_process_keeps b p c : cb c -> post (may_process b p c) (fun '(_, c) => cb c).
Proof. intros Hc. unfold may_process. destruct b; keep. Qed.
#[local] Hint Resolve may_process_keeps : keeps.

Lemma port_status_keeps e c : cb c -> post (process_port_status_change_event fuel e c) cb.
Proof. intros Hc. unfold process_port_status_change_event. keep. Qed.

Lemma enable_slot_completed_keeps slot c : cb c -> post (enable_slot_completed slot c) cb.
Proof. intros Hc. unfold enable_slot_completed. keep. Qed.

Lemma address_device_completed_keeps slot c : cb c -> post (address_device_completed fuel uninit normal_trb
  b_max_packet_size mouse_callback keyboard_callback slot c) cb.
Proof.
  intros Hc. unfold address_device_completed. do 4 keep_step; [|by keep]. do 2 keep_step; [|by keep]. cbv zeta.
  eapply (post_bind _ _ cb); [destruct (first_waiting _ _); keep|]. intros c' Hc'. keep.
Qed.
#[local] Hint Resolve port_status_keeps enable_slot_completed_keeps address_device_completed_keeps : keeps.

Lemma command_completion_keeps e c : cb c -> post (process_command_completion_event fuel uninit normal_trb
  b_max_packet_size mouse_callback keyboard_callback e c) cb.
Proof. intros Hc. unfold process_command_completion_event. keep. Qed.

Lemma deliver_report_keeps slot p n d c : cb c ->
  post (deliver_report mouse_callback keyboard_callback slot p n d c) (fun '(_, c) => cb c).
Proof.
  intros Hc. unfold deliver_report. cbv zeta.
  destruct (driver_kind _ _) as [k|]; [destruct k|]; [keep_step|..|by keep|done].
  all: eapply (post_bind _ _ P); [eapply (call_callback_at_keeps _ P); eassumption|].
  all: intros s Hs; by apply post_ret.
Qed.
#[local] Hint Resolve command_completion_keeps deliver_report_keeps : keeps.

Lemma transfer_event_keeps e c : cb c ->
  post (process_transfer_event mouse_callback keyboard_callback e c) cb.
Proof. intros Hc. unfold process_transfer_event. keep. Qed.
#[local] Hint Resolve transfer_event_keeps : keeps.

Abbreviation handle_event := (process_event_ring_event fuel uninit normal_trb b_max_packet_size
  mouse_callback keyboard_callback).

Lemma event_ring_event_keeps e c : cb c -> post (handle_event e c) cb.
Proof. intros Hc. unfold process_event_ring_event. keep. Qed.
#[local] Hint Resolve event_ring_event_keeps : keeps.

(** The turns of the tasks on the controller. *)
Lemma process_event_keeps c : cb c -> post (process_event fuel uninit normal_trb b_max_packet_size
  mouse_callback keyboard_callback c) cb.
Proof.
  intros Hc. unfold process_event. keep_step; [by apply post_ret|]. cbv zeta. keep_step.
  destruct a as [[popped ring] i]. keep.
Qed.

Lemma process_once_received_keeps c : cb c -> post (process_once_received fuel uninit normal_trb b_max_packet_size
  mouse_callback keyboard_callback c) cb.
Proof. intros Hc. unfold process_once_received. destruct (pop_already_popped _) as [trb ring]. keep. Qed.

Lemma drive_keeps select put tick c : cb c ->
  (forall dr d x s, P s -> post (tick dr (d, x, s)) (fun '(_, _, hc) => P hc.2)) ->
  post (drive select put tick c) (fun '(_, c) => cb c).
Proof.
  intros Hc Ht. unfold drive. cbv zeta. destruct (slot_id _) as [slot|]; [|by apply post_ret].
  keep_step. destruct a as [d|]; [|by apply post_ret].
  eapply post_bind; [by apply Ht|]. intros [[r dr] [[d' x] s]] Hs. by apply post_ret.
Qed.

Lemma tick_mouse_turn_keeps count c : cb c -> post (tick_mouse_turn fuel uninit mouse_callback count c)
  (fun '(_, c) => cb c).
Proof.
  intros Hc. unfold tick_mouse_turn, async_tick_mouse. eapply post_bind.
  { apply drive_keeps; [done..|]. intros dr d x s Hs. by apply driver_async_tick_keeps. }
  intros [r c'] Hc'. keep.
Qed.

Lemma tick_keyboard_turn_keeps count c : cb c -> post (tick_keyboard_turn fuel uninit keyboard_callback count c)
  (fun '(_, c) => cb c).
Proof.
  intros Hc. unfold tick_keyboard_turn, async_tick_keyboard. eapply post_bind.
  { apply drive_keeps; [done..|]. intros dr d x s Hs. by apply driver_async_tick_keeps. }
  intros [r c'] Hc'. keep.
Qed.

End handlers.
