(* ===== verification/XhcSim.v ===== *)
(** XhcSim: a concrete controller with two boot keyboards behind it, in the layouts of the xHCI and
    USB specifications: it executes the TRBs that the driver writes and answers with events.  The
    theorems about the driver are applied to it, and it runs the driver from the boot on. *)
From stdpp Require Import functions.
From S2P Require Import Prelude Allocator BitField Trb CycleRing.
From S2P Require Import Rings.
From S2P Require Import EventRing.
From S2P Require Import Descriptor UsbHost InputDriver Hub ClassDrivers.
From S2P Require Import Port.
From S2P Require Import EndpointId.
From S2P Require Import Xhc.
From S2P Require Import Device.
From S2P Require Import DeviceManager.
From S2P Require Import Controller.

Module XhcSim.
#[local] Existing Instance bit_field_ref.

(** ** The layouts *)

Definition trb (parameter status ty control : Z) : TrbRaw :=
  mkTrb (parameter mod 2 ^ 32) (parameter / 2 ^ 32) status (ty * 2 ^ 10 + control).
Definition parameter (t : TrbRaw) : Z := dw0 t + dw1 t * 2 ^ 32.

Definition setup_parameter (s : SetupPacketRaw) : Z :=
  raw_request_type s + raw_request s * 2 ^ 8 + raw_value s * 2 ^ 16 + raw_index s * 2 ^ 32 +
  raw_length s * 2 ^ 48.

#[global] Instance sim_trbs : XhciTrbs TrbRaw := {|
  setup_stage s has_data := trb (setup_parameter s) 8 2 ((if has_data then 3 else 0) * 2 ^ 16);
  data_stage ptr len := trb ptr len 3 (2 ^ 5 + 2 ^ 16);
  status_stage b := trb 0 0 4 (if b then 2 ^ 5 + 2 ^ 16 else 0);
  normal ptr len := trb ptr len 1 (2 ^ 5 + 2 ^ 2);
  enable_slot := trb 0 0 9 0;
  disable_slot s := trb 0 0 10 (s * 2 ^ 24);
  address_device ptr s := trb ptr 0 11 (s * 2 ^ 24);
  evaluate_context ptr s := trb ptr 0 13 (s * 2 ^ 24);
  configure_endpoint ptr s := trb ptr 0 12 (s * 2 ^ 24);
  transfer_of_raw t :=
    let ty := XhciLayout.trb_type t in
    if ty =? 1 then Some (TNormal (parameter t) (dw2 t mod 2 ^ 17) (Z.testbit (dw3 t) 0))
    else if (2 <=? ty) && (ty <=? 8) then Some TOther else None;
  command_of_raw t :=
    let ty := XhciLayout.trb_type t in
    if ty =? 9 then Some CEnableSlot else if ty =? 11 then Some CAddressDevice
    else if ty =? 12 then Some CConfigureEndpoint
    else if (6 <=? ty) && (ty <=? 25) then Some COther else None;
|}.

Definition kind_bits (k : RequestKind) : Z := match k with Standard => 0 | Class_ => 1 | Vendor => 2 end.
Definition recipient_bits (r : RequestRecipient) : Z :=
  match r with RecipientDevice => 0 | RecipientInterface => 1 | RecipientEndpoint => 2 | RecipientOther => 3 end.

#[global] Instance sim_usb_bits : UsbBits := {|
  request_type_bits '(d, k, r) :=
    (match d with HostToDevice => 0 | DeviceToHost => 2 ^ 7 end) + kind_bits k * 2 ^ 5 + recipient_bits r;
  request_code_bits c := match c with
    | GetStatus => 0 | ClearFeature => 1 | SetFeature => 3 | SetAddress => 5 | GetDescriptor => 6
    | SetDescriptor => 7 | GetConfiguration => 8 | SetConfiguration => 9 | GetInterface => 10
    | SetInterface => 11 | SynchFrame => 12 end;
|}.

(** The slot context of an input context; its flags and endpoints do not matter here. *)
#[global] Instance sim_contexts : ContextLib := {|
  InputContext := SlotField -> Z;
  input_32byte := fun _ => 0;
  set_add_context_flag _ c := Ret c;
  clear_add_context_flag i c := if 31 <? i then Panic else Ret c;
  clear_drop_context_flag i c := if (i <? 2) || (31 <? i) then Panic else Ret c;
  set_slot f v c := Ret (fun g => match f, g with
    | RouteString, RouteString | RootHubPortNumber, RootHubPortNumber
    | ParentHubSlotId, ParentHubSlotId | ParentPortNumber, ParentPortNumber
    | ContextEntries, ContextEntries | SlotSpeed, SlotSpeed => v
    | _, _ => c g
    end);
  get_slot f c := c f;
  set_endpoint_field _ _ _ c := Ret c;
|}.

(** ** The controller *)

(** A consumer of a ring: the pointer to the next TRB and the cycle state. *)
Record Consumer := mkConsumer { next_trb : Z; cycle_state : bool }.

(** The memory of TRBs and bytes; the ring that was written last, the consumers of the rings, by
    their bases, the place of the next event, the next slot and the descriptor that is asked for. *)
Record SimHw := mkSim {
  sim_ports : Z -> XhciPorts.SimPort;
  sim_interrupter : Interrupter;
  sim_mem : gmap Z TrbRaw;
  sim_bytes : gmap Z Z;
  sim_buffers : Z;
  sim_last_ring : Z;
  sim_consumers : gmap Z Consumer;
  sim_event_base : Z;
  sim_events : Z;
  sim_next_slot : Z;
  sim_asked : Z;
}.

Definition with_ports f (h : SimHw) : SimHw :=
  mkSim f (sim_interrupter h) (sim_mem h) (sim_bytes h) (sim_buffers h) (sim_last_ring h)
    (sim_consumers h) (sim_event_base h) (sim_events h) (sim_next_slot h) (sim_asked h).
Definition with_interrupter i (h : SimHw) : SimHw :=
  mkSim (sim_ports h) i (sim_mem h) (sim_bytes h) (sim_buffers h) (sim_last_ring h)
    (sim_consumers h) (sim_event_base h) (sim_events h) (sim_next_slot h) (sim_asked h).
Definition with_mem m (h : SimHw) : SimHw :=
  mkSim (sim_ports h) (sim_interrupter h) m (sim_bytes h) (sim_buffers h) (sim_last_ring h)
    (sim_consumers h) (sim_event_base h) (sim_events h) (sim_next_slot h) (sim_asked h).
Definition with_bytes b next (h : SimHw) : SimHw :=
  mkSim (sim_ports h) (sim_interrupter h) (sim_mem h) b next (sim_last_ring h)
    (sim_consumers h) (sim_event_base h) (sim_events h) (sim_next_slot h) (sim_asked h).
Definition with_consumers last m (h : SimHw) : SimHw :=
  mkSim (sim_ports h) (sim_interrupter h) (sim_mem h) (sim_bytes h) (sim_buffers h) last
    m (sim_event_base h) (sim_events h) (sim_next_slot h) (sim_asked h).
Definition with_counters events slot asked (h : SimHw) : SimHw :=
  mkSim (sim_ports h) (sim_interrupter h) (sim_mem h) (sim_bytes h) (sim_buffers h) (sim_last_ring h)
    (sim_consumers h) (sim_event_base h) events slot asked.

Definition no_trb : TrbRaw := mkTrb 0 0 0 0.
Definition read_trb (h : SimHw) (a : Z) : TrbRaw := default no_trb (sim_mem h !! a).

Definition write_trbs (base : Z) (buf : list TrbRaw) (m : gmap Z TrbRaw) : gmap Z TrbRaw :=
  snd (foldl (fun '(a, m) t => (a + TRB_SIZE, <[a := t]> m)) (base, m) buf).

Definition write_bytes (base : Z) (l : list Z) (m : gmap Z Z) : gmap Z Z :=
  snd (foldl (fun '(a, m) b => (a + 1, <[a := b]> m)) (base, m) l).

Definition read_bytes (h : SimHw) (a : Z) (n : nat) : list Z :=
  (fun i => default 0 (sim_bytes h !! (a + Z.of_nat i))) <$> seq 0 n.

(** An event goes to the next place of the event ring of 32 TRBs. *)
Definition EVENT_RING_LEN : Z := 32.

Definition emit (t : TrbRaw) (h : SimHw) : SimHw :=
  let n := sim_events h in
  let t := XhciLayout.set_bit0 (Z.even (n / EVENT_RING_LEN)) t in
  with_counters (n + 1) (sim_next_slot h) (sim_asked h)
    (with_mem (<[sim_event_base h + TRB_SIZE * (n mod EVENT_RING_LEN) := t]> (sim_mem h)) h).

(** A boot keyboard. *)
Definition device_descriptor : list Z := [18; 1; 0; 2; 0; 0; 0; 8; 1; 0; 2; 0; 0; 1; 0; 0; 0; 1].
Definition configuration : list Z := concat (DescriptorExamples.device 1 8).

(** The execution of a TRB at [p] for the slot and the endpoint of the doorbell. *)
Definition execute (slot dci p : Z) (t : TrbRaw) (h : SimHw) : SimHw :=
  let ty := XhciLayout.trb_type t in
  let success := Success * 2 ^ 24 in
  if ty =? 9 then
    let s := sim_next_slot h in
    emit (trb p success 33 (s * 2 ^ 24)) (with_counters (sim_events h) (s + 1) (sim_asked h) h)
  else if (10 <=? ty) && (ty <=? 13) then emit (trb p success 33 (dw3 t / 2 ^ 24 * 2 ^ 24)) h
  else if ty =? 2 then
    with_counters (sim_events h) (sim_next_slot h) (parameter t / 2 ^ 24 mod 2 ^ 8) h
  else if ty =? 3 then
    let len := dw2 t mod 2 ^ 17 in
    let reply := take (Z.to_nat len)
      (if sim_asked h =? DT_DEVICE then device_descriptor else configuration) in
    let residual := len - Z.of_nat (length reply) in
    emit (trb p ((if residual =? 0 then Success else ShortPacket) * 2 ^ 24 + residual) 32
            (slot * 2 ^ 24 + dci * 2 ^ 16))
      (with_bytes (write_bytes (parameter t) reply (sim_bytes h)) (sim_buffers h) h)
  else if (ty =? 4) && Z.testbit (dw3 t) 5 then
    emit (trb p success 32 (slot * 2 ^ 24 + dci * 2 ^ 16)) h
  else h.

(** The TRBs from [c] on, up to the first that the driver owns. *)
Fixpoint consume (n : nat) (slot dci : Z) (c : Consumer) (h : SimHw) : Consumer * SimHw :=
  match n with
  | O => (c, h)
  | S n =>
      let t := read_trb h (next_trb c) in
      if negb (Bool.eqb (Z.testbit (dw3 t) 0) (cycle_state c)) then (c, h)
      else match link_target t with
           | Some (base, toggle) => consume n slot dci (mkConsumer base (xorb toggle (cycle_state c))) h
           | None => consume n slot dci (mkConsumer (next_trb c + TRB_SIZE) (cycle_state c))
                       (execute slot dci (next_trb c) t h)
           end
  end.

Definition knock (slot dci : Z) (h : SimHw) : SimHw :=
  let base := sim_last_ring h in
  let c := default (mkConsumer base true) (sim_consumers h !! base) in
  let '(c, h) := consume 64 slot dci c h in
  with_consumers base (<[base := c]> (sim_consumers h)) h.

#[global] Instance sim_hw : XhcHw SimHw := {|
  interrupter := sim_interrupter;
  set_interrupter := with_interrupter;
  trb_at := read_trb;
  store_trbs base buf h :=
    with_consumers base (sim_consumers h) (with_mem (write_trbs base buf (sim_mem h)) h);
  place_buffer l h :=
    let base := sim_buffers h in
    (base, with_bytes (write_bytes base l (sim_bytes h)) (base + Z.of_nat (length l)) h);
  bytes_at := read_bytes;
  ring_doorbell slot dci h := Ret (knock slot dci h);
  output_device_address h p := 1;
  let_time_pass h := h;
|}.

#[global] Instance sim_port_registers : PortRegisters SimHw := {|
  port_read p h := '(v, ports) ← port_read p (sim_ports h); Ret (v, with_ports ports h);
  port_write p v h := ports ← port_write p v (sim_ports h); Ret (with_ports ports h);
|}.

(** ** The driver on it *)

Abbreviation sim_controller := (XhciController (HW := SimHw) (C := list (list Z))) (only parsing).

Definition heap : KernelAlloc.GlobalAllocator := Bump.init Bump.new 0x100000 0x4000000.

(** The state that [XhciController::new] leaves, for 8 slots. *)
Definition boot : outcome sim_controller :=
  '(events, i, slots, alloc) ← event_ring_new heap EVENT_RING_LEN (mkInterrupter 0 (0 : Erdp) 0);
  '(commands, alloc) ← command_ring_new alloc 32;
  let base := (er_trb_buffer events).1 in
  let hw := mkSim XhciPorts.hub i (write_trbs base slots ∅) ∅ 0x8000000 (cr_base commands) ∅ base
    0 1 0 in
  '(dm, x) ← device_manager_new 8 (mkXhc hw events commands UserEvents.new alloc);
  Ret (mkController x dm manager_new [] 4 port_state_new ∅).

Definition zeros (n : nat) : list Z := replicate n 0.
Definition max_packet (d : list Z) : Z := default 0 (d !! 7%nat).
Definition record_report (calls : list (list Z)) (address : Z) (buffer : list Z) :
    outcome (list (list Z)) := Ret (calls ++ [buffer]).

Definition plug_event (port : Z) : Allowed := EvPortStatusChange (trb (port * 2 ^ 24) 0 34 1).

Abbreviation FUEL := 100%nat (only parsing).
Abbreviation on_event :=
  (process_event_ring_event FUEL zeros normal max_packet record_report record_report) (only parsing).
Abbreviation turn := (poll_turn FUEL zeros normal max_packet record_report record_report) (only parsing).

(** The ports behave as the specification says. *)
#[global] Instance sim_hw_compliant n : CompliantPorts SimHw n XhciPorts.SIM_RESET
  (fun h p => XhciPorts.flag (XhciPorts.portsc_value (sim_ports h p)))
  (fun h p => Nat.min (XhciPorts.busy (sim_ports h p)) XhciPorts.SIM_RESET).
Proof.
  destruct (XhciPorts.sim_compliant n) as [Hr Hw Hb]. split.
  - intros p h Hp. destruct (Hr p (sim_ports h) Hp) as (v & ports & Heq & Hrest).
    exists v, (with_ports ports h). simpl in Heq. injection Heq as <- <-. split; [done|exact Hrest].
  - intros p w h Hp Hpow. destruct (Hw p w (sim_ports h) Hp Hpow) as (ports & Heq & Hrest).
    exists (with_ports ports h). simpl in Heq. injection Heq as <-. split; [done|exact Hrest].
  - intros p h. apply (Hb p (sim_ports h)).
Qed.

(** A controller that is not there, and the one that a run leaves. *)
Definition blank : sim_controller :=
  let x := mkXhc (mkSim XhciPorts.hub (mkInterrupter 0 (0 : Erdp) 0) ∅ ∅ 0 0 ∅ 0 0 1 0)
    (mkEventRing (0, 0) [] (Erst.mkErst 0 0 0 0) true 0) (mkCommandRing 0 [] 0 true)
    UserEvents.new heap in
  mkController x (mkDeviceManager 0 [] []) manager_new [] 4 port_state_new ∅.

Definition result_of (o : outcome sim_controller) : sim_controller :=
  match o with Ret c => c | _ => blank end.
Definition returns (o : outcome sim_controller) : bool := match o with Ret _ => true | _ => false end.

Lemma result_of_returns o : returns o = true -> o = Ret (result_of o).
Proof. by destruct o. Qed.

(** Two devices are plugged in: the ports are configured, the first one gets a slot and sends its
    address; then it is unplugged. *)
Definition booted : sim_controller := result_of boot.
Definition configured0 : sim_controller := result_of (configure_port FUEL 0 booted).
Definition configured1 : sim_controller := result_of (configure_port FUEL 1 configured0).
Definition enabling : sim_controller := result_of (on_event (plug_event 1) configured1).
Definition addressing : sim_controller := result_of (turn enabling).

(** Port 0 loses its device. *)
Definition unplugged : Xhc SimHw :=
  let x := c_x addressing in
  set_hw x (with_ports (<[0 := XhciPorts.mkSimPort 0x202a0 0]> (sim_ports (x_hw x))) (x_hw x)).
Definition freed : sim_controller :=
  result_of (on_event (plug_event 1) (set_x addressing unplugged)).

Lemma boot_returns : boot = Ret booted.
Proof. apply (result_of_returns boot). vm_compute. reflexivity. Qed.

Lemma run_configured0 : configure_port FUEL 0 booted = Ret configured0.
Proof. apply (result_of_returns (configure_port FUEL 0 booted)). vm_compute. reflexivity. Qed.

Lemma run_configured1 : configure_port FUEL 1 configured0 = Ret configured1.
Proof. apply (result_of_returns (configure_port FUEL 1 configured0)). vm_compute. reflexivity. Qed.

Lemma run_enabling : on_event (plug_event 1) configured1 = Ret enabling.
Proof. apply (result_of_returns (on_event (plug_event 1) configured1)). vm_compute. reflexivity. Qed.

Lemma run_addressing : turn enabling = Ret addressing.
Proof. apply (result_of_returns (turn enabling)). vm_compute. reflexivity. Qed.

Lemma run_freed : on_event (plug_event 1) (set_x addressing unplugged) = Ret freed.
Proof.
  apply (result_of_returns (on_event (plug_event 1) (set_x addressing unplugged))).
  vm_compute. reflexivity.
Qed.

(** The completion of the address of a device that has gone is one of a slot without a device. *)
Lemma address_after_disconnect_panics :
  process_once_received FUEL zeros normal max_packet record_report record_report freed = Panic.
Proof. vm_compute. reflexivity. Qed.

End XhcSim.
