(* ===== verification/Reports.v ===== *)
(** Reports: the way of a report from a keyboard or a mouse to its callback
    ([process_transfer_event] of [xhci/controller.rs], [xhci/transfer_ring.rs]): the controller writes
    the reports into the buffers of the ring and posts events, the driver handles them. *)
From S2P Require Import Prelude Allocator BitField Trb CycleRing.
From S2P Require Import Rings.
From S2P Require Import ReportRing.
From S2P Require Import EventRing.
From S2P Require Import Descriptor UsbHost InputDriver Hub ClassDrivers.
From S2P Require Import Port.
From S2P Require Import EndpointId.
From S2P Require Import Xhc.
From S2P Require Import Device.
From S2P Require Import DeviceInit.
From S2P Require Import DeviceManager.
From S2P Require Import Controller.
From S2P Require Import XhcSim.

(** What is documented of the blocks and of the memory: a normal block reads back, whatever its
    cycle bit; what is written is read, other places and the registers stay as they are;
    [put_bytes] is a write by the controller. *)
Class ReportLaws (Cmd : Type) {TL : TrbLib Cmd} {BF : BitFieldLib} {ET : EventTypes} {EL : EventLib}
    {XT : XhciTrbs Cmd} (HW : Type) {XH : @XhcHw HW ET EL} (put_bytes : Z -> list Z -> HW -> HW) : Prop := {
  normal_no_link p len : link_target (into_raw (normal p len)) = None;
  normal_reads t p len : in_usize p -> 0 <= len < 2 ^ 17 ->
    payload t = payload (into_raw (normal p len)) ->
    transfer_of_raw t = Some (TNormal p len (cycle_bit_of t));
  store_read base l hw i t : l !! i = Some t -> trb_at (store_trbs base l hw) (slot_ptr base i) = t;
  store_bytes base l hw p n :
    disjoint_blocks (p, Z.of_nat n) (base, TRB_SIZE * Z.of_nat (length l)) ->
    bytes_at (store_trbs base l hw) p n = bytes_at hw p n;
  store_address base l hw p :
    disjoint_blocks (p, DEVICE_CONTEXT_SIZE) (base, TRB_SIZE * Z.of_nat (length l)) ->
    output_device_address (store_trbs base l hw) p = output_device_address hw p;
  put_read p l hw : bytes_at (put_bytes p l hw) p (length l) = l;
  put_bytes_ne p l hw q n : disjoint_blocks (q, Z.of_nat n) (p, Z.of_nat (length l)) ->
    bytes_at (put_bytes p l hw) q n = bytes_at hw q n;
  put_trb p l hw a : disjoint_blocks (a, TRB_SIZE) (p, Z.of_nat (length l)) ->
    trb_at (put_bytes p l hw) a = trb_at hw a;
  put_address p l hw a : disjoint_blocks (a, DEVICE_CONTEXT_SIZE) (p, Z.of_nat (length l)) ->
    output_device_address (put_bytes p l hw) a = output_device_address hw a;
  doorbell_memory slot dci hw : exists hw', ring_doorbell slot dci hw = Ret hw' /\
    (forall a, trb_at hw' a = trb_at hw a) /\ (forall p n, bytes_at hw' p n = bytes_at hw p n) /\
    (forall p, output_device_address hw' p = output_device_address hw p);
}.

Section reports.
Context `{TL : TrbLib Cmd} `{BF : BitFieldLib} `{ET : EventTypes} `{EL : @EventLib ET}
  `{XT : XhciTrbs Cmd} {HW : Type} `{XH : @XhcHw HW ET EL} `{CX : ContextLib} `{UH : UsbHostLib}.
Context (put_bytes : Z -> list Z -> HW -> HW) {C : Type}
  (mouse_callback keyboard_callback : C -> Z -> list Z -> outcome C).

Abbreviation controller := (XhciController (HW := HW) (C := C)).
Abbreviation memory c := (x_hw (c_x c)).

(** The length of a report, the callback and the driver of a device. *)
Definition report_len (kind : DriverKind) : nat :=
  match kind with
  | Mouse => MOUSE_N_IN_TRANSFER_BYTES | Keyboard => KEYBOARD_N_IN_TRANSFER_BYTES | HubKind => 0
  end.
Definition callback_of (kind : DriverKind) : C -> Z -> list Z -> outcome C :=
  match kind with Mouse => mouse_callback | _ => keyboard_callback end.
Definition driver_of (kind : DriverKind) (cd : ClassDriverManager) : InputOnlyDriver :=
  match kind with Mouse => ClassDrivers.driver (mouse cd) | _ => ClassDrivers.driver (keyboard cd) end.

(** The device of [slot] with [address] is an input device that runs. *)
Definition reports_to (kind : DriverKind) (slot address : Z) (cd : ClassDriverManager) : Prop :=
  driver_kind cd slot = Some kind /\ kind <> HubKind /\
  exists dev, List.find (fun d => addr d =? address) (present (devices (driver_of kind cd))) = Some dev /\
    state dev = Running.

(** Its context and the ring of its endpoint. *)
Definition device_with (slot dci : Z) (c : controller) (d : DeviceContextInfo) (r : TransferRing) : Prop :=
  device_by_slot_id (c_devices c) slot = Ret (Some d) /\ transfer_ring_at dci d = Ret (Some r).

(** An event for the block at a place. *)
Definition event_for (slot dci ptr : Z) (e : TransferEvent) : Prop :=
  te_slot_id e = slot /\ te_endpoint_id e = dci /\ te_trb_pointer e = ptr /\
  (te_completion_code e = Success \/ te_completion_code e = ShortPacket).

(** The ring in the memory. *)
Definition in_memory (r : TransferRing) (hw : HW) : Prop :=
  forall i t, tr_buffer r !! i = Some t -> trb_at hw (slot_ptr (tr_base r) i) = t.
Definition ring_memory (hw : HW) (base : Z) (size : nat) : list TrbRaw :=
  (fun i => trb_at hw (slot_ptr base i)) <$> seq 0 size.

(** The driver and the controller at one endpoint: the driver's state, where the controller is in
    the ring, the events that are not handled yet and the reports that the device has sent. *)
Record World := mkWorld {
  w_driver : controller;
  w_next : hw_state;
  w_events : list TransferEvent;
  w_sent : list (list Z);
}.

(** The driver has not given back any of the [size - 1] blocks, or it has given back all of them before
    the controller went through the link of the ring. *)
Definition refused (size : nat) (w : World) : Prop :=
  S (length (w_events w)) = size \/ (S (w_next w).1 = size /\ w_events w = []).

(** What the rest of the system does between two steps leaves the device, its memory and what its
    callback did with the reports so far as they are: [account] relates them to the state of the
    callbacks. *)
Record leaves_alone (slot dci address ctx base : Z) (size len : nat) (bufs : list Z) (kind : DriverKind)
    (account : list (list Z) -> C -> Prop) (c c' : controller) : Prop := {
  la_device d r : device_with slot dci c d r -> device_with slot dci c' d r;
  la_driver : reports_to kind slot address (class_driver_manager c) ->
    reports_to kind slot address (class_driver_manager c');
  la_account ls : account ls (c_callbacks c) -> account ls (c_callbacks c');
  la_ring i : (i < size)%nat -> trb_at (memory c') (slot_ptr base i) = trb_at (memory c) (slot_ptr base i);
  la_bytes p : p ∈ bufs -> bytes_at (memory c') p len = bytes_at (memory c) p len;
  la_address : output_device_address (memory c') ctx = output_device_address (memory c) ctx;
}.

(** The buffers of a ring. *)
Definition ring_buffers (r : TransferRing) : list Z :=
  omap (fun t => match transfer_of_raw t with Some (TNormal p _ _) => Some p | _ => None end)
    (take (length (tr_buffer r) - 1) (tr_buffer r)).

(** A report that is [valid] after those before it arrives in the buffer of the next block of the ring
    in memory; the controller goes through the link of the ring, when it likes; the oldest event is
    handled; something else happens. *)
Inductive world_step (slot dci address ctx base : Z) (size : nat) (bufs : list Z) (kind : DriverKind)
    (valid : list (list Z) -> list Z -> Prop) (account : list (list Z) -> C -> Prop) : World -> World -> Prop :=
  | report_arrives c hw es sent t hw' p len cycle r e :
      hw_fetch base (ring_memory (memory c) base size) hw = (Some t, hw') ->
      transfer_of_raw t = Some (TNormal p len cycle) -> Z.of_nat (length r) = len -> valid sent r ->
      event_for slot dci (slot_ptr base (pred hw'.1)) e ->
      world_step slot dci address ctx base size bufs kind valid account (mkWorld c hw es sent)
        (mkWorld (set_x c (set_hw (c_x c) (put_bytes p r (memory c)))) hw' (es ++ [e]) (sent ++ [r]))
  | link_followed c hw es sent :
      world_step slot dci address ctx base size bufs kind valid account (mkWorld c hw es sent)
        (mkWorld c (hw_follow base (ring_memory (memory c) base size) hw) es sent)
  | report_handled c hw e es sent c' :
      process_transfer_event mouse_callback keyboard_callback e c = Ret c' ->
      world_step slot dci address ctx base size bufs kind valid account (mkWorld c hw (e :: es) sent)
        (mkWorld c' hw es sent)
  | elsewhere c hw es sent c' :
      leaves_alone slot dci address ctx base size (report_len kind) bufs kind account c c' ->
      world_step slot dci address ctx base size bufs kind valid account (mkWorld c hw es sent)
        (mkWorld c' hw es sent).

(** An input device after [start_reports]: its endpoint has a ring of [size] blocks at [base], filled
    from [allocator]; the blocks of memory that the driver holds are [live]. *)
Record reports_started (kind : DriverKind) (slot dci : Z) (allocator allocator' : KernelAlloc.GlobalAllocator)
    (live rest : list (Z * Z)) (base : Z) (size : nat) (d : DeviceContextInfo) (r : TransferRing)
    (c : controller) : Prop := {
  rs_dci : dci < 32;
  rs_size : (2 <= size)%nat;
  rs_base : in_usize base /\ (16 | base);
  rs_heap : Bump.inv allocator live;
  rs_room : has_room allocator (Z.of_nat (size - 1) * (PAGE_SIZE + Z.of_nat (report_len kind)));
  rs_count : Bump.n_allocations allocator + Z.of_nat (size - 1) < 2 ^ 64;
  rs_live : live ≡ₚ (base, TRB_SIZE * Z.of_nat size) :: (device_context_ptr d, DEVICE_CONTEXT_SIZE) :: rest;
  rs_filled : fill_with_normal normal allocator (mkTransferRing base (replicate size zero_trb) 0 true 0)
    (Z.of_nat (report_len kind)) = Ret (r, allocator');
  rs_memory : in_memory r (memory c);
  rs_device : device_with slot dci c d r;
  rs_driver : reports_to kind slot (device_address d (c_x c)) (class_driver_manager c);
}.

End reports.

(** The steps at the endpoint of a device that reports. *)
Abbreviation endpoint_step put_bytes mouse_callback keyboard_callback slot dci d r kind valid account c :=
  (world_step put_bytes mouse_callback keyboard_callback slot dci (device_address d (c_x c))
    (device_context_ptr d) (tr_base r) (length (tr_buffer r)) (ring_buffers r) kind valid account) (only parsing).

Section report_lemmas.
Context `{TL : TrbLib Cmd} `{!TrbLaws Cmd} `{BFL : BitFieldLaws} `{ET : EventTypes} `{EL : @EventLib ET}
  `{XT : XhciTrbs Cmd} {HW : Type} `{XH : @XhcHw HW ET EL} `{CX : ContextLib} `{UH : UsbHostLib}.
Context (put_bytes : Z -> list Z -> HW -> HW) `{RL : !ReportLaws Cmd HW put_bytes} {C : Type}
  (mouse_callback keyboard_callback : C -> Z -> list Z -> outcome C).

Abbreviation controller := (XhciController (HW := HW) (C := C)).
Abbreviation memory c := (x_hw (c_x c)).
Abbreviation handle := (process_transfer_event mouse_callback keyboard_callback).
Abbreviation callback := (callback_of mouse_callback keyboard_callback).

(** A report of a running device reaches its callback. *)
Lemma deliver_report_calls kind slot ptr d (c : controller) :
  reports_to kind slot (device_address d (c_x c)) (class_driver_manager c) ->
  deliver_report mouse_callback keyboard_callback slot ptr (Z.of_nat (report_len kind)) d c =
    (cb ← callback kind (c_callbacks c) (device_address d (c_x c))
            (bytes_at (memory c) ptr (report_len kind));
     Ret (true, set_drivers c (class_driver_manager c) cb)).
Proof.
  intros (Hk & Hne & dev & Hfind & Hrun). unfold deliver_report. cbv zeta. rewrite Hk.
  unfold call_callback_at. destruct kind; [..|done]; simpl in Hfind |- *; rewrite Hfind; simpl;
    rewrite bool_decide_true by done; reflexivity.
Qed.

(** The device with another ring. *)
Lemma set_ring_at slot dci (c : controller) d r r' :
  device_with slot dci c d r ->
  exists d', set_transfer_ring_at dci r' d = Ret d' /\ device_context_ptr d' = device_context_ptr d /\
    transfer_ring_at dci d' = Ret (Some r') /\
    device_by_slot_id (set_device (c_devices c) slot (Some d')) slot = Ret (Some d').
Proof.
  intros [Hd Hr]. unfold transfer_ring_at, set_transfer_ring_at, device_by_slot_id in *.
  inv_ret. rename H0 into Hring. rewrite sub_w_Ret by done. cbn [mbind outcome_bind].
  rewrite Hr. cbn [unwrap mbind outcome_bind]. eexists. split; [reflexivity|]. simpl.
  rewrite !list_lookup_insert_eq by (by eapply lookup_lt_Some). by split_and!.
Qed.

(** The memory of a ring. *)
Abbreviation ring_block r := (tr_base r, TRB_SIZE * Z.of_nat (length (tr_buffer r))).

(** [process_transfer_event] on the event of a report: the block is given back, the callback gets the
    bytes of its buffer, and nothing else in the memory changes. *)
Lemma handle_report kind slot dci (c : controller) d r r' e ptr p cycle st :
  device_with slot dci c d r -> event_for slot dci ptr e -> dci < 32 ->
  transfer_of_raw (trb_at (memory c) ptr) = Some (TNormal p (Z.of_nat (report_len kind)) cycle) ->
  flip_cycle_bit_at r ptr cycle = Ret r' ->
  reports_to kind slot (device_address d (c_x c)) (class_driver_manager c) ->
  disjoint_blocks (device_context_ptr d, DEVICE_CONTEXT_SIZE) (ring_block r') ->
  disjoint_blocks (p, Z.of_nat (report_len kind)) (ring_block r') ->
  callback kind (c_callbacks c) (device_address d (c_x c))
    (bytes_at (memory c) p (report_len kind)) = Ret st ->
  exists c' d', handle e c = Ret c' /\ device_with slot dci c' d' r' /\
    device_context_ptr d' = device_context_ptr d /\ device_address d' (c_x c') = device_address d (c_x c) /\
    class_driver_manager c' = class_driver_manager c /\ c_callbacks c' = st /\
    in_memory r' (memory c') /\
    (forall q n, disjoint_blocks (q, Z.of_nat n) (ring_block r') ->
       bytes_at (memory c') q n = bytes_at (memory c) q n).
Proof.
  intros Hd (Hslot & Hep & Hptr & Hcode) Hdci Htrb Hflip Hto Hctx Hbuf Hcb.
  destruct (set_ring_at slot dci c d r r' Hd) as (d' & Hset & Hsame & Hring & Hdev).
  destruct Hd as [Hd Hr].
  set (hw := store_trbs (tr_base r') (tr_buffer r') (memory c)).
  set (c1 := set_x (set_devices c (set_device (c_devices c) slot (Some d'))) (set_hw (c_x c) hw)).
  assert (Haddr : device_address d' (c_x c1) = device_address d (c_x c)).
  { unfold device_address. rewrite Hsame. by apply store_address. }
  destruct (doorbell_memory (put_bytes := put_bytes) slot dci hw) as (hw' & Hdb & Ht & Hb & Ha).
  exists (set_x (set_drivers c1 (class_driver_manager c) st) (set_hw (c_x c1) hw')), d'.
  split_and!; try done.
  - unfold process_transfer_event. cbv zeta. rewrite Hslot, Hep, Hptr.
    replace (completion_code_ok (te_completion_code e)) with true by (by destruct Hcode as [-> | ->]).
    replace ((te_completion_code e =? ShortPacket) || (te_completion_code e =? Success)) with true
      by (by destruct Hcode as [-> | ->]).
    unfold dci_checked_new. rewrite (proj2 (Z.ltb_lt dci 32) Hdci). cbn [negb assert mbind outcome_bind].
    rewrite Hd. cbn [unwrap mbind outcome_bind]. rewrite Hr. cbn [unwrap mbind outcome_bind].
    rewrite Htrb. cbn [unwrap mbind outcome_bind]. rewrite Hflip. cbn [mbind outcome_bind].
    rewrite Hset. cbn [mbind outcome_bind]. 
    match goal with |- context [deliver_report _ _ _ _ _ _ ?x] => change x with c1 end.
    rewrite deliver_report_calls, Haddr by (by rewrite Haddr).
    replace (bytes_at (memory c1) p (report_len kind)) with (bytes_at (memory c) p (report_len kind))
      by (symmetry; by apply store_bytes).
    change (c_callbacks c1) with (c_callbacks c). rewrite Hcb. cbn [mbind outcome_bind].
    unfold doorbell. cbn [c_x set_drivers]. change (x_hw (c_x c1)) with hw. rewrite Hdb. reflexivity.
  - unfold device_address in *. simpl. by rewrite Ha.
  - intros i t Hi. simpl. rewrite Ht. by apply store_read.
  - intros q n Hq. simpl. rewrite Hb. by apply store_bytes.
Qed.

(** ** The invariant *)

Context (slot dci address ctx base : Z) (bufs : list Z) (kind : DriverKind)
  (valid : list (list Z) -> list Z -> Prop) (account : list (list Z) -> C -> Prop) (rest : list (Z * Z)).
Context (dci_ok : dci < 32) (bufs_ok : Forall in_usize bufs).
Abbreviation n := (length bufs).
Abbreviation size := (S n).
Abbreviation len := (report_len kind).
Context (layout : pairwise_disjoint (((fun p => (p, Z.of_nat len)) <$> bufs) ++
  (base, TRB_SIZE * Z.of_nat size) :: (ctx, DEVICE_CONTEXT_SIZE) :: rest)).
Context (callback_accounts : forall st ls l, account ls st -> valid ls l -> length l = len ->
  exists st', callback kind st address l = Ret st' /\ account (ls ++ [l]) st').

Abbreviation step := (world_step put_bytes mouse_callback keyboard_callback slot dci address ctx base
  size bufs kind valid account).

(** The driver has handled the first [g] reports; those it has not handled lie in their buffers. *)
Record consistent (w : World) (d : DeviceContextInfo) (r : TransferRing) (g : nat) : Prop := {
  co_device : device_with slot dci (w_driver w) d r;
  co_ctx : device_context_ptr d = ctx;
  co_address : device_address d (c_x (w_driver w)) = address;
  co_base : tr_base r = base;
  co_driver : reports_to kind slot address (class_driver_manager (w_driver w));
  co_ring : circulating normal (Z.of_nat len) bufs r g (length (w_sent w));
  co_next : hw_at n (length (w_sent w)) (w_next w);
  co_memory : in_memory r (memory (w_driver w));
  co_pending : length (w_sent w) = (g + length (w_events w))%nat;
  co_events k e : w_events w !! k = Some e ->
    event_for slot dci (slot_ptr base ((g + k) mod n)) e;
  co_reports k l : (g <= k)%nat -> w_sent w !! k = Some l -> valid (take k (w_sent w)) l /\ length l = len /\
    exists p, bufs !! (k mod n)%nat = Some p /\ bytes_at (memory (w_driver w)) p len = l;
  co_account : account (take g (w_sent w)) (c_callbacks (w_driver w));
}.

(** The layout of the memory. *)
Lemma buffers_disjoint i j p q : bufs !! i = Some p -> bufs !! j = Some q -> i <> j ->
  disjoint_blocks (p, Z.of_nat len) (q, Z.of_nat len).
Proof.
  intros Hp Hq Hne. eapply pairwise_disjoint_lookup; [exact layout| | |exact Hne];
    apply lookup_app_l_Some; rewrite list_lookup_fmap; [by rewrite Hp|by rewrite Hq].
Qed.

Lemma buffer_outside i p : bufs !! i = Some p ->
  disjoint_blocks (p, Z.of_nat len) (base, TRB_SIZE * Z.of_nat size) /\
  disjoint_blocks (ctx, DEVICE_CONTEXT_SIZE) (p, Z.of_nat len).
Proof.
  intros Hp. pose proof (lookup_lt_Some _ _ _ Hp).
  assert (Hl : (((fun p => (p, Z.of_nat len)) <$> bufs) ++
    (base, TRB_SIZE * Z.of_nat size) :: (ctx, DEVICE_CONTEXT_SIZE) :: rest) !! i = Some (p, Z.of_nat len))
    by (apply lookup_app_l_Some; by rewrite list_lookup_fmap, Hp).
  split; [|symmetry]; (eapply pairwise_disjoint_lookup; [exact layout|exact Hl| |]).
  - apply (lookup_app_Some _ _ n). right. rewrite length_fmap, Nat.sub_diag. by split.
  - lia.
  - apply (lookup_app_Some _ _ (S n)). right. rewrite length_fmap.
    replace (S n - n)%nat with 1%nat by lia. split; [lia|done].
  - lia.
Qed.

Lemma context_outside : disjoint_blocks (ctx, DEVICE_CONTEXT_SIZE) (base, TRB_SIZE * Z.of_nat size).
Proof.
  symmetry. eapply (pairwise_disjoint_lookup _ n (S n)); [exact layout| | |lia].
  - apply (lookup_app_Some _ _ n). right. rewrite length_fmap, Nat.sub_diag. by split.
  - apply (lookup_app_Some _ _ (S n)). right. rewrite length_fmap.
    replace (S n - n)%nat with 1%nat by lia. split; [lia|done].
Qed.

(** A block of the ring reads back, and the memory has the ring that the driver has. *)
Lemma block_reads t p : p ∈ bufs -> payload t = payload (into_raw (normal p (Z.of_nat len))) ->
  transfer_of_raw t = Some (TNormal p (Z.of_nat len) (cycle_bit_of t)).
Proof.
  intros Hp Ht. apply (normal_reads (put_bytes := put_bytes)); [|by destruct kind|done].
  by eapply Forall_forall in Hp.
Qed.

Lemma ring_in_memory w d r g : consistent w d r g ->
  ring_memory (memory (w_driver w)) base size = tr_buffer r.
Proof.
  intros Hco. pose proof (circ_bounds _ _ _ _ _ _ (co_ring _ _ _ _ Hco)) as (_ & _ & Hl & _).
  apply list_eq. intros i. unfold ring_memory. rewrite list_lookup_fmap.
  destruct (decide (i < size)%nat) as [Hi|Hi].
  - rewrite lookup_seq_lt by done. simpl. destruct (lookup_lt_is_Some_2 (tr_buffer r) i) as [t Ht]; [lia|].
    rewrite Ht, <- (co_base _ _ _ _ Hco). f_equal. by apply (co_memory _ _ _ _ Hco).
  - rewrite lookup_seq_ge, lookup_ge_None_2 by lia. done.
Qed.

Lemma refused_or_not {W} k (w : World (HW := W) (C := C)) : refused k w \/ ~ refused k w.
Proof.
  unfold refused. destruct (decide (S (length (w_events w)) = k)); [by left; left|].
  destruct (decide (S (w_next w).1 = k)); [|by right; intros [|[]]].
  destruct (w_events w); [by left; right|by right; intros [|[]]].
Qed.

(** What the controller finds in the ring. *)
Lemma next_block w d r g : consistent w d r g ->
  let c := length (w_sent w) in
  let fetched := hw_fetch base (ring_memory (memory (w_driver w)) base size) (w_next w) in
  ~ refused size w /\
  (exists t p hw', bufs !! (c mod n)%nat = Some p /\ fetched = (Some t, hw') /\
    hw'.1 = S (c mod n) /\ hw_at n (S c) hw' /\
    transfer_of_raw t = Some (TNormal p (Z.of_nat len) (cycle_bit_of t)) /\
    circulating normal (Z.of_nat len) bufs r g (S c)) \/
  refused size w /\ fetched.1 = None.
Proof.
  intros Hco c. pose proof (co_ring _ _ _ _ Hco) as Hc. pose proof (co_pending _ _ _ _ Hco) as Hpend.
  pose proof (co_next _ _ _ _ Hco) as Hat.
  pose proof (circ_bounds _ _ _ _ _ _ Hc) as (Hn & Hgc & _).
  pose proof (Nat.mod_upper_bound c n ltac:(lia)).
  assert (Hle : ((w_next w).1 <= n)%nat) by (destruct Hat as [->|[-> _]]; simpl; unfold c in *; lia).
  cbv zeta. rewrite (ring_in_memory _ _ _ _ Hco), <- (co_base _ _ _ _ Hco).
  destruct (refused_or_not size w) as [Hno|Hyes]; [right|left].
  - split; [exact Hno|]. eapply circ_no_fetch; [exact Hc|exact Hat|].
    destruct Hno as [?|[? Hes]]; [left; lia|right]. rewrite Hes in Hpend. simpl in Hpend. lia.
  - split; [exact Hyes|].
    destruct (circ_fetch _ _ _ _ _ _ _ Hc Hat) as (t & Ht & Hf & Hat' & Hc').
    { destruct (decide (S (length (w_events w)) = size)); [by destruct Hyes; left|lia]. }
    { destruct (decide ((w_next w).1 < n)%nat) as [|Hge]; [by left|right].
      destruct (w_events w) as [|e es] eqn:Hes; [destruct Hyes; right; split; [lia|done]|simpl in Hpend; lia]. }
    destruct (lookup_lt_is_Some_2 bufs (c mod n)) as [p Hp]; [done|].
    exists t, p, (S (c mod n), phase n c)%nat. split_and!; [done..| |done].
    apply block_reads; [by eapply list_elem_of_lookup_2|]. by eapply circ_trbs.
Qed.

(** A report that arrives. *)
Lemma arrives w d r g hw' t p l cycle rep e :
  consistent w d r g ->
  hw_fetch base (ring_memory (memory (w_driver w)) base size) (w_next w) = (Some t, hw') ->
  transfer_of_raw t = Some (TNormal p l cycle) -> Z.of_nat (length rep) = l -> valid (w_sent w) rep ->
  event_for slot dci (slot_ptr base (pred hw'.1)) e ->
  consistent (mkWorld (set_x (w_driver w) (set_hw (c_x (w_driver w)) (put_bytes p rep (memory (w_driver w)))))
    hw' (w_events w ++ [e]) (w_sent w ++ [rep])) d r g.
Proof.
  intros Hco Hf Ht Hl Hvalid He.
  destruct (next_block _ _ _ _ Hco) as [(_ & t' & p' & hw1 & Hp & Hf' & Hslot & Hat & Ht' & Hc)|[_ Hf']];
    [|by rewrite Hf in Hf'].
  rewrite Hf in Hf'. injection Hf' as <- <-. rewrite Hslot in He. simpl in He. rewrite Ht in Ht'. injection Ht' as -> Hll ->.
  rewrite Hll in Hl. apply Nat2Z.inj in Hl as Hlen. clear Hll Ht Hf l.
  destruct (buffer_outside _ _ Hp) as [Hring Hctx]. rewrite <- Hlen in Hring, Hctx.
  destruct Hco as [Hd Hx Ha Hb Hdr _ _ Hmem Hpend Hev Hrep Hacc]. split; try done; simpl.
  - unfold device_address in *. simpl. rewrite put_address; [done|]. by rewrite Hx.
  - by rewrite length_app, Nat.add_1_r.
  - by rewrite length_app, Nat.add_1_r.
  - intros i u Hu. simpl. pose proof (lookup_lt_Some _ _ _ Hu) as Hi.
    pose proof (circ_bounds _ _ _ _ _ _ Hc) as (_ & _ & Hsz & _).
    rewrite put_trb; [by apply Hmem|]. rewrite Hb. unfold disjoint_blocks, slot_ptr, TRB_SIZE in *. simpl in *. lia.
  - rewrite !length_app. simpl. lia.
  - intros k e' [Hk|[Hk Hk']]%lookup_app_Some; [by apply Hev|].
    destruct (k - length (w_events w))%nat eqn:Hz; simplify_eq/=.
    by replace (g + k)%nat with (length (w_sent w)) by lia.
  - intros k l Hk [Hs|[Hs Hs']]%lookup_app_Some.
    + destruct (Hrep k l Hk Hs) as (Hv & Hll & q & Hq & Hbytes). pose proof (lookup_lt_Some _ _ _ Hs).
      rewrite take_app_le by lia. split_and!; [done..|]. exists q. split; [done|].
      rewrite put_bytes_ne; [done|]. rewrite Hlen.
      apply (buffers_disjoint _ _ _ _ Hq Hp). intros Heq.
      pose proof (circ_bounds _ _ _ _ _ _ Hc) as (_ & [_ Hlast] & _).
      apply (mod_window_inj n g k (length (w_sent w))) in Heq; lia.
    + destruct (k - length (w_sent w))%nat eqn:Hz; simplify_eq/=.
      replace k with (length (w_sent w)) by lia. rewrite take_app_length. split_and!; [done..|].
      exists p'. split; [done|].
      rewrite <- Hlen. apply put_read.
  - rewrite take_app_le by lia. done.
Qed.

(** The oldest event is handled. *)
Lemma handled w d r g e es : consistent w d r g -> w_events w = e :: es ->
  exists c' d' r', handle e (w_driver w) = Ret c' /\
    consistent (mkWorld c' (w_next w) es (w_sent w)) d' r' (S g).
Proof.
  intros Hco Hes. pose proof Hco as [Hd Hx Ha Hb Hdr Hring Hnext Hmem Hpend Hev Hrep Hacc].
  rewrite Hes in Hpend, Hev. simpl in Hpend.
  pose proof (circ_bounds _ _ _ _ _ _ Hring) as (Hn & _).
  pose proof (Nat.mod_upper_bound g n ltac:(lia)) as Hi.
  destruct (circ_slot _ _ _ _ _ _ _ Hring Hi) as (t & p & Ht & Hp & Hpay).
  destruct (circ_flip _ _ (fun p => normal_no_link (put_bytes := put_bytes) p _) _ _ _ _ _ Hring
    ltac:(lia) Ht) as (r' & Hflip & Hb' & Hring').
  pose proof (circ_bounds _ _ _ _ _ _ Hring') as (_ & _ & Hsz & _).
  destruct (lookup_lt_is_Some_2 (w_sent w) g) as [rep Hsent]; [lia|].
  destruct (Hrep g rep ltac:(lia) Hsent) as (Hvalid & Hlen & q & Hq & Hbytes).
  rewrite Hp in Hq. injection Hq as <-.
  destruct (buffer_outside _ _ Hp) as [Hout _].
  destruct (callback_accounts (c_callbacks (w_driver w)) _ rep Hacc Hvalid Hlen) as (st & Hst & Hst').
  pose proof (Hev 0%nat e eq_refl) as He. rewrite Nat.add_0_r, <- Hb in He.
  assert (Hblock : (tr_base r', TRB_SIZE * Z.of_nat (length (tr_buffer r'))) =
    (base, TRB_SIZE * Z.of_nat size)) by (by rewrite Hb', Hb, Hsz).
  destruct (handle_report kind slot dci (w_driver w) d r r' e _ p (cycle_bit_of t) st Hd He dci_ok)
    as (c' & d' & Hrun & Hd' & Hx' & Ha' & Hcd & Hcb & Hmem' & Hbytes').
  - rewrite (Hmem _ _ Ht). apply block_reads; [by eapply list_elem_of_lookup_2|done].
  - done.
  - by rewrite Ha.
  - rewrite Hblock, Hx. apply context_outside.
  - by rewrite Hblock.
  - by rewrite Ha, Hbytes.
  - exists c', d', r'. split; [done|]. rewrite Hblock in Hbytes'.
    split; simpl; try congruence; try done.
    + lia.
    + intros k e' Hk. rewrite <- Nat.add_succ_r. by apply Hev.
    + intros k l Hk Hl. destruct (Hrep k l ltac:(lia) Hl) as (Hv & Hll & q & Hq & Hqb). split_and!; [done..|].
      exists q. split; [done|]. rewrite Hbytes'; [done|]. by eapply buffer_outside.
    + by rewrite Hcb, (take_S_r _ _ rep).
Qed.

Lemma undisturbed w d r g c' : consistent w d r g ->
  leaves_alone slot dci address ctx base size len bufs kind account (w_driver w) c' ->
  consistent (mkWorld c' (w_next w) (w_events w) (w_sent w)) d r g.
Proof.
  intros [Hd Hx Ha Hb Hdr Hring Hnext Hmem Hpend Hev Hrep Hacc] [Ld Ldr Ls Lr Lb La].
  split; simpl; try done; auto.
  - unfold device_address in *. by rewrite Hx, La, <- Hx.
  - intros i t Hi. pose proof (lookup_lt_Some _ _ _ Hi).
    pose proof (circ_bounds _ _ _ _ _ _ Hring) as (_ & _ & Hsz & _).
    rewrite Hb, Lr, <- Hb by lia. by apply Hmem.
  - intros k l Hk Hl. destruct (Hrep k l Hk Hl) as (Hv & Hll & p & Hp & Hbytes). split_and!; [done..|].
    exists p. split; [done|]. rewrite Lb; [done|]. by eapply list_elem_of_lookup_2.
Qed.

(** The controller goes through the link. *)
Lemma goes_through w d r g : consistent w d r g ->
  consistent (mkWorld (w_driver w) (hw_follow base (ring_memory (memory (w_driver w)) base size) (w_next w))
    (w_events w) (w_sent w)) d r g.
Proof.
  intros Hco. rewrite (ring_in_memory _ _ _ _ Hco), <- (co_base _ _ _ _ Hco).
  pose proof (circ_follow _ _ _ _ _ _ _ (co_ring _ _ _ _ Hco) (co_next _ _ _ _ Hco)) as Hat.
  destruct Hco. by split.
Qed.

Lemma step_consistent w w' : (exists d r g, consistent w d r g) -> step w w' ->
  exists d r g, consistent w' d r g.
Proof.
  intros (d & r & g & Hco) Hstep.
  destruct Hstep as [c hw es sent t hw' p l cycle rep e Hf Ht Hl Hv He|c hw es sent|
    c hw e es sent c' Hrun|c hw es sent c' Hla].
  - exists d, r, g. by eapply (arrives (mkWorld c hw es sent)).
  - exists d, r, g. by apply (goes_through (mkWorld c hw es sent)).
  - destruct (handled _ _ _ _ e es Hco eq_refl) as (c1 & d' & r' & Hrun' & Hco').
    simpl in Hrun'. rewrite Hrun in Hrun'. injection Hrun' as <-. eauto.
  - exists d, r, g. by apply (undisturbed (mkWorld c hw es sent)).
Qed.

Lemma run_consistent w w' : (exists d r g, consistent w d r g) -> rtc step w w' ->
  exists d r g, consistent w' d r g.
Proof.
  intros Hw Hrun. eapply (rtc_invariant _ (fun w => exists d r g, consistent w d r g));
    [exact step_consistent|exact Hw|exact Hrun].
Qed.

(** A ring that is full and a device that has not sent anything. *)
Lemma start_consistent (c : controller) d r :
  device_with slot dci c d r -> device_context_ptr d = ctx -> device_address d (c_x c) = address ->
  tr_base r = base -> reports_to kind slot address (class_driver_manager c) ->
  circulating normal (Z.of_nat len) bufs r 0 0 -> in_memory r (memory c) -> account [] (c_callbacks c) ->
  consistent (mkWorld c (0%nat, true) [] []) d r 0.
Proof.
  intros ? ? ? ? ? Hcirc ? ?. pose proof (circ_bounds _ _ _ _ _ _ Hcirc) as (Hn & _).
  split; try done. left. simpl. unfold phase. by rewrite Nat.Div0.mod_0_l, Nat.Div0.div_0_l.
Qed.

(** What the invariant says to the device and to the callback. *)
Lemma consistent_observed w d r g : consistent w d r g ->
  account (take (length (w_sent w) - length (w_events w)) (w_sent w)) (c_callbacks (w_driver w)) /\
  (forall e es, w_events w = e :: es -> exists c', handle e (w_driver w) = Ret c') /\
  (length (w_events w) < size)%nat /\
  let found := (hw_fetch base (ring_memory (memory (w_driver w)) base size) (w_next w)).1 in
  (found = None <-> refused size w) /\
  (forall t, found = Some t -> exists p cycle,
     transfer_of_raw t = Some (TNormal p (Z.of_nat len) cycle)).
Proof.
  intros Hco. pose proof (next_block _ _ _ _ Hco) as Hnext. cbv zeta in Hnext |- *. split_and!.
  - rewrite (co_pending _ _ _ _ Hco), Nat.add_sub. apply (co_account _ _ _ _ Hco).
  - intros e es Hes. destruct (handled _ _ _ _ _ _ Hco Hes) as (c' & _ & _ & Hrun & _). eauto.
  - pose proof (circ_bounds _ _ _ _ _ _ (co_ring _ _ _ _ Hco)) as (_ & [_ Hc] & _).
    pose proof (co_pending _ _ _ _ Hco). lia.
  - destruct Hnext as [(Hno & t & p & hw & _ & Hf & _)|[Hno Hf]]; [|done]. by rewrite Hf.
  - intros t Hft. destruct Hnext as [(_ & t' & p & hw & _ & Hf & _ & _ & Ht & _)|[_ Hf]]; [|congruence].
    rewrite Hf in Hft. injection Hft as ->. eauto.
Qed.

End report_lemmas.

Section report_theorem.
Context `{TL : TrbLib Cmd} `{!TrbLaws Cmd} `{BFL : BitFieldLaws} `{ET : EventTypes} `{EL : @EventLib ET}
  `{XT : XhciTrbs Cmd} {HW : Type} `{XH : @XhcHw HW ET EL} `{CX : ContextLib} `{UH : UsbHostLib}.
Context (put_bytes : Z -> list Z -> HW -> HW) `{RL : !ReportLaws Cmd HW put_bytes} {C : Type}
  (mouse_callback keyboard_callback : C -> Z -> list Z -> outcome C).

Abbreviation controller := (XhciController (HW := HW) (C := C)).
Abbreviation memory c := (x_hw (c_x c)).

(** The buffers of a ring of normal blocks. *)
Lemma ring_buffers_eq len bufs r g c :
  Forall in_usize bufs -> 0 <= len < 2 ^ 17 -> circulating normal len bufs r g c -> ring_buffers r = bufs.
Proof.
  intros Hb Hlen Hc. pose proof (circ_bounds _ _ _ _ _ _ Hc) as (_ & _ & Hl & _).
  unfold ring_buffers. rewrite Hl, Nat.sub_succ, Nat.sub_0_r.
  assert (Hgo : forall l bs, length l = length bs -> Forall in_usize bs ->
    (forall i t p, l !! i = Some t -> bs !! i = Some p -> payload t = payload (into_raw (normal p len))) ->
    omap (fun t => match transfer_of_raw t with Some (TNormal p _ _) => Some p | _ => None end) l = bs).
  { induction l as [|t l IH]; intros [|p bs] Hn Hbs Ht; simplify_eq/=; [done|].
    apply Forall_cons in Hbs as [Hp Hbs].
    rewrite (normal_reads (put_bytes := put_bytes) t p len Hp Hlen) by (by apply (Ht 0%nat)).
    f_equal. apply IH; [done..|]. intros i. apply (Ht (S i)). }
  apply Hgo; [rewrite length_take; lia|done|]. intros i t p Ht Hp.
  apply lookup_take_Some in Ht as [Ht _]. by eapply (circ_trbs _ _ _ _ _ _ Hc).
Qed.

(** Giving a block back is what the deprecated [push_with_existing_buf] did. *)
Lemma push_with_existing_flips len bufs r g c t :
  Forall in_usize bufs -> 0 <= len < 2 ^ 17 -> circulating normal len bufs r g c -> (g < c)%nat ->
  tr_buffer r !! (g mod length bufs)%nat = Some t ->
  exists r1 r2 ptr, flip_cycle_bit_at r (slot_ptr (tr_base r) (g mod length bufs)) (cycle_bit_of t) = Ret r1 /\
    push_with_existing_buf r normal = Ret (ptr, r2) /\ transfer_view r1 = transfer_view r2.
Proof.
  intros Hb Hlen Hc Hlt Ht. pose proof (circ_bounds _ _ _ _ _ _ Hc) as (Hn & _ & Hl & _ & Hi & _).
  pose proof (Nat.mod_upper_bound g (length bufs) ltac:(lia)) as Hmod.
  destruct (circ_slot _ _ _ _ _ _ _ Hc Hmod) as (t' & p & Ht' & Hp & Hpay). rewrite Ht in Ht'.
  injection Ht' as <-.
  pose proof (circ_old_cycle _ _ _ _ _ _ _ Hc Hlt Ht) as Hcyc.
  destruct (flip_is_push r _ t (normal p len) Ht) as ((r1 & r2 & Hf & Hpush & Hv & _) & _);
    [lia|done|done|done|].
  exists r1, r2. eexists. split; [by rewrite Hcyc|]. split; [|done].
  unfold push_with_existing_buf. rewrite Hi, Ht. cbn [unwrap mbind outcome_bind].
  rewrite (normal_reads (put_bytes := put_bytes) t p len) by (done || by eapply Forall_lookup_1).
  cbn [unwrap mbind outcome_bind]. exact Hpush.
Qed.

(** A filled ring is consistent. *)
Lemma started_consistent kind slot dci allocator allocator' live rest base size d r
    (c : controller) (valid : list (list Z) -> list Z -> Prop) (account : list (list Z) -> C -> Prop) :
  reports_started kind slot dci allocator allocator' live rest base size d r c ->
  account [] (c_callbacks c) ->
  let bufs := ring_buffers r in
  size = S (length bufs) /\ length (tr_buffer r) = size /\ tr_base r = base /\ Forall in_usize bufs /\
  pairwise_disjoint (((fun p => (p, Z.of_nat (report_len kind))) <$> bufs) ++
    (base, TRB_SIZE * Z.of_nat size) :: (device_context_ptr d, DEVICE_CONTEXT_SIZE) :: rest) /\
  consistent slot dci (device_address d (c_x c)) (device_context_ptr d) base bufs kind valid account
    (mkWorld c (0%nat, true) [] []) d r 0.
Proof.
  intros [Hdci Hsize [Hbase Hal] Hheap Hroom Hcount Hlive Hfill Hmem Hdev Hto] Hstart.
  set (len := Z.of_nat (report_len kind)) in *.
  assert (0 <= len < 2 ^ 17) as Hlen by (by destruct kind).
  destruct (fill_with_normal_circulates normal len (fun p => normal_no_link (put_bytes := put_bytes) p len)
    allocator live base size) as (bufs & r1 & a1 & Hfill1 & Hb & Hn & Hcirc & Hbufs & Hlay); [lia|done..|].
  rewrite Hfill in Hfill1. injection Hfill1 as <- <-. rewrite Hlive in Hlay.
  pose proof (circ_bounds _ _ _ _ _ _ Hcirc) as (_ & _ & Hsz & _).
  rewrite (ring_buffers_eq len bufs r 0 0) by done. cbv zeta.
  split_and!; [lia|lia|done..|]. by apply start_consistent.
Qed.

(** Every state that a run from a filled ring reaches is consistent. *)
Lemma started_run kind slot dci allocator allocator' live rest base size d r
    (c : controller) (valid : list (list Z) -> list Z -> Prop) (account : list (list Z) -> C -> Prop) w :
  reports_started kind slot dci allocator allocator' live rest base size d r c ->
  account [] (c_callbacks c) ->
  (forall st ls l, account ls st -> valid ls l -> length l = report_len kind -> exists st',
     callback_of mouse_callback keyboard_callback kind st (device_address d (c_x c)) l = Ret st' /\
     account (ls ++ [l]) st') ->
  rtc (endpoint_step put_bytes mouse_callback keyboard_callback slot dci d r kind valid account c)
    (mkWorld c (0%nat, true) [] []) w ->
  exists bufs d' r' g, size = S (length bufs) /\ Forall in_usize bufs /\
    pairwise_disjoint (((fun p => (p, Z.of_nat (report_len kind))) <$> bufs) ++
      (base, TRB_SIZE * Z.of_nat size) :: (device_context_ptr d, DEVICE_CONTEXT_SIZE) :: rest) /\
    consistent slot dci (device_address d (c_x c)) (device_context_ptr d) base bufs kind valid account w d' r' g.
Proof.
  intros Hs Hstart Hcb Hrun.
  destruct (started_consistent _ _ _ _ _ _ _ _ _ _ _ _ valid account Hs Hstart)
    as (Hn & Hsz & Hb & Hbufs & Hlay & Hco).
  rewrite Hsz, Hb in Hrun. exists (ring_buffers r). clear Hsz Hb. subst size.
  eapply (run_consistent _ _ _ slot dci _ (device_context_ptr d) base (ring_buffers r) kind valid
    account rest (rs_dci _ _ _ _ _ _ _ _ _ _ _ _ Hs) Hbufs Hlay Hcb) in Hrun as (d' & r' & g & Hco').
  - by exists d', r', g.
  - by exists d, r, 0%nat.
Qed.

(** C4: what is typed and moved arrives, once and in its order.  At the interrupt endpoint of a
    running keyboard or mouse, whose ring [fill_with_normal] filled, with a callback that returns on
    valid reports and adds each to an [account] of the reports so far: whatever the order in which valid
    reports arrive (the controller puts each into the buffer of the next block, and posts an event of
    success or of a short packet), the
    controller goes through the link of its ring (at any time after it took the last block) and events
    are handled, and whatever the rest of the system does in between that leaves the endpoint alone, the
    state of the callbacks accounts for exactly the reports whose events were handled, one call of the
    callback for each, in the order the device sent them; [process_transfer_event] returns for the oldest
    event; fewer events wait than the ring has blocks; and the controller finds no block for a report in
    two cases only ([refused]): when the events of all the blocks wait, or when none waits and it has not
    gone through the link that the driver has already written for the next lap (a controller may stand
    there, [link_overtakes]; one that reads ahead does not).  Otherwise it finds a normal block of the
    report's length, lap after lap. *)
Theorem reports_in_order kind slot dci allocator allocator' live rest base size d r
    (c : controller) (valid : list (list Z) -> list Z -> Prop) (account : list (list Z) -> C -> Prop) w :
  reports_started kind slot dci allocator allocator' live rest base size d r c ->
  account [] (c_callbacks c) ->
  (forall st ls l, account ls st -> valid ls l -> length l = report_len kind -> exists st',
     callback_of mouse_callback keyboard_callback kind st (device_address d (c_x c)) l = Ret st' /\
     account (ls ++ [l]) st') ->
  rtc (endpoint_step put_bytes mouse_callback keyboard_callback slot dci d r kind valid account c)
    (mkWorld c (0%nat, true) [] []) w ->
  account (take (length (w_sent w) - length (w_events w)) (w_sent w)) (c_callbacks (w_driver w)) /\
  (forall e es, w_events w = e :: es -> exists c',
     process_transfer_event mouse_callback keyboard_callback e (w_driver w) = Ret c') /\
  (length (w_events w) < size)%nat /\
  let found := (hw_fetch base (ring_memory (memory (w_driver w)) base size) (w_next w)).1 in
  (found = None <-> refused size w) /\
  (forall t, found = Some t -> exists p cycle,
     transfer_of_raw t = Some (TNormal p (Z.of_nat (report_len kind)) cycle)).
Proof.
  intros Hs Hstart Hcb Hrun.
  destruct (started_run _ _ _ _ _ _ _ _ _ _ _ _ _ _ _ Hs Hstart Hcb Hrun)
    as (bufs & d' & r' & g & -> & Hbufs & Hlay & Hco).
  by eapply (consistent_observed _ _ _ slot dci _ _ base bufs kind valid account rest (rs_dci _ _ _ _ _ _ _ _ _ _ _ _ Hs)).
Qed.

End report_theorem.

(** * A concrete endpoint *)

(** Memory as functions of the address, doorbells as a list, and a keyboard in slot 1 with an
    interrupt endpoint of three blocks. *)
Module Desk.
#[local] Existing Instance bit_field_ref.

Record DeskHw := mkDesk { desk_trbs : Z -> TrbRaw; desk_bytes : Z -> Z; desk_bells : list (Z * Z) }.

Definition write_at {T} (step base : Z) (l : list T) (m : Z -> T) (a : Z) : T :=
  if decide (base <= a /\ (a - base) mod step = 0)
  then default (m a) (l !! Z.to_nat ((a - base) / step)) else m a.

Definition put (p : Z) (l : list Z) (h : DeskHw) : DeskHw :=
  mkDesk (desk_trbs h) (write_at 1 p l (desk_bytes h)) (desk_bells h).

#[global] Instance desk_hw : XhcHw DeskHw := {|
  interrupter _ := mkInterrupter 0 (0 : Erdp) 0;
  set_interrupter _ h := h;
  trb_at := desk_trbs;
  store_trbs base l h := mkDesk (write_at TRB_SIZE base l (desk_trbs h)) (desk_bytes h) (desk_bells h);
  place_buffer l h := (0x9000, put 0x9000 l h);
  bytes_at h p n := (fun i => desk_bytes h (p + Z.of_nat i)) <$> seq 0 n;
  ring_doorbell slot dci h := Ret (mkDesk (desk_trbs h) (desk_bytes h) (desk_bells h ++ [(slot, dci)]));
  output_device_address _ _ := 5;
  let_time_pass h := h;
|}.

Lemma read_written {T} step base (l : list T) m i t :
  0 < step -> l !! i = Some t -> write_at step base l m (base + step * Z.of_nat i) = t.
Proof.
  intros Hs Hi. unfold write_at.
  replace (base + step * Z.of_nat i - base) with (Z.of_nat i * step) by lia.
  rewrite decide_True by (split; [lia|by apply Z.mod_mul; lia]).
  by rewrite Z.div_mul, Nat2Z.id, Hi by lia.
Qed.

Lemma read_outside {T} base (l : list T) m a :
  a < base \/ base + Z.of_nat (length l) <= a -> write_at 1 base l m a = m a.
Proof.
  intros Ha. unfold write_at. case_decide as Hd; [|done]. rewrite Z.div_1_r.
  rewrite lookup_ge_None_2 by lia. done.
Qed.

Lemma normal_decodes t p len : in_usize p -> 0 <= len < 2 ^ 17 ->
  payload t = payload (into_raw (normal p len)) ->
  transfer_of_raw t = Some (TNormal p len (cycle_bit_of t)).
Proof.
  intros Hp Hlen Ht. assert (XhciLayout.trb_type t = 1) as Hty.
  { rewrite <- trb_type_payload, Ht, trb_type_payload. reflexivity. }
  apply payload_eq in Ht as (H0 & H1 & H2 & _). unfold transfer_of_raw. simpl in *. rewrite Hty.
  unfold XhcSim.parameter. simpl. rewrite H0, H1, H2. do 3 f_equal.
  - pose proof (Z.div_mod p (2 ^ 32)). lia.
  - by apply Z.mod_small.
Qed.

#[global] Instance desk_laws : ReportLaws TrbRaw DeskHw put.
Proof.
  split; try done.
  - exact normal_decodes.
  - intros base l hw i t Hi. by apply read_written.
  - intros p l hw. simpl. apply list_eq. intros i. rewrite list_lookup_fmap.
    destruct (decide (i < length l)%nat) as [Hi|Hi].
    + rewrite lookup_seq_lt by done. simpl. destruct (lookup_lt_is_Some_2 l i Hi) as [b Hb].
      rewrite Hb. f_equal. rewrite <- (read_written 1 p l (desk_bytes hw) i b) by done. f_equal. lia.
    + by rewrite lookup_seq_ge, lookup_ge_None_2 by lia.
  - intros p l hw q n Hd. simpl. apply list_fmap_ext. intros j i Hi.
    apply list_elem_of_lookup_2, elem_of_seq in Hi. apply read_outside.
    unfold disjoint_blocks in Hd. simpl in Hd. lia.
  - intros slot dci hw. eexists. split; [reflexivity|]. by split_and!.
Qed.

Definition heap : KernelAlloc.GlobalAllocator := Bump.mkBump 0x1000 0x100000 0x3000 2.
Definition live : list (Z * Z) := [(0x2000, 48); (0x1000, DEVICE_CONTEXT_SIZE)].
Definition empty_ring : TransferRing := mkTransferRing 0x2000 (replicate 3 zero_trb) 0 true 0.
Definition filled : TransferRing :=
  match fill_with_normal normal heap empty_ring 8 with Ret (r, _) => r | _ => empty_ring end.

Definition keyboard_device : InputOnlyDevice :=
  mkDevice 5 (endpoint_new 5 0 0 Control DirIn 8) [] Running ep_for_bootkbd.
Definition device : DeviceContextInfo :=
  mkDeviceContext 1 0 0 None 0 input_32byte 0x1000 [None; None; Some filled].
Definition manager : ClassDriverManager :=
  mkManager (mouse manager_new)
    (mkDriverInfo (Some 1) (mkDriver [Some keyboard_device] ep_for_bootkbd)) (hub manager_new).

Abbreviation desk_controller := (XhciController (HW := DeskHw) (C := list (list Z))) (only parsing).

Definition at_work {C} (callbacks : C) : XhciController (HW := DeskHw) (C := C) :=
  mkController
    (mkXhc (mkDesk (write_at TRB_SIZE 0x2000 (tr_buffer filled) (fun _ => zero_trb)) (fun _ => 0) [])
      (mkEventRing (0, 0) [] (Erst.mkErst 0 0 0 0) true 0) (mkCommandRing 0 [] 0 true)
      UserEvents.new heap)
    (mkDeviceManager 0 [] [None; Some device]) manager callbacks 4 port_state_new ∅.

(** The event of the block at an address; two keys. *)
Definition report_event (ptr : Z) : TransferEvent :=
  mkTrb ptr 0 (Success * 2 ^ 24) (1 * 2 ^ 24 + 3 * 2 ^ 16 + 32 * 2 ^ 10).
Definition key_a : list Z := [0; 0; 4; 0; 0; 0; 0; 0].
Definition key_b : list Z := [0; 0; 5; 0; 0; 0; 0; 0].

Definition after_report {C} (p : Z) (l : list Z) (c : XhciController (HW := DeskHw) (C := C)) :
    XhciController (HW := DeskHw) (C := C) :=
  set_x c (set_hw (c_x c) (put p l (x_hw (c_x c)))).

Abbreviation on_report := (process_transfer_event XhcSim.record_report XhcSim.record_report) (only parsing).

(** Two keys, and the first is handled. *)
Definition two_keys : desk_controller := after_report 0x4000 key_b (after_report 0x3000 key_a (at_work [])).
Definition handled_one : desk_controller :=
  match on_report (report_event 0x2000) two_keys with Ret c => c | _ => at_work [] end.

Lemma first_handled : on_report (report_event 0x2000) two_keys = Ret handled_one.
Proof.
  assert (match on_report (report_event 0x2000) two_keys with Ret _ => true | _ => false end = true)
    as Hret by (vm_compute; reflexivity).
  unfold handled_one. by destruct (on_report _ two_keys).
Qed.

Definition heap_after : KernelAlloc.GlobalAllocator := Bump.mkBump 0x1000 0x100000 0x4008 4.

Lemma at_work_started {C} (callbacks : C) :
  reports_started Keyboard 1 3 heap heap_after live [] 0x2000 3 device filled (at_work callbacks).
Proof.
  split; [lia|lia| | |vm_compute; by split_and!|vm_compute; reflexivity|reflexivity|
    vm_compute; reflexivity| |by split| ].
  - split; [by vm_compute|by exists 512].
  - unfold Bump.inv, heap, live, DEVICE_CONTEXT_SIZE. simpl. unfold disjoint_blocks. simpl.
    split_and!; try lia; try done; repeat constructor; simpl; lia.
  - intros i t Hi. by apply read_written.
  - split; [reflexivity|]. split; [done|]. exists keyboard_device. by split.
Qed.
End Desk.

Lemma reports_in_order_witness :
  c_callbacks Desk.handled_one = [Desk.key_a] /\
  (exists c, process_transfer_event (BF := bit_field_ref) XhcSim.record_report XhcSim.record_report
    (Desk.report_event 0x2010) Desk.handled_one = Ret c) /\
  (hw_fetch 0x2000 (ring_memory (x_hw (c_x Desk.handled_one)) 0x2000 3) (0%nat, false)).1 <> None.
Proof.
  destruct (reports_in_order (H := bit_field_ref) Desk.put XhcSim.record_report XhcSim.record_report
    Keyboard 1 3 Desk.heap Desk.heap_after Desk.live [] 0x2000 3
    Desk.device Desk.filled (Desk.at_work []) (fun _ _ => True) (fun ls st => st = ls)
    (mkWorld Desk.handled_one (0%nat, false) [Desk.report_event 0x2010] [Desk.key_a; Desk.key_b]))
    as (Hlog & Hhandle & _ & Hfound & _).
  - apply Desk.at_work_started.
  - reflexivity.
  - intros st ls l -> _ _. exists (ls ++ [l]). by split.
  - eapply rtc_l; [eapply (report_arrives _ _ _ _ _ _ _ _ _ _ _ _ _ _ _ _ _ _ (1%nat, true) 0x3000 8 true
      Desk.key_a (Desk.report_event 0x2000)); [vm_compute; reflexivity..|done|]|].
    { split_and!; [reflexivity..|by left]. }
    eapply rtc_l; [eapply (report_arrives _ _ _ _ _ _ _ _ _ _ _ _ _ _ _ _ _ _ (2%nat, true) 0x4000 8 true
      Desk.key_b (Desk.report_event 0x2010)); [vm_compute; reflexivity..|done|]|].
    { split_and!; [reflexivity..|by left]. }
    eapply rtc_l; [apply link_followed|].
    match goal with |- context [hw_follow ?b ?m ?h] =>
      replace (hw_follow b m h) with (0%nat, false) by (vm_compute; reflexivity) end.
    eapply rtc_l; [apply report_handled; exact Desk.first_handled|]. apply rtc_refl.
  - split; [exact Hlog|]. split; [exact (Hhandle _ _ eq_refl)|].
    intros [Hfull|[Hlink _]]%Hfound; [simpl in Hfull; lia|discriminate Hlink].
Defined.
