(* ===== verification/ControllerInv.v ===== *)
(** ControllerInv: what each handler of [Controller] changes, and the invariant of its tables: the
    slots recorded for the ports are the slots with a device. *)
From S2P Require Import Prelude Allocator BitField Trb CycleRing.
From S2P Require Import Rings.
From S2P Require Import EventRing.
From S2P Require Import Descriptor UsbHost InputDriver Hub ClassDrivers.
From S2P Require Import Port.
From S2P Require Import EndpointId.
From S2P Require Import Xhc.
From S2P Require Import Device.
From S2P Require Import DeviceInit.
From S2P Require Import DeviceManager.
From S2P Require Import Controller.
From S2P Require Import XhcSim.

(** * The phases *)

(** The port has a command out: it waits for its slot or its address. *)
Definition busy (phase : PortConfigPhase) : Prop :=
  phase = EnablingSlot \/ phase = AddressingDevice.

(** A busy port is the one whose turn it is. *)
Definition single (s : PortConfigureState) : Prop :=
  forall p phase, port_config_phase s !! Z.to_nat p = Some phase -> 0 <= p -> busy phase ->
    addressing_port_index s = Some p.

(** ** The effects of the operations on the phases *)

(** A reset of [p] only takes the free turn, or lets the port wait. *)
Definition reset_effect (p : Z) (s s' : PortConfigureState) : Prop :=
  s' = s \/
  (addressing_port_index s = None \/ addressing_port_index s = Some p) /\
    s' = set_addressing s (Some p) \/
  (exists q, addressing_port_index s = Some q /\ q <> p) /\
    set_port_phase_at s p WaitingAddressed = Ret s'.

(** The port [p] has the phase, and the turn is where it was, or was taken by [p]. *)
Definition phase_effect (p : Z) (phase : PortConfigPhase) (s s' : PortConfigureState) : Prop :=
  port_config_phase s' = <[Z.to_nat p := phase]> (port_config_phase s) /\
  (addressing_port_index s' = addressing_port_index s \/
   addressing_port_index s = None /\ addressing_port_index s' = Some p).

Lemma set_phase_effect s p phase s' :
  set_port_phase_at s p phase = Ret s' -> phase_effect p phase s s'.
Proof. intros (-> & _)%set_port_phase_at_Ret. split; [done|by left]. Qed.

Lemma reset_effect_phase p s s' phase s'' :
  reset_effect p s s' -> phase_effect p phase s' s'' -> phase_effect p phase s s''.
Proof.
  intros [->|[[Ha ->]|[(q & Hq & Hne) (-> & _)%set_port_phase_at_Ret]]] [Hp Ha']; [done| |].
  - simpl in *. split; [done|]. destruct Ha' as [->|[? _]]; [|done].
    destruct Ha as [->| ->]; [by right|by left].
  - simpl in *. split; [by rewrite Hp, list_insert_insert_eq|]. by destruct Ha' as [->|[? _]]; [left|congruence].
Qed.

Lemma phase_effect_trans p phase s s' phase' s'' :
  phase_effect p phase s s' -> phase_effect p phase' s' s'' -> phase_effect p phase' s s''.
Proof.
  intros [Hp Ha] [Hp' Ha']. split; [by rewrite Hp', Hp, list_insert_insert_eq|].
  destruct Ha as [Ha|[Ha Ha1]], Ha' as [Ha'|[Ha' Ha2]]; rewrite ?Ha', ?Ha1 in *; try congruence; eauto.
Qed.

(** The phase of another port does not change. *)
Lemma phase_effect_other p phase s s' q ph :
  phase_effect p phase s s' -> Z.to_nat q <> Z.to_nat p ->
  port_config_phase s' !! Z.to_nat q = Some ph -> port_config_phase s !! Z.to_nat q = Some ph.
Proof. intros [-> _] Hne. by rewrite list_lookup_insert_ne. Qed.

(** [single] after a phase of the port whose turn it is, or of a free one. *)
Lemma single_own p phase s s' : 0 <= p ->
  single s -> phase_effect p phase s s' -> addressing_port_index s' = Some p -> single s'.
Proof.
  intros Hp0 Hs He Ha q ph Hq Hq0 Hb.
  destruct (decide (q = p)) as [->|Hne]; [done|]. rewrite Ha.
  eapply phase_effect_other in Hq; [|done|lia]. specialize (Hs q ph Hq Hq0 Hb).
  destruct He as [_ [He|[He _]]]; congruence.
Qed.

Lemma single_free p phase s s' : 0 <= p ->
  single s -> phase_effect p phase s s' -> ~ busy phase ->
  addressing_port_index s' = addressing_port_index s \/ 
    addressing_port_index s = None \/ addressing_port_index s = Some p -> single s'.
Proof.
  intros Hp0 Hs He Hnb Ha q ph Hq Hq0 Hb. destruct (decide (q = p)) as [->|Hne].
  - destruct He as [He _]. rewrite He in Hq. apply list_lookup_insert_Some in Hq as [(_ & <- & _)|[? _]]; done.
  - eapply phase_effect_other in Hq; [|done|lia]. specialize (Hs q ph Hq Hq0 Hb).
    destruct Ha as [->|[Ha|Ha]]; congruence.
Qed.

Lemma single_reset p s s' : 0 <= p -> single s -> reset_effect p s s' -> single s'.
Proof.
  intros Hp0 Hs [->|[[Ha ->]|[(q & Hq & Hne) Hset]]]; [done| |].
  - intros q ph Hq Hq0 Hb. specialize (Hs q ph Hq Hq0 Hb). simpl. destruct Ha; congruence.
  - eapply single_free; [exact Hp0|exact Hs|by apply set_phase_effect|intros [|]; done|].
    left. apply set_port_phase_at_Ret in Hset as (-> & _). done.
Qed.

(** * The effects of the handlers *)

Section effects.
Context `{TL : TrbLib Cmd} `{BF : BitFieldLib} `{ET : EventTypes} `{EL : @EventLib ET}
  `{XT : XhciTrbs Cmd} `{PL : PortscLib} {HW : Type} `{XH : @XhcHw HW ET EL} `{HWP : !PortRegisters HW}
  `{CX : ContextLib} `{UB : UsbBits} `{UH : UsbHostLib}.
Context (fuel : nat) {C : Type}.

Abbreviation controller := (XhciController (HW := HW) (C := C)).
Implicit Types (c : controller).

(** The table of slots and the devices as sets: nothing of them changes. *)
Definition same_tables c c' : Prop :=
  port_slot_id_map c' = port_slot_id_map c /\ c_devices c' = c_devices c.

#[local] Instance same_tables_preorder : PreOrder same_tables.
Proof. split; [done|]. intros c1 c2 c3 [] []. split; congruence. Qed.

(** Only the registers, the rings and the memory. *)
Definition frame c c' : Prop := exists x, c' = set_x c x.

Lemma frame_trans c1 c2 c3 : frame c1 c2 -> frame c2 c3 -> frame c1 c3.
Proof. intros [x ->] [y ->]. by exists y. Qed.

Lemma frame_ports c c' : frame c c' -> port_configure_state c' = port_configure_state c.
Proof. by intros [x ->]. Qed.

Lemma frame_tables c c' : frame c c' -> same_tables c c'.
Proof. by intros [x ->]. Qed.

Lemma read_portsc_frame p c v c' : read_portsc p c = Ret (v, c') -> frame c c'.
Proof. intros H. unfold read_portsc in H. apply bind_Ret_inv in H as ([? hw] & _ & H). eexists. by injection H as _ <-. Qed.

Lemma update_portsc_frame p f c c' : update_portsc p f c = Ret c' -> frame c c'.
Proof. intros H. apply bind_Ret_inv in H as (hw & _ & H). eexists. by injection H as <-. Qed.

Lemma command_frame cmd c ptr c' : command cmd c = Ret (ptr, c') -> frame c c'.
Proof. intros H. apply bind_Ret_inv in H as ([? x] & _ & H). eexists. by injection H as _ <-. Qed.

Lemma set_phase_inv p phase c c' : set_phase p phase c = Ret c' ->
  exists s, set_port_phase_at (port_configure_state c) p phase = Ret s /\ c' = set_ports c s.
Proof. intros H. apply bind_Ret_inv in H as (s & Hs & H). exists s. by injection H as <-. Qed.

(** What a reset does to the phases, whatever the hardware does. *)
Lemma reset_port_at_effect p s hw s' hw' :
  reset_port_at fuel p s hw = Ret (s', hw') -> reset_effect p s s'.
Proof.
  unfold reset_port_at, is_port_connected_at. intros H.
  apply bind_Ret_inv in H as ([connected hw1] & _ & H). apply bind_Ret_inv in H as ([v hw2] & _ & H).
  destruct connected; [|injection H as <- _; by left].
  destruct (connect_status_change v); [|injection H as <- _; by left]. cbn [negb] in H.
  apply bind_Ret_inv in H as ([v' hw3] & _ & H). apply bind_Ret_inv in H as ([can s1] & Hc & H).
  unfold claim_addressing in Hc. destruct (addressing_port_index s) as [q|] eqn:Ha.
  - destruct (Z.eqb_spec q p) as [->|Hne].
    + injection Hc as <- <-. cbn [negb] in H. right. left. split; [by right|].
      assert (s' = s) as ->; [|by destruct s; simpl in *; subst].
      apply bind_Ret_inv in H as (phase & _ & H).
      destruct phase; try discriminate H; apply bind_Ret_inv in H as (hw4 & _ & H); by injection H as <- _.
    + apply bind_Ret_inv in Hc as (s2 & Hs2 & Hc). injection Hc as <- <-. cbn [negb] in H.
      injection H as <- _. right. right. eauto.
  - injection Hc as <- <-. cbn [negb] in H. right. left. split; [by left|].
    apply bind_Ret_inv in H as (phase & _ & H).
    destruct phase; try discriminate H; apply bind_Ret_inv in H as (hw4 & _ & H); by injection H as <- _.
Qed.

Lemma reset_port_effect p c c' : reset_port fuel p c = Ret c' ->
  reset_effect p (port_configure_state c) (port_configure_state c') /\ same_tables c c'.
Proof.
  intros H. apply bind_Ret_inv in H as ([s hw] & Hr & H). injection H as <-.
  split; [by eapply reset_port_at_effect|done].
Qed.

Lemma enable_slot_at_effect p c ptr c' : enable_slot_at p c = Ret (ptr, c') ->
  phase_effect p EnablingSlot (port_configure_state c) (port_configure_state c') /\ same_tables c c'.
Proof.
  intros H. unfold enable_slot_at in H.
  apply bind_Ret_inv in H as ([v c1] & Hr & H). apply read_portsc_frame in Hr.
  destruct (port_enabled_disabled v && negb (connect_status_change v)).
  - apply bind_Ret_inv in H as (c2 & Hu & H). apply update_portsc_frame in Hu.
    pose proof (frame_trans _ _ _ Hr Hu) as Hf.
    apply bind_Ret_inv in H as (c3 & Hp & H). apply set_phase_inv in Hp as (s & Hs & ->).
    apply command_frame in H. rewrite (frame_ports _ _ H). rewrite (frame_ports _ _ Hf) in Hs. split.
    + by apply set_phase_effect.
    + etransitivity; [by apply frame_tables|]. etransitivity; [|by apply frame_tables]. done.
  - apply bind_Ret_inv in H as (c2 & _ & H). done.
Qed.

(** The slots of a table, over all ports. *)
Definition slots_in (m : gmap Z (list Z)) : list nat :=
  concat ((fun kv : Z * list Z => Z.to_nat <$> kv.2) <$> map_to_list m).

(** The slots recorded are those with a device, each once. *)
Record tables_ok c : Prop := {
  tables_nodup : NoDup (slots_in (port_slot_id_map c));
  tables_allocated n : n ∈ slots_in (port_slot_id_map c) <-> allocated (c_devices c) n;
}.

(** The devices are the same, but for their contents. *)
Definition same_slots c c' : Prop :=
  port_slot_id_map c' = port_slot_id_map c /\
  forall n, allocated (c_devices c') n <-> allocated (c_devices c) n.

#[local] Instance same_slots_preorder : PreOrder same_slots.
Proof.
  split; [done|]. intros c1 c2 c3 [H1 H2] [H3 H4]. split; [congruence|]. intros n. by rewrite H4, H2.
Qed.

Lemma same_tables_slots c c' : same_tables c c' -> same_slots c c'.
Proof. intros [H1 H2]. split; [done|]. by rewrite H2. Qed.

Lemma tables_ok_same c c' : tables_ok c -> same_slots c c' -> tables_ok c'.
Proof.
  intros [Hn Ha] [H1 H2]. split; rewrite H1; [done|]. intros n. by rewrite H2.
Qed.

Lemma slots_in_delete m p :
  slots_in m ≡ₚ (Z.to_nat <$> default [] (m !! p)) ++ slots_in (delete p m).
Proof.
  unfold slots_in. destruct (m !! p) as [l|] eqn:Hm; simpl.
  - rewrite <- (map_to_list_delete m p l Hm). simpl. done.
  - by rewrite delete_id.
Qed.

Lemma slots_in_record p s m : slots_in (record_slot p s m) ≡ₚ Z.to_nat s :: slots_in m.
Proof.
  unfold record_slot. rewrite (slots_in_delete _ p), lookup_insert_eq, delete_insert_eq. simpl.
  rewrite fmap_app. simpl. rewrite <- app_assoc. simpl. rewrite <- Permutation_middle.
  by rewrite <- slots_in_delete.
Qed.

(** [address_device_at] records a new slot and its device. *)
Lemma address_device_at_effect p slot r sp php ppi c ptr c' :
  address_device_at p slot r sp php ppi c = Ret (ptr, c') ->
  phase_effect p AddressingDevice (port_configure_state c) (port_configure_state c') /\
  addressing_port_index (port_configure_state c') = addressing_port_index (port_configure_state c) /\
  port_slot_id_map c' = record_slot p slot (port_slot_id_map c) /\
  ~ allocated (c_devices c) (Z.to_nat slot) /\
  (forall n, allocated (c_devices c') n <-> n = Z.to_nat slot \/ allocated (c_devices c) n).
Proof.
  unfold address_device_at. intros H.
  apply bind_Ret_inv in H as ([dm x] & Halloc & H). apply allocate_device_inv in Halloc as [Hnot Halloc].
  apply bind_Ret_inv in H as (info & Hi & H). apply device_by_slot_id_Ret in Hi. simpl in Hi.
  apply bind_Ret_inv in H as (d & Hd & H). apply unwrap_Ret_inv in Hd as ->.
  apply bind_Ret_inv in H as (d1 & _ & H). apply bind_Ret_inv in H as (d2 & _ & H).
  apply bind_Ret_inv in H as ([v c1] & [x1 ->]%read_portsc_frame & H).
  apply bind_Ret_inv in H as (d3 & _ & H). apply bind_Ret_inv in H as (dm' & Hl & H).
  apply load_device_context_inv in Hl. simpl in Hl.
  apply bind_Ret_inv in H as (c2 & (s & Hs & ->)%set_phase_inv & H).
  apply command_frame in H as [x2 ->]. simpl in *. split_and!; try done.
  - by apply set_phase_effect.
  - by apply set_port_phase_at_Ret in Hs as (-> & _).
  - intros n. rewrite <- Halloc, <- (allocated_put_back dm slot d d3 n Hi).
    unfold allocated. rewrite Hl. done.
Qed.

Lemma disable_loop_frame retries slot : forall c c', disable_loop fuel retries slot c = Ret c' -> frame c c'.
Proof.
  induction retries as [|retries IH]; intros c c' H; cbn [disable_loop] in H;
    apply bind_Ret_inv in H as ([ptr c1] & Hc & H); apply command_frame in Hc;
    apply bind_Ret_inv in H as ([trb x] & _ & H);
    (destruct (completion_code_ok _); [injection H as <-; destruct Hc as [x1 ->]; by exists x|]); [done|].
  apply IH in H. eapply frame_trans; [exact Hc|]. eapply frame_trans; [by exists x|exact H].
Qed.

Lemma disable_slots_effect l : forall c c', disable_slots fuel l c = Ret c' ->
  port_configure_state c' = port_configure_state c /\ port_slot_id_map c' = port_slot_id_map c /\
  (forall n, allocated (c_devices c') n <-> (n ∉ (Z.to_nat <$> l)) /\ allocated (c_devices c) n).
Proof.
  induction l as [|slot l IH]; intros c c' H; cbn [disable_slots] in H.
  - injection H as <-. split_and!; [done..|]. intros n. set_solver.
  - apply bind_Ret_inv in H as (c1 & [x ->]%disable_loop_frame & H).
    apply bind_Ret_inv in H as (dm & [Ha Hd]%deallocate_device_inv & H).
    apply IH in H as (Hp & Hm & Hall). simpl in *. split_and!; [done..|].
    intros n. rewrite Hall, Hd. set_solver.
Qed.

(** [reset_connection_at] gives the slots of the port back, and no other one. *)
Lemma reset_connection_at_effect p c c' : reset_connection_at fuel p c = Ret c' ->
  phase_effect p NotConnected
    (if decide (addressing_port_index (port_configure_state c) = Some p)
     then set_addressing (port_configure_state c) None else port_configure_state c)
    (port_configure_state c') /\
  addressing_port_index (port_configure_state c') =
    (if decide (addressing_port_index (port_configure_state c) = Some p) then None
     else addressing_port_index (port_configure_state c)) /\
  port_slot_id_map c' = delete p (port_slot_id_map c) /\
  (forall n, allocated (c_devices c') n <->
     (n ∉ (Z.to_nat <$> default [] (port_slot_id_map c !! p))) /\ allocated (c_devices c) n).
Proof.
  unfold reset_connection_at. intros H.
  apply bind_Ret_inv in H as (s & Hs & H). apply bind_Ret_inv in H as (c1 & [x ->]%update_portsc_frame & H).
  apply bind_Ret_inv in H as (hw & _ & H). apply bind_Ret_inv in H as (c2 & Hc2 & H). injection H as <-.
  assert (Hc2' : port_configure_state c2 = s /\ port_slot_id_map c2 = port_slot_id_map c /\
    forall n, allocated (c_devices c2) n <->
      (n ∉ (Z.to_nat <$> default [] (port_slot_id_map c !! p))) /\ allocated (c_devices c) n).
  { change (port_slot_id_map (set_ports c s)) with (port_slot_id_map c) in Hc2.
    destruct (port_slot_id_map c !! p) as [l|].
    - by apply disable_slots_effect in Hc2.
    - injection Hc2 as <-. simpl. split_and!; [done..|]. set_solver. }
  destruct Hc2' as (Hp & Hm & Ha). simpl. rewrite Hp, Hm. split_and!; [|..|done|done].
  - by apply set_phase_effect.
  - apply set_port_phase_at_Ret in Hs as (-> & _). by case_decide.
Qed.

(** Freeing the slots of a port keeps the table consistent. *)
Lemma tables_ok_disconnect p c c' : tables_ok c ->
  port_slot_id_map c' = delete p (port_slot_id_map c) ->
  (forall n, allocated (c_devices c') n <->
     (n ∉ (Z.to_nat <$> default [] (port_slot_id_map c !! p))) /\ allocated (c_devices c) n) ->
  tables_ok c'.
Proof.
  intros [Hn Ha] Hm Hd. pose proof (slots_in_delete (port_slot_id_map c) p) as Hperm.
  rewrite Hperm in Hn. apply NoDup_app in Hn as (_ & Hdisj & Hn).
  split; rewrite Hm; [done|]. intros n. rewrite Hd, <- Ha, Hperm, elem_of_app. split.
  - intros Hi. split; [|by right]. intros Hl. by apply (Hdisj n).
  - by intros [Hl [?|?]].
Qed.

(** A new slot for a port keeps it consistent, too. *)
Lemma tables_ok_record p slot c c' : tables_ok c ->
  port_slot_id_map c' = record_slot p slot (port_slot_id_map c) ->
  ~ allocated (c_devices c) (Z.to_nat slot) ->
  (forall n, allocated (c_devices c') n <-> n = Z.to_nat slot \/ allocated (c_devices c) n) ->
  tables_ok c'.
Proof.
  intros [Hn Ha] Hm Hnot Hall. split; rewrite Hm.
  - rewrite slots_in_record. constructor; [|done]. by rewrite Ha.
  - intros n. rewrite slots_in_record, elem_of_cons, Ha, Hall. done.
Qed.

(** ** Each handler keeps the table *)

Lemma address_device_at_tables p slot r sp php ppi c ptr c' : tables_ok c ->
  address_device_at p slot r sp php ppi c = Ret (ptr, c') -> tables_ok c'.
Proof.
  intros Hc H. apply address_device_at_effect in H as (_ & _ & Hm & Hnot & Ha).
  by eapply tables_ok_record.
Qed.

Lemma may_process_frame claim p c can c' : may_process claim p c = Ret (can, c') -> same_tables c c'.
Proof.
  unfold may_process. intros H. destruct (addressing_port_index _) as [q|].
  - destruct (q =? p); [by injection H as _ <-|].
    apply bind_Ret_inv in H as (c1 & (s & _ & ->)%set_phase_inv & H). by injection H as _ <-.
  - injection H as _ <-. by destruct claim.
Qed.

Lemma port_event_tables e c c' : tables_ok c ->
  process_port_status_change_event fuel e c = Ret c' -> tables_ok c'.
Proof.
  unfold process_port_status_change_event. intros Hc H.
  apply bind_Ret_inv in H as (p & _ & H). apply bind_Ret_inv in H as ([v c1] & Hr & H).
  apply read_portsc_frame, frame_tables, same_tables_slots in Hr.
  pose proof (tables_ok_same _ _ Hc Hr) as Hc1. clear Hc Hr.
  apply bind_Ret_inv in H as (phase & _ & H).
  assert (Hrest : forall ca cb, same_tables c1 ca ->
    ('(_, c) ← enable_slot_at p ca; Ret c) = Ret cb -> tables_ok cb).
  { intros ca cb Hca Hcb. apply bind_Ret_inv in Hcb as ([ptr c2] & [_ He]%enable_slot_at_effect & Hcb).
    injection Hcb as <-. eapply tables_ok_same; [exact Hc1|]. apply same_tables_slots. by etransitivity. }
  assert (Hdis : forall cb, (if negb (current_connect_status v) then reset_connection_at fuel p c1
    else Ret c1) = Ret cb -> tables_ok cb).
  { intros cb Hcb. destruct (negb _); [|by injection Hcb as <-].
    apply reset_connection_at_effect in Hcb as (_ & _ & Hm & Ha). by eapply tables_ok_disconnect. }
  destruct phase; try by apply Hdis.
  - apply bind_Ret_inv in H as ([can c2] & Hm%may_process_frame & H).
    destruct can; [|injection H as <-; eapply tables_ok_same; [exact Hc1|by apply same_tables_slots]].
    apply bind_Ret_inv in H as (c3 & [_ Hres]%reset_port_effect & H).
    eapply Hrest; [|exact H]. by etransitivity.
  - destruct (addressing_port_index _); [injection H as <-; eapply tables_ok_same; [exact Hc1|done]|].
    apply bind_Ret_inv in H as (c2 & (s & _ & ->)%set_phase_inv & H).
    apply bind_Ret_inv in H as (c3 & [_ Hres]%reset_port_effect & H).
    eapply Hrest; [|exact H]. etransitivity; [|exact Hres]. done.
  - apply bind_Ret_inv in H as ([can c2] & Hm%may_process_frame & H).
    destruct can; [by eapply Hrest|].
    injection H as <-; eapply tables_ok_same; [exact Hc1|by apply same_tables_slots].
Qed.

(** ** The other handlers *)

Context (uninit : nat -> list Z) (normal_trb : Z -> Z -> Cmd)
  (b_max_packet_size : list Z -> Z)
  (mouse_callback keyboard_callback : C -> Z -> list Z -> outcome C).

Abbreviation initialize_device := (initialize_device_at fuel uninit normal_trb b_max_packet_size
  mouse_callback keyboard_callback).
Abbreviation handle_event := (process_event_ring_event fuel uninit normal_trb b_max_packet_size
  mouse_callback keyboard_callback).
Abbreviation handle_user_event := (process_user_event fuel uninit normal_trb b_max_packet_size
  mouse_callback keyboard_callback).

Lemma initialize_device_at_effect p slot c c' :
  initialize_device_at fuel uninit normal_trb b_max_packet_size mouse_callback keyboard_callback p slot c
    = Ret c' ->
  port_configure_state c' =
    mkPortState (<[Z.to_nat p := Configured]> (port_config_phase (port_configure_state c))) None /\
  same_slots c c'.
Proof.
  unfold initialize_device_at. intros H.
  apply bind_Ret_inv in H as (info & Hi & H). apply device_by_slot_id_Ret in Hi.
  apply bind_Ret_inv in H as (d & Hd & H). apply unwrap_Ret_inv in Hd as ->.
  apply bind_Ret_inv in H as (c1 & (s & Hs & ->)%set_phase_inv & H).
  apply bind_Ret_inv in H as ([[[cd cb] d'] x] & _ & H). simpl in H.
  apply bind_Ret_inv in H as (c2 & (s' & Hs' & ->)%set_phase_inv & H). injection H as <-. simpl in *.
  apply set_port_phase_at_Ret in Hs as (-> & _). apply set_port_phase_at_Ret in Hs' as (-> & _). simpl.
  unfold set_addressing. simpl. rewrite list_insert_insert_eq. split; [done|]. split; [done|].
  intros n. simpl. by eapply allocated_put_back.
Qed.

Lemma initialize_device_tables p slot c c' : tables_ok c -> initialize_device p slot c = Ret c' -> tables_ok c'.
Proof. intros Hc [_ He]%initialize_device_at_effect. by eapply tables_ok_same. Qed.

Lemma init_port_event_tables e c c' : tables_ok c ->
  process_init_port_device_event fuel uninit normal_trb b_max_packet_size mouse_callback keyboard_callback e c
    = Ret c' -> tables_ok c'.
Proof.
  intros Hc Hrun. unfold process_init_port_device_event in Hrun.
  apply bind_Ret_inv in Hrun as ([ptr c1] & [_ H1]%enable_slot_at_effect & Hrun).
  pose proof (tables_ok_same _ _ Hc (same_tables_slots _ _ H1)) as Hc1.
  apply bind_Ret_inv in Hrun as ([completion x] & _ & Hrun). apply bind_Ret_inv in Hrun as (? & _ & Hrun).
  apply bind_Ret_inv in Hrun as ([ptr2 c2] & H2 & Hrun). apply address_device_at_tables in H2; [|by destruct Hc1].
  apply bind_Ret_inv in Hrun as ([completion2 x2] & _ & Hrun). apply bind_Ret_inv in Hrun as (? & _ & Hrun).
  assert (tables_ok (set_x c2 x2)) as Hc2 by by destruct H2.
  destruct (command_of_raw _) as [[]|]; try by injection Hrun as <-.
  by eapply initialize_device_tables.
Qed.

Lemma user_event_tables c c' : tables_ok c -> handle_user_event c = Ret c' -> tables_ok c'.
Proof.
  intros Hc. unfold process_user_event. destruct (UserEvents.pop _) as [[[e]|] u]; intros Hrun.
  - eapply init_port_event_tables; [|exact Hrun]. by destruct Hc.
  - injection Hrun as <-. by destruct Hc.
Qed.

Lemma command_event_tables e c c' : tables_ok c ->
  process_command_completion_event fuel uninit normal_trb b_max_packet_size mouse_callback keyboard_callback e c
    = Ret c' -> tables_ok c'.
Proof.
  intros Hc. unfold process_command_completion_event.
  destruct (negb (completion_code_ok _)); [by intros [= <-]|]. destruct (negb (_ =? _)); [by intros [= <-]|].
  destruct (command_of_raw _) as [[]|]; try by intros [= <-]; destruct Hc.
  - unfold enable_slot_completed. intros Hrun. apply bind_Ret_inv in Hrun as (phase & _ & Hrun).
    destruct phase as [phase|]; [|done]. destruct (decide _); [|done].
    apply bind_Ret_inv in Hrun as (p & _ & Hrun). apply bind_Ret_inv in Hrun as ([ptr c1] & H1 & Hrun).
    injection Hrun as <-. by eapply address_device_at_tables.
  - unfold address_device_completed. intros Hrun. apply bind_Ret_inv in Hrun as (info & _ & Hrun).
    apply bind_Ret_inv in Hrun as (d & _ & Hrun). apply bind_Ret_inv in Hrun as (p & _ & Hrun).
    destruct (decide _); [|done]. apply bind_Ret_inv in Hrun as (phase & _ & Hrun).
    destruct (decide _); [|done]. apply bind_Ret_inv in Hrun as (c1 & H1 & Hrun).
    eapply initialize_device_tables; [|exact Hrun]. eapply tables_ok_same; [exact Hc|]. apply same_tables_slots.
    destruct (first_waiting _ _); [apply reset_port_effect in H1 as [_ H1]|injection H1 as <-; done].
    etransitivity; [|exact H1]. done.
Qed.

Lemma deliver_report_tables slot ptr len d c b c' :
  deliver_report mouse_callback keyboard_callback slot ptr len d c = Ret (b, c') -> same_tables c c'.
Proof.
  unfold deliver_report. intros Hrun. destruct (driver_kind _ _) as [[]|]; [..|done].
  - apply bind_Ret_inv in Hrun as (? & _ & Hrun). apply bind_Ret_inv in Hrun as (cb & _ & Hrun).
    by injection Hrun as _ <-.
  - apply bind_Ret_inv in Hrun as (cb & _ & Hrun). by injection Hrun as _ <-.
  - by injection Hrun as _ <-.
Qed.

Lemma transfer_event_tables e c c' : tables_ok c ->
  process_transfer_event mouse_callback keyboard_callback e c = Ret c' -> tables_ok c'.
Proof.
  intros Hc. unfold process_transfer_event. destruct (negb _); [done|]. destruct (negb _); [by intros [= <-]|].
  intros Hrun. apply bind_Ret_inv in Hrun as (dci & _ & Hrun).
  apply bind_Ret_inv in Hrun as (info & Hi & Hrun). apply device_by_slot_id_Ret in Hi.
  apply bind_Ret_inv in Hrun as (d & Hd & Hrun). apply unwrap_Ret_inv in Hd as ->.
  do 3 apply bind_Ret_inv in Hrun as (? & _ & Hrun).
  case_match; [|by injection Hrun as <-].
  do 2 apply bind_Ret_inv in Hrun as (? & _ & Hrun).
  apply bind_Ret_inv in Hrun as ([again c1] & H1%deliver_report_tables & Hrun).
  assert (tables_ok c1) as Hc1.
  { eapply tables_ok_same; [exact Hc|]. etransitivity; [|by apply same_tables_slots]. split; [done|].
    intros n. simpl. by eapply allocated_put_back. }
  destruct again; [|by injection Hrun as <-].
  apply bind_Ret_inv in Hrun as (x' & _ & Hrun). injection Hrun as <-. by destruct Hc1.
Qed.

Lemma handle_event_tables e c c' : tables_ok c -> handle_event e c = Ret c' -> tables_ok c'.
Proof.
  intros Hc. destruct e; simpl; try done.
  all: first [by apply transfer_event_tables|by apply command_event_tables|by apply port_event_tables
             |by intros [= <-]|idtac].
Qed.

(** ** The runs of the driver *)

Abbreviation take_turn := (poll_turn fuel uninit normal_trb b_max_packet_size mouse_callback keyboard_callback).

(** The steps: the ports are configured, an event is handled, the polling task or a task that ticks
    a driver takes a turn, and in between the registers, the rings, the user events and the memory
    change. *)
Inductive driver_step c : controller -> Prop :=
  | driver_configure p c' : configure_port fuel p c = Ret c' -> driver_step c c'
  | driver_event event c' : handle_event event c = Ret c' -> driver_step c c'
  | driver_turn c' : take_turn c = Ret c' -> driver_step c c'
  | driver_tick_keyboard count r c' : tick_keyboard fuel uninit keyboard_callback count c = Ret (r, c') ->
      driver_step c c'
  | driver_tick_mouse count r c' : tick_mouse fuel uninit mouse_callback count c = Ret (r, c') ->
      driver_step c c'
  | driver_keyboard_turn count count' c' :
      tick_keyboard_turn fuel uninit keyboard_callback count c = Ret (count', c') -> driver_step c c'
  | driver_mouse_turn count count' c' :
      tick_mouse_turn fuel uninit mouse_callback count c = Ret (count', c') -> driver_step c c'
  | driver_outside x : driver_step c (set_x c x).

Lemma tables_ok_set_x c x : tables_ok c -> tables_ok (set_x c x).
Proof. by intros []. Qed.

Lemma configure_port_tables p c c' : tables_ok c -> configure_port fuel p c = Ret c' -> tables_ok c'.
Proof. intros [] Hrun. apply bind_Ret_inv in Hrun as ([s hw] & _ & Hrun). by injection Hrun as <-. Qed.

Lemma process_once_received_tables c c' : tables_ok c ->
  process_once_received fuel uninit normal_trb b_max_packet_size mouse_callback keyboard_callback c = Ret c' ->
  tables_ok c'.
Proof.
  intros Hc. unfold process_once_received. destruct (pop_already_popped _) as [[e|] ring]; intros Hrun.
  - eapply handle_event_tables; [|exact Hrun]. by apply tables_ok_set_x.
  - injection Hrun as <-. by apply tables_ok_set_x.
Qed.

Lemma process_event_tables c c' : tables_ok c ->
  process_event fuel uninit normal_trb b_max_packet_size mouse_callback keyboard_callback c = Ret c' ->
  tables_ok c'.
Proof.
  intros Hc Hrun. unfold process_event in Hrun. destruct (negb _); [by injection Hrun as <-|].
  apply bind_Ret_inv in Hrun as ([[popped ring] i] & _ & Hrun). destruct popped; [|done].
  eapply handle_event_tables; [|exact Hrun]. by apply tables_ok_set_x.
Qed.

Lemma take_turn_tables c c' : tables_ok c -> take_turn c = Ret c' -> tables_ok c'.
Proof.
  intros Hc Hrun. unfold poll_turn in Hrun. apply bind_Ret_inv in Hrun as (c1 & H1 & Hrun).
  apply bind_Ret_inv in Hrun as (c2 & H2 & Hrun). eapply user_event_tables; [|exact Hrun].
  assert (tables_ok c1).
  { destruct (pending_already_popped_queue _); [|by injection H1 as <-].
    by eapply process_once_received_tables. }
  destruct (pending_event c1); [by eapply process_event_tables|by injection H2 as <-].
Qed.

(** A tick puts the device back in its place. *)
Lemma drive_slots select put tick c r c' : drive select put tick c = Ret (r, c') -> same_slots c c'.
Proof.
  unfold drive. destruct (slot_id _) as [slot|]; [|by intros [= _ <-]]. intros H.
  apply bind_Ret_inv in H as (info & Hi & H). apply device_by_slot_id_Ret in Hi.
  destruct info as [d|]; [|by injection H as _ <-].
  apply bind_Ret_inv in H as ([[r' dr] [[d' x] cb]] & _ & H). injection H as _ <-. split; [done|].
  intros n. simpl. by eapply allocated_put_back.
Qed.

Lemma mouse_turn_slots count c count' c' :
  tick_mouse_turn fuel uninit mouse_callback count c = Ret (count', c') -> same_slots c c'.
Proof.
  intros H. apply bind_Ret_inv in H as ([r c1] & H1%drive_slots & H).
  do 2 apply bind_Ret_inv in H as (? & _ & H). by injection H as _ <-.
Qed.

Lemma keyboard_turn_slots count c count' c' :
  tick_keyboard_turn fuel uninit keyboard_callback count c = Ret (count', c') -> same_slots c c'.
Proof.
  intros H. apply bind_Ret_inv in H as ([r c1] & H1%drive_slots & H).
  apply bind_Ret_inv in H as (? & _ & H). by injection H as _ <-.
Qed.

Lemma driver_step_tables c c' : driver_step c c' -> tables_ok c -> tables_ok c'.
Proof.
  intros [p c1 H1|event c1 H1|c1 H1|count r c1 H1|count r c1 H1|count n c1 H1|count n c1 H1|x] Hc.
  - by eapply configure_port_tables.
  - by eapply handle_event_tables.
  - by eapply take_turn_tables.
  - eapply tables_ok_same, drive_slots; [exact Hc|exact H1].
  - eapply tables_ok_same, drive_slots; [exact Hc|exact H1].
  - by eapply tables_ok_same, keyboard_turn_slots.
  - by eapply tables_ok_same, mouse_turn_slots.
  - by apply tables_ok_set_x.
Qed.

Lemma driver_run_tables c c' : tables_ok c -> rtc driver_step c c' -> tables_ok c'.
Proof. intros Hc Hr. induction Hr; [done|]. apply IHHr. by eapply driver_step_tables. Qed.

(** No slots are recorded, and no device is there. *)
Definition no_devices c : Prop :=
  port_slot_id_map c = ∅ /\ forall n, ~ allocated (c_devices c) n.

Lemma no_devices_tables c : no_devices c -> tables_ok c.
Proof.
  intros [Hm Ha]. assert (slots_in (port_slot_id_map c) = []) as Hs by (by rewrite Hm).
  split; rewrite Hs; [constructor|]. intros n. split; [by intros ?%elem_of_nil|by intros ?%Ha].
Qed.

(** C1: whatever devices come and go, in every state that the driver reaches the slots recorded for
    the ports are exactly those with a device, each recorded once; so a disconnection gives back
    the slots of its port, whose devices are all there, and no other one. *)
Theorem slot_table_consistent c c' : no_devices c -> rtc driver_step c c' ->
  NoDup (slots_in (port_slot_id_map c')) /\
  (forall n, n ∈ slots_in (port_slot_id_map c') <-> allocated (c_devices c') n) /\
  (forall p slot, slot ∈ default [] (port_slot_id_map c' !! p) ->
     exists dm, deallocate_device (c_devices c') slot = Ret dm) /\
  (forall p c'', reset_connection_at fuel p c' = Ret c'' ->
     forall n, allocated (c_devices c'') n <->
       allocated (c_devices c') n /\ (n ∉ (Z.to_nat <$> default [] (port_slot_id_map c' !! p)))).
Proof.
  intros Hc Hrun. destruct (driver_run_tables c c' (no_devices_tables c Hc) Hrun) as [Hnd Ha].
  split_and!; [done..| |].
  - intros p slot Hslot. eexists. apply deallocate_device_Ret, Ha.
    rewrite (slots_in_delete _ p), elem_of_app. left. by apply list_elem_of_fmap_2.
  - intros p c'' (_ & _ & _ & Hd)%reset_connection_at_effect n. rewrite Hd. naive_solver.
Qed.

End effects.

(** * Witness *)

Module ControllerExamples.
#[local] Existing Instance bit_field_ref.
Import XhcSim.

Abbreviation step := (driver_step 100 zeros normal max_packet record_report record_report).

Lemma booted_no_devices : no_devices booted.
Proof.
  split; [reflexivity|]. intros n [d Hd].
  assert (Hall : forallb (fun o => match o with None => true | _ => false end)
    (device_context_infos (c_devices booted)) = true) by (vm_compute; reflexivity).
  rewrite forallb_forall in Hall. apply list_elem_of_lookup_2, list_elem_of_In, Hall in Hd. done.
Qed.

Lemma reach_addressing : rtc step booted addressing.
Proof.
  eapply rtc_l; [exact (driver_configure _ _ _ _ _ _ booted 0 configured0 run_configured0)|].
  eapply rtc_l; [exact (driver_configure _ _ _ _ _ _ configured0 1 configured1 run_configured1)|].
  eapply rtc_l; [exact (driver_event _ _ _ _ _ _ configured1 (plug_event 1) enabling run_enabling)|].
  apply rtc_once. exact (driver_turn _ _ _ _ _ _ enabling addressing run_addressing).
Qed.

Lemma reach_freed : rtc step booted freed.
Proof.
  transitivity addressing; [exact reach_addressing|].
  eapply rtc_l; [apply (driver_outside _ _ _ _ _ _ addressing unplugged)|].
  apply rtc_once. exact (driver_event _ _ _ _ _ _ _ (plug_event 1) freed run_freed).
Qed.

End ControllerExamples.

(** The first device comes, gets its slot, and goes. *)
Lemma slot_table_consistent_witness :
  slots_in (port_slot_id_map XhcSim.addressing) = [1%nat] /\
  allocated (c_devices XhcSim.addressing) 1 /\ ~ allocated (c_devices XhcSim.freed) 1.
Proof.
  assert (slots_in (port_slot_id_map XhcSim.addressing) = [1%nat]) as Hs by (vm_compute; reflexivity).
  assert (slots_in (port_slot_id_map XhcSim.freed) = []) as Hs' by (vm_compute; reflexivity).
  split; [done|]. split.
  - destruct (slot_table_consistent _ _ _ _ _ _ _ _ ControllerExamples.booted_no_devices
      ControllerExamples.reach_addressing) as (_ & Ha & _). apply Ha. rewrite Hs. by left.
  - destruct (slot_table_consistent _ _ _ _ _ _ _ _ ControllerExamples.booted_no_devices
      ControllerExamples.reach_freed) as (_ & Ha & _). rewrite <- Ha, Hs'. by intros ?%elem_of_nil.
Defined.
