(* ===== verification/PortTurns.v ===== *)
(** PortTurns: the root hub ports take turns: whatever the events are, at most one port waits for
    its slot or its address, and it is the one that the completions are for. *)
From S2P Require Import Prelude Allocator BitField Trb CycleRing.
From S2P Require Import Rings.
From S2P Require Import EventRing.
From S2P Require Import Descriptor UsbHost InputDriver Hub ClassDrivers.
From S2P Require Import Port.
From S2P Require Import EndpointId.
From S2P Require Import Xhc.
From S2P Require Import Device.
From S2P Require Import DeviceInit.
From S2P Require Import DeviceManager.
From S2P Require Import Controller.
From S2P Require Import XhcSim.
From S2P Require Import ControllerInv.

Section turns.
Context `{TL : TrbLib Cmd} `{BF : BitFieldLib} `{ET : EventTypes} `{EL : @EventLib ET}
  `{XT : XhciTrbs Cmd} `{PL : PortscLib} `{!PortscLaws} {HW : Type} `{XH : @XhcHw HW ET EL}
  `{HWP : !PortRegisters HW} (ports : Z) (reset_reads : nat)
  (status : HW -> Z -> PortBit -> bool) (remaining : HW -> Z -> nat)
  `{HC : !CompliantPorts HW ports reset_reads status remaining}
  `{CX : ContextLib} `{UB : UsbBits} `{UH : UsbHostLib}.
Context (fuel : nat) (uninit : nat -> list Z) (normal_trb : Z -> Z -> Cmd)
  (b_max_packet_size : list Z -> Z) {C : Type}
  (mouse_callback keyboard_callback : C -> Z -> list Z -> outcome C).

Abbreviation controller := (XhciController (HW := HW) (C := C)).
Abbreviation handle_event := (process_event_ring_event fuel uninit normal_trb b_max_packet_size
  mouse_callback keyboard_callback).
Implicit Types (c : controller).

(** The turn is a port, and a port that waits for a command is the one that has it. *)
Definition turn_inv (s : PortConfigureState) : Prop :=
  single s /\ (forall p, addressing_port_index s = Some p -> 0 <= p).

(** What the hardware says of a port that is not connected when nobody has the turn: it is not in a
    reset, and it is enabled only together with a new connection. *)
Definition quiet_port (p : Z) c : Prop :=
  p < ports /\ status (x_hw (c_x c)) p PR = false /\
  (status (x_hw (c_x c)) p PED = true -> status (x_hw (c_x c)) p CSC = true).

Definition plugged_in (p : Z) c : Prop :=
  port_phase_at (port_configure_state c) p = Ret NotConnected ->
  addressing_port_index (port_configure_state c) = None -> quiet_port p c.

Definition expected (event : Allowed) c : Prop :=
  match event with EvPortStatusChange e => plugged_in (psc_port_id e - 1) c | _ => True end.

(** The steps for devices at the root hub: the ports are configured, an event is handled, and anything
    but the state of the ports changes in between: the registers, the rings, the memory, the drivers. *)
Inductive root_step c : controller -> Prop :=
  | root_configure p c' : 0 <= p -> configure_port fuel p c = Ret c' -> root_step c c'
  | root_event event c' : expected event c -> handle_event event c = Ret c' -> root_step c c'
  | root_outside c' : port_configure_state c' = port_configure_state c -> root_step c c'.

(** * The turn is kept *)

Lemma turn_inv_same s s' : turn_inv s -> s' = s -> turn_inv s'.
Proof. by intros ? ->. Qed.

Lemma turn_inv_reset p s s' : 0 <= p -> turn_inv s -> reset_effect p s s' -> turn_inv s'.
Proof.
  intros Hp [Hs Ha] He. split; [by eapply single_reset|].
  destruct He as [->|[[_ ->]|[_ (-> & _)%set_port_phase_at_Ret]]]; [done| |done].
  intros q Hq. simpl in Hq. congruence.
Qed.

(** A phase of the port that has, or takes, the turn. *)
Lemma turn_inv_own p phase s s' : 0 <= p -> turn_inv s -> phase_effect p phase s s' ->
  addressing_port_index s' = Some p -> turn_inv s'.
Proof. intros Hp [Hs _] He Ha. split; [by eapply single_own|]. intros q Hq. congruence. Qed.

(** After [enable_slot_at] of a port that has the turn. *)
Lemma enable_slot_turn p c ptr c' : 0 <= p -> turn_inv (port_configure_state c) ->
  addressing_port_index (port_configure_state c) = Some p ->
  enable_slot_at p c = Ret (ptr, c') -> turn_inv (port_configure_state c').
Proof.
  intros Hp Hi Ha [He _]%enable_slot_at_effect. eapply turn_inv_own; [done..|].
  destruct He as [_ [He|[He _]]]; congruence.
Qed.

(** The turn stays with its port in a reset. *)
Lemma reset_keeps_turn p s s' : reset_effect p s s' -> addressing_port_index s = Some p ->
  addressing_port_index s' = Some p.
Proof.
  intros [->|[[_ ->]|[(q & Hq & Hne) _]]] Ha; [done..|]. congruence.
Qed.

Lemma disconnect_turn p c c' : 0 <= p -> turn_inv (port_configure_state c) ->
  reset_connection_at fuel p c = Ret c' -> turn_inv (port_configure_state c').
Proof.
  intros Hp [Hs Ha] (He & Hidx & _)%reset_connection_at_effect. split.
  - intros q ph Hq Hq0 Hb. destruct He as [He _]. rewrite He in Hq.
    destruct (decide (q = p)) as [->|Hne].
    + apply list_lookup_insert_Some in Hq as [(_ & <- & _)|[? _]]; [|done]. by destruct Hb.
    + rewrite list_lookup_insert_ne in Hq by lia.
      assert (addressing_port_index (port_configure_state c) = Some q) as Hidx'.
      { apply (Hs q ph); [|done..]. by destruct (decide _). }
      rewrite Hidx, Hidx'. rewrite decide_False by congruence. done.
  - intros q. rewrite Hidx. destruct (decide _); [done|]. apply Ha.
Qed.

(** A new device takes the free turn. *)
Lemma reset_port_claims p c c' : 0 <= p < ports ->
  status (x_hw (c_x c)) p CCS = true -> status (x_hw (c_x c)) p CSC = true ->
  status (x_hw (c_x c)) p PR = false -> addressing_port_index (port_configure_state c) = None ->
  reset_port fuel p c = Ret c' -> addressing_port_index (port_configure_state c') = Some p.
Proof.
  intros Hp Hccs Hcsc Hpr Ha Hrun. apply bind_Ret_inv in Hrun as ([s hw] & Hr & Hrun).
  injection Hrun as <-. simpl. by eapply reset_port_at_claims.
Qed.

Lemma may_process_turn claim p c can c' : 0 <= p -> turn_inv (port_configure_state c) ->
  may_process claim p c = Ret (can, c') ->
  turn_inv (port_configure_state c') /\
  (can = true -> c' = c /\ addressing_port_index (port_configure_state c) = Some p \/
     addressing_port_index (port_configure_state c) = None /\
     c' = if claim then set_ports c (set_addressing (port_configure_state c) (Some p)) else c).
Proof.
  intros Hp Hi Hrun. unfold may_process in Hrun.
  destruct (addressing_port_index _) as [q|] eqn:Ha.
  - destruct (Z.eqb_spec q p) as [->|Hne]; [injection Hrun as <- <-; eauto|].
    apply bind_Ret_inv in Hrun as (c1 & (s & Hs & ->)%set_phase_inv & Hrun). injection Hrun as <- <-.
    split; [|done]. eapply turn_inv_reset; [exact Hp|exact Hi|]. right. right. eauto.
  - injection Hrun as <- <-. split; [|by right]. destruct claim; [|done].
    eapply turn_inv_reset; [exact Hp|exact Hi|]. right. left. simpl. eauto.
Qed.

(** A read of a quiet port changes no flag of it. *)
Lemma read_portsc_plugged p c v c1 : 0 <= p < ports -> status (x_hw (c_x c)) p PR = false ->
  read_portsc p c = Ret (v, c1) -> forall b, status (x_hw (c_x c1)) p b = status (x_hw (c_x c)) p b.
Proof.
  intros Hp Hpr Hrun b. apply bind_Ret_inv in Hrun as ([v' hw] & Hr & Hrun). injection Hrun as -> <-.
  destruct (port_read_quiet ports reset_reads status remaining p (x_hw (c_x c)) Hp Hpr)
    as (v2 & hw2 & Hr' & _ & [Hs _]).
  rewrite Hr in Hr'. injection Hr' as -> ->. apply Hs.
Qed.

(** Without a new connection a reset changes nothing. *)
Lemma reset_port_no_connection p c c' : 0 <= p < ports -> status (x_hw (c_x c)) p PR = false ->
  status (x_hw (c_x c)) p CCS && status (x_hw (c_x c)) p CSC = false -> reset_port fuel p c = Ret c' ->
  forall b, status (x_hw (c_x c')) p b = status (x_hw (c_x c)) p b.
Proof.
  intros Hp Hpr Hno Hrun b. apply bind_Ret_inv in Hrun as ([s hw] & Hr & Hrun). injection Hrun as <-.
  unfold reset_port_at, is_port_connected_at in Hr.
  destruct (port_read_quiet ports reset_reads status remaining p (x_hw (c_x c)) Hp Hpr)
    as (v & hw1 & Heq & Hv & [Hs1 _]). rewrite Heq in Hr. cbn [mbind outcome_bind] in Hr.
  destruct (port_read_quiet ports reset_reads status remaining p hw1 Hp)
    as (v' & hw2 & Heq' & Hv' & [Hs2 _]); [by rewrite Hs1|]. rewrite Heq' in Hr.
  cbn [mbind outcome_bind] in Hr.
  rewrite (Hv CCS : current_connect_status v = _), (Hv' CSC : connect_status_change v' = _), Hs1 in Hr.
  simpl. destruct (status _ p CCS); [destruct (status _ p CSC)|]; [done|..];
    injection Hr as <- <-; by rewrite Hs2, Hs1.
Qed.

(** A port that is not connected gets its slot enabled only with the turn. *)
Lemma connect_takes_turn p c c1 c2 ptr : 0 <= p -> quiet_port p c ->
  addressing_port_index (port_configure_state c) = None -> reset_port fuel p c = Ret c1 ->
  enable_slot_at p c1 = Ret (ptr, c2) -> addressing_port_index (port_configure_state c1) = Some p.
Proof.
  intros Hp (Hlt & Hpr & Hped) Ha Hres He.
  destruct (status (x_hw (c_x c)) p CCS && status (x_hw (c_x c)) p CSC) eqn:Hnew.
  - apply andb_true_iff in Hnew as [Hccs Hcsc]. by eapply reset_port_claims.
  - pose proof (reset_port_no_connection p c c1 ltac:(lia) Hpr Hnew Hres) as Hs.
    unfold enable_slot_at in He. apply bind_Ret_inv in He as ([v c1'] & Hr & He).
    apply bind_Ret_inv in Hr as ([v' hw] & Hr & Heq). injection Heq as -> _.
    destruct (port_read_quiet ports reset_reads status remaining p (x_hw (c_x c1)) ltac:(lia))
      as (v2 & hw2 & Hr' & Hv & _); [by rewrite Hs|]. rewrite Hr in Hr'. injection Hr' as -> ->.
    rewrite (Hv PED : port_enabled_disabled v2 = _), (Hv CSC : connect_status_change v2 = _), !Hs in He.
    destruct (status _ p PED); [rewrite Hped in He by done|];
      simpl in He; by apply bind_Ret_inv in He as (? & _ & ?).
Qed.

(** A status change of a port that is not connected. *)
Lemma connect_event_turn p c c1 c2 c3 can ptr : 0 <= p -> turn_inv (port_configure_state c) ->
  (addressing_port_index (port_configure_state c) = None -> quiet_port p c) ->
  may_process false p c = Ret (can, c1) -> can = true -> reset_port fuel p c1 = Ret c2 ->
  enable_slot_at p c2 = Ret (ptr, c3) -> turn_inv (port_configure_state c3).
Proof.
  intros Hp Hi Hplug (Hi1 & Hcan)%may_process_turn Hc Hres He; [|done..]. specialize (Hcan Hc).
  assert (addressing_port_index (port_configure_state c2) = Some p).
  { destruct Hcan as [[-> Ha]|[Ha ->]].
    - pose proof (proj1 (reset_port_effect _ _ _ _ Hres)). by eapply reset_keeps_turn.
    - by eapply connect_takes_turn; [|apply Hplug|..]. }
  pose proof (proj1 (reset_port_effect _ _ _ _ Hres)) as Heff.
  eapply enable_slot_turn; [exact Hp| |done|exact He]. by eapply turn_inv_reset.
Qed.

(** The last steps of a status change of a port that takes its turn. *)
Lemma take_turn p c c1 c2 : 0 <= p -> turn_inv (port_configure_state c) ->
  addressing_port_index (port_configure_state c) = None ->
  set_phase p NotConnected (set_ports c (set_addressing (port_configure_state c) (Some p))) = Ret c1 ->
  reset_port fuel p c1 = Ret c2 ->
  turn_inv (port_configure_state c2) /\ addressing_port_index (port_configure_state c2) = Some p.
Proof.
  intros Hp Hi Ha (s & Hs & ->)%set_phase_inv [Hres _]%reset_port_effect. simpl in *.
  pose proof Hs as (-> & _)%set_port_phase_at_Ret. apply set_phase_effect in Hs.
  assert (turn_inv (set_addressing (port_configure_state c) (Some p))) as Hi'.
  { eapply turn_inv_reset; [exact Hp|exact Hi|]. right. left. eauto. }
  split; [|by eapply reset_keeps_turn]. eapply turn_inv_reset; [exact Hp| |exact Hres].
  by eapply turn_inv_own.
Qed.

Lemma port_event_turn e c c' : plugged_in (psc_port_id e - 1) c -> turn_inv (port_configure_state c) ->
  process_port_status_change_event fuel e c = Ret c' -> turn_inv (port_configure_state c').
Proof.
  intros Hplug Hi Hrun. unfold process_port_status_change_event in Hrun.
  apply bind_Ret_inv in Hrun as (p & Hp & Hrun). apply sub_w_Ret_inv in Hp as [Heq Hp].
  rewrite <- Heq in Hplug.
  assert (0 <= p) as Hp0 by lia. clear Hp.
  apply bind_Ret_inv in Hrun as ([v c1] & Hr & Hrun).
  pose proof (frame_ports _ _ (read_portsc_frame _ _ _ _ Hr)) as Hports.
  rewrite <- Hports in Hi. apply bind_Ret_inv in Hrun as (phase & Hphase & Hrun).
  assert (Hdis : forall cb, (if negb (current_connect_status v) then reset_connection_at fuel p c1
    else Ret c1) = Ret cb -> turn_inv (port_configure_state cb)).
  { intros cb Hcb. destruct (negb _); [|by injection Hcb as <-]. by eapply disconnect_turn. }
  destruct phase; try by apply Hdis.
  - apply bind_Ret_inv in Hrun as ([can c2] & Hm & Hrun).
    destruct can; [|injection Hrun as <-; by apply may_process_turn in Hm as [Hm _]].
    apply bind_Ret_inv in Hrun as (c3 & Hres & Hrun). apply bind_Ret_inv in Hrun as ([ptr c4] & He & Hrun).
    injection Hrun as <-. eapply connect_event_turn; [exact Hp0|exact Hi| |exact Hm|done|exact Hres|exact He].
    intros Ha. rewrite Hports in Ha, Hphase. destruct (Hplug Hphase Ha) as (? & ? & ?).
    split; [done|]. by rewrite !(read_portsc_plugged p c v c1).
  - destruct (addressing_port_index _) eqn:Ha; [by injection Hrun as <-|].
    apply bind_Ret_inv in Hrun as (c2 & Hset & Hrun). apply bind_Ret_inv in Hrun as (c3 & Hres & Hrun).
    apply bind_Ret_inv in Hrun as ([ptr c4] & He & Hrun). injection Hrun as <-.
    destruct (take_turn p c1 c2 c3) as [Hi3 Ha3]; [done..|]. by eapply enable_slot_turn.
  - apply bind_Ret_inv in Hrun as ([can c2] & Hm%may_process_turn & Hrun); [|done..].
    destruct Hm as [Hi2 Hcan]. destruct can; [|by injection Hrun as <-].
    apply bind_Ret_inv in Hrun as ([ptr c4] & He & Hrun). injection Hrun as <-.
    eapply enable_slot_turn; [exact Hp0|exact Hi2| |exact He].
    by destruct (Hcan eq_refl) as [[-> ?]|[_ ->]].
Qed.

(** ** The completions *)

Lemma enable_slot_completed_turn slot c c' : turn_inv (port_configure_state c) ->
  enable_slot_completed slot c = Ret c' -> turn_inv (port_configure_state c').
Proof.
  intros Hi Hrun. unfold enable_slot_completed in Hrun.
  apply bind_Ret_inv in Hrun as (phase & _ & Hrun).
  destruct phase as [phase|]; [|done]. destruct (decide _); [|done].
  apply bind_Ret_inv in Hrun as (p & Hp%unwrap_Ret_inv & Hrun).
  apply bind_Ret_inv in Hrun as ([ptr c1] & He & Hrun). injection Hrun as <-.
  apply address_device_at_effect in He as (He & Ha & _).
  eapply turn_inv_own; [by apply Hi|exact Hi|exact He|congruence].
Qed.

Lemma address_device_completed_turn slot c c' : turn_inv (port_configure_state c) ->
  address_device_completed fuel uninit normal_trb b_max_packet_size mouse_callback keyboard_callback slot c
    = Ret c' -> turn_inv (port_configure_state c').
Proof.
  intros [Hs Hp] Hrun. unfold address_device_completed in Hrun.
  apply bind_Ret_inv in Hrun as (info & _ & Hrun). apply bind_Ret_inv in Hrun as (d & _ & Hrun).
  apply bind_Ret_inv in Hrun as (p & Hp'%sub_w_Ret_inv & Hrun).
  destruct (decide _) as [Ha|]; [|done]. apply bind_Ret_inv in Hrun as (phase & _ & Hrun).
  destruct (decide _); [|done]. apply bind_Ret_inv in Hrun as (c1 & H1 & Hrun).
  apply initialize_device_at_effect in Hrun as [Hrun _]. rewrite Hrun. split; [|done].
  assert (Hbusy : forall q ph, port_config_phase (port_configure_state c1) !! Z.to_nat q = Some ph ->
    0 <= q -> q <> p -> busy ph -> False).
  { intros q ph Hq Hq0 Hne Hb. enough (addressing_port_index (port_configure_state c) = Some q) by congruence.
    destruct (first_waiting _ _) as [w|].
    - apply reset_port_effect in H1 as [[Heq|[[_ Heq]|[(r & Hr & _) _]]] _]; [..|done];
        rewrite Heq in Hq; by eapply Hs.
    - injection H1 as <-. by eapply Hs. }
  intros q ph Hq Hq0 Hb. exfalso. simpl in Hq. destruct (decide (q = p)) as [->|Hne].
  - apply list_lookup_insert_Some in Hq as [(_ & <- & _)|[? _]]; [|done]. by destruct Hb.
  - rewrite list_lookup_insert_ne in Hq by lia. by eapply Hbusy.
Qed.

Lemma deliver_report_ports slot ptr len d c b c' :
  deliver_report mouse_callback keyboard_callback slot ptr len d c = Ret (b, c') ->
  port_configure_state c' = port_configure_state c.
Proof.
  unfold deliver_report. intros Hrun. destruct (driver_kind _ _) as [[]|]; [..|done];
    repeat first [apply bind_Ret_inv in Hrun as (? & _ & Hrun)|by injection Hrun as _ <-].
Qed.

Lemma transfer_event_ports e c c' : process_transfer_event mouse_callback keyboard_callback e c = Ret c' ->
  port_configure_state c' = port_configure_state c.
Proof.
  unfold process_transfer_event. destruct (negb _); [done|]. destruct (negb _); [by intros [= <-]|].
  intros Hrun. do 6 apply bind_Ret_inv in Hrun as (? & _ & Hrun).
  case_match; [|by injection Hrun as <-].
  do 2 apply bind_Ret_inv in Hrun as (? & _ & Hrun).
  apply bind_Ret_inv in Hrun as ([again c1] & H1%deliver_report_ports & Hrun).
  destruct again; [|by injection Hrun as <-].
  apply bind_Ret_inv in Hrun as (x' & _ & Hrun). by injection Hrun as <-.
Qed.

Lemma handle_event_turn event c c' : expected event c -> turn_inv (port_configure_state c) ->
  handle_event event c = Ret c' -> turn_inv (port_configure_state c').
Proof.
  intros Hex Hi. destruct event; simpl; try done.
  - intros Hrun%transfer_event_ports. by rewrite Hrun.
  - unfold process_command_completion_event. do 2 (destruct (negb _); [by intros [= <-]|]).
    destruct (command_of_raw _) as [[]|]; try by intros [= <-].
    + by apply enable_slot_completed_turn.
    + by apply address_device_completed_turn.
  - by apply port_event_turn.
  - by intros [= <-].
Qed.

Lemma root_step_turn c c' : root_step c c' -> turn_inv (port_configure_state c) ->
  turn_inv (port_configure_state c').
Proof.
  intros [p c1 Hp Hrun|event c1 Hex Hrun|c1 Hsame] Hi; [|by eapply handle_event_turn|by rewrite Hsame].
  unfold configure_port, configure_port_at in Hrun. apply bind_Ret_inv in Hrun as ([s hw] & Hrun & Heq).
  injection Heq as <-. apply bind_Ret_inv in Hrun as (connected & _ & Hrun). simpl.
  destruct connected; [by injection Hrun as <- _|].
  apply reset_port_at_effect in Hrun. by eapply turn_inv_reset.
Qed.

Lemma turn_inv_reachable c c' : turn_inv (port_configure_state c) -> rtc root_step c c' ->
  turn_inv (port_configure_state c').
Proof. intros Hi Hr. induction Hr; [done|]. apply IHHr. by eapply root_step_turn. Qed.

Lemma turn_inv_new : turn_inv port_state_new.
Proof.
  split; [|done]. intros p ph Hp _ Hb. exfalso.
  change (replicate 256 NotConnected !! Z.to_nat p = Some ph) in Hp.
  apply lookup_replicate in Hp as [-> _]. by destruct Hb.
Qed.

(** C3: at the root hub the ports take turns.  In the runs of the driver on the devices at the root hub
    ([root_step]: ports are configured, events are handled, and anything but the state of the ports
    changes in between; a device behind a hub is not in these runs, it takes the turn away from whatever
    port has it, [stolen_turn_panics]), on compliant ports ([CompliantPorts]) and where a status change
    of a port that is not connected, when nobody has the turn, comes from a port that is in no reset and
    is enabled only together with a new connection ([expected]): at most one port waits for a command in
    every state that is reached.  The completion of an enabled slot that comes while a port waits for its
    slot is taken for that port, and one that comes when no port does is a panic.  The completion of the
    address of a device, while its port waits for it, clears the turn, resets the first waiting port and
    initialises the device. *)
Theorem one_port_at_a_time c c' :
  port_configure_state c = port_state_new -> rtc root_step c c' ->
  let s := port_configure_state c' in
  (forall p q phase phase', 0 <= p -> 0 <= q -> port_phase_at s p = Ret phase ->
     port_phase_at s q = Ret phase' -> busy phase -> busy phase' -> p = q) /\
  (forall p slot, 0 <= p -> port_phase_at s p = Ret EnablingSlot ->
     enable_slot_completed slot c' = ('(_, c) ← address_device_at p slot 0 5 None None c'; Ret c)) /\
  (forall slot, (forall p, 0 <= p -> port_phase_at s p <> Ret EnablingSlot) ->
     enable_slot_completed slot c' = Panic) /\
  (forall p slot d, 0 <= p -> port_phase_at s p = Ret AddressingDevice ->
     device_by_slot_id (c_devices c') slot = Ret (Some d) -> slot_context RootHubPortNumber d = p + 1 ->
     address_device_completed fuel uninit normal_trb b_max_packet_size mouse_callback keyboard_callback
       slot c' =
     (let freed := set_ports c' (set_addressing s None) in
      c ← match first_waiting (port_config_phase s) 0 with
          | Some q => reset_port fuel q freed
          | None => Ret freed
          end;
      initialize_device_at fuel uninit normal_trb b_max_packet_size mouse_callback keyboard_callback p slot c)).
Proof.
  intros Hnew Hrun s. destruct (turn_inv_reachable c c') as [Hs Hpos]; [rewrite Hnew; apply turn_inv_new|done|].
  split_and!.
  - intros p q ph ph' Hp Hq Hlp Hlq Hbp Hbq. apply lookup_phases_Ret in Hlp, Hlq.
    pose proof (Hs p ph Hlp Hp Hbp). pose proof (Hs q ph' Hlq Hq Hbq). congruence.
  - intros p slot Hp Hph. pose proof Hph as Hl. apply lookup_phases_Ret in Hl.
    assert (addressing_port_index s = Some p) as Ha by (by apply (Hs p EnablingSlot); [| |left]).
    unfold enable_slot_completed, addressing_port_phase. fold s. by rewrite Ha, Hph.
  - intros slot Hno. unfold enable_slot_completed, addressing_port_phase. fold s in Hpos |- *.
    destruct (addressing_port_index s) as [p|]; [|done]. specialize (Hno p (Hpos p eq_refl)).
    unfold port_phase_at in *. destruct (port_config_phase s !! _) as [ph|]; [|done].
    cbn [unwrap mbind outcome_bind] in *. rewrite decide_False by congruence. done.
  - intros p slot d Hp Hph Hd Hroot. pose proof Hph as Hl. apply lookup_phases_Ret in Hl.
    assert (addressing_port_index s = Some p) as Ha by (by apply (Hs p AddressingDevice); [| |right]).
    unfold address_device_completed, addressing_port_phase. rewrite Hd. cbn [mbind outcome_bind unwrap].
    rewrite Hroot, sub_w_Ret by lia. cbn [mbind outcome_bind]. fold s.
    replace (p + 1 - 1) with p by lia. rewrite Ha, decide_True, Hph by done. done.
Qed.

(** * A device behind a hub takes the turn away *)

(** Whatever port has the turn, it has lost it after a device was initialised, and the completion of
    its slot is refused. *)
Lemma stolen_turn_panics p slot c c' slot' :
  initialize_device_at fuel uninit normal_trb b_max_packet_size mouse_callback keyboard_callback p slot c
    = Ret c' -> enable_slot_completed slot' c' = Panic.
Proof.
  intros [Hrun _]%initialize_device_at_effect. unfold enable_slot_completed, addressing_port_phase.
  by rewrite Hrun.
Qed.

End turns.

(** * Witness *)

(** Port 0 asks for its slot while port 1 waits. *)
Lemma one_port_at_a_time_witness :
  port_phase_at (port_configure_state XhcSim.enabling) 1 = Ret WaitingAddressed /\
  enable_slot_completed 1 XhcSim.enabling =
    ('(_, c) ← address_device_at 0 1 0 5 None None XhcSim.enabling; Ret c).
Proof.
  assert (rtc (root_step (BF := bit_field_ref) 4
    (fun h p => XhciPorts.flag (XhciPorts.portsc_value (XhcSim.sim_ports h p))) 100 XhcSim.zeros normal
    XhcSim.max_packet XhcSim.record_report XhcSim.record_report) XhcSim.booted XhcSim.enabling) as Hrun.
  { eapply rtc_l; [exact (root_configure _ _ _ _ _ _ _ _ XhcSim.booted 0 XhcSim.configured0
      ltac:(lia) XhcSim.run_configured0)|].
    eapply rtc_l; [exact (root_configure _ _ _ _ _ _ _ _ XhcSim.configured0 1 XhcSim.configured1
      ltac:(lia) XhcSim.run_configured1)|].
    apply rtc_once. refine (root_event _ _ _ _ _ _ _ _ XhcSim.configured1 (XhcSim.plug_event 1)
      XhcSim.enabling _ XhcSim.run_enabling).
    intros _ Ha. vm_compute in Ha. discriminate Ha. }
  split; [vm_compute; reflexivity|].
  refine (proj1 (proj2 (one_port_at_a_time 4 XhciPorts.SIM_RESET _ _ _ _ _ _ _ _ _ _ _ Hrun))
    0 1 _ _).
  - vm_compute. reflexivity.
  - lia.
  - vm_compute. reflexivity.
Defined.
