(* ===== verification/DeviceTransfer.v ===== *)
(** DeviceTransfer: what a control transfer of [Device] reports, and how often a descriptor is
    asked for. *)
From S2P Require Import Prelude Allocator BitField Trb CycleRing.
From S2P Require Import Rings.
From S2P Require Import EventRing.
From S2P Require Import Descriptor UsbHost InputDriver Hub ClassDrivers.
From S2P Require Import Port.
From S2P Require Import EndpointId.
From S2P Require Import Xhc.
From S2P Require Import Device.
From S2P Require Import DeviceManager.
From S2P Require Import Controller.
From S2P Require Import XhcSim.

Section transfers.
Context `{TL : TrbLib Cmd} `{BF : BitFieldLib} `{ET : EventTypes} `{EL : @EventLib ET}
  `{XT : XhciTrbs Cmd} `{PL : PortscLib} {HW : Type} `{XH : @XhcHw HW ET EL} `{HWP : !PortRegisters HW}
  `{CX : ContextLib} `{UB : UsbBits} `{UH : UsbHostLib} (fuel : nat).

(** * The specification *)

(** What the event that ends a transfer of [w_length] bytes says. *)
Inductive reports (w_length : Z) (trb : TransferEvent) : result Z TransferError -> Prop :=
  | reports_all : te_completion_code trb = Success -> reports w_length trb (Ok w_length)
  | reports_part : te_completion_code trb = ShortPacket ->
      te_trb_transfer_length trb <= w_length ->
      reports w_length trb (Ok (w_length - te_trb_transfer_length trb))
  | reports_failure : completion_code_ok (te_completion_code trb) = true ->
      te_completion_code trb <> Success -> te_completion_code trb <> ShortPacket ->
      reports w_length trb (Err (Retry "CompletionCode error"))
  | reports_unknown : completion_code_ok (te_completion_code trb) = false ->
      reports w_length trb (Err (Permanent "Unknown completion code")).

(** The states of the attempts at a request: the buffer, the device, and the rest. *)
Definition request_state : Type := list Z * DeviceContextInfo * Xhc HW.

(** One attempt. *)
Definition attempt (s : Setup) (st : request_state) : outcome (result Z TransferError * request_state) :=
  let '(buf, d, x) := st in
  '(r, buf, d, x) ← async_control_transfer fuel (endpoint_number default_control_pipe)
    (direct default_control_pipe) s (Some buf) d x;
  Ret (r, (buf, d, x)).

(** [k] attempts fail, one after the other. *)
Inductive failures (s : Setup) : nat -> request_state -> request_state -> Prop :=
  | failures_none st : failures s 0 st st
  | failures_more k st st1 st2 e : attempt s st = Ret (Err e, st1) -> failures s k st1 st2 ->
      failures s (S k) st st2.

(** The request of [request_descriptor]. *)
Definition descriptor_request (descriptor_type descriptor_index : Z) : Setup :=
  mkSetup (DeviceToHost, Standard, RecipientDevice) GetDescriptor (descriptor_index, descriptor_type) 0.

(** * Lemmas *)

Lemma await_transfer_waited n : forall wait_on x e x',
  await_transfer n wait_on x = Ret (e, x') -> waited wait_on e = true.
Proof.
  induction n as [|n IH]; intros wait_on x e x' Hrun; [done|]. cbn [await_transfer] in Hrun.
  apply bind_Ret_inv in Hrun as ([p x1] & Hp & Hrun). destruct p as [ev|]; [|by eapply IH].
  injection Hrun as -> _. unfold poll_transfer_once in Hp.
  apply bind_Ret_inv in Hp as ([[p' r] i] & Hp & Heq). injection Heq as -> _.
  unfold poll_transfer in Hp. destruct (negb _); [done|].
  apply bind_Ret_inv in Hp as ([[popped_trb r1] i1] & _ & Hp).
  apply bind_Ret_inv in Hp as ([p2 r2] & Hd & Hp). injection Hp as -> _ _.
  unfold dispatch_transfer in Hd. destruct wait_on as [slot|ptr|ptrs].
  1, 2: destruct popped_trb as [[]|]; try done; simpl; case_match; by simplify_eq.
  destruct popped_trb as [ev|]; [|by destruct ptrs]. rewrite poll_ptrs_Ok in Hd.
  destruct ev; try done. simpl. destruct (existsb _ _) eqn:Hex; by simplify_eq.
Qed.

Lemma control_transfer_result_reports w_length trb r :
  control_transfer_result w_length trb = Ret r <-> reports w_length trb r.
Proof.
  unfold control_transfer_result. split.
  - intros Hr. destruct (completion_code_ok _) eqn:Hok; simpl in Hr; [|injection Hr as <-; by constructor].
    destruct (Z.eqb_spec (te_completion_code trb) ShortPacket) as [Hs|Hs].
    + apply bind_Ret_inv in Hr as (len & [-> Hle]%sub_w_Ret_inv & Hr). injection Hr as <-. by constructor.
    + destruct (Z.eqb_spec (te_completion_code trb) Success); injection Hr as <-; by constructor.
  - intros [Hc|Hc Hle|Hok Hs Hp|Hok].
    + by rewrite Hc.
    + rewrite Hc. simpl. by rewrite sub_w_Ret.
    + rewrite Hok. simpl. by rewrite !(proj2 (Z.eqb_neq _ _)).
    + by rewrite Hok.
Qed.

Lemma request_loop_attempt retries s buf d x :
  request_loop fuel retries s buf d x =
    ('(r, st) ← attempt s (buf, d, x);
     match r with
     | Ok length => let '(buf, d, x) := st in Ret (length, buf, d, x)
     | Err _ => match retries with
                | O => Panic
                | S retries => let '(buf, d, x) := st in request_loop fuel retries s buf d x
                end
     end).
Proof.
  destruct retries; simpl; destruct (async_control_transfer _ _ _ _ _ _ _) as [[[[[] ?] ?] ?]| |]; done.
Qed.

Lemma request_loop_fails retries s : forall k st st', failures s k st st' -> (k <= retries)%nat ->
  (let '(buf, d, x) := st in request_loop fuel retries s buf d x) =
  (let '(buf, d, x) := st' in request_loop fuel (retries - k) s buf d x).
Proof.
  induction retries as [|retries IH]; intros k st st' Hf Hk.
  - inversion Hf; subst; [done|lia].
  - destruct Hf as [st|k [[buf d] x] [[buf1 d1] x1] st2 e Ha Hf]; [done|].
    rewrite request_loop_attempt, Ha. cbn [mbind outcome_bind].
    replace (S retries - S k)%nat with (retries - k)%nat by lia. apply (IH k (buf1, d1, x1)); [done|lia].
Qed.

Lemma request_loop_Ret s retries : forall buf d x n st',
  request_loop fuel retries s buf d x = Ret (n, st'.1.1, st'.1.2, st'.2) ->
  exists k st, (k <= retries)%nat /\ failures s k (buf, d, x) st /\ attempt s st = Ret (Ok n, st').
Proof.
  induction retries as [|retries IH]; intros buf d x n st' Hrun; rewrite request_loop_attempt in Hrun;
    apply bind_Ret_inv in Hrun as ([[len|e] [[buf1 d1] x1]] & Ha & Hrun); try done;
    try (injection Hrun as <- -> -> ->; exists 0%nat, (buf, d, x); split; [lia|]; split; [constructor|];
         by destruct st' as [[??]?]).
  apply IH in Hrun as (k & st & Hk & Hf & Hr). exists (S k), st. split; [lia|]. split; [|done].
  by eapply failures_more.
Qed.

(** The last of [S k] failures. *)
Lemma failures_split s k : forall st st', failures s (S k) st st' ->
  exists st1, failures s k st st1 /\ exists e, attempt s st1 = Ret (Err e, st').
Proof.
  induction k as [|k IH]; intros st st' Hf; inversion Hf as [|? ? st1 ? e Ha Hrest]; subst.
  - inversion Hrest; subst. exists st. split; [constructor|by exists e].
  - apply IH in Hrest as (st2 & Hf2 & He). exists st2. split; [by eapply failures_more|done].
Qed.

(** * Properties *)

(** C19: a control transfer that returns has waited for an event of one of the TRBs that it put on
    the ring of its endpoint, and reports what that event says: all bytes, those that a short
    packet did not leave over, or an error that tells whether another attempt makes sense; never
    more than the buffer holds. *)
Theorem control_transfer_reports ep_num ep_dir s buf d x r buf' d' x' :
  (forall e, 0 <= te_trb_transfer_length e) ->
  async_control_transfer fuel ep_num ep_dir s buf d x = Ret (r, buf', d', x') ->
  let w_length := match buf with Some b => cast 16 (Z.of_nat (length b)) | None => 0 end in
  (exists endpoint_id place x1 wait_on x2 trb,
     endpoint_id_new ep_num ep_dir = Ret endpoint_id /\
     push_control_transfer endpoint_id (setup_packet_raw s w_length) place d x1 = Ret (wait_on, d', x2) /\
     await_transfer fuel wait_on x2 = Ret (trb, x') /\
     waited wait_on trb = true /\ reports w_length trb r) /\
  (forall n, r = Ok n -> 0 <= n <= w_length) /\
  (forall b n, buf = Some b -> r = Ok n -> n <= Z.of_nat (length b)).
Proof.
  intros Hpos Hrun w_length. unfold async_control_transfer in Hrun. fold w_length in Hrun.
  apply bind_Ret_inv in Hrun as (endpoint_id & Hid & Hrun).
  destruct (place_arg buf x) as [place x1].
  apply bind_Ret_inv in Hrun as ([[wait_on d1] x2] & Hpush & Hrun).
  apply bind_Ret_inv in Hrun as ([trb x3] & Hwait & Hrun).
  apply bind_Ret_inv in Hrun as (r' & Hr & Hrun). injection Hrun as -> <- -> ->.
  apply control_transfer_result_reports in Hr.
  assert (Hw : 0 <= w_length /\ forall b, buf = Some b -> w_length <= Z.of_nat (length b)).
  { unfold w_length, cast. destruct buf as [b|]; split; try lia.
    - apply Z.mod_pos_bound. lia.
    - intros b' [= <-]. apply Z.mod_le; lia. }
  assert (Hn : forall n, r = Ok n -> 0 <= n <= w_length).
  { intros n ->. pose proof (Hpos trb). inversion Hr; subst; lia. }
  split_and!; [|done|].
  - exists endpoint_id, place, x1, wait_on, x2, trb. split_and!; try done.
    by eapply await_transfer_waited.
  - intros b n Hb Hok. specialize (Hn n Hok). pose proof (proj2 Hw b Hb). lia.
Qed.

(** C20: a descriptor is asked for up to 101 times: the request returns exactly when one of the
    first 101 attempts succeeds, and then what the first such attempt returned; when they all fail
    it panics. *)
Theorem request_descriptor_retries descriptor_type descriptor_index buf d x :
  let s := descriptor_request descriptor_type descriptor_index in
  let run := request_descriptor fuel descriptor_type descriptor_index buf d x in
  (forall n st', run = Ret (n, st'.1.1, st'.1.2, st'.2) <->
     exists k st, (k <= 100)%nat /\ failures s k (buf, d, x) st /\ attempt s st = Ret (Ok n, st')) /\
  (forall st, failures s 101 (buf, d, x) st -> run = Panic).
Proof.
  intros s run. assert (Hrun : run = request_loop fuel 100 s buf d x) by done.
  clearbody run. subst run. split.
  - intros n st'. split; [apply request_loop_Ret|]. intros (k & st & Hk & Hf & Ha).
    pose proof (request_loop_fails 100 s k _ _ Hf Hk) as Hl. cbn match beta in Hl. rewrite Hl.
    destruct st as [[buf1 d1] x1]. rewrite request_loop_attempt, Ha. by destruct st' as [[??]?].
  - intros st Hf. apply (failures_split s 100) in Hf as (st1 & Hf & e & Ha).
    pose proof (request_loop_fails 100 s 100 _ _ Hf ltac:(lia)) as Hl. cbn match beta in Hl.
    rewrite Hl. destruct st1 as [[buf1 d1] x1]. rewrite request_loop_attempt, Ha. done.
Qed.

End transfers.

(** * Witness *)

(** The first device of the simulation is asked for its descriptor. *)
Module TransferExamples.
#[local] Existing Instance bit_field_ref.
Import XhcSim.

Definition no_device : DeviceContextInfo := mkDeviceContext 0 0 0 None 0 (fun _ => 0) 0 [].

Definition first_device : DeviceContextInfo :=
  match device_by_slot_id (c_devices addressing) 1 with Ret (Some d) => d | _ => no_device end.

Abbreviation asked := (async_control_transfer 100 0 DirOut (descriptor_request DT_DEVICE 0)
  (Some (XhcSim.zeros 18)) first_device (c_x XhcSim.addressing)).

Lemma asked_answer :
  match asked with Ret (r, buf, _, _) => r = Ok 18 /\ buf = device_descriptor | _ => False end.
Proof. vm_compute. by split. Qed.

Lemma answered : exists r buf d x, asked = Ret (r, buf, d, x) /\ r = Ok 18 /\ buf = device_descriptor.
Proof.
  generalize asked_answer. destruct asked as [[[[r buf] d] x]| |]; [|done..]. intros [Hr Hbuf].
  by exists r, buf, d, x.
Qed.

End TransferExamples.
Import TransferExamples.
#[local] Existing Instance bit_field_ref.

Lemma control_transfer_reports_witness :
  exists r buf d x, asked = Ret (r, buf, d, x) /\ buf = XhcSim.device_descriptor /\ r = Ok 18 /\
    0 <= 18 <= 18.
Proof.
  destruct answered as (r & buf & d & x & Hrun & Hr & Hbuf). exists r, buf, d, x.
  assert (Hpos : forall e : TransferEvent, 0 <= te_trb_transfer_length e)
    by (intros e; apply Z.mod_pos_bound; lia).
  split; [exact Hrun|]. split; [exact Hbuf|]. split; [exact Hr|].
  exact (proj1 (proj2 (control_transfer_reports 100 0 DirOut (descriptor_request DT_DEVICE 0)
    (Some (XhcSim.zeros 18)) first_device (c_x XhcSim.addressing) r buf d x Hpos Hrun)) 18 Hr).
Defined.
