(* ===== verification/Startup.v ===== *)
(** Startup: how the driver starts the controller ([XhciController::new] and [run] of
    [xhci/controller.rs], [init_xhci_controller] of [xhci.rs]): it takes the controller over from
    the firmware, resets it, registers the rings and the contexts, and lets it run. *)
From S2P Require Import Prelude Allocator BitField Trb CycleRing.
From S2P Require Import Rings.
From S2P Require Import EventRing.
From S2P Require Import Descriptor UsbHost InputDriver Hub ClassDrivers.
From S2P Require Import Pci Msi.
From S2P Require Import Mapper.
From S2P Require Import Port.
From S2P Require Import Xhc.
From S2P Require Import Device.
From S2P Require Import DeviceManager.
From S2P Require Import Controller.

(** * The registers *)

(** The fields of the operational registers and of the interrupter's that the driver uses. *)
Record Usbcmd := mkUsbcmd {
  run_stop : bool;
  host_controller_reset : bool;
  interrupter_enable : bool;
  host_system_error_enable : bool;
  enable_wrap_event : bool;
}.
Record Usbsts := mkUsbsts { hc_halted : bool; controller_not_ready : bool }.
Record Crcr := mkCrcr {
  ring_cycle_state : bool; command_stop : bool; command_abort : bool; command_ring_pointer : Z;
}.
Record Iman := mkIman { interrupt_pending : bool; interrupt_enable : bool }.
Record Usblegsup := mkUsblegsup { bios_owned : bool; os_owned : bool }.

Inductive ExtendedCapability := UsbLegacySupport (ptr : Z) | OtherCapability.

(** The registers as hardware [HW]: a read may let time pass.  [extended_capabilities] is the list
    that the [xhci] crate finds; [store_pointers] and [store_segment_table] write what the controller
    reads: an array of pointers, the table with the segment of the event ring. *)
Class HostRegisters (HW : Type) := {
  hw_number_of_ports : HW -> Z;
  number_of_device_slots : HW -> Z;
  max_scratchpad_buffers : HW -> Z;
  extended_capabilities : HW -> option (list (option ExtendedCapability));
  read_usblegsup : Z -> HW -> Usblegsup * HW;
  write_usblegsup : Z -> Usblegsup -> HW -> HW;
  read_usbcmd : HW -> Usbcmd * HW;
  write_usbcmd : Usbcmd -> HW -> HW;
  read_usbsts : HW -> Usbsts * HW;
  read_crcr : HW -> Crcr * HW;
  write_crcr : Crcr -> HW -> HW;
  read_dcbaap : HW -> Z * HW;
  write_dcbaap : Z -> HW -> HW;
  read_config_register : HW -> Z * HW;
  write_config_register : Z -> HW -> HW;
  read_imod : HW -> Z * HW;
  write_imod : Z -> HW -> HW;
  read_iman : HW -> Iman * HW;
  write_iman : Iman -> HW -> HW;
  store_pointers : Z -> list Z -> HW -> HW;
  store_segment_table : Z -> Erst.EventRingSegmentTableEntry -> HW -> HW;
}.

(** The setters of the [xhci] crate; the pointers to the command ring and to the contexts have to
    be aligned to 64 bytes. *)
Definition clear_interrupts (c : Usbcmd) : Usbcmd :=
  mkUsbcmd (run_stop c) (host_controller_reset c) false false false.
Definition set_host_controller_reset (c : Usbcmd) : Usbcmd :=
  mkUsbcmd (run_stop c) true (interrupter_enable c) (host_system_error_enable c) (enable_wrap_event c).
Definition set_interrupter_enable (c : Usbcmd) : Usbcmd :=
  mkUsbcmd (run_stop c) (host_controller_reset c) true (host_system_error_enable c) (enable_wrap_event c).
Definition set_run_stop (c : Usbcmd) : Usbcmd :=
  mkUsbcmd true (host_controller_reset c) (interrupter_enable c) (host_system_error_enable c)
    (enable_wrap_event c).
Definition aligned_64 (p : Z) : outcome Z := _ ← assert (p mod 64 =? 0); Ret p.

Section startup.
Context `{TL : TrbLib Cmd} `{BF : BitFieldLib} `{ET : EventTypes} `{EL : @EventLib ET}
  `{XT : XhciTrbs Cmd} `{PL : PortscLib} {HW : Type} `{XH : @XhcHw HW ET EL} `{HWP : !PortRegisters HW}
  `{HR : HostRegisters HW} `{CX : ContextLib} `{UB : UsbBits} `{UH : UsbHostLib}.
Context (fuel : nat) {C : Type}.

(** [while busy(register.read_volatile()) {}]; the value that ends the loop. *)
Fixpoint wait_while_busy {V} (n : nat) (read : HW -> V * HW) (busy : V -> bool) (hw : HW) :
    outcome (V * HW) :=
  match n with
  | O => NoFuel
  | S n =>
      let '(v, hw) := read hw in
      if busy v then wait_while_busy n read busy hw else Ret (v, hw)
  end.

Definition update_usbcmd (f : Usbcmd -> Usbcmd) (hw : HW) : HW :=
  let '(c, hw) := read_usbcmd hw in write_usbcmd (f c) hw.

(** * The steps of [new] *)

Definition request_hc_ownership (ptr : Z) (hw : HW) : outcome HW :=
  let '(r, hw) := read_usblegsup ptr hw in
  if os_owned r then Ret hw
  else
    let '(r, hw) := read_usblegsup ptr hw in
    let hw := write_usblegsup ptr (mkUsblegsup (bios_owned r) true) hw in
    '(_, hw) ← wait_while_busy fuel (read_usblegsup ptr) (fun r => bios_owned r || negb (os_owned r)) hw;
    Ret hw.

Fixpoint take_ownership (l : list (option ExtendedCapability)) (hw : HW) : outcome HW :=
  match l with
  | [] => Ret hw
  | Some (UsbLegacySupport ptr) :: l => hw ← request_hc_ownership ptr hw; take_ownership l hw
  | _ :: l => take_ownership l hw
  end.

Definition reset_controller (hw : HW) : outcome HW :=
  let '(s, hw) := read_usbsts hw in
  _ ← assert (hc_halted s);
  let hw := update_usbcmd set_host_controller_reset hw in
  '(_, hw) ← wait_while_busy fuel read_usbcmd host_controller_reset hw;
  '(_, hw) ← wait_while_busy fuel read_usbsts controller_not_ready hw;
  Ret hw.

Definition register_command_ring (ring : CommandRing) (hw : HW) : outcome HW :=
  let '(_, hw) := read_crcr hw in
  p ← aligned_64 (cr_base ring);
  Ret (write_crcr (mkCrcr true true true p) hw).

(** The scratchpad buffers: pages for the controller. *)
Fixpoint scratchpad_pages (n : nat) (x : Xhc HW) : outcome (list Z * Xhc HW) :=
  match n with
  | O => Ret ([], x)
  | S n =>
      '(r, allocator) ← KernelAlloc.kernel_alloc_with_boundary PAGE_SIZE (x_alloc x) PAGE_SIZE PAGE_SIZE;
      match r with
      | Err _ => Panic
      | Ok page =>
          '(l, x) ← scratchpad_pages n (set_alloc x allocator);
          Ret (page :: l, x)
      end
  end.

Definition scratchpad_buffers (dm : DeviceManager) (x : Xhc HW) : outcome (DeviceManager * Xhc HW) :=
  let n := max_scratchpad_buffers (x_hw x) in
  if 0 <? n then
    '(r, allocator) ← KernelAlloc.kernel_alloc_array_with_boundary 8 (x_alloc x) n 64 PAGE_SIZE;
    match r with
    | Err _ => Panic
    | Ok (array, _) =>
        '(pages, x) ← scratchpad_pages (Z.to_nat n) (set_alloc x allocator);
        let x := set_hw x (store_pointers array pages (x_hw x)) in
        dm ← set_scratchpad_buffer_array dm array;
        Ret (dm, x)
    end
  else Ret (dm, x).

Definition MAX_SLOTS : Z := 10.

Definition configure_device_context (x : Xhc HW) : outcome (DeviceManager * Xhc HW) :=
  let max_device_slots_enabled := Z.min (number_of_device_slots (x_hw x)) MAX_SLOTS in
  let '(_, hw) := read_config_register (x_hw x) in
  let x := set_hw x (write_config_register max_device_slots_enabled hw) in
  '(dm, x) ← device_manager_new max_device_slots_enabled x;
  '(dm, x) ← scratchpad_buffers dm x;
  let ptr_head := get_device_contexts_head_ptr dm in
  let '(_, hw) := read_dcbaap (x_hw x) in
  p ← aligned_64 ptr_head;
  '(_, hw) ← wait_while_busy fuel read_dcbaap (fun p => negb (p =? ptr_head)) (write_dcbaap p hw);
  Ret (dm, set_hw x hw).

Definition enable_interrupts (hw : HW) : HW :=
  let '(_, hw) := read_imod hw in
  let hw := write_imod 0 hw in
  let '(i, hw) := read_iman hw in
  let hw := write_iman (mkIman false true) hw in
  update_usbcmd set_interrupter_enable hw.

Definition EVENT_RING_BUF_SIZE : Z := 32.
Definition COMMAND_RING_BUF_SIZE : Z := 32.

(** [XhciController::new]; the memory of the rings and of the segment table is stored as the allocator
    has filled it. *)
Definition controller_new (manager : ClassDriverManager) (callbacks : C)
    (alloc : KernelAlloc.GlobalAllocator) (hw : HW) : outcome (XhciController (HW := HW) (C := C)) :=
  hw ← (match extended_capabilities hw with
        | Some l => take_ownership l hw
        | None => Ret hw
        end);
  let number_of_ports := hw_number_of_ports hw in
  let hw := update_usbcmd clear_interrupts hw in
  hw ← reset_controller hw;
  '(events, i, slots, alloc) ← event_ring_new alloc EVENT_RING_BUF_SIZE (interrupter hw);
  let hw := store_trbs (er_trb_buffer events).1 slots hw in
  let hw := store_segment_table (erstba i) (event_ring_segment_table events) hw in
  let hw := set_interrupter i hw in
  '(commands, alloc) ← command_ring_new alloc COMMAND_RING_BUF_SIZE;
  let hw := store_trbs (cr_base commands) (cr_buffer commands) hw in
  hw ← register_command_ring commands hw;
  '(dm, x) ← configure_device_context (mkXhc hw events commands UserEvents.new alloc);
  let x := set_hw x (enable_interrupts (x_hw x)) in
  Ret (mkController x dm manager callbacks number_of_ports port_state_new ∅).

(** * [run] and [init_xhci_controller] *)

Definition controller_run (c : XhciController (HW := HW) (C := C)) :
    outcome (XhciController (HW := HW) (C := C)) :=
  let hw := update_usbcmd set_run_stop (x_hw (c_x c)) in
  '(_, hw) ← wait_while_busy fuel read_usbsts hc_halted hw;
  Ret (set_x c (set_hw (c_x c) hw)).

(** The ports that already have a device are configured. *)
Definition configure_connected (port_idx : Z) (c : XhciController (HW := HW) (C := C)) :
    outcome (XhciController (HW := HW) (C := C)) :=
  '(portsc, c) ← read_portsc port_idx c;
  if current_connect_status portsc then configure_port fuel port_idx c else Ret c.

(** [registers_new] is [Registers::new] of the [xhci] crate, which asks the mapper for the registers
    at an address; [local_apic_id] is the register of the local APIC that holds the id of the
    processor. *)
Definition init_xhci_controller (registers_new : Z -> MemoryMapper -> outcome HW) (local_apic_id : Z)
    (manager : ClassDriverManager) (callbacks : C) (alloc : KernelAlloc.GlobalAllocator) (io : Io) :
    outcome (XhciController (HW := HW) (C := C) * Io) :=
  devices ← scan_all_bus io fuel;
  xhci_device ← unwrap (find_xhci devices);
  '(bar, io) ← read_bar xhci_device 0 io;
  xhc_bar ← unwrap bar;
  let bsp_local_apic_id := cast 8 (Z.shiftr local_apic_id 24) in
  io ← configure_msi_fixed_destination xhci_device fuel bsp_local_apic_id Level Fixed 64 0 io;
  registers ← registers_new (xhc_mmio_base xhc_bar) memory_mapper_new;
  c ← controller_new manager callbacks alloc registers;
  c ← controller_run c;
  c ← for_range 0 (number_of_ports c) configure_connected c;
  Ret (c, io).

End startup.
