(* ===== verification/HostController.v ===== *)
(** HostController: a controller as the xHCI specification describes its registers, with any
    latencies, and the start of the driver on it. *)
From Stdlib Require Import Sorted.
From S2P Require Import Prelude Allocator BitField Trb CycleRing.
From S2P Require Import Rings.
From S2P Require Import EventRing.
From S2P Require Import Descriptor UsbHost InputDriver Hub ClassDrivers.
From S2P Require Import Port.
From S2P Require Import Xhc.
From S2P Require Import Device.
From S2P Require Import DeviceManager.
From S2P Require Import Controller.
From S2P Require Import Mapper.
From S2P Require Import XhcSim.
From S2P Require Import ControllerInv.
From S2P Require Import Startup.
Import XhcSim.
#[local] Existing Instance bit_field_ref.

(** * The controller *)

(** What does not change: the number of ports, slots and scratchpad buffers, whether the firmware
    can own the controller, and after how many reads a reset completes, the controller is ready,
    it runs and the firmware releases it. *)
Record Constants := mkConstants {
  k_ports : Z; k_slots : Z; k_scratchpads : Z; k_legacy : bool;
  k_reset : nat; k_ready : nat; k_start : nat; k_release : nat;
}.

Record Regs := mkRegs {
  r_usbcmd : Usbcmd; r_crcr : Crcr; r_dcbaap : Z; r_config : Z; r_imod : Z; r_iman : Iman;
}.

(** The reads that are left. *)
Record Timers := mkTimers { t_reset : nat; t_ready : nat; t_start : nat; t_release : nat }.

(** [h_arrays] and [h_tables] are what the driver has stored; [h_resets] has the semaphores of firmware
    and system at the end of each reset. *)
Record HostHw := mkHost {
  h_constants : Constants;
  h_sim : SimHw;
  h_regs : Regs;
  h_halted : bool;
  h_legacy : Usblegsup;
  h_arrays : gmap Z (list Z);
  h_tables : gmap Z Erst.EventRingSegmentTableEntry;
  h_resets : list Usblegsup;
  h_timers : Timers;
}.

Definition with_sim s h : HostHw :=
  mkHost (h_constants h) s (h_regs h) (h_halted h) (h_legacy h) (h_arrays h) (h_tables h) (h_resets h) (h_timers h).
Definition with_regs r h : HostHw :=
  mkHost (h_constants h) (h_sim h) r (h_halted h) (h_legacy h) (h_arrays h) (h_tables h) (h_resets h) (h_timers h).
Definition with_halted b h : HostHw :=
  mkHost (h_constants h) (h_sim h) (h_regs h) b (h_legacy h) (h_arrays h) (h_tables h) (h_resets h) (h_timers h).
Definition with_legacy l h : HostHw :=
  mkHost (h_constants h) (h_sim h) (h_regs h) (h_halted h) l (h_arrays h) (h_tables h) (h_resets h) (h_timers h).
Definition with_arrays a h : HostHw :=
  mkHost (h_constants h) (h_sim h) (h_regs h) (h_halted h) (h_legacy h) a (h_tables h) (h_resets h) (h_timers h).
Definition with_tables m h : HostHw :=
  mkHost (h_constants h) (h_sim h) (h_regs h) (h_halted h) (h_legacy h) (h_arrays h) m (h_resets h) (h_timers h).
Definition with_resets l h : HostHw :=
  mkHost (h_constants h) (h_sim h) (h_regs h) (h_halted h) (h_legacy h) (h_arrays h) (h_tables h) l (h_timers h).
Definition with_timers t h : HostHw :=
  mkHost (h_constants h) (h_sim h) (h_regs h) (h_halted h) (h_legacy h) (h_arrays h) (h_tables h) (h_resets h) t.

Definition no_command : Usbcmd := mkUsbcmd false false false false false.
Definition initial_regs (c : Usbcmd) : Regs := mkRegs c (mkCrcr false false false 0) 0 0 4000 (mkIman false false).

Definition set_usbcmd c (r : Regs) : Regs := mkRegs c (r_crcr r) (r_dcbaap r) (r_config r) (r_imod r) (r_iman r).
Definition set_crcr c (r : Regs) : Regs := mkRegs (r_usbcmd r) c (r_dcbaap r) (r_config r) (r_imod r) (r_iman r).
Definition set_dcbaap p (r : Regs) : Regs := mkRegs (r_usbcmd r) (r_crcr r) p (r_config r) (r_imod r) (r_iman r).
Definition set_config n (r : Regs) : Regs := mkRegs (r_usbcmd r) (r_crcr r) (r_dcbaap r) n (r_imod r) (r_iman r).
Definition set_imod n (r : Regs) : Regs := mkRegs (r_usbcmd r) (r_crcr r) (r_dcbaap r) (r_config r) n (r_iman r).
Definition set_iman i (r : Regs) : Regs := mkRegs (r_usbcmd r) (r_crcr r) (r_dcbaap r) (r_config r) (r_imod r) i.

(** The command register: a reset takes all registers back to their initial values and then clears
    its bit; otherwise the controller starts, or stays halted. *)
Definition host_write_usbcmd (c : Usbcmd) (h : HostHw) : HostHw :=
  if host_controller_reset c then
    mkHost (h_constants h) (with_interrupter (mkInterrupter 0 (0 : Erdp) 0) (h_sim h))
      (initial_regs (mkUsbcmd false true false false false)) true (h_legacy h) (h_arrays h) (h_tables h)
      (h_resets h)
      (mkTimers (k_reset (h_constants h)) (k_ready (h_constants h)) 0 (t_release (h_timers h)))
  else
    let t := h_timers h in
    with_timers (mkTimers (t_reset t) (t_ready t) (k_start (h_constants h)) (t_release t))
      (with_halted (if run_stop c then h_halted h else true) (with_regs (set_usbcmd c (h_regs h)) h)).

Definition host_read_usbcmd (h : HostHw) : Usbcmd * HostHw :=
  let c := r_usbcmd (h_regs h) in
  let t := h_timers h in
  if host_controller_reset c then
    match t_reset t with
    | O => (no_command, with_resets (h_resets h ++ [h_legacy h]) (with_regs (set_usbcmd no_command (h_regs h)) h))
    | S n => (c, with_timers (mkTimers n (t_ready t) (t_start t) (t_release t)) h)
    end
  else (c, h).

Definition host_read_usbsts (h : HostHw) : Usbsts * HostHw :=
  let t := h_timers h in
  let starting := run_stop (r_usbcmd (h_regs h)) && h_halted h in
  let done := starting && (t_start t =? 0)%nat in
  (mkUsbsts (h_halted h && negb done) (negb (t_ready t =? 0)%nat),
   with_timers (mkTimers (t_reset t) (pred (t_ready t)) (if starting then pred (t_start t) else t_start t)
                  (t_release t))
     (with_halted (h_halted h && negb done) h)).

(** The semaphores of the firmware and of the system. *)
Definition host_read_usblegsup (_ : Z) (h : HostHw) : Usblegsup * HostHw :=
  let l := h_legacy h in
  let t := h_timers h in
  if os_owned l && bios_owned l then
    match t_release t with
    | O => (mkUsblegsup false true, with_legacy (mkUsblegsup false true) h)
    | S n => (l, with_timers (mkTimers (t_reset t) (t_ready t) (t_start t) n) h)
    end
  else (l, h).

#[global] Instance host_registers : HostRegisters HostHw := {|
  hw_number_of_ports h := k_ports (h_constants h);
  number_of_device_slots h := k_slots (h_constants h);
  max_scratchpad_buffers h := k_scratchpads (h_constants h);
  extended_capabilities h := if k_legacy (h_constants h) then
    Some [Some OtherCapability; None; Some (UsbLegacySupport 0)] else None;
  read_usblegsup := host_read_usblegsup;
  write_usblegsup _ l h :=
    let t := h_timers h in
    with_timers (mkTimers (t_reset t) (t_ready t) (t_start t) (k_release (h_constants h))) (with_legacy l h);
  read_usbcmd := host_read_usbcmd;
  write_usbcmd := host_write_usbcmd;
  read_usbsts := host_read_usbsts;
  read_crcr h := (mkCrcr false false false 0, h);
  write_crcr c h := with_regs (set_crcr c (h_regs h)) h;
  read_dcbaap h := (r_dcbaap (h_regs h), h);
  write_dcbaap p h := with_regs (set_dcbaap p (h_regs h)) h;
  read_config_register h := (r_config (h_regs h), h);
  write_config_register n h := with_regs (set_config n (h_regs h)) h;
  read_imod h := (r_imod (h_regs h), h);
  write_imod n h := with_regs (set_imod n (h_regs h)) h;
  read_iman h := (r_iman (h_regs h), h);
  write_iman i h := with_regs (set_iman i (h_regs h)) h;
  store_pointers p l h := with_arrays (<[p := l]> (h_arrays h)) h;
  store_segment_table p e h := with_tables (<[p := e]> (h_tables h)) h;
|}.

#[global] Instance host_hw : XhcHw HostHw := {|
  interrupter h := interrupter (h_sim h);
  set_interrupter i h := with_sim (set_interrupter i (h_sim h)) h;
  trb_at h := trb_at (h_sim h);
  store_trbs base buf h := with_sim (store_trbs base buf (h_sim h)) h;
  place_buffer l h := let '(p, s) := place_buffer l (h_sim h) in (p, with_sim s h);
  bytes_at h := bytes_at (h_sim h);
  ring_doorbell slot dci h := s ← ring_doorbell slot dci (h_sim h); Ret (with_sim s h);
  output_device_address h := output_device_address (h_sim h);
  let_time_pass h := with_sim (let_time_pass (h_sim h)) h;
|}.

#[global] Instance host_ports : PortRegisters HostHw := {|
  port_read p h := '(v, s) ← port_read p (h_sim h); Ret (v, with_sim s h);
  port_write p v h := s ← port_write p v (h_sim h); Ret (with_sim s h);
|}.

(** * The waits *)

Section waits.
Context (fuel : nat).

Lemma wait_reset_done h : host_controller_reset (r_usbcmd (h_regs h)) = true -> (t_reset (h_timers h) < fuel)%nat ->
  exists t, wait_while_busy fuel read_usbcmd host_controller_reset h =
    Ret (no_command, with_timers t (with_resets (h_resets h ++ [h_legacy h])
      (with_regs (set_usbcmd no_command (h_regs h)) h))) /\
    t_ready t = t_ready (h_timers h).
Proof.
  remember (t_reset (h_timers h)) as n eqn:Hn. revert h Hn. generalize fuel as k.
  induction n as [|n IH]; intros k h Hn Hbit Hk; (destruct k as [|k]; [lia|]); cbn [wait_while_busy];
    cbn [read_usbcmd host_registers]; unfold host_read_usbcmd; rewrite Hbit, <- Hn.
  - eexists (h_timers h). cbn. destruct h; done.
  - rewrite Hbit. destruct (IH k (with_timers (mkTimers n (t_ready (h_timers h)) (t_start (h_timers h))
      (t_release (h_timers h))) h)) as (t & Hrun & Ht); [done|done|lia|]. exists t.
    split; [etransitivity; [exact Hrun|by destruct h]|done].
Qed.

Lemma wait_ready_done h : run_stop (r_usbcmd (h_regs h)) = false -> (t_ready (h_timers h) < fuel)%nat ->
  exists s t, wait_while_busy fuel read_usbsts controller_not_ready h = Ret (s, with_timers t h).
Proof.
  remember (t_ready (h_timers h)) as n eqn:Hn. revert h Hn. generalize fuel as k.
  induction n as [|n IH]; intros k h Hn Hrs Hk; (destruct k as [|k]; [lia|]); cbn [wait_while_busy];
    cbn [read_usbsts host_registers]; unfold host_read_usbsts; rewrite Hrs, <- Hn; cbn [andb negb controller_not_ready Nat.eqb].
  - eexists _, _. unfold with_halted. rewrite andb_true_r. destruct h. reflexivity.
  - match goal with |- context [wait_while_busy k _ _ ?h1] => destruct (IH k h1) as (s & t & Hrun); [done|done|lia|] end.
    exists s, t. etransitivity; [exact Hrun|]. unfold with_halted. rewrite andb_true_r. by destruct h.
Qed.

(** A controller that is told to run. *)
Lemma wait_running h : run_stop (r_usbcmd (h_regs h)) = true -> (t_start (h_timers h) < fuel)%nat ->
  exists s t, wait_while_busy fuel read_usbsts hc_halted h = Ret (s, with_timers t (with_halted false h)).
Proof.
  remember (t_start (h_timers h)) as n eqn:Hn. revert h Hn. generalize fuel as k.
  induction n as [|n IH]; intros k h Hn Hrs Hk; (destruct k as [|k]; [lia|]); cbn [wait_while_busy];
    cbn [read_usbsts host_registers]; unfold host_read_usbsts; rewrite Hrs, <- Hn; cbn [andb Nat.eqb hc_halted];
    destruct (h_halted h) eqn:Hh; cbn [andb negb].
  1, 2, 4: eexists _, _; unfold with_halted, with_timers; destruct h; reflexivity.
  match goal with |- context [wait_while_busy k _ _ ?h1] => destruct (IH k h1) as (s & t & Hrun); [done|done|lia|] end.
  exists s, t. etransitivity; [exact Hrun|by destruct h].
Qed.

Lemma wait_released h : os_owned (h_legacy h) = true -> (t_release (h_timers h) < fuel)%nat ->
  exists l t, wait_while_busy fuel (read_usblegsup 0) (fun r => bios_owned r || negb (os_owned r)) h =
    Ret (l, with_timers t (with_legacy (mkUsblegsup false true) h)).
Proof.
  remember (t_release (h_timers h)) as n eqn:Hn. revert h Hn. generalize fuel as k.
  induction n as [|n IH]; intros k h Hn Hos Hk; (destruct k as [|k]; [lia|]); cbn [wait_while_busy];
    cbn [read_usblegsup host_registers]; unfold host_read_usblegsup; rewrite Hos, <- Hn;
    destruct (bios_owned (h_legacy h)) eqn:Hb; cbn [andb orb negb os_owned bios_owned]; rewrite ?Hos, ?Hb; cbn [orb negb].
  1, 2, 4: eexists _, (h_timers h); unfold with_legacy, with_timers; destruct h as [? ? ? ? [? ?] ? ? ? ?]; cbn in *;
    subst; reflexivity.
  match goal with |- context [wait_while_busy k _ _ ?h1] => destruct (IH k h1) as (s & t & Hrun); [done|done|lia|] end.
  exists s, t. etransitivity; [exact Hrun|by destruct h].
Qed.

End waits.

(** * The steps *)

(** A controller that waits for the driver. *)
Definition idle (h : HostHw) : Prop :=
  h_halted h = true /\ run_stop (r_usbcmd (h_regs h)) = false /\
  host_controller_reset (r_usbcmd (h_regs h)) = false.

(** The driver waits long enough. *)
Definition patient (fuel : nat) (k : Constants) : Prop :=
  (k_reset k < fuel)%nat /\ (k_ready k < fuel)%nat /\ (k_start k < fuel)%nat /\ (k_release k < fuel)%nat.

Lemma read_owned h : os_owned (h_legacy h) = true ->
  exists r t l, host_read_usblegsup 0 h = (r, with_timers t (with_legacy l h)) /\ os_owned r = true.
Proof.
  intros Hos. unfold host_read_usblegsup. rewrite Hos. cbn [andb].
  destruct (bios_owned (h_legacy h)); [destruct (t_release (h_timers h))|].
  - by exists (mkUsblegsup false true), (h_timers h), (mkUsblegsup false true); destruct h.
  - eexists _, _, (h_legacy h). split; [by destruct h|done].
  - by exists (h_legacy h), (h_timers h), (h_legacy h); destruct h.
Qed.

Lemma take_ownership_done fuel h : patient fuel (h_constants h) ->
  exists t l, match extended_capabilities h with
              | Some l => take_ownership fuel l h
              | None => Ret h
              end = Ret (with_timers t (with_legacy l h)) /\
    (k_legacy (h_constants h) = true -> os_owned (h_legacy h) = false -> l = mkUsblegsup false true).
Proof.
  intros (_ & _ & _ & Hk). cbn [extended_capabilities host_registers].
  destruct (k_legacy (h_constants h)) eqn:Hl; [|by exists (h_timers h), (h_legacy h); destruct h].
  cbn [take_ownership]. unfold request_hc_ownership. cbn [read_usblegsup host_registers].
  destruct (os_owned (h_legacy h)) eqn:Hos.
  - destruct (read_owned h Hos) as (r & t & l & -> & Hr). rewrite Hr. by exists t, l.
  - assert (host_read_usblegsup 0 h = (h_legacy h, h)) as Hread by (unfold host_read_usblegsup; by rewrite Hos).
    rewrite Hread, Hos, Hread.
    match goal with |- context [wait_while_busy fuel ?r ?b ?h1] =>
      assert (exists l t, wait_while_busy fuel r b h1 =
        Ret (l, with_timers t (with_legacy (mkUsblegsup false true) h))) as (l & t & ->) end.
    { destruct (wait_released fuel (with_timers (mkTimers (t_reset (h_timers h)) (t_ready (h_timers h))
        (t_start (h_timers h)) (k_release (h_constants h))) (with_legacy (mkUsblegsup (bios_owned (h_legacy h)) true) h)))
        as (l & t & Hrun); [done|exact Hk|]. exists l, t. etransitivity; [exact Hrun|by destruct h]. }
    by exists t, (mkUsblegsup false true).
Qed.

Lemma reset_controller_done fuel h : patient fuel (h_constants h) -> idle h ->
  exists t, reset_controller fuel h =
    Ret (mkHost (h_constants h) (with_interrupter (mkInterrupter 0 (0 : Erdp) 0) (h_sim h))
           (initial_regs no_command) true (h_legacy h) (h_arrays h) (h_tables h)
           (h_resets h ++ [h_legacy h]) t).
Proof.
  intros (Hk1 & Hk2 & _) (Hh & Hrs & Hhcr). unfold reset_controller, update_usbcmd.
  assert (exists t, read_usbsts h = (mkUsbsts true (negb (t_ready (h_timers h) =? 0)%nat), with_timers t h))
    as (t0 & ->).
  { cbn [read_usbsts host_registers]. unfold host_read_usbsts. rewrite Hrs, Hh. cbn [andb negb].
    eexists. f_equal. cbn [h_timers]. rewrite <- Hh. unfold with_halted. cbn [andb negb]. by destruct h. }
  cbn [hc_halted assert mbind outcome_bind].
  assert (read_usbcmd (with_timers t0 h) = (r_usbcmd (h_regs h), with_timers t0 h)) as ->
    by (cbn [read_usbcmd host_registers]; unfold host_read_usbcmd; cbn [h_regs with_timers]; by rewrite Hhcr).
  set (h1 := write_usbcmd _ _).
  destruct (wait_reset_done fuel h1) as (t1 & Hrun1 & Ht1); [done|done|]. rewrite Hrun1. cbn [mbind outcome_bind].
  match goal with |- context [wait_while_busy fuel read_usbsts _ ?h2] =>
    destruct (wait_ready_done fuel h2) as (s & t2 & Hrun2); [done| |] end.
  { cbn [h_timers with_timers]. by rewrite Ht1. }
  rewrite Hrun2. cbn [mbind outcome_bind]. by exists t2.
Qed.

(** * The allocations *)

(** At most [k] bytes are used by [n] allocations. *)
Definition took (a a' : KernelAlloc.GlobalAllocator) (k n : Z) : Prop :=
  Bump.next a <= Bump.next a' <= Bump.next a + k /\ Bump.heap_end a' = Bump.heap_end a /\
  Bump.n_allocations a <= Bump.n_allocations a' <= Bump.n_allocations a + n.

Lemma took_trans a b c k l m n : took a b k m -> took b c l n -> took a c (k + l) (m + n).
Proof. unfold took. lia. Qed.

Lemma granted_took a a' sz k p : granted a a' sz k p -> took a a' k 1 /\ Bump.next a <= p /\ p + sz <= Bump.next a'.
Proof. unfold granted, took. lia. Qed.

Lemma room_after a a' k l n : took a a' k n -> has_room a (k + l) -> has_room a' l.
Proof. unfold took, has_room. lia. Qed.

Lemma room_less a k l : has_room a k -> l <= k -> has_room a l.
Proof. unfold has_room. lia. Qed.

(** A count of allocations that does not overflow. *)
Definition few (a : KernelAlloc.GlobalAllocator) (n : Z) : Prop := Bump.n_allocations a + n < 2 ^ 64.

Lemma few_after a a' k n m : took a a' k n -> few a (n + m) -> few a' m.
Proof. unfold took, few. lia. Qed.

Definition EVENT_ROOM : Z := 0x60000.
Definition COMMAND_ROOM : Z := 0x50000.

Lemma event_ring_new_room a (i : Interrupter) : has_room a EVENT_ROOM -> few a 2 ->
  exists ring (i' : Interrupter) slots a' p q, event_ring_new a EVENT_RING_BUF_SIZE i = Ret (ring, i', slots, a') /\
    er_trb_buffer ring = (p, EVENT_RING_BUF_SIZE) /\ (64 | p) /\ Bump.next a <= p /\
    event_ring_dequeue_pointer (erdp i') = p /\ erstsz i' = 1 /\
    erstba i' = q /\ (64 | q) /\ p + 16 * EVENT_RING_BUF_SIZE <= q /\
    Erst.ring_segment_base_address (event_ring_segment_table ring) = p /\
    Erst.ring_segment_size (event_ring_segment_table ring) = Ret EVENT_RING_BUF_SIZE /\
    er_cycle_bit ring = true /\ took a a' EVENT_ROOM 2.
Proof.
  intros Hroom Hfew. unfold event_ring_new, EVENT_ROOM, EVENT_RING_BUF_SIZE, few, TRB_SIZE, PAGE_SIZE in *.
  destruct (alloc_array_default_room a (∅ : gmap Z TrbRaw) 16 32 64 (64 * 4096) empty_event)
    as (p & a1 & m & Hrun & [Ht1 Hp]%granted_took & Hdiv); try done.
  { eapply room_less; [exact Hroom|done]. } { lia. }
  rewrite Hrun. cbn [mbind outcome_bind]. change (cast 16 32) with 32. cbn [Z.eqb Pos.eqb assert mbind outcome_bind].
  pose proof Hroom as (Hpos & Hr & Hend). destruct Ht1 as (Hn1 & He1 & Hc1).
  assert (in_usize p) as Hu by (unfold in_usize; lia).
  destruct (erst_new_spec p 32 Hu) as (e & -> & Hbase & Hsize); [unfold in_u16; lia|done|].
  cbn [mbind outcome_bind].
  destruct (alloc_box_default_room a1 (∅ : gmap Z Erst.EventRingSegmentTableEntry) 64 64 (64 * 1024) e)
    as (q & a2 & m2 & Hrun2 & [Ht2 Hq]%granted_took & Hdivq); try done.
  { split; [lia|]. lia. } { lia. }
  rewrite Hrun2. cbn [mbind outcome_bind].
  destruct (set_event_ring_dequeue_pointer_spec p (erdp i) Hu) as (d & -> & Hd);
    [etransitivity; [|exact Hdiv]; by exists 4|]. cbn [mbind outcome_bind].
  eexists _, _, _, a2, p, q. split; [reflexivity|]. destruct Ht2 as (Hn2 & He2 & Hc2).
  cbn. split_and!; try done; unfold took; lia.
Qed.

Lemma command_ring_new_room a : has_room a COMMAND_ROOM -> few a 1 ->
  exists ring a', command_ring_new a COMMAND_RING_BUF_SIZE = Ret (ring, a') /\ (64 | cr_base ring) /\
    Bump.next a <= cr_base ring /\ cr_cycle_bit ring = true /\ took a a' COMMAND_ROOM 1.
Proof.
  intros Hroom Hfew. unfold command_ring_new, COMMAND_ROOM, COMMAND_RING_BUF_SIZE, few, TRB_SIZE, PAGE_SIZE in *.
  destruct (alloc_array_default_room a (∅ : gmap Z TrbRaw) 16 32 64 (64 * 4096) zero_trb)
    as (p & a1 & m & Hrun & [Ht1 Hp]%granted_took & Hdiv); try done.
  { eapply room_less; [exact Hroom|done]. }
  rewrite Hrun. cbn [mbind outcome_bind]. eexists _, a1. split; [reflexivity|]. cbn. split_and!; try done; [lia|].
  unfold took in *. lia.
Qed.

(** The devices and their contexts. *)
Lemma device_manager_new_room m (x : Xhc HostHw) : 0 <= m <= MAX_SLOTS -> has_room (x_alloc x) 0x2000 ->
  few (x_alloc x) 1 ->
  exists p a', device_manager_new m x = Ret (mkDeviceManager p (replicate (Z.to_nat (m + 1)) 0)
      (replicate (Z.to_nat (m + 1)) None), set_alloc x a') /\
    (64 | p) /\ took (x_alloc x) a' 0x2000 1.
Proof.
  intros Hm Hroom Hfew. unfold device_manager_new, MAX_SLOTS, few in *.
  destruct (alloc_array_default_room (x_alloc x) (∅ : gmap Z Z) 8 (m + 1) 64 PAGE_SIZE 0)
    as (p & a1 & mem & Hrun & [Ht1 Hp]%granted_took & Hdiv); try done; try (unfold PAGE_SIZE; lia).
  { eapply room_less; [exact Hroom|unfold PAGE_SIZE; lia]. }
  rewrite Hrun. cbn [mbind outcome_bind]. exists p, a1. split; [done|]. split; [done|].
  unfold took, PAGE_SIZE in *. lia.
Qed.

(** Pages that follow each other. *)
Definition pages_apart (pages : list Z) : Prop :=
  Forall (fun p => (PAGE_SIZE | p)) pages /\ StronglySorted (fun p q => p + PAGE_SIZE <= q) pages.

Lemma scratchpad_pages_room n : forall x : Xhc HostHw,
  has_room (x_alloc x) (0x3000 * Z.of_nat n) -> few (x_alloc x) (Z.of_nat n) ->
  exists pages a', scratchpad_pages n x = Ret (pages, set_alloc x a') /\ length pages = n /\
    pages_apart pages /\ Forall (fun p => Bump.next (x_alloc x) <= p) pages /\
    took (x_alloc x) a' (0x3000 * Z.of_nat n) (Z.of_nat n).
Proof.
  induction n as [|n IH]; intros x Hroom Hfew; cbn [scratchpad_pages].
  { exists [], (x_alloc x). split; [by destruct x|]. split; [done|]. split; [by repeat constructor|].
    split; [constructor|]. unfold took. lia. }
  replace (0x3000 * Z.of_nat (S n)) with (0x3000 + 0x3000 * Z.of_nat n) in * by lia.
  destruct (alloc_box_room (x_alloc x) PAGE_SIZE PAGE_SIZE PAGE_SIZE)
    as (p & a1 & Hrun & [Ht1 [Hp Hp']]%granted_took & Hdiv); try done.
  { eapply room_less; [exact Hroom|unfold PAGE_SIZE; lia]. } { unfold few in Hfew. lia. }
  change (PAGE_SIZE + PAGE_SIZE + PAGE_SIZE) with 0x3000 in Ht1. rewrite Hrun. cbn [mbind outcome_bind].
  destruct (IH (set_alloc x a1)) as (pages & a2 & Hrun2 & Hlen & [Hal Hsort] & Hge & Ht2); cbn [x_alloc set_alloc] in *.
  { by eapply room_after. } { eapply few_after; [exact Ht1|]. unfold few in *. lia. }
  rewrite Hrun2. cbn [mbind outcome_bind]. exists (p :: pages), a2. split; [by destruct x|].
  split; [simpl; by rewrite Hlen|]. split; [|split].
  - split; [by constructor|]. constructor; [done|]. eapply Forall_impl; [exact Hge|]. simpl. lia.
  - constructor; [done|]. destruct Ht1. eapply Forall_impl; [exact Hge|]. simpl. lia.
  - replace (Z.of_nat (S n)) with (1 + Z.of_nat n) by lia. by eapply took_trans.
Qed.

Lemma scratchpad_buffers_room dm (x : Xhc HostHw) n :
  max_scratchpad_buffers (x_hw x) = n -> 0 <= n <= 512 -> (0 < length (device_contexts dm))%nat ->
  has_room (x_alloc x) (0x3000 * (1 + n)) -> few (x_alloc x) (1 + n) ->
  exists dm' arrays a', scratchpad_buffers dm x =
      Ret (dm', set_alloc (set_hw x (with_arrays arrays (x_hw x))) a') /\
    device_contexts_ptr dm' = device_contexts_ptr dm /\ device_context_infos dm' = device_context_infos dm /\
    length (device_contexts dm') = length (device_contexts dm) /\
    (0 < n -> exists array pages, device_contexts dm' !! 0%nat = Some array /\ arrays !! array = Some pages /\
       (64 | array) /\ Z.of_nat (length pages) = n /\ pages_apart pages) /\
    took (x_alloc x) a' (0x3000 * (1 + n)) (1 + n).
Proof.
  intros Hmax Hn Hlen Hroom Hfew. unfold scratchpad_buffers. rewrite Hmax.
  destruct (Z.ltb_spec 0 n) as [Hpos|Hzero].
  - replace (0x3000 * (1 + n)) with (0x3000 + 0x3000 * n) in * by lia.
    destruct (alloc_array_room (x_alloc x) 8 n 64 PAGE_SIZE)
      as (array & a1 & Hrun & [Ht1 [Hp Hp']]%granted_took & Hdiv); try done; try (unfold PAGE_SIZE; lia).
    { eapply room_less; [exact Hroom|unfold PAGE_SIZE; lia]. } { unfold few in Hfew. lia. }
    assert (took (x_alloc x) a1 0x3000 1) as Ht by (unfold took, PAGE_SIZE in *; lia).
    rewrite Hrun. cbn [mbind outcome_bind].
    destruct (scratchpad_pages_room (Z.to_nat n) (set_alloc x a1)) as (pages & a2 & Hrun2 & Hl & Hap & _ & Ht2);
      cbn [x_alloc set_alloc]; rewrite ?Z2Nat.id by lia.
    { by eapply room_after. } { by eapply few_after. }
    rewrite Hrun2. cbn [mbind outcome_bind]. unfold set_scratchpad_buffer_array, set_device_context.
    destruct (device_contexts dm) as [|c0 contexts] eqn:Hc; [simpl in Hlen; lia|]. cbn.
    eexists _, _, a2. split; [reflexivity|]. cbn. split_and!; [done..| |].
    + intros _. exists array, pages. rewrite lookup_insert_eq. split_and!; try done. lia.
    + cbn [x_alloc set_alloc] in Ht2. rewrite Z2Nat.id in Ht2 by lia. by eapply took_trans.
  - assert (n = 0) as -> by lia. exists dm, (h_arrays (x_hw x)), (x_alloc x).
    split; [by destruct x as [[]]|]. split_and!; try done; unfold took; lia.
Qed.

Definition CONTEXT_ROOM (n : Z) : Z := 0x2000 + 0x3000 * (1 + n).

Lemma configure_device_context_room fuel (x : Xhc HostHw) n : (0 < fuel)%nat ->
  max_scratchpad_buffers (x_hw x) = n -> 0 <= n <= 512 -> 0 <= number_of_device_slots (x_hw x) ->
  has_room (x_alloc x) (CONTEXT_ROOM n) -> few (x_alloc x) (2 + n) ->
  let m := Z.min (number_of_device_slots (x_hw x)) MAX_SLOTS in
  exists dm arrays a', configure_device_context fuel x =
      Ret (dm, set_alloc (set_hw x (with_arrays arrays
        (with_regs (set_dcbaap (device_contexts_ptr dm) (set_config m (h_regs (x_hw x)))) (x_hw x)))) a') /\
    (64 | device_contexts_ptr dm) /\ device_context_infos dm = replicate (Z.to_nat (m + 1)) None /\
    length (device_contexts dm) = Z.to_nat (m + 1) /\
    (0 < n -> exists array pages, device_contexts dm !! 0%nat = Some array /\ arrays !! array = Some pages /\
       (64 | array) /\ Z.of_nat (length pages) = n /\ pages_apart pages).
Proof.
  intros Hfuel Hmax Hn Hslots Hroom Hfew m. unfold configure_device_context, CONTEXT_ROOM in *. fold m.
  cbn [read_config_register write_config_register host_registers].
  set (x1 := set_hw x _). assert (has_room (x_alloc x1) (0x2000 + 0x3000 * (1 + n))) as Hroom1 by done.
  assert (few (x_alloc x1) (1 + (1 + n))) as Hfew1 by (unfold few in *; change (x_alloc x1) with (x_alloc x); lia).
  destruct (device_manager_new_room m x1) as (p & a1 & -> & Hdiv & Ht1);
    [unfold m, MAX_SLOTS; lia|eapply room_less; [exact Hroom1|lia]|unfold few in *; lia|].
  cbn [mbind outcome_bind]. set (dm := mkDeviceManager p _ _).
  destruct (scratchpad_buffers_room dm (set_alloc x1 a1) n) as
    (dm' & arrays & a2 & -> & Hptr & Hinfos & Hlen & Hscratch & _); [done|done| | | |].
  { cbn. rewrite length_replicate. unfold m, MAX_SLOTS. lia. }
  { by eapply room_after. }
  { by eapply few_after. }
  cbn [mbind outcome_bind]. unfold get_device_contexts_head_ptr. cbn [read_dcbaap write_dcbaap host_registers].
  rewrite Hptr. cbn [device_contexts_ptr dm]. unfold aligned_64.
  rewrite (proj2 (Z.eqb_eq _ _)) by (by apply Z.mod_divide). cbn [assert mbind outcome_bind].
  destruct fuel as [|fuel]; [lia|]. cbn [wait_while_busy read_dcbaap host_registers].
  cbn [h_regs with_regs set_dcbaap r_dcbaap]. rewrite Z.eqb_refl. cbn [negb mbind outcome_bind].
  exists dm', arrays, a2. rewrite Hptr, Hinfos, Hlen. split; [|split_and!; try done].
  - by destruct x as [[]].
  - cbn. by rewrite length_replicate.
Qed.

(** * Property *)

Definition START_ROOM (n : Z) : Z := EVENT_ROOM + (COMMAND_ROOM + CONTEXT_ROOM n).

Section start.
Context (fuel : nat) {C : Type} (manager : ClassDriverManager) (callbacks : C).

(** The registers hold what the driver has: its command ring, its event ring, with the table of its
    one segment, its contexts and its interrupts. *)
Definition registers_programmed (c : XhciController (HW := HostHw) (C := C)) : Prop :=
  let h := x_hw (c_x c) in
  let r := h_regs h in
  command_ring_pointer (r_crcr r) = cr_base (x_commands (c_x c)) /\
  ring_cycle_state (r_crcr r) = cr_cycle_bit (x_commands (c_x c)) /\ (64 | cr_base (x_commands (c_x c))) /\
  event_ring_dequeue_pointer (erdp (interrupter h)) = (er_trb_buffer (x_events (c_x c))).1 /\
  erstsz (interrupter h) = 1 /\ (64 | erstba (interrupter h)) /\
  (exists e, h_tables h !! erstba (interrupter h) = Some e /\
     e = event_ring_segment_table (x_events (c_x c)) /\
     Erst.ring_segment_base_address e = (er_trb_buffer (x_events (c_x c))).1 /\
     Erst.ring_segment_size e = Ret (er_trb_buffer (x_events (c_x c))).2) /\
  r_dcbaap r = device_contexts_ptr (c_devices c) /\ (64 | r_dcbaap r) /\
  r_config r = Z.min (k_slots (h_constants h)) MAX_SLOTS /\
  Z.of_nat (length (device_contexts (c_devices c))) = r_config r + 1 /\
  interrupt_enable (r_iman r) = true /\ interrupter_enable (r_usbcmd r) = true.

(** The first context points to the scratchpad buffers. *)
Definition scratchpads_given (c : XhciController (HW := HostHw) (C := C)) : Prop :=
  let n := k_scratchpads (h_constants (x_hw (c_x c))) in
  0 < n -> exists array pages, device_contexts (c_devices c) !! 0%nat = Some array /\
    h_arrays (x_hw (c_x c)) !! array = Some pages /\ (64 | array) /\ Z.of_nat (length pages) = n /\
    pages_apart pages.

Lemma no_devices_new c n : port_slot_id_map c = ∅ -> device_context_infos (c_devices c) = replicate n None ->
  no_devices (HW := HostHw) (C := C) c.
Proof.
  intros Hm Hi. split; [done|]. intros k [d Hd]. rewrite Hi in Hd. by apply lookup_replicate in Hd as [? _].
Qed.

Lemma clear_interrupts_done h t l : idle h ->
  exists t1 r1, update_usbcmd clear_interrupts (with_timers t (with_legacy l h)) =
      mkHost (h_constants h) (h_sim h) r1 true l (h_arrays h) (h_tables h) (h_resets h) t1 /\
    idle (mkHost (h_constants h) (h_sim h) r1 true l (h_arrays h) (h_tables h) (h_resets h) t1).
Proof.
  intros (Hh & Hrs & Hhcr). unfold update_usbcmd. cbn [read_usbcmd write_usbcmd host_registers].
  unfold host_read_usbcmd. cbn [h_regs with_timers with_legacy]. rewrite Hhcr. unfold host_write_usbcmd.
  cbn [host_controller_reset clear_interrupts run_stop]. rewrite Hhcr, Hrs.
  eexists _, _. split; [reflexivity|]. done.
Qed.

Lemma controller_new_done a h : patient fuel (h_constants h) -> idle h ->
  0 <= k_scratchpads (h_constants h) <= 512 -> 0 <= k_slots (h_constants h) ->
  has_room a (START_ROOM (k_scratchpads (h_constants h))) -> few a (5 + k_scratchpads (h_constants h)) ->
  exists c, controller_new fuel manager callbacks a h = Ret c /\ no_devices c /\
    port_configure_state c = port_state_new /\ number_of_ports c = k_ports (h_constants h) /\
    h_constants (x_hw (c_x c)) = h_constants h /\ h_halted (x_hw (c_x c)) = true /\
    host_controller_reset (r_usbcmd (h_regs (x_hw (c_x c)))) = false /\
    registers_programmed c /\ scratchpads_given c /\
    h_resets (x_hw (c_x c)) = h_resets h ++ [h_legacy (x_hw (c_x c))] /\
    (k_legacy (h_constants h) = true -> os_owned (h_legacy h) = false ->
       h_legacy (x_hw (c_x c)) = mkUsblegsup false true).
Proof.
  intros Hpat Hidle Hn Hslots Hroom Hfew. unfold controller_new, START_ROOM in *.
  destruct (take_ownership_done fuel h Hpat) as (t & l & -> & Hleg). cbn [mbind outcome_bind].
  destruct (clear_interrupts_done h t l Hidle) as (t1 & r1 & Hrun1 & Hidle1). rewrite Hrun1.
  destruct (reset_controller_done fuel
    (mkHost (h_constants h) (h_sim h) r1 true l (h_arrays h) (h_tables h) (h_resets h) t1) Hpat Hidle1)
    as (t2 & ->). cbn [mbind outcome_bind h_constants h_sim h_arrays h_tables h_resets h_legacy].
  match goal with |- context [event_ring_new a EVENT_RING_BUF_SIZE ?i0] =>
    destruct (event_ring_new_room a i0) as
      (events & i & slots & a1 & p & q & Hev & Hbuf & Hal & _ & Herdp & Hsz & Hq & Hdivq & Hpq & Hseg & Hlen32 & _ & Ht1) end;
    [eapply room_less; [exact Hroom|unfold COMMAND_ROOM, CONTEXT_ROOM; lia]|unfold few in *; lia|].
  rewrite Hev. cbn [mbind outcome_bind].
  set (n := k_scratchpads (h_constants h)) in *.
  assert (has_room a1 (COMMAND_ROOM + CONTEXT_ROOM n)) as Hroom1 by (by eapply room_after).
  assert (few a1 (1 + (2 + n))) as Hfew1 by (eapply few_after; [exact Ht1|]; unfold few in *; lia).
  destruct (command_ring_new_room a1) as (commands & a2 & Hcmd & Halc & _ & Hcyc & Ht2);
    [eapply room_less; [exact Hroom1|unfold CONTEXT_ROOM; lia]|unfold few in *; lia|].
  rewrite Hcmd. cbn [mbind outcome_bind]. unfold register_command_ring.
  cbn [read_crcr write_crcr host_registers]. unfold aligned_64.
  rewrite (proj2 (Z.eqb_eq (cr_base commands mod 64) 0)) by (by apply Z.mod_divide).
  cbn [assert mbind outcome_bind].
  match goal with |- context [configure_device_context fuel ?x] =>
    destruct (configure_device_context_room fuel x n) as (dm & arrays & a3 & Hctx & Hald & Hinfos & Hlen & Hscratch) end;
    [destruct Hpat; lia|done|done|done|by eapply room_after|by eapply few_after|].
  rewrite Hctx. cbn [mbind outcome_bind]. eexists. split; [reflexivity|].
  split; [by eapply no_devices_new|]. do 5 (split; [done|]). split; [|split_and!; [exact Hscratch|done|exact Hleg]].
  unfold registers_programmed. cbn. rewrite Hbuf, Hq. split_and!; try done.
  { exists (event_ring_segment_table events). by rewrite lookup_insert_eq. }
  rewrite Hlen. unfold MAX_SLOTS. cbn in *. lia.
Qed.

Lemma controller_run_done c : let h := x_hw (c_x c) in
  patient fuel (h_constants h) -> host_controller_reset (r_usbcmd (h_regs h)) = false ->
  exists t, controller_run (HW := HostHw) (C := C) fuel c =
    Ret (set_x c (set_hw (c_x c) (with_timers t (with_halted false
      (with_regs (set_usbcmd (set_run_stop (r_usbcmd (h_regs h))) (h_regs h)) h))))).
Proof.
  intros h (_ & _ & Hk & _) Hhcr. unfold controller_run, update_usbcmd. fold h.
  cbn [read_usbcmd write_usbcmd host_registers]. unfold host_read_usbcmd. rewrite Hhcr. unfold host_write_usbcmd.
  cbn [host_controller_reset set_run_stop]. rewrite Hhcr.
  match goal with |- context [wait_while_busy fuel _ _ ?h1] =>
    destruct (wait_running fuel h1) as (s & t & Hrun); [done|exact Hk|] end.
  cbn [read_usbsts host_registers] in Hrun |- *. rewrite Hrun. cbn [mbind outcome_bind].
  exists t. by destruct h.
Qed.

(** The driver does not stop a controller that runs: it refuses it. *)
Lemma running_controller_panics a h : patient fuel (h_constants h) -> h_halted h = false ->
  run_stop (r_usbcmd (h_regs h)) = true -> host_controller_reset (r_usbcmd (h_regs h)) = false ->
  controller_new fuel manager callbacks a h = Panic.
Proof.
  intros Hpat Hh Hrs Hhcr. unfold controller_new.
  destruct (take_ownership_done fuel h Hpat) as (t & l & -> & _). cbn [mbind outcome_bind].
  unfold update_usbcmd. cbn [read_usbcmd write_usbcmd host_registers]. unfold host_read_usbcmd.
  cbn [h_regs with_timers with_legacy]. rewrite Hhcr. unfold host_write_usbcmd, reset_controller.
  cbn [host_controller_reset clear_interrupts run_stop]. rewrite Hhcr, Hrs.
  cbn [read_usbsts host_registers]. unfold host_read_usbsts. cbn. by rewrite Hh, andb_false_r.
Qed.

(** C10: the driver starts the controller.  For a halted controller with at most 512 scratchpad buffers
    (with more the array of their pages is too long for its boundary, and [new] panics), fuel for its
    latencies, whatever they are, and a heap with room for the rings, the contexts and the buffers
    ([START_ROOM]): [new] takes it over from a firmware that can have it and then resets it, exactly once, and
    leaves it halted with its registers holding the command ring, the event ring (the address of a
    table of one segment, which is the ring, and the place of the first event), the contexts, the
    scratchpad buffers and the interrupts that the driver has; [run] then returns with the controller
    running, without another reset and with the registers programmed as before; no port has a device
    and nobody has the turn. *)
Theorem driver_starts_controller a h : patient fuel (h_constants h) -> idle h ->
  0 <= k_scratchpads (h_constants h) <= 512 -> 0 <= k_slots (h_constants h) ->
  has_room a (START_ROOM (k_scratchpads (h_constants h))) -> few a (5 + k_scratchpads (h_constants h)) ->
  exists c c', controller_new fuel manager callbacks a h = Ret c /\ controller_run fuel c = Ret c' /\
    h_halted (x_hw (c_x c)) = true /\ registers_programmed c /\ scratchpads_given c /\
    h_resets (x_hw (c_x c)) = h_resets h ++ [h_legacy (x_hw (c_x c))] /\
    h_resets (x_hw (c_x c')) = h_resets (x_hw (c_x c)) /\
    (k_legacy (h_constants h) = true -> os_owned (h_legacy h) = false ->
       h_legacy (x_hw (c_x c)) = mkUsblegsup false true) /\
    h_halted (x_hw (c_x c')) = false /\ run_stop (r_usbcmd (h_regs (x_hw (c_x c')))) = true /\
    registers_programmed c' /\ scratchpads_given c' /\
    no_devices c' /\ port_configure_state c' = port_state_new /\ number_of_ports c' = k_ports (h_constants h).
Proof.
  intros Hpat Hidle Hn Hslots Hroom Hfew.
  destruct (controller_new_done a h Hpat Hidle Hn Hslots Hroom Hfew) as
    (c & Hnew & Hno & Hports & Hnum & Hk & Hhalt & Hhcr & Hregs & Hscratch & Hresets & Hleg).
  destruct (controller_run_done c) as (t & Hrun); [by rewrite Hk|done|].
  exists c. eexists. split; [exact Hnew|]. split; [exact Hrun|]. by split_and!.
Qed.

End start.

(** * Witness *)

Module HostExamples.

(** Four ports, eight slots, two scratchpad buffers, owned by the firmware. *)
Definition constants : Constants := mkConstants 4 8 2 true 3 5 2 4.

Definition host : HostHw :=
  mkHost constants (mkSim XhciPorts.hub (mkInterrupter 0 (0 : Erdp) 0) ∅ ∅ 0x8000000 0 ∅ 0 0 1 0)
    (initial_regs no_command) true (mkUsblegsup true false) ∅ ∅ []
    (mkTimers 0 0 0 0).

(** The controller behind the PCI bus. *)
Definition config_space (a : Z) : Z :=
  if decide (a = Pci.config_address 0 0 0 0) then 0x12378086
  else if decide (a = Pci.config_address 0 0 0 0x08) then 0x06000000
  else if decide (a = Pci.config_address 0 0 0 0x0c) then 0
  else if decide (a = Pci.config_address 0 3 0 0) then 0x000d1b36
  else if decide (a = Pci.config_address 0 3 0 0x08) then 0x0c033000
  else if decide (a = Pci.config_address 0 3 0 0x0c) then 0
  else if decide (a = Pci.config_address 0 3 0 0x10) then 0xfe800004
  else if decide (a = Pci.config_address 0 3 0 0x14) then 8
  else if decide (a = Pci.config_address 0 3 0 0x34) then 0x60
  else if decide (a = Pci.config_address 0 3 0 0x60) then 0x00800005
  else 0xffffffff.

Definition io : Pci.Io := Pci.mkIo 0 config_space (fun c a v => fun b => if decide (b = a) then v else c b).

(** Its registers are where the base address register says. *)
Definition registers_new (base : Z) (mapper : MemoryMapper) : outcome HostHw :=
  '(p, _) ← mapper_map mapper base 0x4000; _ ← assert (p =? 0x8fe800000); Ret host.

(** From the scan of the bus to the ports: the controller runs, the first port that has a device
    has the turn. *)
Example init_runs :
  match init_xhci_controller (HW := HostHw) 100 registers_new 0 manager_new (tt : unit) heap io with
  | Ret (c, io) => Some (h_halted (x_hw (c_x c)), addressing_port_index (port_configure_state c),
                         Pci.conf io (Pci.config_address 0 3 0 0x64), Pci.conf io (Pci.config_address 0 3 0 0x6c))
  | _ => None
  end = Some (false, Some 0, 0xfee00000, 0xc040).
Proof. vm_compute. reflexivity. Qed.

End HostExamples.

Lemma driver_starts_controller_witness :
  exists c c', controller_new 10 manager_new (tt : unit) heap HostExamples.host = Ret c /\
    controller_run 10 c = Ret c' /\ h_halted (x_hw (c_x c')) = false /\
    h_legacy (x_hw (c_x c)) = mkUsblegsup false true /\
    h_resets (x_hw (c_x c')) = [mkUsblegsup false true] /\ erstsz (interrupter (x_hw (c_x c))) = 1.
Proof.
  destruct (driver_starts_controller 10 manager_new (tt : unit) heap HostExamples.host) as
    (c & c' & Hnew & Hrun & _ & Hregs & _ & Hr & Hr' & Hleg & Hhalt & _).
  - split_and!; simpl; lia.
  - split_and!; reflexivity.
  - simpl; lia.
  - simpl; lia.
  - unfold has_room. vm_compute. split_and!; reflexivity.
  - vm_compute. reflexivity.
  - exists c, c'. split; [exact Hnew|]. split; [exact Hrun|]. split; [exact Hhalt|].
    specialize (Hleg eq_refl eq_refl). split; [exact Hleg|]. split; [rewrite Hr', Hr, Hleg; reflexivity|].
    exact (proj1 (proj2 (proj2 (proj2 (proj2 Hregs))))).
Defined.
