(* ===== verification/Kernel.v ===== *)
(** Kernel: the whole kernel, [kernel_main2] of [kernel/src/main.rs] and the two tasks that it leaves to
    the executor: the polling of the controller ([poll_forever] of [kernel/src/xhci.rs]), whose callbacks
    type and click, and the game of life; the interrupts ([kernel/src/interrupts.rs]). *)
From S2P Require Import Prelude Allocator BitField Trb CycleRing.
From S2P Require Import Rings.
From S2P Require Import EventRing.
From S2P Require Import Descriptor UsbHost InputDriver Hub ClassDrivers.
From S2P Require Import Boot.
From S2P Require Import Log.
From S2P Require Import Pixels.
From S2P Require Import Console.
From S2P Require Import Layer.
From S2P Require Import Graphics.
From S2P Require Import Loader.
From S2P Require Import Lifegame.
From S2P Require Import Pci.
From S2P Require Import Executor.
From S2P Require Import LifeTask.
From S2P Require Import Callbacks.
From S2P Require Import Port.
From S2P Require Import EndpointId.
From S2P Require Import Xhc.
From S2P Require Import Device.
From S2P Require Import DeviceInit.
From S2P Require Import DeviceManager.
From S2P Require Import Controller.
From S2P Require Import CallbackInv.
From S2P Require Import XhcSim.
From S2P Require Import ControllerInv.
From S2P Require Import Mapper Startup.
From S2P Require Import HostController.

(** * The statics *)

Section statics.
Context `{Log.SerialPort SP} (FONT : list (list Z)).

(** What the callbacks and the tasks share: the outputs ([WRITER], [LAYER_MANGER] and the serial port),
    [CLICKED_POSITION_QUEUE], [RUNNING] and [MOUSE_LAYER_ID]. *)
Record Statics := mkStatics {
  st_output : Output (HW := SP);
  st_clicks : list (Z * Z);
  st_running : bool;
  st_mouse_layer : Z;
}.

Definition set_output (s : Statics) (o : Output) : Statics :=
  mkStatics o (st_clicks s) (st_running s) (st_mouse_layer s).

(** [WRITER] and [LAYER_MANGER] are there once [init_graphics] is done; both draw on the one screen. *)
Definition desktop (s : Statics) : outcome Desktop :=
  console ← unwrap (current_writer (st_output s));
  lm ← unwrap (current_layers (st_output s));
  Ret (mkDesktop (mkWorld lm (st_clicks s) (st_running s)) console (st_mouse_layer s)).

Definition put_layers (lm : LayerManager) (o : Output (HW := SP)) : Output :=
  mkOutput (memory (lm_writer lm)) (o_writer o) (Some lm) (o_serial o) (o_logger o) (o_max_level o).
Definition put_world (w : World) (s : Statics) : Statics :=
  mkStatics (put_layers (w_layers w) (st_output s)) (w_clicks w) (w_running w) (st_mouse_layer s).
Definition put_console (d : Desktop) (s : Statics) : Statics :=
  mkStatics (set_writer (st_output s) (desk_console d)) (w_clicks (desk_world d)) (w_running (desk_world d))
    (st_mouse_layer s).

(** [callbacks::mouse()] and [callbacks::keyboard()]. *)
Definition mouse (s : Statics) (address : Z) (buf : list Z) : outcome Statics :=
  d ← desktop s; d ← mouse_callback d address buf; Ret (put_world (desk_world d) s).

Definition keyboard (s : Statics) (address : Z) (buf : list Z) : outcome Statics :=
  d ← desktop s;
  d ← keyboard_callback FONT N_WRITEABLE_LINE N_CHAR_PER_LINE d address buf;
  Ret (put_console d s).

Definition flush_screen (s : Statics) : outcome Statics :=
  o ← flush_layers (st_output s); Ret (set_output s o).

End statics.

(** * Interrupts *)

(** [InterruptVector], and the handlers of [interrupts.rs]. *)
Definition VectorXhci : Z := 64.

Inductive InterruptHandler := XhciInterrupt | General | Breakpoint.

(** The table that [init_idt] loads: [set_general_handler!] on its ranges, the later one counts (the
    macro leaves out the vectors that the processor reserves and never raises). *)
Definition set_general_handler (handler : InterruptHandler) (first fin : Z)
    (idt : Z -> option InterruptHandler) : Z -> option InterruptHandler :=
  fun index => if (first <=? index) && (index <? fin) then Some handler else idt index.

Definition init_idt : Z -> option InterruptHandler :=
  let idt := set_general_handler General 0 3 (fun _ => None) in
  let idt := set_general_handler Breakpoint 3 4 idt in
  let idt := set_general_handler General 4 32 idt in
  set_general_handler XhciInterrupt VectorXhci (VectorXhci + 1) idt.

Section interrupts.
Context `{Log.SerialPort SP} (fuel : nat) (FONT : list (list Z)).
(** The messages of the handlers. *)
Context (breakpoint_called : LogRecord) (unhandled : Z -> LogRecord) (stack_frame : LogRecord).

(** ["xhci interrupt handler called\r\n"]. *)
Definition xhci_called : list Z :=
  [120; 104; 99; 105; 32; 105; 110; 116; 101; 114; 114; 117; 112; 116; 32; 104; 97; 110; 100; 108; 101; 114;
   32; 99; 97; 108; 108; 101; 100; 13; 10].

(** The handlers: the output, and the writes to the registers of the local APIC, by their offsets;
    [general_handler] halts. *)
Definition run_handler (handler : InterruptHandler) (index : Z) (o : Output (HW := SP)) :
    outcome (Output * list (Z * Z)) :=
  match handler with
  | XhciInterrupt => o ← serial_print fuel xhci_called o; Ret (o, [(0xb0, 0)])
  | General => _ ← log_macro FONT fuel (unhandled index) o; deadlock
  | Breakpoint =>
      o ← log_macro FONT fuel breakpoint_called o;
      o ← log_macro FONT fuel stack_frame o;
      Ret (o, [])
  end.

(** An interrupt: without an entry in the table the processor faults. *)
Definition interrupt (idt : Z -> option InterruptHandler) (index : Z) (o : Output (HW := SP)) :
    outcome (Output * list (Z * Z)) :=
  match idt index with Some handler => run_handler handler index o | None => Panic end.

End interrupts.

(** * The kernel *)

Section kernel.
Context `{TL : TrbLib Cmd} `{BF : BitFieldLib} `{ET : EventTypes} `{EL : @EventLib ET}
  `{XT : XhciTrbs Cmd} `{PL : PortscLib} {HW : Type} `{XH : @XhcHw HW ET EL} `{HWP : !PortRegisters HW}
  `{HR : HostRegisters HW} `{CX : ContextLib} `{UB : UsbBits} `{UH : UsbHostLib} `{SE : Log.SerialPort SP}.
Context (fuel : nat) (uninit : nat -> list Z) (normal_trb : Z -> Z -> Cmd)
  (b_max_packet_size : list Z -> Z) (FONT : list (list Z)).

Abbreviation controller := (XhciController (HW := HW) (C := Statics (SP := SP))).
Implicit Types (c : controller).

Definition on_statics (f : Statics -> outcome Statics) (c : controller) : outcome controller :=
  s ← f (c_callbacks c); Ret (set_drivers c (class_driver_manager c) s).

(** ** [poll_forever] *)

(** Where the task waits: it has not been polled, or it is at one of its yields; the last one is in the
    loop of a hundred. *)
Inductive PollPoint := AtStart | QueueTaken | QueueFlushed | EventTaken | EventFlushed | Idle (rounds : Z).

Record PollFuture := mkPoll { poll_point : PollPoint }.

Definition waits (p : PollPoint) (c : controller) : outcome (PollFuture * controller * Poll unit) :=
  Ret (mkPoll p, c, Pending).

(** The parts of the loop between its yields. *)
Definition poll_user (c : controller) : outcome (PollFuture * controller * Poll unit) :=
  c ← process_user_event fuel uninit normal_trb b_max_packet_size mouse (keyboard FONT) c;
  waits (Idle 1) c.

Definition poll_events (c : controller) : outcome (PollFuture * controller * Poll unit) :=
  if pending_event c then
    c ← process_event fuel uninit normal_trb b_max_packet_size mouse (keyboard FONT) c;
    waits EventTaken c
  else poll_user c.

Definition poll_top (c : controller) : outcome (PollFuture * controller * Poll unit) :=
  if pending_already_popped_queue (x_events (c_x c)) then
    c ← process_once_received fuel uninit normal_trb b_max_packet_size mouse (keyboard FONT) c;
    waits QueueTaken c
  else poll_events c.

#[local] Instance poll_future : Future PollFuture controller unit := fun self c =>
  match poll_point self with
  | AtStart => poll_top c
  | QueueTaken => c ← on_statics flush_screen c; waits QueueFlushed c
  | QueueFlushed => poll_events c
  | EventTaken => c ← on_statics flush_screen c; waits EventFlushed c
  | EventFlushed => poll_user c
  | Idle rounds => if rounds <? 100 then waits (Idle (rounds + 1)) c else poll_top c
  end.

(** [do_lifegame], on what it shares with the other task. *)
Record GameFuture := mkGame { game : LifeFuture }.

#[local] Instance game_future (format : PixcelFormat) : Future GameFuture controller unit := fun self c =>
  d ← desktop (c_callbacks c);
  '(f, w, r) ← poll (Future := life_future format) (game self) (desk_world d);
  Ret (mkGame f, set_drivers c (class_driver_manager c) (put_world w (c_callbacks c)), r).

(** ** [kernel_main2] *)

(** The messages, as the [log] crate makes them at their places. *)
Context (logger_initialized global_logger_initialized breakpoint_called : LogRecord)
  (describe : MemoryDescriptor -> Z -> LogRecord) (unhandled : Z -> LogRecord) (stack_frame : LogRecord).

Definition log_descriptor (o : Output (HW := SP)) (d : MemoryDescriptor) : outcome Output :=
  len ← mul_w 64 (md_page_count d) 4096;
  fin ← add_w 64 (md_phys_start d) len;
  log_macro FONT fuel (describe d fin) o.

Fixpoint log_memory_map (l : list MemoryDescriptor) (o : Output (HW := SP)) : outcome Output :=
  match l with
  | [] => Ret o
  | d :: l => o ← log_descriptor o d; log_memory_map l o
  end.

(** Before [kernel_main2]: no statics are initialised. *)
Definition output_before (screen : gmap Z Z) (serial : SP) : Output :=
  mkOutput screen None None serial false 0.

Record Kernel := mkKernel {
  k_executor : Executor (PollFuture + GameFuture);
  k_controller : controller;
}.

(** The graphics and the logger; the square of [fill_rect]. *)
Definition start_graphics (graphics_info : GraphicsInfo) (o : Output (HW := SP)) :
    outcome Output :=
  '(pixcel_writer, o) ← Graphics.init_graphics graphics_info o;
  fb ← fill_rect (mkVec 50 50) (mkVec 50 50) white pixcel_writer;
  let o := mkOutput (memory fb) (o_writer o) (o_layers o) (o_serial o) (o_logger o) (o_max_level o) in
  o ← init_logger FONT fuel logger_initialized o;
  log_macro FONT fuel global_logger_initialized o.

(** [init_mouse_cursor_layer] on the statics. *)
Definition start_mouse (graphics_info : GraphicsInfo) (o : Output (HW := SP)) : outcome Statics :=
  lm ← unwrap (current_layers o);
  '(lm, id) ← init_mouse_cursor_layer lm (gi_pixcel_format graphics_info);
  Ret (mkStatics (put_layers lm o) [] true id).

(** [int3]. *)
Definition int3 (o : Output (HW := SP)) : outcome Output :=
  '(o, _) ← interrupt fuel FONT breakpoint_called unhandled stack_frame init_idt 3 o; Ret o.

(** [kernel_main2] up to the loop of the executor: [screen] is the memory of the frame buffer and
    [memory] the other one. *)
Definition kernel_main2 (registers_new : Z -> MemoryMapper -> outcome HW) (local_apic_id : Z) (arg : KernelMainArg)
    (screen : gmap Z Z) (serial : SP) (memory : Boot.memory) (io : Io) : outcome Kernel :=
  let graphics_info := graphics_info arg in
  o ← start_graphics graphics_info (output_before screen serial);
  '(memory_map, allocator) ← init_heap fuel memory (memory_map_entry arg) Bump.new;
  o ← log_memory_map memory_map o;
  s ← start_mouse graphics_info o;
  '(c, io) ← init_xhci_controller fuel registers_new local_apic_id manager_new s allocator io;
  c ← on_statics (fun s => o ← int3 (st_output s); Ret (set_output s o)) c;
  let executor := spawn executor_new (mkTask Default (inl (mkPoll AtStart))) in
  let executor := spawn executor (mkTask Default (inr (mkGame (mkLifeFuture NotPolled 0 [])))) in
  Ret (mkKernel executor c).

(** The panic handler, up to its halt. *)
Definition panic_handler (message : list Z) (o : Output (HW := SP)) : outcome Output :=
  let text := [75; 69; 82; 78; 69; 76; 32; 80; 65; 78; 73; 67; 58; 32] ++ message in
  o ← serial_print fuel (text ++ [13; 10]) o;
  print FONT (text ++ [10]) o.

(** ** The runs *)

Context (format : PixcelFormat).
#[local] Existing Instance sum_future.

(** A turn of the loop of the executor. *)
Definition turn (k : Kernel) : outcome Kernel :=
  '(executor, c) ← run_turn (FU := sum_future (FG := game_future format)) (k_executor k) (k_controller k);
  Ret (mkKernel executor c).

(** A turn, or something else than the processor: the hardware changes its registers and the memory
    that it may write to. *)
Inductive kernel_step (k : Kernel) : Kernel -> Prop :=
  | kernel_turn k' : turn k = Ret k' -> kernel_step k k'
  | kernel_outside x : kernel_step k (mkKernel (k_executor k) (set_x (k_controller k) x)).

End kernel.
