(* ===== verification/KernelInv.v ===== *)
(** KernelInv: what holds of the kernel in every state that it reaches ([Kernel]): the statics and the
    tasks keep their types, and the tables of the controller agree. *)
From S2P Require Import Prelude Allocator BitField Trb CycleRing.
From S2P Require Import Rings.
From S2P Require Import EventRing.
From S2P Require Import Descriptor UsbHost InputDriver Hub ClassDrivers.
From S2P Require Import Boot.
From S2P Require Import Log.
From S2P Require Import Pixels.
From S2P Require Import Console.
From S2P Require Import Layer.
From S2P Require Import Graphics.
From S2P Require Import Loader.
From S2P Require Import Lifegame.
From S2P Require Import Pci.
From S2P Require Import Executor.
From S2P Require Import LifeTask.
From S2P Require Import Callbacks.
From S2P Require Import Port.
From S2P Require Import EndpointId.
From S2P Require Import Xhc.
From S2P Require Import Device.
From S2P Require Import DeviceInit.
From S2P Require Import DeviceManager.
From S2P Require Import Controller.
From S2P Require Import CallbackInv.
From S2P Require Import XhcSim.
From S2P Require Import ControllerInv.
From S2P Require Import Mapper Startup.
From S2P Require Import HostController.
From S2P Require Import Kernel.

(** * The layers and the clicks *)

Section desktop.
(** The screen, but for its contents. *)
Context (fb : FrameBuffer).

(** The layer manager has the cursor as its first layer and, once the game has started, the game's
    window [life] as its second; it draws on the screen. *)
Record good_layers (life : option Z) (lm : LayerManager) : Prop := {
  gl_wf : lm_wf lm;
  gl_screen : same_screen fb (lm_writer lm);
  gl_count : latest_unused_id lm = match life with None => 1 | Some _ => 2 end;
  gl_cursor : is_Some (layers lm !! 0);
  gl_life id : life = Some id -> exists win, layers lm !! id = Some win /\ life_window win;
}.

Definition good_clicks (l : list (Z * Z)) : Prop := Forall (fun c => in_board SIZE c.2 c.1) l.

Lemma good_layers_update life lm id w w' : good_layers life lm -> layers lm !! id = Some w ->
  (window_wf w -> window_wf w') -> (life_window w -> life_window w') ->
  good_layers life (set_layers lm (<[id := w']> (layers lm))).
Proof.
  intros [Hwf Hs Hn Hc Hl] Hid Hw Hlw. split; [by eapply lm_wf_update|done|done| |]; simpl.
  - destruct (decide (id = 0)) as [->|]; simplify_map_eq; eauto.
  - intros i Hi. destruct (Hl i Hi) as (win & Hwin & Hlife).
    destruct (decide (id = i)) as [->|]; simplify_map_eq; eauto.
Qed.

Lemma set_win_position_life w p : life_window w -> life_window (set_win_position w p).
Proof. intros ([? ? ? ? ?] & Hw & Hh). split; [by split|done]. Qed.

Lemma move_relative_good life lm id dx dy : good_layers life lm -> post (move_relative lm id dx dy) (good_layers life).
Proof.
  intros Hlm. unfold move_relative. destruct (layers lm !! id) as [w|] eqn:Hid; [|by apply post_ret].
  intros lm' H. apply bind_Ret_inv in H as (w' & Hw & H). injection H as <-. unfold win_move_relative in Hw.
  do 2 apply bind_Ret_inv in Hw as (? & _ & Hw). injection Hw as <-.
  eapply good_layers_update; [done..| |apply set_win_position_life]. intros [? ? ? ? ?]. by split.
Qed.

Lemma lm_flush_good life lm : good_layers life lm -> post (lm_flush lm) (good_layers life).
Proof.
  intros [Hwf Hs Hn Hc Hl] lm' H. unfold lm_flush in H.
  apply bind_Ret_inv in H as (fb' & Hf%flush_stack_same & H). injection H as <-.
  split; [by destruct Hwf|by eapply same_screen_trans|done..].
Qed.

Lemma click_position p : post (frame_buffer_position_to_board_position p)
  (fun o => forall c, o = Some c -> in_board SIZE c.2 c.1).
Proof.
  intros o H c ->. unfold frame_buffer_position_to_board_position in H.
  apply bind_Ret_inv in H as (x & _ & H). apply bind_Ret_inv in H as (y & _ & H).
  destruct (x <? 0) eqn:Hx, (y <? 0) eqn:Hy; try done. cbn [orb] in H.
  destruct (SIZE <=? x / PIXCEL_SIZE) eqn:H1, (SIZE <=? y / PIXCEL_SIZE) eqn:H2; try done.
  injection H as <-. unfold in_board. cbn [fst snd].
  apply Z.ltb_ge in Hx, Hy. apply Z.leb_gt in H1, H2. unfold PIXCEL_SIZE in *.
  repeat split; try done; by apply Z.div_pos.
Qed.

Lemma record_click_good b id w : good_clicks (w_clicks w) -> post (record_click b id w) good_clicks.
Proof.
  intros Hc. unfold record_click. destruct b; [|by apply post_ret]. keep_step. cbv zeta.
  eapply post_bind; [apply click_position|]. intros [c|] Hin; apply post_ret; [|done].
  apply Forall_app_2; [done|]. constructor; [by apply Hin|constructor].
Qed.

(** ** The game's turns between its flushes never panic. *)

Lemma draw_board_good id lm b : good_layers (Some id) lm -> board_wf SIZE b ->
  exists lm', draw_board lm id b = Ret lm' /\ good_layers (Some id) lm'.
Proof.
  intros Hlm Hb. destruct (gl_life _ _ Hlm id eq_refl) as (win & Hid & Hwin).
  destruct (draw_board_shows lm id b win Hid Hwin Hb) as (win' & -> & Hwin' & _).
  eexists. split; [done|]. eapply good_layers_update; [done..| |done]. by destruct Hwin'.
Qed.

Lemma poll_click_good id b rounds w : good_layers (Some id) (w_layers w) -> good_clicks (w_clicks w) ->
  board_wf SIZE b ->
  exists b' lm, poll_click id b rounds w =
      Ret (mkLifeFuture (Clicking rounds) id b', mkWorld lm [] (w_running w), Pending) /\
    board_wf SIZE b' /\ good_layers (Some id) lm.
Proof.
  intros Hlm Hc Hb. unfold poll_click, click_round. cbn [life_board click_queue life_layers].
  destruct (apply_clicks_live _ _ Hb Hc) as (b' & -> & Hb' & _). cbn [mbind outcome_bind].
  destruct (w_clicks w) as [|c cs]; [by eexists _, _|].
  destruct (draw_board_good id (w_layers w) b' Hlm Hb') as (lm & -> & Hlm'). by eexists _, _.
Qed.

Lemma start_life_good lm format : good_layers None lm ->
  exists lm' id, start_life lm format = Ret (lm', id) /\ good_layers (Some id) lm'.
Proof.
  intros [Hwf Hs Hn Hc _]. unfold start_life.
  destruct (game_window format) as (n & win & -> & Hnew0 & Hlife & _). cbn [mbind outcome_bind].
  rewrite Hnew0. cbn [mbind outcome_bind].
  assert (exists lm' id, new_layer lm win = Ret (lm', id)) as (lm' & id & Hnew).
  { unfold new_layer. rewrite Hn. by eexists _, _. }
  exists lm', id. split; [done|].
  destruct (lm_wf_new_layer lm win lm' id) as (Hwf' & -> & Hnone & _ & Hls); [apply Hlife|done..|].
  unfold new_layer in Hnew. rewrite Hn in *. injection Hnew as <-. split; [done|done|done| |].
  - simpl in *. by rewrite lookup_insert_ne.
  - intros i [= <-]. exists win. simpl. by rewrite lookup_insert_eq.
Qed.

(** The game: before it starts there is no window for it; then it has the one in the layers. *)
Definition good_game (life : option Z) (f : LifeFuture) : Prop :=
  match point f with
  | NotPolled => life = None
  | _ => life = Some (life_id f) /\ board_wf SIZE (board f)
  end.

Definition good_world (life : option Z) (w : World) : Prop := good_layers life (w_layers w) /\ good_clicks (w_clicks w).

(** The next turn of the game is its flush. *)
Definition flushes (f : LifeFuture) : Prop :=
  exists rounds, point f = Clicking rounds /\ CLICK_ROUNDS <= rounds.

Lemma game_turn format life f w : good_world life w -> good_game life f -> ~ flushes f ->
  exists f' w' life', poll (Future := life_future format) f w = Ret (f', w', Pending) /\
    good_world life' w' /\ good_game life' f'.
Proof.
  intros [Hlm Hc] Hg Hn. unfold poll, life_future, good_game in *. destruct f as [[|rounds| |] id b]; simpl in *.
  - subst life. destruct (start_life_good (w_layers w) format Hlm) as (lm & id' & -> & Hlm').
    cbn [mbind outcome_bind].
    destruct (poll_click_good id' start_board 1 (mkWorld lm (w_clicks w) (w_running w)))
      as (b' & lm' & -> & Hb' & Hlm''); [done|done|exact start_board_wf|].
    eexists _, _, (Some id'). split; [done|]. split; [split; [done|constructor]|done].
  - destruct Hg as [-> Hb]. destruct (Z.ltb_spec rounds CLICK_ROUNDS) as [_|Hge].
    2:{ destruct Hn. by exists rounds. }
    destruct (poll_click_good id b (rounds + 1) w Hlm Hc Hb) as (b' & lm' & -> & Hb' & Hlm').
    eexists _, _, (Some id). split; [done|]. split; [split; [done|constructor]|done].
  - destruct Hg as [-> Hb]. unfold process_round. simpl.
    assert (exists b', (if w_running w then process SIZE b else Ret b) = Ret b' /\ board_wf SIZE b')
      as (b' & -> & Hb').
    { destruct (w_running w); [|by exists b].
      destruct (process_live SIZE b) as (b' & ? & ? & _); [done|done|]. by exists b'. }
    cbn [mbind outcome_bind]. destruct (draw_board_good id (w_layers w) b' Hlm Hb') as (lm & -> & Hlm').
    eexists _, _, (Some id). split; [done|]. by split; [split|].
  - destruct Hg as [-> Hb]. destruct (poll_click_good id b 1 w Hlm Hc Hb) as (b' & lm' & -> & Hb' & Hlm').
    eexists _, _, (Some id). split; [done|]. split; [split; [done|constructor]|done].
Qed.

(** Its flush, when it returns, keeps everything but the picture. *)
Lemma game_flush format life f w : good_world life w -> good_game life f -> flushes f ->
  post (poll (Future := life_future format) f w)
    (fun '(f', w', r) => r = Pending /\ good_world life w' /\ good_game life f').
Proof.
  intros [Hlm Hc] Hg (rounds & Hp & Hge). destruct f as [p id b]. simpl in Hp. subst p. unfold good_game in Hg. simpl in Hg.
  unfold poll, life_future. cbn [point]. rewrite (proj2 (Z.ltb_ge rounds CLICK_ROUNDS) Hge). unfold flush_round.
  cbn [life_layers life_board click_queue]. eapply (post_bind _ _ (fun s => life_board s = b /\ click_queue s = w_clicks w /\
    good_layers life (life_layers s))).
  - eapply post_bind; [by apply lm_flush_good|]. intros lm' Hlm'. by apply post_ret.
  - intros s (Hb & Hq & Hl). apply post_ret. split; [done|]. rewrite Hb, Hq. by split; [split|].
Qed.

Lemma flushes_dec f : flushes f \/ ~ flushes f.
Proof.
  destruct (point f) as [|rounds| |] eqn:Hp; try (right; intros (? & Hp' & _); congruence).
  destruct (decide (CLICK_ROUNDS <= rounds)); [by left; exists rounds|].
  right. intros (r & Hp' & Hr). rewrite Hp in Hp'. injection Hp' as ->. done.
Qed.

Lemma game_poll_keeps format life f w : good_world life w -> good_game life f ->
  post (poll (Future := life_future format) f w)
    (fun '(f', w', r) => r = Pending /\ exists life', good_world life' w' /\ good_game life' f').
Proof.
  intros Hw Hg. destruct (flushes_dec f) as [Hf|Hf].
  - eapply post_mono; [by apply game_flush|]. intros [[f' w'] r] (? & ? & ?). split; [done|]. by exists life.
  - destruct (game_turn format life f w Hw Hg Hf) as (f' & w' & life' & Hr & Hw' & Hg').
    rewrite Hr. apply post_ret. split; [done|]. by exists life'.
Qed.

End desktop.

(** * The statics *)

Section statics.
Context `{Log.SerialPort SP} (fuel : nat) (FONT : list (list Z)) (fb : FrameBuffer).

(** The console shows what a terminal does, when the screen and the font are good for one. *)
Definition console_ok (w : Console.Writer FrameBuffer) : Prop :=
  Console.console_setup FONT N_WRITEABLE_LINE N_CHAR_PER_LINE fb ->
  exists t, Console.shows N_WRITEABLE_LINE N_CHAR_PER_LINE w t.

Record out_ok (good : LayerManager -> Prop) (o : Output (HW := SP)) : Prop := {
  oo_layers : exists lm, o_layers o = Some lm /\ good lm;
  oo_console : exists w, o_writer o = Some w /\ console_ok w;
}.

Record statics_ok (life : option Z) (s : Statics (SP := SP)) : Prop := {
  so_output : out_ok (good_layers fb life) (st_output s);
  so_clicks : good_clicks (st_clicks s);
  so_cursor : st_mouse_layer s = 0;
}.

(** ** The console *)

Lemma console_ok_memory w m : console_ok w -> console_ok (Console.set_device w (set_memory (Console.device w) m)).
Proof. intros Hw Hs. destruct (Hw Hs) as [t Ht]. exists t. by apply shows_memory. Qed.

Lemma put_string_ok w s : console_ok w ->
  post (Console.put_string FONT N_WRITEABLE_LINE N_CHAR_PER_LINE w s) console_ok.
Proof.
  intros Hw w' Hr Hs. destruct (Hw Hs) as [t Ht]. destruct Hs as [Hf _ _ _ _ _].
  destruct (Console.put_string_shows FONT N_WRITEABLE_LINE N_CHAR_PER_LINE Hf eq_refl eq_refl eq_refl eq_refl s w t Ht)
    as (w1 & H1 & Ht1). rewrite Hr in H1. injection H1 as <-. by eexists.
Qed.

Lemma flush_ok w : console_ok w -> post (Console.flush FONT N_WRITEABLE_LINE N_CHAR_PER_LINE w) console_ok.
Proof.
  intros Hw w' Hr Hs. destruct (Hw Hs) as [t Ht]. destruct Hs as [Hf _ _ _ _ _].
  destruct (Console.flush_shows_term FONT N_WRITEABLE_LINE N_CHAR_PER_LINE Hf eq_refl eq_refl eq_refl eq_refl w t Ht)
    as (w1 & H1 & Ht1). rewrite Hr in H1. injection H1 as <-. by exists t.
Qed.
#[local] Hint Resolve put_string_ok flush_ok console_ok_memory : keeps.

Lemma type_keys_ok shifted keys : forall running w, console_ok w ->
  post (type_keys FONT N_WRITEABLE_LINE N_CHAR_PER_LINE shifted keys running w) (fun '(_, w) => console_ok w).
Proof.
  induction keys as [|k keys IH]; intros running w Hw; cbn [type_keys]; [by apply post_ret|].
  keep_step. destruct a as [c|]; [|by apply IH]. cbv zeta.
  eapply (post_bind _ _ console_ok); [unfold Callbacks.print_and_flush; keep|]. intros w' Hw'. by apply IH.
Qed.

(** ** The outputs *)

Lemma set_writer_ok good o w : out_ok good o -> console_ok w -> out_ok good (set_writer o w).
Proof. intros [Hl _] Hw. split; [done|]. by exists w. Qed.

Lemma set_serial_ok good o hw : out_ok good o -> out_ok good (set_serial o hw).
Proof. by intros []. Qed.

Lemma put_layers_ok good (good' : LayerManager -> Prop) o lm : out_ok good o -> good' lm -> out_ok good' (put_layers lm o).
Proof. intros [_ Hw] Hl. split; [|done]. by exists lm. Qed.

Lemma current_writer_ok good o w : out_ok good o -> current_writer o = Some w -> console_ok w.
Proof.
  intros [_ (w0 & Hw0 & Hok)] Hw. unfold current_writer in Hw. rewrite Hw0 in Hw. injection Hw as <-.
  by apply console_ok_memory.
Qed.

Lemma current_layers_ok life o lm : out_ok (good_layers fb life) o -> current_layers o = Some lm -> good_layers fb life lm.
Proof.
  intros [(lm0 & Hl0 & [Hwf Hs Hn Hc Hl]) _] Hlm. unfold current_layers in Hlm. rewrite Hl0 in Hlm. injection Hlm as <-.
  split; [by destruct Hwf| |done..]. destruct Hs as [m Hm]. exists (o_memory o). simpl. by rewrite Hm.
Qed.

Lemma print_ok good o s : out_ok good o -> post (print FONT s o) (out_ok good).
Proof.
  intros Ho o' Hr. unfold print in Hr. apply bind_Ret_inv in Hr as (w & Hw%unwrap_Ret_inv & Hr).
  apply bind_Ret_inv in Hr as (w' & Hw' & Hr). injection Hr as <-. apply set_writer_ok; [done|].
  eapply put_string_ok; [|done]. by eapply current_writer_ok.
Qed.

Lemma serial_print_ok good o s : out_ok good o -> post (serial_print fuel s o) (out_ok good).
Proof.
  intros Ho. unfold serial_print. keep_step. apply post_ret. by apply set_serial_ok.
Qed.
#[local] Hint Resolve print_ok serial_print_ok : keeps.

Lemma log_macro_ok good r o : out_ok good o -> post (log_macro FONT fuel r o) (out_ok good).
Proof.
  intros Ho. unfold log_macro, logger_log, instant_write. destruct (_ && _); [|by apply post_ret].
  destruct (enabled o); [|by apply post_ret]. keep.
Qed.

Lemma flush_layers_ok life o : out_ok (good_layers fb life) o -> post (flush_layers o) (out_ok (good_layers fb life)).
Proof.
  intros Ho o' Hr. unfold flush_layers in Hr. apply bind_Ret_inv in Hr as (lm & Hlm%unwrap_Ret_inv & Hr).
  apply bind_Ret_inv in Hr as (lm' & Hf & Hr). injection Hr as <-. eapply put_layers_ok; [done|].
  eapply lm_flush_good; [|done]. by eapply current_layers_ok.
Qed.
#[local] Hint Resolve log_macro_ok flush_layers_ok : keeps.

(** ** The callbacks *)

Lemma desktop_ok life s : statics_ok life s ->
  exists d, desktop s = Ret d /\ good_world fb life (desk_world d) /\ console_ok (desk_console d) /\
    desk_world d = mkWorld (w_layers (desk_world d)) (st_clicks s) (st_running s) /\ mouse_layer_id d = 0.
Proof.
  intros [Ho Hc Hm]. pose proof Ho as [(lm & Hlm & _) (w & Hw & _)]. unfold desktop.
  destruct (current_writer (st_output s)) as [w1|] eqn:H1; [|by unfold current_writer in H1; rewrite Hw in H1].
  destruct (current_layers (st_output s)) as [lm1|] eqn:H2; [|by unfold current_layers in H2; rewrite Hlm in H2].
  cbn [unwrap mbind outcome_bind]. eexists. split; [done|]. split_and!; try done.
  - split; [by eapply current_layers_ok|done].
  - by eapply current_writer_ok.
Qed.

Lemma put_world_ok life life' s w : statics_ok life s -> good_world fb life' w -> statics_ok life' (put_world w s).
Proof. intros [Ho _ Hm] [Hl Hc]. split; [by eapply put_layers_ok|done|done]. Qed.

Lemma mouse_ok life s address buf : statics_ok life s -> post (mouse s address buf) (statics_ok life).
Proof.
  intros Hs. unfold mouse. destruct (desktop_ok life s Hs) as (d & -> & [Hl Hc] & _). cbn [mbind outcome_bind].
  eapply (post_bind _ _ (fun d' => good_world fb life (desk_world d'))).
  - unfold mouse_callback. do 3 keep_step. cbv zeta.
    eapply post_bind; [by apply record_click_good|]. intros clicks Hclicks.
    eapply post_bind; [by apply move_relative_good|]. intros lm Hlm. by apply post_ret.
  - intros d' Hd'. apply post_ret. by eapply put_world_ok.
Qed.

Lemma keyboard_ok life s address buf : statics_ok life s -> post (keyboard FONT s address buf) (statics_ok life).
Proof.
  intros Hs. unfold keyboard. destruct (desktop_ok life s Hs) as (d & -> & [Hl Hc] & Hcon & Hd & _). cbn [mbind outcome_bind].
  eapply (post_bind _ _ (fun d' => w_clicks (desk_world d') = st_clicks s /\ console_ok (desk_console d'))).
  - unfold keyboard_callback. keep_step. cbv zeta. eapply post_bind; [by apply type_keys_ok|].
    intros [running w] Hw. apply post_ret. split; [|done]. simpl. by rewrite Hd.
  - intros d' [Hq Hd']. apply post_ret. destruct Hs as [Ho Hcl Hm]. split; simpl; [by apply set_writer_ok| |done].
    by rewrite Hq.
Qed.

Lemma flush_screen_ok life s : statics_ok life s -> post (flush_screen s) (statics_ok life).
Proof.
  intros [Ho Hc Hm]. unfold flush_screen. eapply post_bind; [by apply flush_layers_ok|]. intros o Ho'. apply post_ret. by split.
Qed.

End statics.

(** * The tasks *)

Section tasks.
Context `{TL : TrbLib Cmd} `{BF : BitFieldLib} `{ET : EventTypes} `{EL : @EventLib ET}
  `{XT : XhciTrbs Cmd} `{PL : PortscLib} {HW : Type} `{XH : @XhcHw HW ET EL} `{HWP : !PortRegisters HW}
  `{HR : HostRegisters HW} `{CX : ContextLib} `{UB : UsbBits} `{UH : UsbHostLib} `{SE : Log.SerialPort SP}.
Context (fuel : nat) (uninit : nat -> list Z) (normal_trb : Z -> Z -> Cmd)
  (b_max_packet_size : list Z -> Z) (FONT : list (list Z)) (fb : FrameBuffer).

Abbreviation controller := (XhciController (HW := HW) (C := Statics (SP := SP))).
Implicit Types (c : controller).

(** The tables of the controller agree, and the statics are good. *)
Record good_controller (life : option Z) c : Prop := {
  gc_tables : tables_ok c;
  gc_statics : statics_ok FONT fb life (c_callbacks c);
}.

Lemma good_set_x life c x : good_controller life c -> good_controller life (set_x c x).
Proof. intros [Ht Hs]. split; [by apply tables_ok_set_x|done]. Qed.

Lemma good_set_drivers life life' c cd s : good_controller life c -> statics_ok FONT fb life' s ->
  good_controller life' (set_drivers c cd s).
Proof. intros [[] Hs] Hs'. split; [by split|done]. Qed.

Lemma good_both life c (m : outcome controller) : good_controller life c ->
  post m (cb (statics_ok FONT fb life)) -> (forall c', tables_ok c -> m = Ret c' -> tables_ok c') ->
  post m (good_controller life).
Proof. intros [Ht _] Hm Htab c' Hr. split; [by eapply Htab|by apply Hm]. Qed.

Lemma on_statics_good life f c : good_controller life c ->
  (forall s, statics_ok FONT fb life s -> post (f s) (statics_ok FONT fb life)) ->
  post (on_statics f c) (good_controller life).
Proof.
  intros Hc Hf. unfold on_statics. eapply post_bind; [apply Hf, Hc|]. intros s Hs. apply post_ret.
  by eapply good_set_drivers.
Qed.

(** ** The polling task *)

Abbreviation poll_ok life := (fun '(_, c, r) => r = Pending /\ good_controller life c).

Lemma waits_ok life p c : good_controller life c -> post (waits p c) (poll_ok life).
Proof. intros Hc. by apply post_ret. Qed.

#[local] Hint Resolve mouse_ok keyboard_ok flush_screen_ok : core.

Lemma poll_user_ok life c : good_controller life c ->
  post (poll_user fuel uninit normal_trb b_max_packet_size FONT c) (poll_ok life).
Proof.
  intros Hc. eapply post_bind; [|intros c' Hc'; by apply waits_ok]. eapply good_both; [exact Hc| |].
  - eapply user_event_keeps; [by auto..|apply Hc].
  - intros c' Ht Hr. by eapply user_event_tables.
Qed.

Lemma poll_events_ok life c : good_controller life c ->
  post (poll_events fuel uninit normal_trb b_max_packet_size FONT c) (poll_ok life).
Proof.
  intros Hc. unfold poll_events. destruct (pending_event c); [|by apply poll_user_ok].
  eapply post_bind; [|intros c' Hc'; by apply waits_ok]. eapply good_both; [exact Hc| |].
  - eapply process_event_keeps; [by auto..|apply Hc].
  - intros c' Ht Hr. by eapply process_event_tables.
Qed.

Lemma poll_top_ok life c : good_controller life c ->
  post (poll_top fuel uninit normal_trb b_max_packet_size FONT c) (poll_ok life).
Proof.
  intros Hc. unfold poll_top. destruct (pending_already_popped_queue _); [|by apply poll_events_ok].
  eapply post_bind; [|intros c' Hc'; by apply waits_ok]. eapply good_both; [exact Hc| |].
  - eapply process_once_received_keeps; [by auto..|apply Hc].
  - intros c' Ht Hr. by eapply process_once_received_tables.
Qed.

Lemma poll_future_ok life f c : good_controller life c ->
  post (poll (Future := poll_future fuel uninit normal_trb b_max_packet_size FONT) f c) (poll_ok life).
Proof.
  intros Hc. unfold poll, poll_future.
  destruct (poll_point f) as [| | | | |rounds];
    [by apply poll_top_ok| |by apply poll_events_ok| |by apply poll_user_ok|].
  1,2: eapply post_bind; [eapply on_statics_good; [exact Hc|by auto]|]; intros c' Hc'; by apply waits_ok.
  destruct (rounds <? 100); [by apply waits_ok|by apply poll_top_ok].
Qed.

(** ** The game *)

Lemma game_future_ok format life f c : good_controller life c -> good_game life (game f) ->
  post (poll (Future := game_future format) f c)
    (fun '(f', c', r) => r = Pending /\ exists life', good_controller life' c' /\ good_game life' (game f')).
Proof.
  intros Hc Hg. unfold poll, game_future.
  destruct (desktop_ok FONT fb life (c_callbacks c) (gc_statics _ _ Hc)) as (d & -> & Hd & _). cbn [mbind outcome_bind].
  eapply post_bind; [by eapply game_poll_keeps|]. intros [[f' w'] r] (-> & life' & Hw' & Hg'). apply post_ret.
  split; [done|]. exists life'. split; [|done]. eapply good_set_drivers; [done|]. eapply put_world_ok; [apply Hc|done].
Qed.

Lemma game_future_turn format life f c : good_controller life c -> good_game life (game f) -> ~ flushes (game f) ->
  exists f' c', poll (Future := game_future format) f c = Ret (f', c', Pending).
Proof.
  intros Hc Hg Hn. unfold poll, game_future.
  destruct (desktop_ok FONT fb life (c_callbacks c) (gc_statics _ _ Hc)) as (d & -> & Hd & _). cbn [mbind outcome_bind].
  destruct (game_turn fb format life (game f) (desk_world d) Hd Hg Hn) as (f' & w' & life' & -> & _).
  by eexists _, _.
Qed.

(** ** The executor *)

(** The two tasks are in the queue, and neither ends. *)
Definition the_tasks (game : GameFuture) (queue : list (Task (PollFuture + GameFuture))) : Prop :=
  exists p, queue = [mkTask Default (inl p); mkTask Default (inr game)] \/
            queue = [mkTask Default (inr game); mkTask Default (inl p)].

Definition good_kernel (k : Kernel (HW := HW) (SP := SP)) : Prop :=
  exists life g, good_controller life (k_controller k) /\ good_game life (game g) /\
    the_tasks g (task_queue (k_executor k)).

Lemma kernel_turn_good format k k' : good_kernel k ->
  turn fuel uninit normal_trb b_max_packet_size FONT format k = Ret k' -> good_kernel k'.
Proof.
  intros (life & g & Hc & Hg & p & Hq) Hr. apply bind_Ret_inv in Hr as ([executor c] & Hr & Hk). injection Hk as <-.
  unfold run_turn in Hr. destruct Hq as [Hq|Hq]; rewrite Hq in Hr.
  - apply bind_Ret_inv in Hr as ([[t c'] r] & Ht & Hr). apply bind_Ret_inv in Ht as ([[f c1] r1] & Hp & Ht).
    injection Ht as <- <- <-. apply bind_Ret_inv in Hp as ([[p' c2] r2] & Hp & Hi). injection Hi as <- <- <-.
    destruct (poll_future_ok life p _ Hc _ Hp) as [-> Hc']. injection Hr as <- <-.
    exists life, g. split; [done|]. split; [done|]. exists p'. by right.
  - apply bind_Ret_inv in Hr as ([[t c'] r] & Ht & Hr). apply bind_Ret_inv in Ht as ([[f c1] r1] & Hp & Ht).
    injection Ht as <- <- <-. apply bind_Ret_inv in Hp as ([[g' c2] r2] & Hp & Hi). injection Hi as <- <- <-.
    destruct (game_future_ok format life g _ Hc Hg _ Hp) as (-> & life' & Hc' & Hg'). injection Hr as <- <-.
    exists life', g'. split; [done|]. split; [done|]. exists p. by left.
Qed.

Abbreviation step format := (kernel_step fuel uninit normal_trb b_max_packet_size FONT format).

Lemma kernel_step_good format k k' : step format k k' -> good_kernel k -> good_kernel k'.
Proof.
  intros [k1 Hr|x] Hk; [by eapply kernel_turn_good|].
  destruct Hk as (life & g & Hc & Hg & Hq). exists life, g. split; [by apply good_set_x|done].
Qed.

End tasks.

(** * The start *)

Section start.
Context `{TL : TrbLib Cmd} `{BF : BitFieldLib} `{ET : EventTypes} `{EL : @EventLib ET}
  `{XT : XhciTrbs Cmd} `{PL : PortscLib} {HW : Type} `{XH : @XhcHw HW ET EL} `{HWP : !PortRegisters HW}
  `{HR : HostRegisters HW} `{CX : ContextLib} `{UB : UsbBits} `{UH : UsbHostLib}.
Context (fuel : nat) {C : Type}.

(** ** The controller starts without a device. *)

Definition empty_table (dm : DeviceManager) : Prop := forall n, ~ allocated dm n.

Lemma device_manager_new_empty n (x : Xhc HW) : post (device_manager_new n x) (fun '(dm, _) => empty_table dm).
Proof.
  unfold device_manager_new. pass. intros [[[[ptr len]|] a] ?] _; [|done]. apply post_ret.
  intros k [d Hd]. simpl in Hd. by apply lookup_replicate in Hd as [? _].
Qed.

Lemma scratchpad_buffers_empty dm (x : Xhc HW) : empty_table dm ->
  post (scratchpad_buffers dm x) (fun '(dm, _) => empty_table dm).
Proof.
  intros Hdm. unfold scratchpad_buffers. cbv zeta. destruct (0 <? _); [|by apply post_ret].
  pass. intros [[[array ?]|] allocator] _; [|done]. pass. intros [pages x'] _. cbv zeta.
  eapply (post_bind _ _ empty_table); [|intros dm' Hdm'; by apply post_ret].
  unfold set_scratchpad_buffer_array, set_device_context. pass. intros ? _. by apply post_ret.
Qed.

Lemma controller_new_empty manager (callbacks : C) alloc (hw : HW) :
  post (controller_new fuel manager callbacks alloc hw)
    (fun c => no_devices c /\ c_callbacks c = callbacks /\ port_configure_state c = port_state_new).
Proof.
  unfold controller_new. pass. intros hw1 _. cbv zeta. pass. intros hw2 _. pass. intros [[[events i] slots] a1] _.
  pass. intros [commands a2] _. pass. intros hw3 _.
  eapply (post_bind _ _ (fun '(dm, _) => empty_table dm)).
  - unfold configure_device_context. destruct (read_config_register _). cbv zeta.
    eapply post_bind; [apply device_manager_new_empty|]. intros [dm x] Hdm.
    eapply post_bind; [by apply scratchpad_buffers_empty|]. intros [dm' x'] Hdm'. cbv zeta.
    destruct (read_dcbaap _). pass. intros ? _. pass. intros [? ?] _. by apply post_ret.
  - intros [dm x] Hdm. by apply post_ret.
Qed.

Lemma configure_connected_keeps (P : C -> Prop) p (c : XhciController (HW := HW) (C := C)) :
  tables_ok c /\ P (c_callbacks c) -> post (configure_connected fuel p c) (fun c => tables_ok c /\ P (c_callbacks c)).
Proof.
  intros [Ht Hp] c' Hr. unfold configure_connected in Hr. apply bind_Ret_inv in Hr as ([portsc c1] & H1 & Hr).
  pose proof (read_portsc_frame _ _ _ _ H1) as [x ->].
  destruct (current_connect_status portsc); [|injection Hr as <-; split; [by apply tables_ok_set_x|done]].
  split; [eapply configure_port_tables; [|exact Hr]; by apply tables_ok_set_x|].
  exact (configure_port_keeps fuel P p (set_x c x) Hp c' Hr).
Qed.

Lemma init_xhci_controller_ok (P : C -> Prop) registers_new local_apic_id manager (callbacks : C) alloc io :
  P callbacks ->
  post (init_xhci_controller (HW := HW) fuel registers_new local_apic_id manager callbacks alloc io)
    (fun '(c, _) => tables_ok c /\ P (c_callbacks c)).
Proof.
  intros Hp. unfold init_xhci_controller. pass. intros devices _. pass. intros dev _. pass. intros [bar io1] _.
  pass. intros xhc_bar _. cbv zeta. pass. intros io2 _. pass. intros registers _.
  eapply post_bind; [apply controller_new_empty|]. intros c (Hno & Hcb & _).
  eapply (post_bind _ _ (fun c => tables_ok c /\ P (c_callbacks c))).
  - unfold controller_run. cbv zeta. pass. intros [? hw] _. apply post_ret.
    split; [apply tables_ok_set_x, no_devices_tables, Hno|by rewrite <- Hcb in Hp].
  - intros c' Hc'. eapply (post_bind _ _ (fun c => tables_ok c /\ P (c_callbacks c))); [|intros ? ?; by apply post_ret].
    intros c'' Hr. revert Hr.
    apply (for_range_Ret (fun c => tables_ok c /\ P (c_callbacks c))); [|exact Hc'].
    intros p s s' Hs Hr. exact (configure_connected_keeps P p s Hs s' Hr).
Qed.

End start.

(** * The kernel *)

Section main.
Context `{TL : TrbLib Cmd} `{BF : BitFieldLib} `{ET : EventTypes} `{EL : @EventLib ET}
  `{XT : XhciTrbs Cmd} `{PL : PortscLib} {HW : Type} `{XH : @XhcHw HW ET EL} `{HWP : !PortRegisters HW}
  `{HR : HostRegisters HW} `{CX : ContextLib} `{UB : UsbBits} `{UH : UsbHostLib} `{SE : Log.SerialPort SP}.
Context (fuel : nat) (uninit : nat -> list Z) (normal_trb : Z -> Z -> Cmd)
  (b_max_packet_size : list Z -> Z) (FONT : list (list Z)).
Context (logger_initialized global_logger_initialized breakpoint_called : LogRecord)
  (describe : MemoryDescriptor -> Z -> LogRecord) (unhandled : Z -> LogRecord) (stack_frame : LogRecord).

(** The screen that the graphics information describes. *)
Definition the_screen (arg : KernelMainArg) : FrameBuffer := get_writer (graphics_info arg) ∅.

Definition fresh_layers (fb : FrameBuffer) (lm : LayerManager) : Prop :=
  exists fb', same_screen fb fb' /\ lm = layer_manager_new fb'.

Lemma start_graphics_ok arg screen (serial : SP) :
  post (start_graphics fuel FONT logger_initialized global_logger_initialized (graphics_info arg) (output_before screen serial))
    (out_ok FONT (the_screen arg) (fresh_layers (the_screen arg))).
Proof.
  unfold start_graphics, Graphics.init_graphics, Pixels.init_graphics.
  intros o Hr. apply bind_Ret_inv in Hr as ([fb o1] & H1 & Hr).
  apply bind_Ret_inv in H1 as (fb1 & H1 & Ho1). apply bind_Ret_inv in H1 as (m & _ & H1). injection H1 as <-.
  injection Ho1 as <- <-. apply bind_Ret_inv in Hr as (fb2 & Hfill%fill_rect_same & Hr). revert o Hr.
  match goal with |- forall o, ?e = Ret o -> _ => change (post e (out_ok FONT (the_screen arg) (fresh_layers (the_screen arg)))) end.
  cbv zeta. eapply (post_bind _ _ (out_ok FONT (the_screen arg) (fresh_layers (the_screen arg)))).
  - unfold init_logger. pass. intros _ _. apply log_macro_ok. split.
    + eexists. split; [done|]. eexists. split; [|done]. by exists m.
    + eexists. split; [done|]. intros [_ _ _ Hdev Hb Hw]. exists Console.term_new. by apply Console.writer_new_shows.
  - intros o1 Ho1. by apply log_macro_ok.
Qed.

Lemma log_memory_map_ok fb good l : forall o : Output (HW := SP), out_ok FONT fb good o ->
  post (log_memory_map fuel FONT describe l o) (out_ok FONT fb good).
Proof.
  induction l as [|d l IH]; intros o Ho; cbn [log_memory_map]; [by apply post_ret|].
  eapply post_bind; [|by apply IH]. unfold log_descriptor. pass. intros len _. pass. intros fin _. by apply log_macro_ok.
Qed.

Lemma fill_shape_wf pos shape : forall w, 0 <= vx pos -> 0 <= vy pos -> window_wf w ->
  post (fill_shape pos shape w) window_wf.
Proof.
  intros w Hx Hy Hw. apply for_range_post; [done|]. intros y v Hy' Hv. apply for_range_post; [done|].
  intros x v' Hx' Hv' v'' Hr. apply bind_Ret_inv in Hr as (px & [-> _]%add_w_Ret_inv & Hr).
  apply bind_Ret_inv in Hr as (py & [-> _]%add_w_Ret_inv & Hr). apply bind_Ret_inv in Hr as (c & _ & Hr).
  eapply window_write_wf; [| |exact Hv'|exact Hr]; lia.
Qed.

Lemma init_mouse_cursor_layer_good fb lm format : fresh_layers fb lm ->
  post (init_mouse_cursor_layer lm format) (fun '(lm, id) => id = 0 /\ good_layers fb None lm).
Proof.
  intros (fb' & Hs & ->) [lm' id] Hr. unfold init_mouse_cursor_layer in Hr.
  apply bind_Ret_inv in Hr as (window & Hw%window_new_wf & Hr); [|done..].
  apply bind_Ret_inv in Hr as ([lm1 id1] & Hnew & Hr).
  destruct (lm_wf_new_layer _ _ _ _ Hw (lm_wf_new fb') Hnew) as (Hwf & Hid & _ & _ & Hls). simpl in Hid. subst id1.
  injection Hnew as <-. simpl in Hls. assert (good_layers fb None (mkLayerManager fb' [0] {[0 := window]} 1)) as Hg.
  { split; [exact Hwf|done|done| |done]. simpl. by rewrite lookup_singleton_eq. }
  apply bind_Ret_inv in Hr as (lm2 & Hm & Hr). apply (move_relative_good fb None _ _ _ _ Hg) in Hm as Hg2.
  apply bind_Ret_inv in Hr as (layer & Hl%unwrap_Ret_inv & Hr). apply bind_Ret_inv in Hr as (layer' & Hf & Hr).
  injection Hr as <- <-. split; [done|]. destruct Hg2 as [Hwf2 Hs2 Hn2 Hc2 _].
  split; [|done|done| |done]; simpl.
  - eapply lm_wf_update; [done..|]. intros Hw'. by apply (fill_shape_wf (mkVec 0 0) MOUSE_CURSOR_SHAPE layer).
  - by rewrite lookup_insert_eq.
Qed.

Lemma start_mouse_ok arg o : out_ok FONT (the_screen arg) (fresh_layers (the_screen arg)) o ->
  post (start_mouse (SP := SP) (graphics_info arg) o) (statics_ok FONT (the_screen arg) None).
Proof.
  intros Ho. unfold start_mouse. destruct Ho as [(lm0 & Hlm0 & fb' & [m Hm] & ->) Hw].
  unfold current_layers. rewrite Hlm0. cbn [fmap option_fmap option_map unwrap mbind outcome_bind].
  eapply post_bind; [apply (init_mouse_cursor_layer_good (the_screen arg))|].
  - eexists. split; [|reflexivity]. exists (o_memory o). simpl. by rewrite Hm.
  - intros [lm id] [-> Hg]. apply post_ret. split; [|constructor|done]. split; [by exists lm|done].
Qed.

Abbreviation main := (kernel_main2 fuel FONT logger_initialized global_logger_initialized breakpoint_called
  describe unhandled stack_frame).

Lemma kernel_main2_good registers_new local_apic_id arg screen serial memory io :
  post (main registers_new local_apic_id arg screen serial memory io)
    (good_kernel (HW := HW) FONT (the_screen arg)).
Proof.
  unfold kernel_main2. cbv zeta. eapply post_bind; [apply start_graphics_ok|]. intros o Ho.
  pass. intros [memory_map allocator] _. eapply post_bind; [by apply log_memory_map_ok|]. intros o1 Ho1.
  eapply post_bind; [by apply start_mouse_ok|]. intros s Hs.
  eapply post_bind; [by apply (init_xhci_controller_ok fuel (statics_ok FONT (the_screen arg) None))|].
  intros [c io'] [Ht Hc]. eapply post_bind.
  - apply (on_statics_good FONT (the_screen arg) None); [by split|]. intros s1 Hs1. eapply (post_bind _ _
      (out_ok FONT (the_screen arg) (good_layers (the_screen arg) None))).
    + unfold int3, interrupt. cbn [init_idt run_handler]. eapply (post_bind _ _
        (fun '(o, _) => out_ok FONT (the_screen arg) (good_layers (the_screen arg) None) o)).
      * eapply post_bind; [apply log_macro_ok, Hs1|]. intros o2 Ho2.
        eapply post_bind; [by apply log_macro_ok|]. intros o3 Ho3. by apply post_ret.
      * intros [o2 l] Ho2. by apply post_ret.
    + intros o2 Ho2. apply post_ret. by destruct Hs1.
  - intros c' Hc'. apply post_ret. exists None, (mkGame (mkLifeFuture NotPolled 0 [])). split; [done|]. split; [done|].
    exists (mkPoll AtStart). by left.
Qed.

(** * Property *)

(** C2: the kernel keeps its types.  From the start of the kernel on, whatever the hardware does,
    whatever devices come and go and whatever is typed and clicked, in every state between two turns of
    the executor the queue has the polling task and the game, and neither ends; the slots that the
    controller has recorded for its ports are those with a device, once each; the console, on a screen
    that is large enough for it, shows what a terminal does; the layers are well formed, draw on the screen of the
    graphics information, and have the cursor and, once the game has started, its window; all clicks
    that wait are on the board, and the board has its size.  So a turn of the game does not panic, but
    for those in which it draws the layers. *)
Theorem kernel_keeps_types format registers_new local_apic_id arg screen serial memory io k k' :
  main registers_new local_apic_id arg screen serial memory io = Ret k ->
  rtc (kernel_step (HW := HW) fuel uninit normal_trb b_max_packet_size FONT format) k k' ->
  let c := k_controller k' in
  let s := c_callbacks c in
  exists g lm w, the_tasks g (task_queue (k_executor k')) /\
    NoDup (slots_in (port_slot_id_map c)) /\
    (forall n, n ∈ slots_in (port_slot_id_map c) <-> allocated (c_devices c) n) /\
    o_writer (st_output s) = Some w /\ console_ok FONT (the_screen arg) w /\
    o_layers (st_output s) = Some lm /\ lm_wf lm /\ same_screen (the_screen arg) (lm_writer lm) /\
    is_Some (layers lm !! st_mouse_layer s) /\ good_clicks (st_clicks s) /\
    match point (game g) with
    | NotPolled => True
    | _ => board_wf SIZE (board (game g)) /\
        exists win, layers lm !! life_id (game g) = Some win /\ life_window win
    end /\
    (head (task_queue (k_executor k')) = Some (mkTask Default (inr g)) -> ~ flushes (game g) ->
     exists k'', turn fuel uninit normal_trb b_max_packet_size FONT format k' = Ret k'').
Proof.
  intros Hmain Hrun c s. assert (Hk : good_kernel FONT (the_screen arg) k').
  { apply (kernel_main2_good _ _ _ _ _ _ _) in Hmain. induction Hrun as [|? ? ? Hstep]; [done|].
    eapply IHHrun, kernel_step_good; [exact Hstep|done]. }
  destruct Hk as (life & g & Hc & Hg & Htasks). pose proof Hc as [[Hnd Hal] [Ho Hcl Hm]].
  pose proof Ho as [(lm & Hlm & Hgood) (w & Hw & Hcon)]. destruct Hgood as [Hwf Hs Hn Hcur Hlife].
  exists g, lm, w. split_and!; try done.
  - unfold s, c. by rewrite Hm.
  - unfold good_game in Hg. destruct (point (game g)); [done|..]; destruct Hg as [-> Hb]; (split; [done|by apply Hlife]).
  - intros Hhead Hf. destruct (game_future_turn FONT (the_screen arg) format life g (k_controller k') Hc Hg Hf)
      as (g' & c' & Hpoll).
    destruct Htasks as (p & [Hq|Hq]); rewrite Hq in Hhead; [done|].
    eexists. unfold turn, run_turn. rewrite Hq. unfold task_poll, poll, sum_future. cbn [future].
    unfold poll in Hpoll |- *. by rewrite Hpoll.
Qed.

End main.

(** * A kernel to run, and the witness *)

#[local] Existing Instance bit_field_ref.

Module KernelExamples.
Import XhcSim.

(** A screen of 16 by 16 points, a memory of 64 megabytes above the first, and the controller of
    [HostController] behind the bus. *)
Definition arg : KernelMainArg := mkArg (mkGraphicsInfo 16 16 16 0x1000 Rgb) 0x8000.
Definition memory : Boot.memory :=
  new_inplace 0x8000 1 [mkDescriptor CONVENTIONAL 0x100000 0x100000 0x3f00 0xf] (fun _ => 0).
Definition message : LogRecord := mkRecord LevelDebug [68] [[97]] None None.

Abbreviation main := (kernel_main2 (HW := HostHw) 100 GraphicsExamples.font message message message
  (fun _ _ => message) (fun _ => message) message).
Abbreviation start := (main HostExamples.registers_new 0 arg ∅ (GraphicsExamples.mkPort false []) memory HostExamples.io).

Abbreviation the_turn := (Kernel.turn (HW := HostHw) (SP := GraphicsExamples.Port) 100 zeros normal max_packet GraphicsExamples.font Rgb).

Abbreviation kernel := (Kernel (HW := HostHw) (SP := GraphicsExamples.Port)).

Fixpoint turns (n : nat) (k : kernel) : outcome kernel :=
  match n with O => Ret k | S n => k ← the_turn k; turns n k end.

Lemma turns_steps n : forall k k', turns n k = Ret k' ->
  rtc (kernel_step 100 zeros normal max_packet GraphicsExamples.font Rgb) k k'.
Proof.
  induction n as [|n IH]; intros k k' H; [by injection H as <-|].
  apply bind_Ret_inv in H as (k1 & H1 & H). eapply rtc_l; [by apply kernel_turn|]. by apply IH.
Qed.

Lemma five_turns : exists k k', start = Ret k /\ turns 5 k = Ret k'.
Proof.
  assert (match start with Ret k => match turns 5 k with Ret _ => true | _ => false end | _ => false end = true)
    as H by (vm_compute; reflexivity).
  destruct start as [k| |]; [|done..]. exists k. destruct (turns 5 k) as [k'| |]; [|done..]. by exists k'.
Qed.

End KernelExamples.

(** Five turns: the polling task starts, the game makes its window, and they take turns. *)
Lemma kernel_keeps_types_witness :
  exists k k', KernelExamples.turns 5 k = Ret k' /\
    exists g lm, the_tasks g (task_queue (k_executor k')) /\ o_layers (st_output (c_callbacks (k_controller k'))) = Some lm /\
      lm_wf lm /\ NoDup (slots_in (port_slot_id_map (k_controller k'))).
Proof.
  destruct KernelExamples.five_turns as (k & k' & Hk & H). exists k, k'. split; [exact H|].
  destruct (kernel_keeps_types (HW := HostHw) 100 XhcSim.zeros normal XhcSim.max_packet GraphicsExamples.font
    KernelExamples.message KernelExamples.message KernelExamples.message (fun _ _ => KernelExamples.message)
    (fun _ => KernelExamples.message) KernelExamples.message Rgb HostExamples.registers_new 0 KernelExamples.arg ∅
    (GraphicsExamples.mkPort false []) KernelExamples.memory HostExamples.io k k' Hk
    (KernelExamples.turns_steps 5 k k' H))
    as (g & lm & w & Hq & Hnd & _ & _ & _ & Hlm & Hwf & _).
  exists g, lm. exact (conj Hq (conj Hlm (conj Hwf Hnd))).
Defined.
