(* ===== verification/Typing.v ===== *)
(** Typing: from the keyboard to the screen.  The parts that a key goes through, put together: the ring
    of the keyboard's endpoint and the handler of its events ([Reports]), the callback of the kernel
    ([Kernel], [Callbacks]) and the console on the screen that it shares with the layers ([Graphics]). *)
From S2P Require Import Prelude Allocator BitField Trb CycleRing.
From S2P Require Import Rings.
From S2P Require Import ReportRing.
From S2P Require Import EventRing.
From S2P Require Import Descriptor UsbHost InputDriver Hub ClassDrivers.
From S2P Require Import Log.
From S2P Require Import Pixels.
From S2P Require Import Console.
From S2P Require Import Layer.
From S2P Require Import Graphics.
From S2P Require Import Lifegame.
From S2P Require Import Executor.
From S2P Require Import LifeTask.
From S2P Require Import Callbacks.
From S2P Require Import Port.
From S2P Require Import EndpointId.
From S2P Require Import Xhc.
From S2P Require Import Device.
From S2P Require Import DeviceInit.
From S2P Require Import DeviceManager.
From S2P Require Import Controller.
From S2P Require Import XhcSim.
From S2P Require Import Reports.
From S2P Require Import Kernel.

(** The text of a report of the boot protocol, and of several. *)
Definition report_text (l : list Z) : list Z :=
  match l with
  | modifiers :: keys => typed (Z.testbit modifiers 1 || Z.testbit modifiers 5) keys
  | [] => []
  end.
Definition reports_text (ls : list (list Z)) : list Z := concat (report_text <$> ls).

(** The keys of the tables. *)
Definition known_keys (l : list Z) : Prop := Forall (fun k => 0 <= k < 144) (drop 1 l).

Section typing.
Context `{Log.SerialPort SP} (FONT : list (list Z)).

(** The console shows the terminal [t] with the text of the reports typed on it, and each space has
    stopped the game or let it go on. *)
Record types_on (t : Terminal) (running : bool) (ls : list (list Z)) (s : Statics (SP := SP)) : Prop := {
  to_console : output_shows (st_output s) (term_puts N_WRITEABLE_LINE N_CHAR_PER_LINE t (reports_text ls));
  to_layers : is_Some (o_layers (st_output s));
  to_running : st_running s = xorb running (Nat.odd (spaces (reports_text ls)));
}.

Lemma reports_text_snoc ls l : reports_text (ls ++ [l]) = reports_text ls ++ report_text l.
Proof. unfold reports_text. rewrite fmap_app, concat_app. simpl. by rewrite app_nil_r. Qed.

Lemma spaces_app a b : spaces (a ++ b) = (spaces a + spaces b)%nat.
Proof. unfold spaces. by rewrite filter_app, length_app. Qed.

Context (Hfont : Forall (fun glyph => length glyph = 16%nat) FONT).

(** A report of the keyboard. *)
Lemma keyboard_reports t running ls s l address : types_on t running ls s -> known_keys l -> length l = 8%nat ->
  exists s', keyboard FONT s address l = Ret s' /\ types_on t running (ls ++ [l]) s'.
Proof.
  intros [(w & Hw & Hshows) [lm Hlm] Hrun] Hkeys Hlen. destruct l as [|modifiers keys]; [done|].
  unfold keyboard, desktop, current_writer, current_layers. rewrite Hw, Hlm.
  cbn [fmap option_fmap option_map unwrap mbind outcome_bind].
  unfold keyboard_callback. cbn [desk_world desk_console lookup list_lookup unwrap mbind outcome_bind].
  rewrite shift_mask. set (shifted := _ || _). change (drop 1 (modifiers :: keys)) with keys.
  apply (shows_memory w _ (o_memory (st_output s))) in Hshows.
  destruct (type_keys_shows FONT N_WRITEABLE_LINE N_CHAR_PER_LINE Hfont eq_refl eq_refl eq_refl eq_refl
    shifted keys (st_running s) _ _ Hkeys Hshows) as (w' & Hty & Hshows').
  cbn [w_running]. rewrite Hty. cbn [mbind outcome_bind]. eexists. split; [reflexivity|]. split.
  - eexists. split; [reflexivity|]. rewrite reports_text_snoc. unfold term_puts in *. by rewrite foldl_app.
  - by eexists.
  - simpl. rewrite Hrun, reports_text_snoc, spaces_app, Nat.odd_add, xorb_assoc. done.
Qed.

(** ** What types nothing *)

Lemma mouse_types_nothing t running ls s address l : types_on t running ls s ->
  post (mouse s address l) (types_on t running ls).
Proof.
  intros [Hc [lm Hlm] Hr] s' Hrun. unfold mouse in Hrun.
  apply bind_Ret_inv in Hrun as (d & Hd & Hrun). apply bind_Ret_inv in Hrun as (d' & Hm & [= <-]).
  unfold mouse_callback in Hm. do 5 apply bind_Ret_inv in Hm as (? & _ & Hm). injection Hm as <-.
  unfold desktop in Hd. do 2 apply bind_Ret_inv in Hd as (? & _ & Hd). injection Hd as <-.
  split; [exact Hc|by eexists|exact Hr].
Qed.

Lemma flush_types_nothing t running ls s : types_on t running ls s ->
  post (flush_screen s) (types_on t running ls).
Proof.
  intros [Hc Hl Hr] s' Hrun. unfold flush_screen, flush_layers in Hrun.
  apply bind_Ret_inv in Hrun as (o & Ho & [= <-]). do 2 apply bind_Ret_inv in Ho as (? & _ & Ho).
  injection Ho as <-. split; [exact Hc|by eexists|exact Hr].
Qed.

(** A turn of the game. *)
Lemma life_keeps_running format f w : post (poll (Future := life_future format) f w)
  (fun '(_, w', _) => w_running w' = w_running w).
Proof.
  unfold poll, life_future, poll_click.
  repeat first [by apply post_ret | eapply post_bind; [apply post_any|]; intros ? _; cbv beta | case_match].
Qed.

Lemma game_types_nothing t running ls s d format f : types_on t running ls s -> desktop s = Ret d ->
  post (poll (Future := life_future format) f (desk_world d))
    (fun '(_, w, _) => types_on t running ls (put_world w s)).
Proof.
  intros [Hc Hl Hr] Hd [[f' w] r] Hp%life_keeps_running. unfold desktop in Hd.
  do 2 apply bind_Ret_inv in Hd as (? & _ & Hd). injection Hd as <-.
  split; [exact Hc|by eexists|]. simpl in *. by rewrite Hp.
Qed.

End typing.

(** * The way of the keys *)

Section keyboard.
Context `{TL : TrbLib Cmd} `{!TrbLaws Cmd} `{BFL : BitFieldLaws} `{ET : EventTypes} `{EL : @EventLib ET}
  `{XT : XhciTrbs Cmd} {HW : Type} `{XH : @XhcHw HW ET EL} `{CX : ContextLib} `{UH : UsbHostLib}
  `{SE : Log.SerialPort SP}.
Context (put_bytes : Z -> list Z -> HW -> HW) `{RL : !ReportLaws Cmd HW put_bytes} (FONT : list (list Z)).

Abbreviation controller := (XhciController (HW := HW) (C := Statics (SP := SP))).

(** What changes nothing but the statics, and types nothing, is elsewhere: a turn of the game, a flush of
    the layers. *)
Lemma statics_elsewhere slot dci address ctx base size len bufs kind t running (c : controller) s :
  (forall ls, types_on t running ls (c_callbacks c) -> types_on t running ls s) ->
  leaves_alone slot dci address ctx base size len bufs kind (types_on t running) c
    (set_drivers c (class_driver_manager c) s).
Proof. intros Hs. by split. Qed.

(** C5: what is typed is on the screen.  At the endpoint of a running keyboard of the kernel, with a
    font of glyphs of 16 lines: after any run in which reports arrive whose keys are in the tables (codes
    below 144; another code is a panic, [high_key_panics]), the controller goes through its ring, events
    are handled and the rest of the kernel takes steps that type nothing and leave the endpoint alone,
    the console shows the terminal it showed at the start with the text of the handled reports typed on
    it, the game has been stopped and let go on once for each space, and the next event is handled
    without a panic. *)
Theorem typing_reaches_console slot dci allocator allocator' live rest base size d r (c : controller) t w :
  Forall (fun glyph => length glyph = 16%nat) FONT ->
  reports_started Keyboard slot dci allocator allocator' live rest base size d r c ->
  types_on t (st_running (c_callbacks c)) [] (c_callbacks c) ->
  rtc (endpoint_step put_bytes mouse (keyboard FONT) slot dci d r Keyboard (fun _ => known_keys)
    (types_on t (st_running (c_callbacks c))) c) (mkWorld c (0%nat, true) [] []) w ->
  let text := reports_text (take (length (w_sent w) - length (w_events w)) (w_sent w)) in
  let s := c_callbacks (w_driver w) in
  output_shows (st_output s) (term_puts N_WRITEABLE_LINE N_CHAR_PER_LINE t text) /\
  st_running s = xorb (st_running (c_callbacks c)) (Nat.odd (spaces text)) /\
  (forall e es, w_events w = e :: es -> exists c',
     process_transfer_event mouse (keyboard FONT) e (w_driver w) = Ret c').
Proof.
  intros Hfont Hs Htypes Hrun text s.
  assert (Hcb : forall (st : Statics (SP := SP)) ls l, types_on t (st_running (c_callbacks c)) ls st -> known_keys l ->
    length l = report_len Keyboard -> exists st', keyboard FONT st (device_address d (c_x c)) l = Ret st' /\
      types_on t (st_running (c_callbacks c)) (ls ++ [l]) st')
    by (intros; by apply keyboard_reports).
  destruct (started_run put_bytes _ _ _ _ _ _ _ _ _ _ _ _ _ _ _ _ _ Hs Htypes Hcb Hrun)
    as (bufs & d' & r' & g & -> & Hbufs & Hlay & Hco).
  destruct (consistent_observed put_bytes mouse (keyboard FONT) slot dci _ _ base bufs Keyboard (fun _ => known_keys) _
    rest (rs_dci _ _ _ _ _ _ _ _ _ _ _ _ Hs) Hbufs Hlay Hcb _ _ _ _ Hco) as ([Hc _ Hr] & Hnext & _).
  by split_and!.
Qed.

End keyboard.

(** * Witness: shift and [h] *)

Module TypingExamples.
Import GraphicsExamples.

Definition statics : Statics (SP := GraphicsExamples.Port) := mkStatics output [] true 0.
Definition key_h : list Z := [2; 0; 11; 0; 0; 0; 0; 0].

(** The report has arrived. *)
Definition pressed : XhciController (HW := Desk.DeskHw) (C := Statics (SP := GraphicsExamples.Port)) :=
  Desk.after_report 0x3000 key_h (Desk.at_work statics).

Lemma statics_type_nothing : types_on term_new true [] statics.
Proof. split; [exact output_fresh|by eexists|done]. Qed.
End TypingExamples.

#[local] Existing Instance bit_field_ref.

Lemma typing_reaches_console_witness : exists c,
  process_transfer_event mouse (keyboard GraphicsExamples.font)
    (Desk.report_event 0x2000) TypingExamples.pressed = Ret c /\
  output_shows (st_output (c_callbacks c)) (term_puts 25 80 term_new [72]) /\
  st_running (c_callbacks c) = true.
Proof.
  pose proof (typing_reaches_console Desk.put GraphicsExamples.font 1 3 Desk.heap
    Desk.heap_after Desk.live [] 0x2000 3 Desk.device Desk.filled (Desk.at_work TypingExamples.statics) term_new)
    as Htyping.
  assert (Forall (fun glyph => length glyph = 16%nat) GraphicsExamples.font) as Hfont by (by apply Forall_replicate).
  assert (Harrive : endpoint_step Desk.put mouse (keyboard GraphicsExamples.font) 1 3 Desk.device Desk.filled
    Keyboard (fun _ => known_keys) (types_on term_new true) (Desk.at_work TypingExamples.statics)
    (mkWorld (Desk.at_work TypingExamples.statics) (0%nat, true) [] [])
    (mkWorld TypingExamples.pressed (1%nat, true) [Desk.report_event 0x2000] [TypingExamples.key_h])).
  { eapply (report_arrives _ _ _ _ _ _ _ _ _ _ _ _ _ _ _ [] [] _ (1%nat, true) 0x3000 8 true
      TypingExamples.key_h (Desk.report_event 0x2000)); [vm_compute; reflexivity..| |].
    - repeat constructor; lia.
    - split_and!; [reflexivity..|by left]. }
  destruct (Htyping _ Hfont (Desk.at_work_started _) TypingExamples.statics_type_nothing
    (rtc_once _ _ Harrive)) as (_ & _ & Hnext).
  destruct (Hnext _ _ eq_refl) as (c & Hc). exists c. split; [exact Hc|].
  destruct (Htyping _ Hfont (Desk.at_work_started _) TypingExamples.statics_type_nothing
    (rtc_l _ _ _ _ Harrive (rtc_once _ _ (report_handled _ _ _ _ _ _ _ _ _ _ _ _ _ _ _ _ _ _ c Hc))))
    as (Hshow & Hrun & _).
  split; [exact Hshow|exact Hrun].
Defined.
