(* ===== verification/Clicking.v ===== *)
(** Clicking: from the mouse to the board.  The parts that a click goes through, put together: the ring
    of the mouse's endpoint and the handler of its events ([Reports]), the callback of the kernel
    ([Kernel], [Callbacks]), the queue of clicks and the task of the game ([LifeTask], [Lifegame]). *)
From S2P Require Import Prelude Allocator BitField Trb CycleRing.
From S2P Require Import Rings.
From S2P Require Import ReportRing.
From S2P Require Import EventRing.
From S2P Require Import Descriptor UsbHost InputDriver Hub ClassDrivers.
From S2P Require Import Loader Log.
From S2P Require Import Pixels.
From S2P Require Import Console.
From S2P Require Import Layer.
From S2P Require Import Graphics.
From S2P Require Import Lifegame.
From S2P Require Import Executor.
From S2P Require Import LifeTask.
From S2P Require Import Callbacks.
From S2P Require Import Port.
From S2P Require Import EndpointId.
From S2P Require Import Xhc.
From S2P Require Import Device.
From S2P Require Import DeviceInit.
From S2P Require Import DeviceManager.
From S2P Require Import Controller.
From S2P Require Import CallbackInv.
From S2P Require Import XhcSim.
From S2P Require Import Reports.
From S2P Require Import Kernel.
From S2P Require Import KernelInv.

(** * The play *)

(** What the turns of the game do to its board: a round of clicks, or a generation. *)
Inductive Act := Clicked (cells : list (Z * Z)) | Generation.

Definition clicked_cells (acts : list Act) : list (Z * Z) :=
  concat ((fun a => match a with Clicked cells => cells | Generation => [] end) <$> acts).

(** The acts of the next turn. *)
Definition next_acts (f : LifeFuture) (w : LifeTask.World) : list Act :=
  match point f with
  | NotPolled | Drawn => [Clicked (w_clicks w)]
  | Clicking rounds => if rounds <? CLICK_ROUNDS then [Clicked (w_clicks w)] else []
  | Flushed => if w_running w then [Generation] else []
  end.

(** The board, also before the game's first turn. *)
Definition game_board (f : LifeFuture) : Board :=
  match point f with NotPolled => start_board | _ => board f end.

(** A sequence of acts: clicked cells (column and row) come to life, a generation follows the rule. *)
Inductive plays (b : Board) : list Act -> Board -> Prop :=
  | plays_nothing : board_wf SIZE b -> plays b [] b
  | plays_clicks acts b1 cells b2 : plays b acts b1 -> board_wf SIZE b2 ->
      (forall i j, live b2 i j = true <-> live b1 i j = true \/ (j, i) ∈ cells) ->
      plays b (acts ++ [Clicked cells]) b2
  | plays_generation acts b1 b2 : plays b acts b1 -> board_wf SIZE b2 ->
      (forall i j, in_board SIZE i j -> live b2 i j = lives_next b1 i j) ->
      plays b (acts ++ [Generation]) b2.

Lemma plays_wf b acts b' : plays b acts b' -> board_wf SIZE b'.
Proof. by destruct 1. Qed.

Lemma plays_app b acts b1 acts' b2 : plays b acts b1 -> plays b1 acts' b2 -> plays b (acts ++ acts') b2.
Proof.
  intros H1 H2. induction H2; [by rewrite app_nil_r|..]; rewrite app_assoc; by econstructor.
Qed.

Lemma clicked_cells_app a b : clicked_cells (a ++ b) = clicked_cells a ++ clicked_cells b.
Proof. unfold clicked_cells. by rewrite fmap_app, concat_app. Qed.

Lemma clicked_cells_one cells : clicked_cells [Clicked cells] = cells.
Proof. apply app_nil_r. Qed.

(** ** A turn of the game *)

(** The layers stay where they are; new ones have new ids. *)
Definition stay (lm lm' : LayerManager) : Prop :=
  forall id win, layers lm !! id = Some win -> 0 <= id < latest_unused_id lm ->
    exists win', layers lm' !! id = Some win' /\ win_position win' = win_position win /\
      0 <= id < latest_unused_id lm'.

Lemma stay_refl lm : stay lm lm.
Proof. by intros id win Hid Hl; exists win. Qed.

Lemma stay_trans lm1 lm2 lm3 : stay lm1 lm2 -> stay lm2 lm3 -> stay lm1 lm3.
Proof.
  intros H12 H23 id win Hid Hl. destruct (H12 id win Hid Hl) as (w2 & Hid2 & <- & Hl2). by apply H23.
Qed.

Lemma draw_board_stays lm id b : post (draw_board lm id b) (stay lm).
Proof.
  intros lm' Hr. unfold draw_board in Hr. apply bind_Ret_inv in Hr as (w & Hw%unwrap_Ret_inv & Hr).
  apply bind_Ret_inv in Hr as (w' & Hd & [= <-]).
  assert (win_position w' = win_position w) as Hpos.
  { refine (render_board_keeps (fun v => win_position v = win_position w) _ _ _ _ _ _ _ eq_refl Hd).
    intros v x y c v' Hv Hwrite. apply window_write_frame in Hwrite as [-> _]. exact Hv. }
  intros i win Hi Hl. simpl. destruct (decide (i = id)) as [->|Hne].
  - exists w'. rewrite lookup_insert_eq. by simplify_eq.
  - exists win. by rewrite lookup_insert_ne.
Qed.

Lemma start_life_stays lm format : post (start_life lm format) (fun '(lm', _) => stay lm lm').
Proof.
  intros [lm' id'] Hr. unfold start_life in Hr. do 2 apply bind_Ret_inv in Hr as (? & _ & Hr).
  unfold new_layer in Hr. apply bind_Ret_inv in Hr as ([] & Hlt%assert_Ret_inv%Z.ltb_lt & [= <- <-]).
  unfold uninitialized_id in Hlt. intros i win Hi Hl. simpl. exists win.
  rewrite lookup_insert_ne by lia. rewrite Z.mod_small by lia. split_and!; (done || lia).
Qed.

Lemma poll_click_plays id b rounds w : board_wf SIZE b -> Forall (fun c => in_board SIZE c.2 c.1) (w_clicks w) ->
  post (poll_click id b rounds w) (fun '(f, w', _) =>
    point f = Clicking rounds /\ plays b [Clicked (w_clicks w)] (board f) /\ w_clicks w' = [] /\
    w_running w' = w_running w /\ stay (w_layers w) (w_layers w')).
Proof.
  intros Hb Hc. unfold poll_click, click_round. cbn [life_board click_queue life_layers].
  destruct (apply_clicks_live _ _ Hb Hc) as (b' & -> & Hb' & Hlive). cbn [mbind outcome_bind].
  eapply (post_bind _ _ (fun s => life_board s = b' /\ click_queue s = [] /\ stay (w_layers w) (life_layers s))).
  - eapply (post_bind _ _ (stay (w_layers w))); [|intros lm Hlm; by apply post_ret].
    destruct (w_clicks w); [apply post_ret, stay_refl|apply draw_board_stays].
  - intros s (<- & Hq & Hs). apply post_ret. split_and!; [done| |done..].
    apply (plays_clicks b [] b); [by constructor|done..].
Qed.

(** A turn makes its acts on the board, takes the clicks of them from the queue, all at once, and moves no layer. *)
Lemma game_turn_plays format f w : board_wf SIZE (game_board f) ->
  Forall (fun c => in_board SIZE c.2 c.1) (w_clicks w) ->
  post (poll (Future := life_future format) f w) (fun '(f', w', _) =>
    plays (game_board f) (next_acts f w) (game_board f') /\
    w_clicks w = clicked_cells (next_acts f w) ++ w_clicks w' /\
    w_running w' = w_running w /\ stay (w_layers w) (w_layers w')).
Proof.
  intros Hb Hc. unfold poll, life_future, next_acts, game_board in *. destruct f as [[|rounds| |] id b]; simpl in *.
  - eapply post_bind; [apply start_life_stays|]. intros [lm id'] Hlm.
    eapply post_mono; [by apply poll_click_plays|]. intros [[f' w'] r] (-> & Hp & Hq & Hr & Hs).
    simpl in *. rewrite Hq, app_nil_r, clicked_cells_one. split_and!; [done..|by eapply stay_trans].
  - destruct (rounds <? CLICK_ROUNDS).
    + eapply post_mono; [by apply poll_click_plays|]. intros [[f' w'] r] (-> & Hp & Hq & Hr & Hs).
      by rewrite Hq, app_nil_r, clicked_cells_one.
    + unfold flush_round, lm_flush. cbn [life_layers life_board click_queue]. intros [[f' w'] r] Hr.
      apply bind_Ret_inv in Hr as (x & Hx & [= <- <- <-]). apply bind_Ret_inv in Hx as (lm & Hlm & [= <-]).
      apply bind_Ret_inv in Hlm as (fb & _ & [= <-]). split_and!; [by constructor|done..|].
      intros i win Hi Hl. by exists win.
  - unfold process_round. cbn [life_layers life_board click_queue].
    eapply (post_bind _ _ (fun s => plays b (if w_running w then [Generation] else []) (life_board s) /\
      click_queue s = w_clicks w /\ stay (w_layers w) (life_layers s))).
    + eapply (post_bind _ _ (plays b (if w_running w then [Generation] else []))).
      * destruct (w_running w); [|by apply post_ret; constructor]. intros b' Hr.
        destruct (process_live SIZE b ltac:(done) Hb) as (b1 & Hr1 & Hb1 & Hlive). rewrite Hr in Hr1.
        injection Hr1 as <-. apply (plays_generation b [] b); [by constructor|done..].
      * intros b' Hp. eapply post_bind; [apply draw_board_stays|]. intros lm Hlm. by apply post_ret.
    + intros s (Hp & Hq & Hs). apply post_ret. rewrite Hq. split_and!; [done| |done..].
      by destruct (w_running w).
  - eapply post_mono; [by apply poll_click_plays|]. intros [[f' w'] r] (-> & Hp & Hq & Hr & Hs).
    by rewrite Hq, app_nil_r, clicked_cells_one.
Qed.

(** * The mouse *)

(** Where a report moves the cursor, and the cell that it clicks on. *)
Definition moved (p : Position) (l : list Z) : Position :=
  match l with
  | [_; dx; dy] => mkPosition (Z.max 0 (pos_x p + as_i8 dx)) (Z.max 0 (pos_y p + as_i8 dy))
  | _ => p
  end.
Definition clicked (p : Position) (l : list Z) : list (Z * Z) :=
  match l with
  | buttons :: _ => if Z.land buttons 1 =? 0 then [] else option_list (cell_at p)
  | [] => []
  end.

(** Of several reports, when the cursor is at [p]. *)
Definition cursor_after (p : Position) (ls : list (list Z)) : Position := foldl moved p ls.
Fixpoint clicks_made (p : Position) (ls : list (list Z)) : list (Z * Z) :=
  match ls with [] => [] | l :: ls => clicked p l ++ clicks_made (moved p l) ls end.

(** A report of bytes; the mouse has not sent so many that the cursor's position overflows. *)
Definition mouse_report (sent : list (list Z)) (l : list Z) : Prop :=
  Forall in_u8 l /\ Z.of_nat (length sent) < 2 ^ 54.

Definition position_below (n : Z) (p : Position) : Prop := 0 <= pos_x p < n /\ 0 <= pos_y p < n.

Lemma clicks_made_snoc ls l : forall p,
  clicks_made p (ls ++ [l]) = clicks_made p ls ++ clicked (cursor_after p ls) l.
Proof.
  induction ls as [|l' ls IH]; intros p; simpl; [by rewrite app_nil_r|]. by rewrite IH, app_assoc.
Qed.

Lemma moved_below n p l : Forall in_u8 l -> position_below n p -> position_below (n + 128) (moved p l).
Proof.
  intros Hl [Hx Hy]. unfold moved. destruct l as [|b [|dx [|dy [|]]]]; try (split; lia).
  apply Forall_cons in Hl as [_ [Hdx [Hdy _]%Forall_cons]%Forall_cons].
  pose proof (as_i8_range dx Hdx). pose proof (as_i8_range dy Hdy). split; simpl; lia.
Qed.

Lemma cell_at_in p c : 0 <= pos_x p -> 0 <= pos_y p -> cell_at p = Some c -> in_board SIZE c.2 c.1.
Proof.
  intros Hx Hy. unfold cell_at. cbv zeta. case_decide as Hlt; [|done]. intros [= <-]. unfold PIXCEL_SIZE in *.
  split; simpl; Z.to_euclidean_division_equations; lia.
Qed.

Lemma clicks_made_in ls : forall n p, position_below n p -> Forall (Forall in_u8) ls ->
  Forall (fun c => in_board SIZE c.2 c.1) (clicks_made p ls).
Proof.
  induction ls as [|l ls IH]; intros n p Hp Hls; simpl; [constructor|].
  apply Forall_cons in Hls as [Hl Hls]. apply Forall_app. split; [|by eapply IH, Hls; apply moved_below].
  unfold clicked. destruct l; [constructor|]. case_match; [constructor|].
  destruct (cell_at p) eqn:Hc; simpl; [|constructor]. constructor; [|constructor].
  destruct Hp as [[Hx _] [Hy _]]. by eapply cell_at_in.
Qed.

Section clicking.
Context `{Log.SerialPort SP}.

(** The cursor has gone from [p] where the reports move it, its layer is not the newest to come, and the
    clicks that were made are the [taken] ones and those that wait. *)
Record clicks_on (p : Position) (taken : list (Z * Z)) (ls : list (list Z)) (s : Statics (SP := SP)) : Prop := {
  on_cursor : exists lm win, o_layers (st_output s) = Some lm /\ layers lm !! st_mouse_layer s = Some win /\
    win_position win = cursor_after p ls /\ 0 <= st_mouse_layer s < latest_unused_id lm;
  on_clicks : clicks_made p ls = taken ++ st_clicks s;
  on_bytes : Forall (Forall in_u8) ls;
  on_console : is_Some (o_writer (st_output s));
}.

(** A report of the mouse. *)
Lemma mouse_reports p taken ls s l address : position_below (2 ^ 61) p -> clicks_on p taken ls s ->
  mouse_report ls l -> length l = 3%nat ->
  exists s', mouse s address l = Ret s' /\ clicks_on p taken (ls ++ [l]) s'.
Proof.
  intros Hp [(lm & win & Hlm & Hwin & Hpos & Hid) Hcl Hby [w Hw]] [Hl Hmany] Hlen.
  destruct l as [|b [|dx [|dy [|]]]]; try done.
  assert (position_below (2 ^ 61 + 128 * Z.of_nat (length ls)) (win_position win)) as [Hx Hy].
  { rewrite Hpos. clear -Hp Hby. induction ls as [|l ls IH] using rev_ind; simpl; [by rewrite Z.add_0_r|].
    apply Forall_app in Hby as [Hls [Hl _]%Forall_cons]. unfold cursor_after. rewrite foldl_app, length_app. simpl.
    replace (2 ^ 61 + 128 * Z.of_nat (length ls + 1)) with (2 ^ 61 + 128 * Z.of_nat (length ls) + 128) by lia.
    by apply moved_below, IH. }
  unfold mouse, desktop, current_writer, current_layers. rewrite Hw, Hlm.
  cbn [fmap option_fmap option_map unwrap mbind outcome_bind].
  apply Forall_cons in Hl as Hd. destruct Hd as [_ [Hdx [Hdy _]%Forall_cons]%Forall_cons].
  rewrite (mouse_moves _ address b dx dy win); [|by rewrite <- Hwin|lia|lia|done|done].
  cbn [mbind outcome_bind]. eexists. split; [reflexivity|]. split; simpl.
  - eexists _, _. split; [done|]. split; [apply lookup_insert_eq|]. split; [|exact Hid].
    unfold cursor_after in *. rewrite foldl_app. simpl. by rewrite <- Hpos.
  - rewrite clicks_made_snoc, Hcl, Hpos, <- app_assoc. done.
  - apply Forall_app. split; [done|]. by constructor.
  - by eexists.
Qed.

(** A turn of the game takes clicks. *)
Lemma game_takes_clicks p taken ls s d format f : position_below (2 ^ 61) p -> clicks_on p taken ls s ->
  desktop s = Ret d -> board_wf SIZE (game_board f) ->
  post (poll (Future := life_future format) f (desk_world d)) (fun '(f', w, _) =>
    plays (game_board f) (next_acts f (desk_world d)) (game_board f') /\
    clicks_on p (taken ++ clicked_cells (next_acts f (desk_world d))) ls (put_world w s)).
Proof.
  intros Hp [(lm & win & Hlm & Hwin & Hpos & Hid) Hcl Hby [wr Hw]] Hd Hb.
  unfold desktop, current_writer, current_layers in Hd. rewrite Hw, Hlm in Hd.
  cbn [fmap option_fmap option_map unwrap mbind outcome_bind] in Hd. injection Hd as <-.
  assert (Forall (fun c => in_board SIZE c.2 c.1) (st_clicks s)) as Hc.
  { pose proof (clicks_made_in ls _ p Hp Hby) as Hall. rewrite Hcl in Hall. by apply Forall_app in Hall as [_ ?]. }
  eapply post_mono; [by apply game_turn_plays|]. intros [[f' w] r] (Hplay & Hq & _ & Hs).
  split; [exact Hplay|]. simpl in Hq, Hs. destruct (Hs _ _ Hwin Hid) as (win' & Hwin' & Hpos' & Hid').
  split; simpl; [|by rewrite Hcl, Hq, app_assoc at 1|done|by eexists].
  exists (w_layers w), win'. split; [done|]. split; [done|]. by rewrite Hpos'.
Qed.

End clicking.

(** * The mouse and the game *)

Section mouse_and_game.
Context `{TL : TrbLib Cmd} `{!TrbLaws Cmd} `{BFL : BitFieldLaws} `{ET : EventTypes} `{EL : @EventLib ET}
  `{XT : XhciTrbs Cmd} {HW : Type} `{XH : @XhcHw HW ET EL} `{CX : ContextLib} `{UH : UsbHostLib}
  `{SE : Log.SerialPort SP}.
Context (put_bytes : Z -> list Z -> HW -> HW) `{RL : !ReportLaws Cmd HW put_bytes} (FONT : list (list Z))
  (format : PixcelFormat).

Abbreviation controller := (XhciController (HW := HW) (C := Statics (SP := SP))).

(** The endpoint of the mouse, the game, and what the game has done so far. *)
Record Play := mkPlay {
  p_world : Reports.World (HW := HW) (C := Statics (SP := SP));
  p_game : GameFuture;
  p_acts : list Act;
}.

(** A step at the endpoint, or of the rest of the kernel, that does not move the cursor and leaves the
    clicks; a turn of the game. *)
Inductive play_step (slot dci : Z) (d : DeviceContextInfo) (r : TransferRing) (p : Position) (c : controller) :
    Play -> Play -> Prop :=
  | play_endpoint w w' g acts :
      (forall taken, endpoint_step put_bytes mouse (keyboard FONT) slot dci d r Mouse mouse_report
         (clicks_on p taken) c w w') ->
      play_step slot dci d r p c (mkPlay w g acts) (mkPlay w' g acts)
  | play_turn w g acts g' c' res desk :
      desktop (c_callbacks (w_driver w)) = Ret desk ->
      poll (Future := game_future format) g (w_driver w) = Ret (g', c', res) ->
      play_step slot dci d r p c (mkPlay w g acts)
        (mkPlay (mkWorld c' (w_next w) (w_events w) (w_sent w)) g' (acts ++ next_acts (game g) (desk_world desk))).

(** New statics that another account is true of. *)
Lemma consistent_account slot dci address ctx base bufs kind valid A A' w d r g (s : Statics (SP := SP)) :
  consistent slot dci address ctx base bufs kind valid A w d r g ->
  (forall ls, A ls (c_callbacks (w_driver w)) -> A' ls s) ->
  consistent slot dci address ctx base bufs kind valid A'
    (mkWorld (set_drivers (w_driver w) (class_driver_manager (w_driver w)) s) (w_next w) (w_events w) (w_sent w))
    d r g.
Proof. intros [? ? ? ? ? ? ? ? ? ? ? ?] Ha. split; try done. by apply Ha. Qed.

Section run.
Context (slot dci : Z) (rest : list (Z * Z)) (d : DeviceContextInfo) (r : TransferRing) (p : Position)
  (c : controller) (b0 : Board).
Abbreviation bufs := (ring_buffers r).
Context (Hdci : dci < 32) (Hp : position_below (2 ^ 61) p) (Hsize : length (tr_buffer r) = S (length bufs))
  (Hbufs : Forall in_usize bufs)
  (Hlay : pairwise_disjoint (((fun q => (q, Z.of_nat (report_len Mouse))) <$> bufs) ++
    (tr_base r, TRB_SIZE * Z.of_nat (S (length bufs))) :: (device_context_ptr d, DEVICE_CONTEXT_SIZE) :: rest)).

(** The endpoint is consistent, the clicks on the board are the taken ones. *)
Definition in_play (x : Play) : Prop :=
  (exists d' r' g, consistent slot dci (device_address d (c_x c)) (device_context_ptr d) (tr_base r) bufs
     Mouse mouse_report (clicks_on p (clicked_cells (p_acts x))) (p_world x) d' r' g) /\
  plays b0 (p_acts x) (game_board (game (p_game x))).

Lemma mouse_accounts taken (st : Statics (SP := SP)) ls l :
  clicks_on p taken ls st -> mouse_report ls l -> length l = report_len Mouse ->
  exists st', mouse st (device_address d (c_x c)) l = Ret st' /\ clicks_on p taken (ls ++ [l]) st'.
Proof. intros. by apply mouse_reports. Qed.

Lemma play_step_in_play x x' : in_play x -> play_step slot dci d r p c x x' -> in_play x'.
Proof.
  intros [Hco Hplays] Hstep. destruct Hstep as [w w' g acts Hstep|w g acts g' c' res desk Hd Hpoll].
  - split; [|exact Hplays]. specialize (Hstep (clicked_cells acts)). rewrite Hsize in Hstep.
    exact (step_consistent put_bytes mouse (keyboard FONT) slot dci _ _ _ bufs Mouse mouse_report _ rest
      Hdci Hbufs Hlay (mouse_accounts _) _ _ Hco Hstep).
  - destruct Hco as (d' & r' & n & Hco). simpl in Hco, Hplays. unfold poll, game_future in Hpoll.
    rewrite Hd in Hpoll. cbn [mbind outcome_bind] in Hpoll.
    apply bind_Ret_inv in Hpoll as ([[f w1] res1] & Hpoll & [= <- <- <-]).
    pose proof (game_takes_clicks p (clicked_cells acts) _ _ desk format (game g) Hp (co_account _ _ _ _ _ _ _ _ _ _ _ _ _ Hco) Hd
      (plays_wf _ _ _ Hplays) _ Hpoll) as [Hplay _].
    split; [|by eapply plays_app]. exists d', r', n. simpl. eapply consistent_account; [exact Hco|].
    intros ls Hls. rewrite clicked_cells_app.
    by destruct (game_takes_clicks p (clicked_cells acts) ls _ desk format (game g) Hp Hls Hd
      (plays_wf _ _ _ Hplays) _ Hpoll).
Qed.
End run.

(** C6: a click reaches the board, once and in its order.  At the endpoint of a running mouse of the
    kernel, with the game beside it: after any run of reports, handled events, turns of the game, and
    steps of the rest of the kernel that do not move the cursor and leave the clicks, the cursor is
    where the handled reports have moved it; the cells that were under it when the left button was down
    are those that the game has put on its board followed by those that wait; the board is what the
    clicks and the generations, one after the other, make of the first one; and the next event is
    handled without a panic. *)
Theorem clicking_reaches_board slot dci allocator allocator' live rest base size d r (c : controller) p g0 x :
  reports_started Mouse slot dci allocator allocator' live rest base size d r c ->
  position_below (2 ^ 61) p -> clicks_on p [] [] (c_callbacks c) -> board_wf SIZE (game_board (game g0)) ->
  rtc (play_step slot dci d r p c) (mkPlay (mkWorld c (0%nat, true) [] []) g0 []) x ->
  let w := p_world x in
  let handled := take (length (w_sent w) - length (w_events w)) (w_sent w) in
  let s := c_callbacks (w_driver w) in
  (exists lm win, o_layers (st_output s) = Some lm /\ layers lm !! st_mouse_layer s = Some win /\
     win_position win = cursor_after p handled) /\
  clicks_made p handled = clicked_cells (p_acts x) ++ st_clicks s /\
  plays (game_board (game g0)) (p_acts x) (game_board (game (p_game x))) /\
  (forall e es, w_events w = e :: es -> exists c',
     process_transfer_event mouse (keyboard FONT) e (w_driver w) = Ret c').
Proof.
  intros Hs Hp Hstart Hb Hrun w handled s. pose proof (rs_dci _ _ _ _ _ _ _ _ _ _ _ _ Hs) as Hdci.
  destruct (started_consistent put_bytes _ _ _ _ _ _ _ _ _ _ _ _ mouse_report _ Hs Hstart)
    as (-> & Hsz & <- & Hbufs & Hlay & Hco).
  assert (in_play slot dci d r p c (game_board (game g0)) x) as [(d' & r' & n & Hx) Hplays].
  { refine (rtc_invariant _ (in_play slot dci d r p c _) _ _ _ _ Hrun).
    - intros x1 x2. by eapply play_step_in_play.
    - split; [exists d, r, 0%nat; exact Hco|by constructor]. }
  destruct (consistent_observed put_bytes mouse (keyboard FONT) slot dci _ _ _ _ Mouse mouse_report _
    rest Hdci Hbufs Hlay (mouse_accounts _ _ _ Hp _) _ _ _ _ Hx) as ([(lm & win & ? & ? & ? & _) Hcl _ _] & Hnext & _).
  split_and!; [by exists lm, win|done..].
Qed.

End mouse_and_game.

(** * Witness: a click in the corner *)

Module ClickingExamples.
#[local] Existing Instance bit_field_ref.

(** The desk of [Desk] with a mouse. *)
Definition filled : TransferRing :=
  match fill_with_normal normal Desk.heap Desk.empty_ring 3 with Ret (r, _) => r | _ => Desk.empty_ring end.
Definition device : DeviceContextInfo :=
  mkDeviceContext 1 0 0 None 0 input_32byte 0x1000 [None; None; Some filled].
Definition mouse_device : InputOnlyDevice :=
  mkDevice 5 (endpoint_new 5 0 0 Control DirIn 8) [] Running ep_for_mouse.
Definition manager : ClassDriverManager :=
  mkManager (mkDriverInfo (Some 1) (mkDriver [Some mouse_device] ep_for_mouse))
    (ClassDrivers.keyboard manager_new) (hub manager_new).

(** The statics after [start_mouse]. *)
Definition output : Output := GraphicsExamples.output.
Definition statics : Statics (SP := GraphicsExamples.Port) :=
  match start_mouse (mkGraphicsInfo 640 400 640 0x1000 Rgb) output with Ret s => s | _ => mkStatics output [] true 0 end.

Abbreviation desk := (XhciController (HW := Desk.DeskHw) (C := Statics (SP := GraphicsExamples.Port))).

Definition at_work : desk :=
  mkController
    (mkXhc (Desk.mkDesk (Desk.write_at TRB_SIZE 0x2000 (tr_buffer filled) (fun _ => zero_trb)) (fun _ => 0) [])
      (mkEventRing (0, 0) [] (Erst.mkErst 0 0 0 0) true 0) (mkCommandRing 0 [] 0 true)
      UserEvents.new Desk.heap)
    (mkDeviceManager 0 [] [None; Some device]) manager statics 4 port_state_new ∅.

(** The left button is down, the mouse moves. *)
Definition click : list Z := [1; 35; 5].
Definition clicked_once : desk := Desk.after_report 0x3000 click at_work.
Definition handled_click : desk :=
  match process_transfer_event mouse (keyboard GraphicsExamples.font) (Desk.report_event 0x2000) clicked_once with
  | Ret c => c | _ => at_work end.

Definition new_game : GameFuture := mkGame (mkLifeFuture NotPolled 0 []).

Lemma mouse_started : reports_started Mouse 1 3 Desk.heap (Bump.mkBump 0x1000 0x100000 0x4003 4) Desk.live [] 0x2000 3
  device filled at_work.
Proof.
  destruct (Desk.at_work_started tt) as [? ? ? ? _ ? ? _ _ _ _].
  split; [done|done|done|done|vm_compute; by split_and!|done|done|vm_compute; reflexivity| |by split| ].
  - intros i t Hi. by apply Desk.read_written.
  - split; [reflexivity|]. split; [done|]. exists mouse_device. by split.
Qed.

(** [init_mouse_cursor_layer] has put the cursor into the corner. *)
Definition in_corner (s : Statics (SP := GraphicsExamples.Port)) : bool :=
  match o_layers (st_output s), o_writer (st_output s), st_clicks s with
  | Some lm, Some _, [] =>
      match layers lm !! st_mouse_layer s with
      | Some w => (pos_x (win_position w) =? 0) && (pos_y (win_position w) =? 0) && (0 <=? st_mouse_layer s)
          && (st_mouse_layer s <? latest_unused_id lm)
      | None => false
      end
  | _, _, _ => false
  end.

Lemma in_corner_clicks s : in_corner s = true -> clicks_on (mkPosition 0 0) [] [] s.
Proof.
  unfold in_corner. intros Hc. destruct (o_layers (st_output s)) as [lm|] eqn:Hlm; [|done].
  destruct (o_writer (st_output s)) as [wr|] eqn:Hwr; [|done]. destruct (st_clicks s) eqn:Hcl; [|done].
  destruct (layers lm !! st_mouse_layer s) as [w|] eqn:Hw; [|done].
  apply andb_true_iff in Hc as [[[Hx%Z.eqb_eq Hy%Z.eqb_eq]%andb_true_iff Hge%Z.leb_le]%andb_true_iff Hlt%Z.ltb_lt].
  split; [|by rewrite Hcl|constructor|by eexists].
  exists lm, w. split_and!; try done. destruct (win_position w). by simpl in *; subst.
Qed.

Lemma cursor_in_corner : clicks_on (mkPosition 0 0) [] [] statics.
Proof. apply in_corner_clicks. vm_compute. reflexivity. Qed.

Lemma corner_below : position_below (2 ^ 61) (mkPosition 0 0).
Proof. unfold position_below. simpl. lia. Qed.

Lemma click_handled : process_transfer_event mouse (keyboard GraphicsExamples.font) (Desk.report_event 0x2000)
  clicked_once = Ret handled_click.
Proof.
  assert (match process_transfer_event mouse (keyboard GraphicsExamples.font) (Desk.report_event 0x2000)
    clicked_once with Ret _ => true | _ => false end = true) as Hret by (vm_compute; reflexivity).
  unfold handled_click. by destruct (process_transfer_event _ _ _ clicked_once).
Qed.

(** The statics are good ones, as in every state of the kernel. *)
Definition arg : KernelMainArg := mkArg (mkGraphicsInfo 640 400 640 0x1000 Rgb) 0.
Abbreviation good := (statics_ok GraphicsExamples.font (the_screen arg) None).

Lemma statics_good : good statics.
Proof.
  assert (match start_mouse (graphics_info arg) output with Ret _ => true | _ => false end = true) as Hret
    by (vm_compute; reflexivity).
  pose proof (start_mouse_ok (SP := GraphicsExamples.Port) GraphicsExamples.font arg output) as Hok.
  unfold statics. change (mkGraphicsInfo 640 400 640 0x1000 Rgb) with (graphics_info arg).
  destruct (start_mouse (graphics_info arg) output) as [s| |]; [|done..]. apply Hok; [|done].
  destruct GraphicsExamples.output_fresh as (w & Hw & Hshows). split.
  - eexists. split; [done|]. exists (the_screen arg). split; [apply same_screen_refl|done].
  - exists w. split; [exact Hw|]. intros _. by eexists.
Qed.

Lemma handled_good : good (c_callbacks handled_click).
Proof.
  eapply (transfer_event_keeps mouse (keyboard GraphicsExamples.font) good); [..|exact click_handled].
  - intros s a b Hs. by apply mouse_ok.
  - intros s a b Hs. by apply keyboard_ok.
  - exact statics_good.
Qed.

(** The first turn of the game takes the click. *)
Lemma game_starts : exists d g c r,
  desktop (c_callbacks handled_click) = Ret d /\
  poll (Future := game_future Rgb) new_game handled_click = Ret (g, c, r) /\ st_clicks (c_callbacks c) = [].
Proof.
  destruct (desktop_ok _ _ _ _ handled_good) as (d & Hd & Hworld & _).
  destruct (game_turn _ Rgb None (game new_game) (desk_world d) Hworld eq_refl) as (f & w & life & Hpoll & _).
  { by intros (? & ? & _). }
  exists d. eexists _, _, _. split; [exact Hd|].
  destruct (game_turn_plays Rgb (game new_game) (desk_world d) start_board_wf (proj2 Hworld) _ Hpoll)
    as (_ & Hclicks & _).
  split; [unfold poll, game_future; rewrite Hd; cbn [mbind outcome_bind]; by rewrite Hpoll|].
  change (w_clicks (desk_world d) = clicked_cells [Clicked (w_clicks (desk_world d))] ++ w_clicks w) in Hclicks.
  rewrite clicked_cells_one in Hclicks. apply (f_equal length) in Hclicks. rewrite length_app in Hclicks.
  apply length_zero_iff_nil. simpl. lia.
Qed.
End ClickingExamples.

#[local] Existing Instance bit_field_ref.

Lemma clicking_reaches_board_witness : exists acts b,
  clicked_cells acts = [(0, 0)] /\ plays start_board acts b.
Proof.
  destruct ClickingExamples.game_starts as (d & g & c & r & Hd & Hpoll & Hempty).
  destruct (clicking_reaches_board Desk.put GraphicsExamples.font Rgb 1 3 Desk.heap
    (Bump.mkBump 0x1000 0x100000 0x4003 4) Desk.live [] 0x2000 3 ClickingExamples.device ClickingExamples.filled
    ClickingExamples.at_work (mkPosition 0 0) ClickingExamples.new_game
    (mkPlay (mkWorld c (1%nat, true) [] [ClickingExamples.click]) g
       ([] ++ next_acts (game ClickingExamples.new_game) (desk_world d)))
    ClickingExamples.mouse_started ClickingExamples.corner_below ClickingExamples.cursor_in_corner start_board_wf)
    as (_ & Hclicks & Hplays & _).
  - eapply rtc_l; [apply play_endpoint; intros taken; eapply (report_arrives _ _ _ _ _ _ _ _ _ _ _ _ _ _ _ [] [] _
      (1%nat, true) 0x3000 3 true ClickingExamples.click (Desk.report_event 0x2000));
      [vm_compute; reflexivity..| |]|].
    + split; [repeat constructor; lia|done].
    + split_and!; [reflexivity..|by left].
    + eapply rtc_l; [apply play_endpoint; intros taken; apply report_handled; exact ClickingExamples.click_handled|].
      eapply rtc_once, play_turn; [exact Hd|exact Hpoll].
  - exists (next_acts (game ClickingExamples.new_game) (desk_world d)), (game_board (game g)). split; [|exact Hplays].
    cbn [p_world p_acts w_driver w_sent w_events] in Hclicks. rewrite Hempty, app_nil_r in Hclicks.
    etransitivity; [symmetry; exact Hclicks|]. vm_compute. reflexivity.
Defined.
